(* ===== verification/_CoqProject ===== *)
-Q . S2P
Prelude.v
Text.v
Logger.v
ByteOps.v
ByteIO.v
Rtp.v
RtpProofs.v
Crypto.v
StunPacket.v
Utils.v
Settings.v
SettingsProofs.v
StunParse.v
StunAuth.v
StunSerialize.v
StunRoundtrip.v
IceServer.v
Srtp.v
Dtls.v
Diagnostics.v
DtlsProofs.v
DtlsInit.v
DtlsInitProofs.v
WebRtc.v
WebRtcProofs.v
Sdp.v
Session.v
Locality.v
SessionProofs.v
Lifecycle.v
Net.v
Loops.v
LoopsProofs.v
Concurrency.v
ConcurrencyProofs.v
Startup.v
Packetizer.v
Http.v
Program.v
