(* ===== verification/Prelude.v ===== *)
(** * Verification of easy_webrtc_server

    The repository is a small WebRTC server in C++: a browser asks for a session
    over HTTP, sends STUN requests to a UDP port, completes a DTLS handshake, and
    then receives (or publishes) RTP protected by SRTP.  This library translates
    the C++ that carries that logic into executable definitions and proves what
    makes it correct.

    ** How C++ is modelled

    A call returns a value of [res] (this file): [Ok], undefined behaviour [UB]
    with its cause, a failed MS_ASSERT or MS_ABORT ([Aborted]), an exception
    ([Throw]), or [OutOfFuel] for a loop that was not given enough iterations.
    Buffers are lists of bytes in Z; reading or writing outside of one is
    [UB OutOfBounds].  Machine integers are Z with their wrap-around written out
    ([u8], [u16], [u32], [u64]).  Objects are records with the fields of the class,
    methods functions from record to record; callbacks to a listener are values
    (events) in the result, in the order of the calls.  Log statements are left
    out, except in the components about logging and configuration (Logger.v,
    Settings.v, Diagnostics.v), which run in a monad over the logger's state with
    exceptions.  [wp] is the predicate that a computation returns a value that satisfies
    a postcondition; most component lemmas are stated with it.

    ** Parts, files and sources

    - the C library: number formats, snprintf, C strings, stoi: Text.v.
    - common/logger.h, logger.cc, log_level.h and throw_errors.h: Logger.v.
    - common/settings.h and settings.cc, common/file.cc: Settings.v, proofs in
      SettingsProofs.v.
    - common/utils.h, byte accessors and padding: ByteOps.v (Module Byte);
      addresses, times and strings: Utils.v (Modules IP, Time, Strings).
    - rtp/byte_io.h, ByteReader and ByteWriter: ByteIO.v.
    - rtp/rtp_packet, rtp/rtp_util, rtp/video_rtp_depacketizer_h264 and the
      RTPChannel of example/publish.cc: Rtp.v (Modules Rtp, H264), proofs in
      RtpProofs.v.
    - common/utils.h and common/crypto.cc, random numbers, CRC-32, HMAC wrapper:
      Crypto.v.
    - rtc/stun_packet: StunPacket.v (Module Stun), proofs in StunParse.v,
      StunAuth.v, StunSerialize.v and StunRoundtrip.v.
    - rtc/ice_server: IceServer.v (Module Ice), with its contract and proofs.
    - rtc/srtp_session: Srtp.v.
    - rtc/dtls_transport: Dtls.v, proofs in DtlsProofs.v; class initialisation,
      fingerprints and the remote fingerprint check: DtlsInit.v, proofs in
      DtlsInitProofs.v.
    - rtc/webrtc_transport: WebRtc.v, proofs in WebRtcProofs.v; the session
      descriptions: Sdp.v.
    - the Dump methods, ToString, OnSrtpEvent, the OpenSSL error macro and
      common/ip.cc: Diagnostics.v.
    - session/webrtc_session, the connection table and receive handlers of
      net/udp_server and net/udp_connection, and WriteRtpCallback of
      example/rtp_src_example.cc: Session.v, proofs in SessionProofs.v; what they
      read of the receive buffers: Locality.v; the life cycle of a session:
      Lifecycle.v.
    - the sockets of net/udp_server and net/udp_connection: Net.v.
    - the event loops: which thread runs a handler or a task, the thread assertion of
      UdpConnection::Send and the writes to the sockets: Loops.v, proofs in
      LoopsProofs.v.
    - the threads below the level of a handler: the same functions of session/,
      WriteRtpCallback and the transport as programs of single accesses to the shared
      memory: Concurrency.v, proofs in ConcurrencyProofs.v.
    - the programs: class initialisers of crypto.cc, srtp_session.cc and main in
      Startup.v, command line address and HTTP callbacks in Http.v, the FFmpeg
      thread H2642Rtp in Packetizer.v, main of both programs in Program.v.

    main runs the class initialisers, makes the UDP server and starts it
    (Program.v, Net.v); a GET of /webrtc creates a session and is answered with
    its description (Http.v, Sdp.v).  A datagram first meets the server
    (ServerHandleRead and HandlePacket of Session.v), which finds the session named
    by a STUN USERNAME, binds it to a connection for the sender's address and
    queues the packet on the session's event loop; later ones arrive at the
    connection (ConnectionHandleRead).  There
    OnInputDataPacket (WebRtc.v) gives it to STUN and ICE, to DTLS, or to SRTP and
    the RTP channel.  ICE selects the peer and starts DTLS; DTLS hands its keys to
    a new SRTP session.

    ** Libraries as parameters

    OpenSSL, libsrtp, muduo and HMAC-SHA1 are classes of operations with laws in a
    separate class, used only where a theorem needs them:
    - [HmacSha1] (Crypto.v): a function to twenty bytes; no other law.
    - [HmacApi], [HmacApiSpec] (Crypto.v): the three calls of the HMAC API.
    - [OpenSSL] (Dtls.v), [OpenSSLSpec] (DtlsProofs.v): a negotiated SRTP profile is
      one that was offered, and the key export fills the buffer it is given.
      Everything else (what it reads, writes, reports) is arbitrary.
    - [LibSrtp], [LibSrtpSpec] (Srtp.v): documented status codes and key lengths;
      on success protect adds at most the trailer and unprotect does not grow the
      packet.  After an error the length is arbitrary.  [LibSrtpLocal]
      (Locality.v): unprotect looks at the packet, not at the bytes behind it.
    - [Muduo] (Session.v), [MuduoSpec] (SessionProofs.v): different addresses print
      differently.
    - [DigestApi] (DtlsInit.v), [DigestSpec] (DtlsInitProofs.v): X509_digest gives
      bytes, as many as the algorithm has.  The results of the other OpenSSL calls
      of the initialisation are records of arguments ([KeyCalls], [CtxCalls],
      [PeerCalls]) and arbitrary.
    - [FileApi] (Settings.v): stat and access; the options getopt_long_only finds
      are a list of [Opt].
    - [Ffmpeg], [FfmpegSpec] (Packetizer.v): the bit stream filter keeps the times
      of a packet; the results of all other calls ([Calls]) are arbitrary.
    The witnesses instantiate them with [toy_hmac], [toy_ssl], [toy_srtp],
    [toy_muduo], [toy_digest], [toy_ffmpeg] and a file system of their own, for
    which the laws are proved.

    ** What the theorems show

    - Programs: main gets both programs to their event loop with socket, callbacks
      and certificate in place, and they answer, or it stops with an exception or in
      bind (program_serves).
    - Server: over every interleaving of new sessions, receives (failed ones too),
      broadcasts and queued tasks the factory, the connection table and all
      transports keep their invariant and nothing faults (server_never_faults);
      after start-up, in every reachable state, a GET of /webrtc is answered, and
      who signs a Binding request with the credentials of the answer gets the
      success response at his address (offer_then_answer, with
      first_request_answered for any session); the handlers work on the datagram
      whatever else the receive buffers hold (handlers_see_datagram, by the
      two-run relation [Locality.sim]); one connection per address, with a socket
      of its own that is connected to it (session_bound_to_socket,
      connection_owns_socket); a broadcast reaches exactly the ready sessions; Split
      is the structural split.
    - Event loops: every run of the process on its loops, with a queue for each, is a
      history of the server (loops_refine_server; main gets there, boot_booted); while
      no packet moves a session to another loop, no handler is on the wrong thread and
      everything a session sends leaves from the socket connected to its peer
      (sends_on_own_loop, one_thread_suffices); a packet from a second address that
      lands on another loop stops the process (second_address_stops_server).
    - Threads: in every interleaving of single accesses a session that is_ready_ has
      its loop (ready_session_has_loop), and with sessions that are bound once there
      is no data race but on the static STUN buffer (bound_once_race_free); bound
      again there are (unsynchronised_accesses), and the buffer sends an answer to
      the wrong peer (answers_cross).  Run alone, the programs do what Session.v says
      (HandlePacket_alone, WriteRtpCallback_alone).
    - Life cycle: the server refines one abstract machine per session, fresh, then
      selected, then secured (server_refines_life, phases_go_forward); in every
      history the peer of a session has proved to know its password
      (peer_proved_password).
    - Transport: no datagram makes it fault (OnInputDataPacket_safe,
      transport_runs_safe); without credentials nothing changes
      (unauthenticated_get_nowhere); with them ICE completes and DTLS starts
      (authenticated_request_connects); the four protocol tests exclude each other;
      what leaves for an RTP packet on every branch.
    - ICE: ProcessStunPacket refines the contract [Ice.judge] and
      [Ice.carries_out]; a tuple is selected at most once over every run; the
      success response verifies at the peer.
    - STUN: Parse is total and in bounds below 64 KiB, decodes any well-formed
      message, inverts Serialize; CheckAuthentication decides exactly its
      condition; what Serialize signs, CheckAuthentication accepts.
    - DTLS: state, role, flags and callbacks stay in step over every sequence of
      calls whatever OpenSSL does; both ends derive mirrored keys.
      ClassInit and ClassDestroy use and free the shared objects correctly
      whatever OpenSSL answers, but for one path (class_lifecycle); the fingerprint
      text fits, reads back, and the remote check accepts exactly the announced
      digest; both session descriptions fit their array and announce the
      credentials, fingerprint and address of the session.
    - SRTP: the encrypt buffer is never overrun by RTP, nor by RTCP except within
      four bytes of the bound, where libsrtp may use more room than is checked for.
    - Configuration: SetConfiguration accepts exactly the acceptable command lines,
      keeps the ports in 16 bits and in order, and what PrintConfiguration prints
      can be given back as options.
    - Logging: what a throw logs and carries; MS_DUMP_DATA stays in the buffer for
      every length and its lines give the bytes back; the Dump methods print what
      they should for received packets.
    - The FFmpeg thread writes the video frames and no others, 40 ms apart.
    - RTP: ParseBuffer inverts the RFC 3550 layout; the H.264 depacketizer stays in
      bounds, ends, and accepts exactly the well-formed STAP-A and FU-A payloads.
    - Helpers: address comparison and NTP conversion (with IEEE doubles), CRC-32 against its bitwise definition and its burst detection,
      byte order round trips, ranges of the random functions.
    Some theorems state what the code does where that is not what it means to do:
    Parse_diverges (a 65552 byte buffer), named_packet_takes_over (no credentials
    are needed to redirect a session), second_address_stops_server,
    EncryptAndSendRtpPacket_cases (packets leave
    unprotected), rtp_channel_safe (a missing return), and lemmas such as
    early_rtp_faults, rejected_rtp_delivered, OnTimer_not_running_aborts,
    construct_double_free, SignExtend_shift_undefined, null_argument_undefined,
    CopyAddress_other_family, long_address_overflows, response_dump_undefined,
    connect_failure_unnoticed and failed_write_closes_custom_io.

    ** Fuel

    - [Stun.Parse] runs its attribute loop len/4 + 1 times at most: every attribute
      takes four bytes or more, and Parse_total shows it is enough below 64 KiB.
      [Stun.ParseFuel] takes any fuel; Parse_diverges holds for all of it.
    - [H264.ParseStapAStartOffsets] runs length + 1 times: each round consumes two
      bytes (rtp_channel_safe).
    - [Session.Split] runs length + 1 times: each round passes a delimiter
      (Split_at_char).
    - [digits_fuel] (Text.v) runs log2 v + 1 times at most, once for every digit.
    - [Packetizer.frame_loop] runs once for every frame the input gives; the loop
      of the source does not end by itself (frames_paced).
    All other loops are structural.

    ** Not modelled

    muduo and its HTTP server, but for what the callers see: a loop runs the functions
    queued on it in order and one at a time, and aborts when Send is called on
    another thread.  Session.v to Net.v take a handler, a callback or a queued task
    as one step; Concurrency.v interleaves their accesses, sequentially consistent,
    with the work on a transport as accesses to one place.  The contents of a receive
    buffer between two receives are arbitrary.  The log lines inside the protocol components are left out.  Memory
    is modelled where the code's own behaviour depends on it (buffers, unwritten
    bytes, the OpenSSL objects and the FFmpeg contexts and when they are freed);
    other leaks are not, and neither are the empty destructors.  Sockets have the
    state the calls of the source give them; which socket the kernel picks for a
    datagram is not modelled.  Functions that are declared only (Base64) have no
    definition, crypto.h repeats crypto.cc and is included nowhere.  The web pages
    are not C++.

    ** What is left

    Every C++ file with code of its own has its definitions.  What could be added is
    outside of the source: the memory orders of C++ below sequential consistency
    (without races they are not visible), muduo's loops and the kernel's choice of a
    socket. *)
From Stdlib Require Import ZArith Lia.
From stdpp Require Export base tactics numbers list gmap strings.

#[export] Set Default Proof Using "Type".
Global Open Scope Z_scope.

(** * Outcomes of C++ code

    A piece of C++ either returns, has undefined behaviour, stops the process
    through [MS_ABORT]/[MS_ASSERT], throws [MediaSoupError], or (for a loop
    that is run with fuel) has not finished yet. *)
Inductive fault := OutOfBounds | NullDeref | DivByZero | BadShift | NoReturn | Uninit | DoubleFree | UseAfterFree
| Overflow | InvalidFree.

Inductive res (A : Type) :=
| Ok (a : A)
| UB (f : fault)
| Aborted (msg : string)
| Throw (msg : string)
| OutOfFuel.
Arguments Ok {A} a.
Arguments UB {A} f.
Arguments Aborted {A} msg.
Arguments Throw {A} msg.
Arguments OutOfFuel {A}.

#[export] Instance res_ret : MRet res := λ A a, Ok a.
#[export] Instance res_bind : MBind res := λ A B f r,
  match r with
  | Ok a => f a
  | UB e => UB e
  | Aborted m => Aborted m
  | Throw m => Throw m
  | OutOfFuel => OutOfFuel
  end.

(** [MS_ASSERT(cond, msg)] of common/logger.h. *)
Definition ms_assert (c : bool) (msg : string) : res unit :=
  if c then Ok () else Aborted msg.

(** [a && b] on expressions that may fault: [b] counts only when [a] is true. *)
Definition res_andb (a b : res bool) : res bool :=
  x ← a; if (x : bool) then b else Ok false.

Definition is_Ok {A} (r : res A) : Prop := ∃ a, r = Ok a.

(** * Machine integers *)
Definition wrap (w x : Z) : Z := x mod 2 ^ w.
Abbreviation u8 := (wrap 8).
Abbreviation u16 := (wrap 16).
Abbreviation u32 := (wrap 32).
Abbreviation u64 := (wrap 64).

Definition fits (w x : Z) : Prop := 0 ≤ x < 2 ^ w.

(** * Byte buffers

    A buffer is the list of its bytes.  An access outside it is undefined
    behaviour. *)
Definition is_byte (b : Z) : Prop := 0 ≤ b < 256.
Abbreviation bytes_ok := (Forall is_byte).

Definition zlen {A} (l : list A) : Z := Z.of_nat (length l).

Definition rd (b : list Z) (i : Z) : res Z :=
  if 0 <=? i then
    match b !! Z.to_nat i with Some x => Ok x | None => UB OutOfBounds end
  else UB OutOfBounds.

Definition wr (b : list Z) (i v : Z) : res (list Z) :=
  if (0 <=? i) && (i <? zlen b) then Ok (<[Z.to_nat i := v]> b)
  else UB OutOfBounds.

(** [n] bytes starting at [b + i]. *)
Definition rd_range (b : list Z) (i n : Z) : res (list Z) :=
  if (0 <=? i) && (0 <=? n) && (i + n <=? zlen b)
  then Ok (take (Z.to_nat n) (drop (Z.to_nat i) b))
  else UB OutOfBounds.

(** [memcpy(b + i, src, |src|)]. *)
Definition memcpy (b : list Z) (i : Z) (src : list Z) : res (list Z) :=
  if (0 <=? i) && (i + zlen src <=? zlen b)
  then Ok (take (Z.to_nat i) b ++ src ++ drop (Z.to_nat i + length src) b)
  else UB OutOfBounds.

(** A C string literal as bytes. *)
Definition byte_of_ascii (a : Ascii.ascii) : Z := Z.of_nat (Ascii.nat_of_ascii a).
Fixpoint str (s : string) : list Z :=
  match s with
  | EmptyString => []
  | String c s' => byte_of_ascii c :: str s'
  end.

(** Big-endian numbers: the specification the byte routines are compared to. *)
Fixpoint to_be (n : nat) (v : Z) : list Z :=
  match n with
  | O => []
  | S n' => to_be n' (v / 256) ++ [v mod 256]
  end.

Definition of_be (l : list Z) : Z := foldl (λ acc b, acc * 256 + b) 0 l.

(** * Total correctness of outcomes

    [wp r Q]: [r] returns a value and it satisfies [Q]. *)
Definition wp {A} (r : res A) (Q : A → Prop) : Prop :=
  match r with Ok a => Q a | _ => False end.

Declare Scope cpp_scope.
Delimit Scope cpp_scope with cpp.
Notation "{{ r }} Q" := (wp r Q) (at level 20, Q at level 200, only parsing) : cpp_scope.
Notation "b .[ i ]" := (rd b i) (at level 1, i at level 200, format "b .[ i ]") : cpp_scope.
Notation "a &&& b" := (res_andb a b) (at level 40, left associativity) : cpp_scope.
Global Open Scope cpp_scope.

Create HintDb cpp.

(** Linear arithmetic with division and remainder by constants. *)
Ltac zdm := Z.div_mod_to_equations; lia.

(** ** The monad *)
Lemma bind_Ok {A B} (m : res A) (f : A → res B) b :
  m ≫= f = Ok b ↔ ∃ a, m = Ok a ∧ f a = Ok b.
Proof. destruct m; naive_solver. Qed.

Lemma wp_bind {A B} (m : res A) (f : A → res B) Q :
  wp m (λ a, wp (f a) Q) → wp (m ≫= f) Q.
Proof. by destruct m. Qed.

Lemma wp_mono {A} (r : res A) (P Q : A → Prop) :
  wp r P → (∀ a, P a → Q a) → wp r Q.
Proof. destruct r; naive_solver. Qed.

Lemma wp_Ok {A} (r : res A) Q : wp r Q ↔ ∃ a, r = Ok a ∧ Q a.
Proof. destruct r; naive_solver. Qed.

Lemma wp_is_Ok {A} (r : res A) Q : wp r Q → is_Ok r.
Proof. rewrite wp_Ok. unfold is_Ok. naive_solver. Qed.

(** Invert every [_ ← _; _ = Ok _] hypothesis. *)
Ltac res_inv :=
  repeat match goal with
  | H : _ ≫= _ = Ok _ |- _ =>
      let a := fresh "r" in let E := fresh "E" in
      apply bind_Ok in H as (a & E & H)
  | H : Ok _ = Ok _ |- _ => injection H as H
  | H : mret _ = Ok _ |- _ => unfold mret, res_ret in H
  | H : UB _ = Ok _ |- _ => discriminate H
  | H : Aborted _ = Ok _ |- _ => discriminate H
  | H : Throw _ = Ok _ |- _ => discriminate H
  end; simplify_eq.

(** ** Machine integers *)
Lemma wrap_bound w x : 0 ≤ w → fits w (wrap w x).
Proof. intros. apply Z.mod_pos_bound. by apply Z.pow_pos_nonneg. Qed.

Lemma wrap_small w x : fits w x → wrap w x = x.
Proof. apply Z.mod_small. Qed.

Lemma wrap_wrap w x : wrap w (wrap w x) = wrap w x.
Proof. apply Zmod_mod. Qed.

Lemma is_byte_wrap x : is_byte (u8 x).
Proof. apply (wrap_bound 8). lia. Qed.

Lemma is_byte_mod x : is_byte (x mod 256).
Proof. apply Z.mod_pos_bound. lia. Qed.
#[export] Hint Resolve is_byte_wrap is_byte_mod : cpp.

(** ** Bit operations as arithmetic *)
Lemma land_ones' x n m : 0 ≤ n → m = Z.ones n → Z.land x m = x mod 2 ^ n.
Proof. intros ? ->. by apply Z.land_ones. Qed.

Lemma shiftl_land_0 a b n : 0 ≤ n → fits n b → Z.land (Z.shiftl a n) b = 0.
Proof.
  intros Hn Hb. apply Z.bits_inj'. intros i Hi.
  rewrite Z.land_spec, Z.bits_0, Z.shiftl_spec by lia.
  destruct (decide (i < n)).
  - by rewrite Z.testbit_neg_r by lia.
  - rewrite <- (Z.mod_small b (2 ^ n)) by apply Hb.
    by rewrite Z.mod_pow2_bits_high, andb_false_r by lia.
Qed.

Lemma lor_shiftl a b n : 0 ≤ n → fits n b → Z.lor (Z.shiftl a n) b = a * 2 ^ n + b.
Proof.
  intros Hn Hb. rewrite <- Z.shiftl_mul_pow2 by lia.
  symmetry. rewrite <- Z.lxor_lor by (by apply shiftl_land_0).
  apply Z.add_nocarry_lxor. by apply shiftl_land_0.
Qed.

Lemma shiftr_div x n : 0 ≤ n → Z.shiftr x n = x / 2 ^ n.
Proof. intros. by apply Z.shiftr_div_pow2. Qed.

Lemma lxor_bound w a b : 0 ≤ w → fits w a → fits w b → fits w (Z.lxor a b).
Proof.
  intros Hw Ha Hb. rewrite <- (wrap_small w a), <- (wrap_small w b) by done.
  unfold wrap. rewrite <- !Z.land_ones by done.
  replace (Z.lxor (Z.land a (Z.ones w)) (Z.land b (Z.ones w)))
    with (Z.land (Z.lxor a b) (Z.ones w)).
  - rewrite Z.land_ones by done. by apply wrap_bound.
  - apply Z.bits_inj'. intros i Hi.
    rewrite ?Z.land_spec, ?Z.lxor_spec, ?Z.land_spec.
    by destruct (Z.testbit a i), (Z.testbit b i), (Z.testbit (Z.ones w) i).
Qed.

Lemma lxor_cancel a b : Z.lxor (Z.lxor a b) b = a.
Proof. by rewrite Z.lxor_assoc, Z.lxor_nilpotent, Z.lxor_0_r. Qed.

Lemma is_byte_lxor a b : is_byte a → is_byte b → is_byte (Z.lxor a b).
Proof. apply (lxor_bound 8). lia. Qed.
#[export] Hint Resolve is_byte_lxor : cpp.

(** ** Buffers *)
Lemma zlen_nonneg {A} (l : list A) : 0 ≤ zlen l.
Proof. unfold zlen. lia. Qed.

Lemma zlen_app {A} (l1 l2 : list A) : zlen (l1 ++ l2) = zlen l1 + zlen l2.
Proof. unfold zlen. rewrite length_app. lia. Qed.

Lemma zlen_nil {A} : zlen (@nil A) = 0.
Proof. done. Qed.

Lemma zlen_cons {A} (x : A) l : zlen (x :: l) = 1 + zlen l.
Proof. unfold zlen. simpl. lia. Qed.
#[export] Hint Rewrite @zlen_app @zlen_nil @zlen_cons : zlen.

Lemma split_len {A} n (l : list A) : (n ≤ length l)%nat → ∃ a b, l = a ++ b ∧ length a = n.
Proof. intros. exists (take n l), (drop n l). rewrite take_drop, length_take. split; [done|lia]. Qed.

Lemma rd_Ok b i x : b.[i] = Ok x ↔ 0 ≤ i ∧ b !! Z.to_nat i = Some x.
Proof.
  unfold rd. destruct (Z.leb_spec 0 i).
  - destruct (b !! Z.to_nat i); naive_solver.
  - naive_solver lia.
Qed.

Lemma rd_in b i : 0 ≤ i < zlen b → ∃ x, b.[i] = Ok x.
Proof.
  unfold zlen. intros Hi.
  destruct (lookup_lt_is_Some_2 b (Z.to_nat i)) as [x Hx]; [lia|].
  exists x. by apply rd_Ok; split; [lia|].
Qed.

Lemma rd_is_byte b i x : bytes_ok b → b.[i] = Ok x → is_byte x.
Proof. intros Hb [_ Hx]%rd_Ok. by eapply Forall_lookup_1. Qed.

Lemma wp_rd b i (Q : Z → Prop) :
  bytes_ok b → 0 ≤ i < zlen b → (∀ x, b.[i] = Ok x → is_byte x → Q x) →
  wp (b.[i]) Q.
Proof.
  intros Hb Hi HQ. destruct (rd_in b i Hi) as [x Hx].
  rewrite Hx. apply HQ; eauto using rd_is_byte.
Qed.

(** Reading inside a concatenation. *)
Lemma rd_app_r l1 l2 i : 0 ≤ i → (l1 ++ l2).[zlen l1 + i] = l2.[i].
Proof.
  intros Hi. unfold rd, zlen.
  destruct (Z.leb_spec 0 (Z.of_nat (length l1) + i)); [|lia].
  destruct (Z.leb_spec 0 i); [|lia].
  rewrite lookup_app_r by lia.
  by replace (Z.to_nat (Z.of_nat (length l1) + i) - length l1)%nat
    with (Z.to_nat i) by lia.
Qed.

Lemma rd_app_l l1 l2 i : i < zlen l1 → (l1 ++ l2).[i] = l1.[i].
Proof.
  unfold rd, zlen. intros Hi. destruct (Z.leb_spec 0 i); [|done].
  by rewrite lookup_app_l by lia.
Qed.

Lemma rd_cons_0 x l : (x :: l).[0] = Ok x.
Proof. done. Qed.

Lemma rd_cons x l i : 0 < i → (x :: l).[i] = l.[i - 1].
Proof.
  intros. rewrite <- (rd_app_r [x] l (i - 1)) by lia.
  f_equal. change (zlen [x]) with 1. lia.
Qed.

Lemma rd_range_app l1 l2 l3 i n :
  i = zlen l1 → n = zlen l2 → rd_range (l1 ++ l2 ++ l3) i n = Ok l2.
Proof.
  intros -> ->. unfold rd_range. autorewrite with zlen.
  pose proof (zlen_nonneg l1). pose proof (zlen_nonneg l2).
  pose proof (zlen_nonneg l3).
  destruct (Z.leb_spec 0 (zlen l1)), (Z.leb_spec 0 (zlen l2)),
    (Z.leb_spec (zlen l1 + zlen l2) (zlen l1 + (zlen l2 + zlen l3))); try lia.
  unfold zlen. simpl. rewrite !Nat2Z.id, drop_app_length. by rewrite take_app_length.
Qed.

Lemma rd_range_Ok b i n l :
  rd_range b i n = Ok l → 0 ≤ i ∧ 0 ≤ n ∧ i + n ≤ zlen b ∧ zlen l = n.
Proof.
  unfold rd_range.
  destruct (Z.leb_spec 0 i), (Z.leb_spec 0 n), (Z.leb_spec (i + n) (zlen b));
    try done; simpl; intros [= <-].
  unfold zlen in *. rewrite length_take, length_drop. lia.
Qed.

Lemma rd_range_in b i n :
  0 ≤ i → 0 ≤ n → i + n ≤ zlen b →
  rd_range b i n = Ok (take (Z.to_nat n) (drop (Z.to_nat i) b)).
Proof.
  intros. unfold rd_range.
  by destruct (Z.leb_spec 0 i), (Z.leb_spec 0 n), (Z.leb_spec (i + n) (zlen b));
    try lia.
Qed.

Lemma rd_range_bytes b i n l : bytes_ok b → rd_range b i n = Ok l → bytes_ok l.
Proof.
  unfold rd_range. intros Hb. case_match; [|done]. intros [= <-].
  by apply Forall_take, Forall_drop.
Qed.

Lemma wp_rd_range b i n (Q : list Z → Prop) :
  bytes_ok b → 0 ≤ i → 0 ≤ n → i + n ≤ zlen b →
  (∀ l, rd_range b i n = Ok l → bytes_ok l → zlen l = n → Q l) →
  wp (rd_range b i n) Q.
Proof.
  intros Hb Hi Hn Hl HQ. pose proof (rd_range_in b i n Hi Hn Hl) as E.
  pose proof (rd_range_Ok _ _ _ _ E). pose proof (rd_range_bytes _ _ _ _ Hb E).
  rewrite E. apply HQ; tauto.
Qed.

(** Writing at the end of a prefix. *)
Lemma wr_app pre x post i v :
  i = zlen pre → wr (pre ++ x :: post) i v = Ok (pre ++ v :: post).
Proof.
  intros ->. unfold wr. autorewrite with zlen.
  pose proof (zlen_nonneg pre). pose proof (zlen_nonneg post).
  destruct (Z.leb_spec 0 (zlen pre)), (Z.ltb_spec (zlen pre) (zlen pre + (1 + zlen post)));
    try lia.
  simpl. unfold zlen. rewrite Nat2Z.id.
  by rewrite insert_app_r_alt, Nat.sub_diag by lia.
Qed.

Lemma memcpy_app pre old post src i :
  i = zlen pre → length old = length src →
  memcpy (pre ++ old ++ post) i src = Ok (pre ++ src ++ post).
Proof.
  intros -> Hl. unfold memcpy. autorewrite with zlen.
  pose proof (zlen_nonneg pre). pose proof (zlen_nonneg post).
  assert (zlen old = zlen src) as -> by (unfold zlen; lia).
  destruct (Z.leb_spec 0 (zlen pre)),
    (Z.leb_spec (zlen pre + zlen src) (zlen pre + (zlen src + zlen post))); try lia.
  simpl. unfold zlen. rewrite Nat2Z.id, take_app_length, <- Hl, <- drop_drop.
  by rewrite drop_app_length, drop_app_length.
Qed.

(** ** Big-endian numbers *)
Lemma length_to_be n v : length (to_be n v) = n.
Proof. revert v. induction n; intros; simpl; [done|]. rewrite length_app, IHn. simpl. lia. Qed.

Lemma zlen_to_be n v : zlen (to_be n v) = Z.of_nat n.
Proof. unfold zlen. by rewrite length_to_be. Qed.
#[export] Hint Rewrite zlen_to_be : zlen.

Lemma to_be_bytes n v : bytes_ok (to_be n v).
Proof.
  revert v. induction n; intros; simpl; [constructor|].
  apply Forall_app_2; [done|]. apply Forall_singleton, is_byte_mod.
Qed.
#[export] Hint Resolve to_be_bytes : cpp.

Lemma of_be_snoc l b : of_be (l ++ [b]) = of_be l * 256 + b.
Proof. unfold of_be. by rewrite foldl_app. Qed.

Lemma of_be_to_be n v : of_be (to_be n v) = v mod 256 ^ Z.of_nat n.
Proof.
  revert v. induction n as [|n IH]; intros v; simpl to_be.
  { by rewrite Z.mod_1_r. }
  rewrite of_be_snoc, IH, Nat2Z.inj_succ, Z.pow_succ_r by lia.
  rewrite Z.rem_mul_r by lia. lia.
Qed.

Lemma of_be_bound l : bytes_ok l → 0 ≤ of_be l < 256 ^ zlen l.
Proof.
  induction l as [|b l IH] using rev_ind; [done|]. intros [Hl Hb]%Forall_app.
  rewrite of_be_snoc, zlen_app. rewrite Forall_singleton in Hb. unfold is_byte in Hb.
  specialize (IH Hl). change (zlen [b]) with 1.
  rewrite Z.pow_add_r, Z.pow_1_r by (pose proof (zlen_nonneg l); lia). lia.
Qed.

Lemma to_be_of_be l : bytes_ok l → to_be (length l) (of_be l) = l.
Proof.
  induction l as [|b l IH] using rev_ind; [done|]. intros [Hl Hb]%Forall_app.
  rewrite Forall_singleton in Hb. unfold is_byte in Hb.
  rewrite of_be_snoc, length_app, Nat.add_1_r. simpl.
  rewrite Z.div_add_l by lia. rewrite Z.div_small, Z.add_0_r by lia.
  rewrite IH by done. do 2 f_equal. rewrite Z.add_comm, Z.mod_add by lia.
  by apply Z.mod_small.
Qed.

Lemma to_be_small n v : 0 ≤ v < 256 ^ Z.of_nat n → of_be (to_be n v) = v.
Proof. intros. rewrite of_be_to_be. by apply Z.mod_small. Qed.

(** ** Exhaustive checks

    A boolean test of the [n] numbers from [v] on, for proofs by computation. *)
Fixpoint forall_from (P : Z → bool) (n : nat) (v : Z) : bool :=
  match n with
  | O => true
  | S n' => P v && forall_from P n' (v + 1)
  end.

Lemma forall_from_true P n v :
  forall_from P n v = true → ∀ x, v ≤ x < v + Z.of_nat n → P x = true.
Proof.
  revert v. induction n as [|n IH]; intros v; simpl; [lia|].
  intros [Hv Hn]%andb_true_iff x Hx.
  destruct (decide (x = v)) as [->|]; [done|]. apply (IH (v + 1)); [done|lia].
Qed.
