(* ===== verification/Text.v ===== *)
(** * Text: the parts of the C and C++ library that format and read text

    The conversions of printf that the sources use ([%X], [%u], [%c], [%s]),
    snprintf into a buffer, the C-locale character classes, and std::stoi.
    A text is the list of its bytes, as elsewhere. *)
From S2P Require Import Prelude.

(** ** Numbers in a base *)

(** The digits of [v], most significant first, at least one. *)
Fixpoint digits_fuel (fuel : nat) (base v : Z) : list Z :=
  match fuel with
  | O => [v]
  | S f => if v <? base then [v] else digits_fuel f base (v / base) ++ [v mod base]
  end.

Definition digits (base v : Z) : list Z := digits_fuel (Z.to_nat (Z.log2 v)) base v.

Definition undigits (base : Z) (l : list Z) : Z := foldl (λ acc d, acc * base + d) 0 l.

Lemma undigits_snoc base l d : undigits base (l ++ [d]) = undigits base l * base + d.
Proof. unfold undigits. by rewrite foldl_app. Qed.

Lemma undigits_app_0 base n l : undigits base (replicate n 0 ++ l) = undigits base l.
Proof.
  unfold undigits. rewrite foldl_app. f_equal.
  by induction n.
Qed.

Lemma log2_div_base base v : 2 ≤ base ≤ v → Z.log2 (v / base) < Z.log2 v.
Proof.
  intros Hv. assert (0 < v / base) by (apply Z.div_str_pos; lia).
  apply Z.log2_lt_pow2; [done|]. pose proof (Z.log2_spec v ltac:(lia)) as [_ Hs].
  rewrite Z.pow_succ_r in Hs by apply Z.log2_nonneg.
  apply Z.div_lt_upper_bound; nia.
Qed.

(** Enough fuel: a property of the digits that holds at every step. *)
Lemma digits_fuel_ind (P : Z → list Z → Prop) base :
  2 ≤ base →
  (∀ v, 0 ≤ v < base → P v [v]) →
  (∀ v l, base ≤ v → P (v / base) l → P v (l ++ [v mod base])) →
  ∀ v, 0 ≤ v → P v (digits base v).
Proof.
  intros Hb H0 H1 v Hv. unfold digits.
  assert (∀ fuel v, 0 ≤ v → Z.log2 v ≤ Z.of_nat fuel → P v (digits_fuel fuel base v)) as Hf.
  { clear v Hv. induction fuel as [|f IH]; intros v Hv Hl; simpl.
    - assert (v ≤ 1) by (apply Z.log2_null; pose proof (Z.log2_nonneg v); lia). apply H0. lia.
    - destruct (Z.ltb_spec v base); [by apply H0|]. apply H1; [done|].
      apply IH; [apply Z.div_pos; lia|].
      pose proof (log2_div_base base v). lia. }
  apply Hf; [done|]. pose proof (Z.log2_nonneg v). lia.
Qed.

Lemma undigits_digits base v : 2 ≤ base → 0 ≤ v → undigits base (digits base v) = v.
Proof.
  intros Hb. revert v. apply (digits_fuel_ind (λ v l, undigits base l = v)); [done| |].
  - intros. unfold undigits. simpl. lia.
  - intros v l _ IH. rewrite undigits_snoc, IH.
    pose proof (Z.div_mod v base ltac:(lia)). lia.
Qed.

Lemma digits_range base v : 2 ≤ base → 0 ≤ v → Forall (λ d, 0 ≤ d < base) (digits base v).
Proof.
  intros Hb. revert v. apply (digits_fuel_ind (λ _ l, Forall (λ d, 0 ≤ d < base) l)); [done| |].
  - intros. by apply Forall_singleton.
  - intros. apply Forall_app_2; [done|]. apply Forall_singleton, Z.mod_pos_bound. lia.
Qed.

Lemma digits_length base v n :
  2 ≤ base → 0 ≤ v < base ^ Z.of_nat (S n) → (length (digits base v) ≤ S n)%nat.
Proof.
  intros Hb [Hv Hn]. revert n Hn.
  apply (digits_fuel_ind (λ v l, ∀ n, v < base ^ Z.of_nat (S n) → (length l ≤ S n)%nat)
           base Hb); [| |done].
  - simpl. lia.
  - clear v Hv. intros v l Hv IH n Hn. rewrite length_app. simpl. destruct n as [|n].
    + change (Z.of_nat 1) with 1 in Hn. rewrite Z.pow_1_r in Hn. lia.
    + enough (length l ≤ S n)%nat by lia. apply IH.
      rewrite (Nat2Z.inj_succ (S n)), Z.pow_succ_r in Hn by lia.
      apply Z.div_lt_upper_bound; lia.
Qed.

Lemma digits_nonempty base v : 2 ≤ base → 0 ≤ v → digits base v ≠ [].
Proof.
  intros Hb. revert v. apply (digits_fuel_ind (λ _ l, l ≠ [])); [done|done|].
  intros v l _ _. by destruct l.
Qed.

(** ** Conversions of printf *)

Definition pad0 (w : nat) (l : list Z) : list Z := replicate (w - length l) 48 ++ l.

Definition hex_digit (d : Z) : Z := if d <? 10 then 48 + d else 55 + d.
Definition unhex_digit (c : Z) : Z := if c <? 58 then c - 48 else c - 55.

(** [%0<w>X] and [%.<w>X] *)
Definition fmt_X (w : nat) (v : Z) : list Z := pad0 w (hex_digit <$> digits 16 v).

(** [%u], [%d] of a number that is not negative *)
Definition fmt_u (v : Z) : list Z := Z.add 48 <$> digits 10 v.

Definition read_X (l : list Z) : Z := undigits 16 (unhex_digit <$> l).
Definition read_u (l : list Z) : Z := undigits 10 ((λ c, c - 48) <$> l).

Lemma unhex_hex d : 0 ≤ d < 16 → unhex_digit (hex_digit d) = d.
Proof.
  intros. unfold hex_digit, unhex_digit. destruct (Z.ltb_spec d 10).
  - destruct (Z.ltb_spec (48 + d) 58); lia.
  - destruct (Z.ltb_spec (55 + d) 58); lia.
Qed.

(** The letters and digits of hexadecimal text: no colon, blank or control
    character. *)
Definition is_hex (c : Z) : Prop := 48 ≤ c ≤ 57 ∨ 65 ≤ c ≤ 70.

Lemma hex_digit_is_hex d : 0 ≤ d < 16 → is_hex (hex_digit d).
Proof. unfold is_hex, hex_digit. intros. destruct (Z.ltb_spec d 10); lia. Qed.

Lemma fmt_X_is_hex w v : 0 ≤ v → Forall is_hex (fmt_X w v).
Proof.
  intros Hv. unfold fmt_X, pad0. apply Forall_app_2.
  - apply Forall_replicate. unfold is_hex. lia.
  - apply Forall_fmap. eapply Forall_impl; [by apply digits_range|].
    intros. by apply hex_digit_is_hex.
Qed.

Lemma fmap_inverse {A} (f g : A → A) (P : A → Prop) l :
  (∀ x, P x → g (f x) = x) → Forall P l → g <$> (f <$> l) = l.
Proof.
  intros Hfg Hl. rewrite <- list_fmap_compose. rewrite <- (list_fmap_id l) at 2.
  apply list_fmap_ext. intros i x Hx. apply Hfg. by eapply Forall_lookup_1.
Qed.

Lemma read_fmt_X w v : 0 ≤ v → read_X (fmt_X w v) = v.
Proof.
  intros Hv. unfold read_X, fmt_X, pad0.
  rewrite fmap_app, fmap_replicate. change (unhex_digit 48) with 0.
  rewrite undigits_app_0, (fmap_inverse _ _ _ _ unhex_hex) by (apply digits_range; lia).
  by apply undigits_digits.
Qed.

Lemma length_fmt_X w v : 0 ≤ v < 16 ^ Z.of_nat (S w) → length (fmt_X (S w) v) = S w.
Proof.
  intros Hv. unfold fmt_X, pad0. rewrite length_app, length_replicate, length_fmap.
  pose proof (digits_length 16 v w ltac:(lia) Hv). lia.
Qed.

Lemma read_fmt_u v : 0 ≤ v → read_u (fmt_u v) = v.
Proof.
  intros Hv. unfold read_u, fmt_u.
  rewrite (fmap_inverse _ _ (λ _, True)); [by apply undigits_digits|intros; lia|].
  by apply Forall_true.
Qed.

Lemma fmt_u_length v n : 0 ≤ v < 10 ^ Z.of_nat (S n) → (length (fmt_u v) ≤ S n)%nat.
Proof. unfold fmt_u. rewrite length_fmap. apply digits_length. lia. Qed.

Lemma fmt_u_digits v : 0 ≤ v → Forall (λ c, 48 ≤ c ≤ 57) (fmt_u v).
Proof.
  intros Hv. apply Forall_fmap. eapply Forall_impl; [by apply digits_range|]. simpl. lia.
Qed.

(** ** snprintf

    [snprintf(buf + off, size, ...)] whose text is [text]: at most [size] - 1
    bytes of it and a NUL are stored, and the length of the whole text is
    returned. *)
Definition snprintf (buf : list Z) (off size : Z) (text : list Z) : res (list Z * Z) :=
  if size <=? 0 then Ok (buf, zlen text)
  else
    buf ← memcpy buf off (take (Z.to_nat (size - 1)) text ++ [0]);
    Ok (buf, zlen text).

(** [sprintf(buf, ...)]: the whole text and a NUL. *)
Definition sprintf (buf : list Z) (text : list Z) : res (list Z) := memcpy buf 0 (text ++ [0]).

(** The C string at the start of a buffer. *)
Fixpoint c_str (buf : list Z) : list Z :=
  match buf with
  | [] => []
  | c :: rest => if c =? 0 then [] else c :: c_str rest
  end.

Lemma c_str_app text rest : Forall (λ c, c ≠ 0) text → c_str (text ++ 0 :: rest) = text.
Proof.
  induction 1 as [|c l Hc _ IH]; [done|]. simpl. rewrite IH.
  by destruct (Z.eqb_spec c 0).
Qed.

Lemma memcpy_at buf i src :
  0 ≤ i → i + zlen src ≤ zlen buf →
  memcpy buf i src =
    Ok (take (Z.to_nat i) buf ++ src ++ drop (Z.to_nat i + length src) buf).
Proof.
  intros Hi Hl. unfold memcpy.
  by destruct (Z.leb_spec 0 i), (Z.leb_spec (i + zlen src) (zlen buf)); try lia.
Qed.

Lemma sprintf_Ok buf text :
  zlen text < zlen buf → Forall (λ c, c ≠ 0) text →
  ∃ buf', sprintf buf text = Ok buf' ∧ c_str buf' = text ∧ length buf' = length buf.
Proof.
  intros Hl Ht. unfold sprintf.
  rewrite memcpy_at by (autorewrite with zlen; lia). eexists. split_and!; [done| |].
  - simpl. rewrite <- app_assoc. by apply c_str_app.
  - unfold zlen in Hl. rewrite !length_app, length_drop. simpl. lia.
Qed.

Lemma sprintf_overflow buf text : zlen buf ≤ zlen text → sprintf buf text = UB OutOfBounds.
Proof.
  intros Hl. unfold sprintf, memcpy. autorewrite with zlen.
  by destruct (Z.leb_spec 0 0), (Z.leb_spec (0 + (zlen text + (1 + 0))) (zlen buf)); try lia.
Qed.

(** ** Characters in the "C" locale *)
Definition tolower (c : Z) : Z := if (65 <=? c) && (c <=? 90) then c + 32 else c.
Definition isprint (c : Z) : bool := (32 <=? c) && (c <=? 126).
Definition isspace (c : Z) : bool := (c =? 32) || ((9 <=? c) && (c <=? 13)).
Definition isdigit (c : Z) : bool := (48 <=? c) && (c <=? 57).

(** [%.<w>x], and [%#.<w>x], whose prefix is left out for zero. *)
Definition fmt_x (w : nat) (v : Z) : list Z := tolower <$> fmt_X w v.
Definition fmt_sharp_x (w : nat) (v : Z) : list Z :=
  if v =? 0 then fmt_x w v else 48 :: 120 :: fmt_x w v.

(** What reads it: a digit of either case. *)
Definition toupper (c : Z) : Z := if (97 <=? c) && (c <=? 122) then c - 32 else c.
Definition read_x (l : list Z) : Z := read_X (toupper <$> l).

Lemma read_fmt_x w v : 0 ≤ v → read_x (fmt_x w v) = v.
Proof.
  intros Hv. unfold read_x, fmt_x. rewrite (fmap_inverse _ _ is_hex).
  - by apply read_fmt_X.
  - intros c. unfold is_hex, toupper, tolower.
    destruct (Z.leb_spec 65 c), (Z.leb_spec c 90); simpl; intros Hc;
      [destruct (Z.leb_spec 97 (c + 32)), (Z.leb_spec (c + 32) 122)
      |destruct (Z.leb_spec 97 c), (Z.leb_spec c 122)..]; simpl; lia.
  - by apply fmt_X_is_hex.
Qed.

Lemma length_fmt_x w v : 0 ≤ v < 16 ^ Z.of_nat (S w) → length (fmt_x (S w) v) = S w.
Proof. unfold fmt_x. rewrite length_fmap. apply length_fmt_X. Qed.

Lemma fmt_x_nonzero w v : 0 ≤ v → Forall (λ c, c ≠ 0) (fmt_x w v).
Proof.
  intros Hv. apply Forall_fmap. eapply Forall_impl; [by apply fmt_X_is_hex|].
  intros c. unfold is_hex, tolower. simpl.
  destruct (Z.leb_spec 65 c), (Z.leb_spec c 90); simpl; lia.
Qed.

(** ** std::stoi

    Leading white space, an optional sign, then as many digits as there are;
    the rest is ignored.  [None] when there is no digit
    (std::invalid_argument) or the number is not an [int] (std::out_of_range). *)
Fixpoint skip_space (s : list Z) : list Z :=
  match s with
  | c :: rest => if isspace c then skip_space rest else s
  | [] => []
  end.

Fixpoint leading_digits (s : list Z) : list Z :=
  match s with
  | c :: rest => if isdigit c then c :: leading_digits rest else []
  | [] => []
  end.

Definition sign (s : list Z) : bool * list Z :=
  match s with
  | c :: rest => if c =? 45 then (true, rest) else if c =? 43 then (false, rest) else (false, s)
  | [] => (false, s)
  end.

Definition stoi (s : list Z) : option Z :=
  let '(negative, s) := sign (skip_space s) in
  match leading_digits s with
  | [] => None
  | ds =>
      let v := if negative then - read_u ds else read_u ds in
      if (- 2 ^ 31 <=? v) && (v <? 2 ^ 31) then Some v else None
  end.

Lemma leading_digits_all s :
  Forall (λ c, 48 ≤ c ≤ 57) s → leading_digits s = s.
Proof.
  induction 1 as [|c l Hc _ IH]; [done|]. simpl. unfold isdigit.
  destruct (Z.leb_spec 48 c), (Z.leb_spec c 57); try lia. simpl. by rewrite IH.
Qed.

(** What [%u] printed, stoi reads. *)
Lemma stoi_fmt_u v : 0 ≤ v < 2 ^ 31 → stoi (fmt_u v) = Some v.
Proof.
  intros Hv. pose proof (fmt_u_digits v ltac:(lia)) as Hd.
  assert (fmt_u v ≠ []) as Hne.
  { unfold fmt_u. intros E%fmap_nil_inv. by eapply digits_nonempty in E; [| |apply Hv]. }
  destruct (fmt_u v) as [|c l] eqn:E; [done|]. pose proof Hd as [Hc _]%Forall_cons.
  assert (skip_space (c :: l) = c :: l) as Hs.
  { simpl. unfold isspace.
    destruct (Z.eqb_spec c 32), (Z.leb_spec 9 c), (Z.leb_spec c 13); simpl; try lia; done. }
  unfold stoi. rewrite Hs. unfold sign.
  destruct (Z.eqb_spec c 45), (Z.eqb_spec c 43); try lia.
  rewrite leading_digits_all by done. cbv zeta. rewrite <- E, read_fmt_u by lia.
  by destruct (Z.leb_spec (- 2 ^ 31) v), (Z.ltb_spec v (2 ^ 31)); try lia.
Qed.
