(* ===== verification/Logger.v ===== *)
(** * Logger: logging macros and exceptions

    common/logger.h, common/logger.cc, common/log_level.h, the data of
    common/settings.h and the exceptions of common/throw_errors.h.

    The process-wide variables [Settings::configuration], [Logger::channel] and
    [Logger::buffer] are the fields of [Env], together with what has left through
    the log channel and the standard streams.  Code that throws and keeps what it
    has changed before is a function of [M]: the state survives an exception, and
    only undefined behaviour or an abort loses it.  The build defines neither
    MS_LOG_STD nor MS_LOG_TRACE nor MS_LOG_FILE_LINE, so [MS_TRACE()] is empty and
    a line starts with "class::function()". *)
From S2P Require Import Prelude Text.

(** ** The configuration *)

Inductive LogLevel := LOG_NONE | LOG_ERROR | LOG_WARN | LOG_DEBUG.

Definition level_to_Z (l : LogLevel) : Z :=
  match l with LOG_DEBUG => 3 | LOG_WARN => 2 | LOG_ERROR => 1 | LOG_NONE => 0 end.

#[export] Instance LogLevel_eq_dec : EqDecision LogLevel.
Proof. solve_decision. Defined.

(** The fields of [LogTags] as values, for macros that take a field's name. *)
Inductive Tag :=
| info | ice | dtls | rtp | srtp | rtcp | rtx | bwe | score | simulcast | svc | sctp | message.

#[export] Instance Tag_eq_dec : EqDecision Tag.
Proof. solve_decision. Defined.

Record LogTags := mkLogTags {
  t_info : bool; t_ice : bool; t_dtls : bool; t_rtp : bool; t_srtp : bool; t_rtcp : bool;
  t_rtx : bool; t_bwe : bool; t_score : bool; t_simulcast : bool; t_svc : bool; t_sctp : bool;
  t_message : bool
}.

Definition newLogTags : LogTags :=
  mkLogTags false false false false false false false false false false false false false.

(** [logTags.tag] *)
Definition tag_of (t : Tag) (l : LogTags) : bool :=
  match t with
  | info => t_info l | ice => t_ice l | dtls => t_dtls l | rtp => t_rtp l
  | srtp => t_srtp l | rtcp => t_rtcp l | rtx => t_rtx l | bwe => t_bwe l
  | score => t_score l | simulcast => t_simulcast l | svc => t_svc l
  | sctp => t_sctp l | message => t_message l
  end.

Record Configuration := mkConfiguration {
  logLevel : LogLevel;
  logTags : LogTags;
  rtcMinPort : Z;
  rtcMaxPort : Z;
  dtlsCertificateFile : list Z;
  dtlsPrivateKeyFile : list Z
}.

Definition newConfiguration : Configuration :=
  mkConfiguration LOG_ERROR newLogTags 10000 59999 [] [].

(** ** The environment of a call *)

Inductive stream := stdout | stderr.

Record Env := mkEnv {
  configuration : Configuration;
  channel : bool;                         (* Logger::channel is not null *)
  buffer : list Z;                        (* Logger::buffer *)
  sent : list (list Z * Z);               (* SendLog: the message and messageLen *)
  printed : list (stream * list Z)        (* fprintf *)
}.

Definition bufferSize : Z := 50000.

Definition set_configuration (c : Configuration) (e : Env) : Env :=
  mkEnv c (channel e) (buffer e) (sent e) (printed e).
Definition set_buffer (b : list Z) (e : Env) : Env :=
  mkEnv (configuration e) (channel e) b (sent e) (printed e).
Definition set_sent (s : list (list Z * Z)) (e : Env) : Env :=
  mkEnv (configuration e) (channel e) (buffer e) s (printed e).
Definition set_printed (p : list (stream * list Z)) (e : Env) : Env :=
  mkEnv (configuration e) (channel e) (buffer e) (sent e) p.

(** Exceptions: MediaSoupTypeError derives from MediaSoupError, which derives
    from std::exception. *)
Inductive exn :=
| MediaSoupError (what : list Z)
| MediaSoupTypeError (what : list Z)
| StdException (what : list Z).

Definition what (x : exn) : list Z :=
  match x with MediaSoupError w | MediaSoupTypeError w | StdException w => w end.

Definition M (A : Type) : Type := Env → res (Env * (exn + A)).

#[export] Instance M_ret : MRet M := λ A a e, Ok (e, inr a).
#[export] Instance M_bind : MBind M := λ A B f m e,
  '(e, r) ← m e;
  match r with inl x => Ok (e, inl x) | inr a => f a e end.

Definition throw {A} (x : exn) : M A := λ e, Ok (e, inl x).
Definition undefined {A} (f : fault) : M A := λ _, UB f.
Definition gets {A} (f : Env → A) : M A := λ e, Ok (e, inr (f e)).
Definition modify (f : Env → Env) : M unit := λ e, Ok (f e, inr ()).

(** [catch (const std::exception& error)] *)
Definition catch_any {A} (m : M A) (handler : exn → M A) : M A := λ e,
  '(e, r) ← m e;
  match r with inl x => handler x e | inr a => Ok (e, inr a) end.

(** [catch (const MediaSoupError& error)] *)
Definition catch_MediaSoupError {A} (m : M A) (handler : exn → M A) : M A := λ e,
  '(e, r) ← m e;
  match r with
  | inl (StdException w) => Ok (e, inl (StdException w))
  | inl x => handler x e
  | inr a => Ok (e, inr a)
  end.

(** ** Logger *)

Definition ClassInit (c : bool) (e : Env) : Env :=
  mkEnv (configuration e) c (buffer e) (sent e) (printed e).

(** [Logger::channel->SendLog(Logger::buffer, messageLen)].  The method is empty;
    the call on a null pointer is undefined all the same.  The message recorded
    is the part of the buffer that snprintf has filled. *)
Definition SendLog (messageLen : Z) : M unit := λ e,
  if channel e then
    Ok (set_sent (sent e ++
          [(take (Z.to_nat (Z.min messageLen (bufferSize - 1))) (buffer e), messageLen)]) e,
        inr ())
  else UB NullDeref.

(** [std::snprintf(Logger::buffer + off, Logger::bufferSize, ...)] *)
Definition print_to_buffer (off : Z) (text : list Z) : M Z := λ e,
  '(b, loggerWritten) ← snprintf (buffer e) off bufferSize text;
  Ok (set_buffer b e, inr loggerWritten).

Definition fprintf (s : stream) (text : list Z) : M unit :=
  modify (λ e, set_printed (printed e ++ [(s, text)]) e).

(** The place of a macro: MS_CLASS, __FUNCTION__ and MS_LOG_DEV_LEVEL there. *)
Record Site := mkSite { MS_CLASS : string; FUNCTION : string; MS_LOG_DEV_LEVEL : Z }.

Definition MS_LOG_STR (s : Site) : list Z :=
  str (MS_CLASS s) ++ str "::" ++ str (FUNCTION s) ++ str "()".
Definition MS_LOG_STR_DESC (s : Site) : list Z := MS_LOG_STR s ++ str " | ".
Definition separator : list Z := [10].

Definition MS_TAG_ENABLED (t : Tag) (c : Configuration) : bool := tag_of t (logTags c).
Definition MS_TAG_ENABLED_2 (t1 t2 : Tag) (c : Configuration) : bool :=
  tag_of t1 (logTags c) || tag_of t2 (logTags c).

Definition level_ge (c : Configuration) (l : LogLevel) : bool :=
  level_to_Z l <=? level_to_Z (logLevel c).
Definition level_debug (c : Configuration) : bool := level_to_Z (logLevel c) =? level_to_Z LOG_DEBUG.

Definition MS_HAS_DEBUG_TAG (t : Tag) (c : Configuration) : bool :=
  level_debug c && MS_TAG_ENABLED t c.
Definition MS_HAS_WARN_TAG (t : Tag) (c : Configuration) : bool :=
  level_ge c LOG_WARN && MS_TAG_ENABLED t c.

(** What the macros do when their condition holds. *)
Definition to_channel (letter : string) (s : Site) (desc : list Z) : M unit :=
  loggerWritten ← print_to_buffer 0 (str letter ++ MS_LOG_STR_DESC s ++ desc);
  SendLog loggerWritten.
Definition to_stream (out : stream) (s : Site) (desc : list Z) : M unit :=
  fprintf out (MS_LOG_STR_DESC s ++ desc ++ separator).

Definition when (cond : Configuration → bool) (m : M unit) : M unit :=
  c ← gets configuration; if (cond c : bool) then m else mret ().

Definition MS_DEBUG_TAG (t : Tag) (s : Site) (desc : list Z) : M unit :=
  when (λ c, level_debug c && MS_TAG_ENABLED t c) (to_channel "D" s desc).
Definition MS_DEBUG_TAG_STD (t : Tag) (s : Site) (desc : list Z) : M unit :=
  when (λ c, level_debug c && MS_TAG_ENABLED t c) (to_stream stdout s desc).
Definition MS_WARN_TAG (t : Tag) (s : Site) (desc : list Z) : M unit :=
  when (λ c, level_ge c LOG_WARN && MS_TAG_ENABLED t c) (to_channel "W" s desc).
Definition MS_WARN_TAG_STD (t : Tag) (s : Site) (desc : list Z) : M unit :=
  when (λ c, level_ge c LOG_WARN && MS_TAG_ENABLED t c) (to_stream stderr s desc).
Definition MS_DEBUG_2TAGS (t1 t2 : Tag) (s : Site) (desc : list Z) : M unit :=
  when (λ c, level_debug c && MS_TAG_ENABLED_2 t1 t2 c) (to_channel "D" s desc).
Definition MS_DEBUG_2TAGS_STD (t1 t2 : Tag) (s : Site) (desc : list Z) : M unit :=
  when (λ c, level_debug c && MS_TAG_ENABLED_2 t1 t2 c) (to_stream stdout s desc).
Definition MS_WARN_2TAGS (t1 t2 : Tag) (s : Site) (desc : list Z) : M unit :=
  when (λ c, level_ge c LOG_WARN && MS_TAG_ENABLED_2 t1 t2 c) (to_channel "W" s desc).
Definition MS_WARN_2TAGS_STD (t1 t2 : Tag) (s : Site) (desc : list Z) : M unit :=
  when (λ c, level_ge c LOG_WARN && MS_TAG_ENABLED_2 t1 t2 c) (to_stream stderr s desc).
Definition MS_DEBUG_DEV (s : Site) (desc : list Z) : M unit :=
  when (λ _, MS_LOG_DEV_LEVEL s =? 3) (to_channel "D" s desc).
Definition MS_DEBUG_DEV_STD (s : Site) (desc : list Z) : M unit :=
  when (λ _, MS_LOG_DEV_LEVEL s =? 3) (to_stream stdout s desc).
Definition MS_WARN_DEV (s : Site) (desc : list Z) : M unit :=
  when (λ _, 2 <=? MS_LOG_DEV_LEVEL s) (to_channel "W" s desc).
Definition MS_WARN_DEV_STD (s : Site) (desc : list Z) : M unit :=
  when (λ _, 2 <=? MS_LOG_DEV_LEVEL s) (to_stream stderr s desc).
Definition MS_DUMP (s : Site) (desc : list Z) : M unit := to_channel "X" s desc.
Definition MS_DUMP_STD (s : Site) (desc : list Z) : M unit := to_stream stdout s desc.
Definition MS_ERROR (s : Site) (desc : list Z) : M unit :=
  when (λ c, level_ge c LOG_ERROR || (1 <=? MS_LOG_DEV_LEVEL s)) (to_channel "E" s desc).
Definition MS_ERROR_STD (s : Site) (desc : list Z) : M unit :=
  when (λ c, level_ge c LOG_ERROR || (1 <=? MS_LOG_DEV_LEVEL s)) (to_stream stderr s desc).

(** MS_ABORT prints to stderr and stops the process. *)
Definition MS_ABORT {A} (desc : string) : M A := λ _, Aborted desc.
Definition MS_ASSERT (condition : bool) (desc : string) : M unit :=
  if condition then mret () else MS_ABORT desc.

(** The sixteen characters of [MS_UINT16_TO_BINARY(value)]. *)
Definition bit_char (value mask : Z) : Z := if Z.land value mask =? 0 then 48 else 49.
Definition MS_UINT16_TO_BINARY (value : Z) : list Z :=
  [bit_char value 0x8000; bit_char value 0x4000; bit_char value 0x2000; bit_char value 0x1000;
   bit_char value 0x800; bit_char value 0x400; bit_char value 0x200; bit_char value 0x100;
   bit_char value 0x80; bit_char value 0x40; bit_char value 0x20; bit_char value 0x10;
   bit_char value 0x08; bit_char value 0x04; bit_char value 0x02; bit_char value 0x01].

(** *** MS_DUMP_DATA: eight bytes to a line *)

(** [if (i % 8 == 0) ...]: a new line, after the one before has been sent. *)
Definition dump_newline (start : Z → list Z) (flush : Z → M unit) (i bufferDataLen : Z) : M Z :=
  if i mod 8 =? 0 then
    n ← (if bufferDataLen =? 0 then mret bufferDataLen
         else _ ← flush bufferDataLen; mret 0);
    loggerWritten ← print_to_buffer n (start (u32 i));
    mret (n + loggerWritten)
  else mret bufferDataLen.

(** One round of the loop, at index [i]; the state is [bufferDataLen]. *)
Definition dump_byte (start : Z → list Z) (flush : Z → M unit) (data : list Z) (i bufferDataLen : Z) :
    M Z :=
  bufferDataLen ← dump_newline start flush i bufferDataLen;
  b ← (λ e, x ← data.[i]; Ok (e, inr x) : res (Env * (exn + Z)));
  loggerWritten ← print_to_buffer bufferDataLen (fmt_X 2 b ++ str " ");
  mret (bufferDataLen + loggerWritten).

Fixpoint dump_loop (start : Z → list Z) (flush : Z → M unit) (data : list Z) (rounds : nat)
    (i bufferDataLen : Z) : M Z :=
  match rounds with
  | O => mret bufferDataLen
  | S r =>
      bufferDataLen ← dump_byte start flush data i bufferDataLen;
      dump_loop start flush data r (i + 1) bufferDataLen
  end.

Definition dump_start (i : Z) : list Z := str "X" ++ fmt_X 6 i ++ str " ".
Definition MS_DUMP_DATA (s : Site) (data : list Z) (len : Z) : M unit :=
  loggerWritten ← print_to_buffer 0 (str "X(data) " ++ MS_LOG_STR s);
  _ ← SendLog loggerWritten;
  bufferDataLen ← dump_loop dump_start SendLog data (Z.to_nat len) 0 0;
  if bufferDataLen =? 0 then mret () else SendLog bufferDataLen.

(** [Logger::buffer[n] = '\0'; std::fprintf(stdout, "%s", Logger::buffer)] *)
Definition print_buffer (n : Z) : M unit := λ e,
  b ← wr (buffer e) n 0;
  fprintf stdout (c_str b) (set_buffer b e).

Definition dump_start_STD (i : Z) : list Z := separator ++ fmt_X 6 i ++ str " ".
Definition MS_DUMP_DATA_STD (s : Site) (data : list Z) (len : Z) : M unit :=
  _ ← fprintf stdout (str "(data) " ++ MS_LOG_STR s ++ separator);
  bufferDataLen ← dump_loop dump_start_STD print_buffer data (Z.to_nat len) 0 0;
  if bufferDataLen =? 0 then mret () else print_buffer bufferDataLen.

(** ** Exceptions *)

(** [static char buffer[2000]; snprintf(buffer, 2000, ...)], then the C string. *)
Definition description (desc : list Z) : list Z := c_str (take 1999 desc ++ [0]).

Definition MS_THROW_ERROR {A} (s : Site) (desc : list Z) : M A :=
  _ ← MS_ERROR s (str "throwing MediaSoupError: " ++ desc);
  throw (MediaSoupError (description desc)).
Definition MS_THROW_ERROR_STD {A} (s : Site) (desc : list Z) : M A :=
  _ ← MS_ERROR_STD s (str "throwing MediaSoupError: " ++ desc);
  throw (MediaSoupError (description desc)).
Definition MS_THROW_TYPE_ERROR {A} (s : Site) (desc : list Z) : M A :=
  _ ← MS_ERROR s (str "throwing MediaSoupTypeError: " ++ desc);
  throw (MediaSoupTypeError (description desc)).
Definition MS_THROW_TYPE_ERROR_STD {A} (s : Site) (desc : list Z) : M A :=
  _ ← MS_ERROR_STD s (str "throwing MediaSoupTypeError: " ++ desc);
  throw (MediaSoupTypeError (description desc)).

(** * Proofs *)

Definition wpm {A} (m : M A) (e : Env) (Q : Env → exn + A → Prop) : Prop :=
  wp (m e) (λ '(e', r), Q e' r).

Lemma wpm_bind {A B} (m : M A) (f : A → M B) e Q :
  wpm m e (λ e' r, match r with inl x => Q e' (inl x) | inr a => wpm (f a) e' Q end) →
  wpm (m ≫= f) e Q.
Proof.
  unfold wpm, mbind, M_bind. destruct (m e) as [[e' [x|a]]| | | |]; simpl; done.
Qed.

Lemma wpm_ret {A} (a : A) e (Q : Env → exn + A → Prop) : Q e (inr a) → wpm (mret a) e Q.
Proof. done. Qed.

Lemma wpm_mono {A} (m : M A) e (P Q : Env → exn + A → Prop) :
  wpm m e P → (∀ e' r, P e' r → Q e' r) → wpm m e Q.
Proof. intros H HPQ. eapply wp_mono; [done|]. intros [e' r]. apply HPQ. Qed.

(** The logger can be used: a channel is installed, the buffer has its size. *)
Definition logging (e : Env) : Prop := channel e = true ∧ zlen (buffer e) = bufferSize.

(** What a log call may change: the buffer, what was sent, what was printed. *)
Definition only_logged (e e' : Env) : Prop :=
  configuration e' = configuration e ∧ (logging e → logging e').

#[export] Instance only_logged_preorder : PreOrder only_logged.
Proof. split; [done|]. intros e1 e2 e3 [? ?] [? ?]. split; [congruence|tauto]. Qed.

(** Text that fits goes behind what the buffer holds already. *)
Lemma print_to_buffer_fits e pre text :
  zlen (buffer e) = bufferSize → take (length pre) (buffer e) = pre →
  zlen pre + zlen text < bufferSize →
  ∃ b, print_to_buffer (zlen pre) text e = Ok (set_buffer b e, inr (zlen text)) ∧
    zlen b = bufferSize ∧ take (length (pre ++ text)) b = pre ++ text.
Proof.
  intros Hb Hp Hl. unfold print_to_buffer, snprintf.
  pose proof (zlen_nonneg pre). pose proof (zlen_nonneg text). unfold bufferSize in *.
  destruct (Z.leb_spec 50000 0); [lia|].
  rewrite (take_ge text) by (unfold zlen in *; lia).
  rewrite memcpy_at by (autorewrite with zlen; lia). eexists. split; [done|].
  unfold zlen in *. rewrite Nat2Z.id, Hp. split.
  - rewrite !length_app, length_drop, ?length_app. simpl. lia.
  - rewrite <- app_assoc, app_assoc. by rewrite take_app_length.
Qed.

(** A line from the start of the buffer, of any length: what does not fit is
    cut, and the length reported is that of the whole text. *)
Lemma print_to_buffer_start e text :
  zlen (buffer e) = bufferSize →
  ∃ b, print_to_buffer 0 text e = Ok (set_buffer b e, inr (zlen text)) ∧ zlen b = bufferSize ∧
    take (Z.to_nat (Z.min (zlen text) (bufferSize - 1))) b = take (Z.to_nat (bufferSize - 1)) text.
Proof.
  intros Hb. unfold print_to_buffer, snprintf. unfold bufferSize in *.
  destruct (Z.leb_spec 50000 0); [lia|]. set (t := take (Z.to_nat (50000 - 1)) text).
  assert (length t = Z.to_nat (Z.min (zlen text) (50000 - 1))) as Ht.
  { unfold t, zlen. rewrite length_take. lia. }
  rewrite memcpy_at by (unfold zlen in *; rewrite ?length_app; simpl; lia).
  eexists. split; [done|]. rewrite <- Ht. unfold zlen in *. split.
  - rewrite !length_app, length_drop, length_take, ?length_app. simpl. lia.
  - simpl. rewrite <- app_assoc. by rewrite take_app_length.
Qed.

Definition log_text (letter : string) (s : Site) (desc : list Z) : list Z :=
  str letter ++ MS_LOG_STR_DESC s ++ desc.

(** A line sent: at most 49999 bytes of the text, with the text's own length. *)
Definition log_entry (text : list Z) : list Z * Z :=
  (take (Z.to_nat (bufferSize - 1)) text, zlen text).

Lemma to_channel_sends letter s desc e :
  logging e →
  ∃ b, zlen b = bufferSize ∧
    to_channel letter s desc e =
      Ok (set_sent (sent e ++ [log_entry (log_text letter s desc)]) (set_buffer b e), inr ()).
Proof.
  intros [Hc Hb].
  destruct (print_to_buffer_start e (log_text letter s desc) Hb) as (b & E & Hl & Ht).
  exists b. split; [done|]. unfold to_channel, mbind, M_bind. fold (log_text letter s desc).
  rewrite E. simpl. unfold SendLog. simpl. rewrite Hc. unfold log_entry. by rewrite <- Ht.
Qed.

Lemma to_channel_null letter s desc e :
  channel e = false → zlen (buffer e) = bufferSize → to_channel letter s desc e = UB NullDeref.
Proof.
  intros Hc Hb.
  destruct (print_to_buffer_start e (log_text letter s desc) Hb) as (b & E & _).
  unfold to_channel, mbind, M_bind. fold (log_text letter s desc).
  rewrite E. simpl. unfold SendLog. simpl. by rewrite Hc.
Qed.

(** The state after a line: used by every macro that logs to the channel. *)
Lemma to_channel_logs letter s desc e :
  logging e →
  wpm (to_channel letter s desc) e (λ e' r,
    r = inr () ∧ only_logged e e' ∧ logging e' ∧
    sent e' = sent e ++ [log_entry (log_text letter s desc)]).
Proof.
  intros He. destruct (to_channel_sends letter s desc e He) as (b & Hb & E).
  unfold wpm. rewrite E. simpl. destruct He. done.
Qed.

Lemma when_logs cond letter s desc e :
  logging e →
  wpm (when cond (to_channel letter s desc)) e (λ e' r,
    r = inr () ∧ only_logged e e' ∧ logging e' ∧
    sent e' = sent e ++ (if cond (configuration e) then [log_entry (log_text letter s desc)] else [])).
Proof.
  intros He. unfold when. apply wpm_bind. unfold gets. simpl.
  destruct (cond (configuration e)) eqn:Hc.
  - unfold wpm at 1. simpl. rewrite Hc. by apply to_channel_logs.
  - unfold wpm at 1. simpl. rewrite Hc. apply wpm_ret. by rewrite app_nil_r.
Qed.

(** A macro that is enabled faults without a channel, and is silent otherwise. *)
Lemma when_null cond letter s desc e :
  channel e = false → zlen (buffer e) = bufferSize →
  when cond (to_channel letter s desc) e =
    if cond (configuration e) then UB NullDeref else Ok (e, inr ()).
Proof.
  intros Hc Hb. unfold when, mbind, M_bind, gets. simpl.
  destruct (cond (configuration e)); [|done]. by apply to_channel_null.
Qed.

Lemma length_description desc : (length (description desc) ≤ 1999)%nat.
Proof.
  unfold description.
  assert (∀ l : list Z, (length (c_str (l ++ [0%Z])) ≤ length l)%nat) as Hl.
  { induction l as [|c l IH]; [simpl; lia|]. simpl. destruct (c =? 0); simpl; lia. }
  etrans; [apply Hl|]. rewrite length_take. lia.
Qed.

Lemma MS_THROW_TYPE_ERROR_throws {A} s desc e :
  logging e →
  wpm (MS_THROW_TYPE_ERROR (A:=A) s desc) e (λ e' r,
    r = inl (MediaSoupTypeError (description desc)) ∧ only_logged e e' ∧ logging e').
Proof.
  intros He. unfold MS_THROW_TYPE_ERROR. apply wpm_bind.
  eapply wpm_mono; [by apply when_logs|]. by intros e' r (-> & Ho & Hl & _).
Qed.

Lemma MS_THROW_ERROR_throws {A} s desc e :
  logging e →
  wpm (MS_THROW_ERROR (A:=A) s desc) e (λ e' r,
    r = inl (MediaSoupError (description desc)) ∧ only_logged e e' ∧ logging e').
Proof.
  intros He. unfold MS_THROW_ERROR. apply wpm_bind.
  eapply wpm_mono; [by apply when_logs|]. by intros e' r (-> & Ho & Hl & _).
Qed.

(** C37: what a thrown MediaSoupTypeError leaves behind.  With a log channel the
    exception carries at most 1999 bytes of its text, the configuration is as
    before, and one line of level E has been sent exactly when errors are logged;
    without a channel (the program never installs one) the same statement is
    undefined behaviour when errors are logged, which they are by default, and
    throws in silence when they are not. *)
Theorem throw_type_error_outcome s desc e :
  zlen (buffer e) = bufferSize →
  let logs := level_ge (configuration e) LOG_ERROR || (1 <=? MS_LOG_DEV_LEVEL s) in
  let text := log_text "E" s (str "throwing MediaSoupTypeError: " ++ desc) in
  if logs && negb (channel e) then MS_THROW_TYPE_ERROR (A:=unit) s desc e = UB NullDeref
  else wpm (MS_THROW_TYPE_ERROR (A:=unit) s desc) e (λ e' r,
    r = inl (MediaSoupTypeError (description desc)) ∧ zlen (description desc) ≤ 1999 ∧
    configuration e' = configuration e ∧
    sent e' = sent e ++ (if logs then [log_entry text] else [])).
Proof.
  intros Hb logs text.
  assert (zlen (description desc) ≤ 1999) by (unfold zlen; pose proof (length_description desc); lia).
  destruct (channel e) eqn:Hc.
  - rewrite andb_false_r. unfold MS_THROW_TYPE_ERROR. apply wpm_bind.
    eapply wpm_mono; [by apply when_logs|]. intros e' r (-> & [? _] & _ & Hs).
    by unfold throw, wpm.
  - rewrite andb_true_r. destruct logs eqn:El;
      unfold wpm, MS_THROW_TYPE_ERROR, MS_ERROR, mbind, M_bind;
      rewrite when_null by done; fold logs; rewrite El; [done|].
    simpl. by rewrite app_nil_r.
Qed.

Definition quiet_env : Env := mkEnv newConfiguration false (replicate 50000 0) [] [].
Definition logging_env : Env := ClassInit true quiet_env.

Lemma quiet_buffer : zlen (buffer quiet_env) = bufferSize.
Proof. vm_compute. reflexivity. Qed.

Lemma logging_env_ok : logging logging_env.
Proof. split; [reflexivity|apply quiet_buffer]. Qed.

Lemma throw_type_error_outcome_witness :
  zlen (buffer quiet_env) = bufferSize ∧
  MS_THROW_TYPE_ERROR (A:=unit) (mkSite "Settings" "SetLogLevel" 0) (str "invalid") quiet_env
    = UB NullDeref.
Proof.
  split; [exact quiet_buffer|].
  exact (throw_type_error_outcome (mkSite "Settings" "SetLogLevel" 0) (str "invalid") quiet_env
           quiet_buffer).
Defined.

(** ** Binary text *)

(** The sixteen characters are the value in base two. *)
Lemma binary_roundtrip value : fits 16 value → undigits 2 ((λ c, c - 48) <$> MS_UINT16_TO_BINARY value) = value.
Proof.
  intros Hv. apply Z.eqb_eq.
  apply (forall_from_true (λ v, undigits 2 ((λ c, c - 48) <$> MS_UINT16_TO_BINARY v) =? v)
           (Z.to_nat 65536) 0); [vm_compute; reflexivity|].
  rewrite Z2Nat.id by lia. unfold fits in Hv. lia.
Qed.

(** ** The hexadecimal dump *)

Definition dump_group (b : Z) : list Z := fmt_X 2 b ++ str " ".
(** A line: the index of its first byte, then the bytes. *)
Definition dump_line (i : Z) (bs : list Z) : list Z := dump_start i ++ concat (dump_group <$> bs).

(** Reading a line back: what follows the first blank, three characters a byte. *)
Fixpoint after_blank (l : list Z) : list Z :=
  match l with [] => [] | c :: rest => if c =? 32 then rest else after_blank rest end.
Fixpoint read_groups (l : list Z) : list Z :=
  match l with a :: b :: _ :: rest => read_X [a; b] :: read_groups rest | _ => [] end.
Definition dumped_bytes (l : list Z) : list Z := read_groups (after_blank l).

Lemma after_blank_hex pre rest : Forall is_hex pre → after_blank (pre ++ 32 :: rest) = rest.
Proof.
  induction 1 as [|c l Hc _ IH]; [done|]. simpl. unfold is_hex in Hc.
  destruct (Z.eqb_spec c 32); [lia|done].
Qed.

Lemma read_dump_groups bs : bytes_ok bs → read_groups (concat (dump_group <$> bs)) = bs.
Proof.
  induction 1 as [|b bs Hb _ IH]; [done|]. rewrite fmap_cons. cbn [concat].
  unfold dump_group at 1. unfold is_byte in Hb.
  pose proof (length_fmt_X 1 b ltac:(simpl; lia)) as Hl. pose proof (read_fmt_X 2 b ltac:(lia)) as Hr.
  destruct (fmt_X 2 b) as [|x [|y [|]]]; try done. simpl. by rewrite Hr, IH.
Qed.

Lemma dumped_line i bs : 0 ≤ i → bytes_ok bs → dumped_bytes (dump_line i bs) = bs.
Proof.
  intros Hi Hb. unfold dumped_bytes, dump_line, dump_start. simpl.
  rewrite <- app_assoc. simpl. rewrite after_blank_hex by by apply fmt_X_is_hex.
  by apply read_dump_groups.
Qed.

Lemma zlen_dump_group b : is_byte b → zlen (dump_group b) = 3.
Proof.
  unfold is_byte. intros. unfold dump_group, zlen. rewrite length_app.
  rewrite (length_fmt_X 1) by (simpl; lia). done.
Qed.

Lemma zlen_dump_start i : fits 32 i → zlen (dump_start i) ≤ 10.
Proof.
  unfold fits. intros. unfold dump_start, fmt_X, pad0, zlen.
  rewrite !length_app, length_replicate, length_fmap.
  pose proof (digits_length 16 i 7 ltac:(lia) ltac:(simpl; lia)). simpl. lia.
Qed.

Lemma zlen_dump_line i bs : fits 32 i → bytes_ok bs → zlen (dump_line i bs) ≤ 10 + 3 * zlen bs.
Proof.
  intros Hi Hb. unfold dump_line. rewrite zlen_app. pose proof (zlen_dump_start i Hi).
  enough (zlen (concat (dump_group <$> bs)) = 3 * zlen bs) by lia.
  clear -Hb. induction Hb as [|b bs Hb _ IH]; [done|]. rewrite fmap_cons. cbn [concat].
  rewrite zlen_app, zlen_cons, zlen_dump_group, IH by done. lia.
Qed.

Lemma dump_line_snoc i bs b : dump_line i (bs ++ [b]) = dump_line i bs ++ dump_group b.
Proof.
  unfold dump_line. rewrite fmap_app, concat_app. simpl. by rewrite app_nil_r, app_assoc.
Qed.

Lemma zlen_dump_line_pos i bs : zlen (dump_line i bs) ≠ 0.
Proof. unfold dump_line, dump_start, zlen. simpl. lia. Qed.

(** A line is given by the index of its first byte and its bytes. *)
Definition line_ok (p : Z * list Z) : Prop := fits 32 p.1 ∧ bytes_ok p.2 ∧ zlen p.2 ≤ 8.
Definition sent_line (p : Z * list Z) : list Z * Z :=
  (dump_line p.1 p.2, zlen (dump_line p.1 p.2)).

Lemma read_lines lines :
  Forall line_ok lines →
  Forall (λ l, zlen l ≤ 34) (uncurry dump_line <$> lines) ∧
  concat (dumped_bytes <$> (uncurry dump_line <$> lines)) = concat (snd <$> lines).
Proof.
  induction 1 as [|[k l] ls (Hk & Hb & Hl) _ [IH1 IH2]]; [done|]. simpl in *. split.
  - constructor; [|done]. pose proof (zlen_dump_line k l Hk Hb). simpl. lia.
  - rewrite dumped_line; [by f_equal| |done]. unfold fits in Hk. lia.
Qed.

(** The loop after [i] bytes: the lines sent, and the line in the buffer. *)
Inductive dumping (data : list Z) (before : list (list Z * Z)) (i n : Z) (e : Env) : Prop :=
| dumping_intro (lines : list (Z * list Z)) (line : Z) (bs : list Z) :
    logging e →
    sent e = before ++ (sent_line <$> lines) →
    Forall line_ok lines →
    take (Z.to_nat i) data = concat (snd <$> lines) ++ bs →
    fits 32 line → bytes_ok bs →
    (i = 0 ∧ bs = [] ∧ n = 0 ∨
     0 < i ∧ zlen bs = (i - 1) mod 8 + 1 ∧ n = zlen (dump_line line bs) ∧
       take (length (dump_line line bs)) (buffer e) = dump_line line bs) →
    dumping data before i n e.

Lemma send_line e l :
  logging e → take (length l) (buffer e) = l → zlen l < bufferSize →
  SendLog (zlen l) e = Ok (set_sent (sent e ++ [(l, zlen l)]) e, inr ()).
Proof.
  intros [Hc Hb] Hl Hs. unfold SendLog. rewrite Hc. unfold bufferSize in *.
  rewrite Z.min_l by lia. unfold zlen at 1. by rewrite Nat2Z.id, Hl.
Qed.

(** The buffer holds the start of the line that byte [i] belongs to. *)
Inductive line_open (data : list Z) (before : list (list Z * Z)) (i n : Z) (e : Env) : Prop :=
| line_open_intro (lines : list (Z * list Z)) (line : Z) (bs : list Z) :
    logging e →
    sent e = before ++ (sent_line <$> lines) →
    Forall line_ok lines →
    take (Z.to_nat i) data = concat (snd <$> lines) ++ bs →
    fits 32 line → bytes_ok bs → zlen bs = i mod 8 →
    n = zlen (dump_line line bs) →
    take (length (dump_line line bs)) (buffer e) = dump_line line bs →
    line_open data before i n e.

Lemma print_line_start data before lines i e :
  logging e →
  sent e = before ++ (sent_line <$> lines) →
  Forall line_ok lines →
  take (Z.to_nat i) data = concat (snd <$> lines) → i mod 8 = 0 →
  wpm (loggerWritten ← print_to_buffer 0 (dump_start (u32 i)); mret (0 + loggerWritten)) e
    (λ e' r, ∃ n', r = inr n' ∧ line_open data before i n' e').
Proof.
  intros [Hc Hb] Hs Hf Ht Hi. pose proof (wrap_bound 32 i ltac:(lia)) as Hw.
  pose proof (zlen_dump_start _ Hw).
  destruct (print_to_buffer_fits e [] (dump_start (u32 i))) as (b & E & Hl & Htk);
    [done|done|rewrite zlen_nil; unfold bufferSize; lia|].
  rewrite zlen_nil in E. unfold wpm, mbind, M_bind. rewrite E. simpl.
  eexists. split; [done|]. econstructor; try done; [by rewrite app_nil_r| |];
    by unfold dump_line; simpl; rewrite app_nil_r.
Qed.

Lemma dump_newline_opens data before i n e :
  bytes_ok data → 0 ≤ i → dumping data before i n e →
  wpm (dump_newline dump_start SendLog i n) e
    (λ e' r, ∃ n', r = inr n' ∧ line_open data before i n' e').
Proof.
  intros Hd Hi [lines line bs He Hs Hf Ht Hw Hb Hst]. unfold dump_newline.
  destruct (Z.eqb_spec (i mod 8) 0) as [Hm|Hm].
  - destruct Hst as [(-> & -> & ->)|(Hp & Hlen & -> & Hbuf)].
    + apply wpm_bind. simpl. unfold wpm. simpl. apply (print_line_start _ _ lines); try done.
      by rewrite Ht, app_nil_r.
    + destruct (Z.eqb_spec (zlen (dump_line line bs)) 0) as [Hz|_]; [by apply zlen_dump_line_pos in Hz|].
      pose proof (zlen_dump_line line bs Hw Hb).
      assert (zlen bs = 8) by zdm.
      apply wpm_bind, wpm_bind. unfold wpm.
      rewrite (send_line e _ He Hbuf) by (unfold bufferSize; lia). simpl.
      apply (print_line_start _ _ (lines ++ [(line, bs)])); try done.
      * simpl. by rewrite Hs, fmap_app, <- app_assoc.
      * apply Forall_app_2; [done|]. apply Forall_singleton. by split_and!; simpl; try lia.
      * rewrite Ht, fmap_app, concat_app. simpl. by rewrite app_nil_r.
  - apply wpm_ret. eexists. split; [done|].
    destruct Hst as [(-> & _ & _)|(Hp & Hlen & -> & Hbuf)]; [done|].
    econstructor; try done. rewrite Hlen. zdm.
Qed.

Lemma dump_byte_step data before i n e :
  bytes_ok data → 0 ≤ i < zlen data → dumping data before i n e →
  wpm (dump_byte dump_start SendLog data i n) e
    (λ e' r, ∃ n', r = inr n' ∧ dumping data before (i + 1) n' e').
Proof.
  intros Hd Hi Hdump. unfold dump_byte. apply wpm_bind.
  eapply wpm_mono; [apply dump_newline_opens; [done|lia|done]|].
  intros e1 r (n1 & -> & [lines line bs [Hc Hl] Hs Hf Ht Hw Hb Hlen -> Hbuf]).
  destruct (rd_in data i Hi) as [b Hrd]. pose proof (rd_is_byte _ _ _ Hd Hrd) as Hbb.
  pose proof (zlen_dump_line line bs Hw Hb). pose proof (zlen_dump_group b Hbb).
  assert (i mod 8 < 8) by (apply Z.mod_pos_bound; lia).
  destruct (print_to_buffer_fits e1 (dump_line line bs) (dump_group b)) as (b' & E & Hl' & Ht');
    [done|done|unfold bufferSize; lia|].
  apply wpm_bind. unfold wpm. rewrite Hrd. cbn [mbind res_bind wp].
  change (fmt_X 2 b ++ str " ") with (dump_group b). apply wpm_bind. unfold wpm.
  rewrite E. simpl.
  eexists. split; [done|]. rewrite <- dump_line_snoc in Ht'.
  apply (dumping_intro _ _ _ _ _ lines line (bs ++ [b])); try done.
  - apply rd_Ok in Hrd as [_ Hx].
    replace (Z.to_nat (i + 1)) with (S (Z.to_nat i)) by lia.
    by rewrite (take_S_r _ _ _ Hx), Ht, app_assoc.
  - apply Forall_app_2; [done|]. by apply Forall_singleton.
  - right. split_and!; [lia| |by rewrite dump_line_snoc, zlen_app|done].
    rewrite zlen_app, Hlen, zlen_cons, zlen_nil. replace (i + 1 - 1) with i by lia. lia.
Qed.

Lemma dump_loop_dumps data before rounds i n e :
  bytes_ok data → 0 ≤ i → i + Z.of_nat rounds ≤ zlen data → dumping data before i n e →
  wpm (dump_loop dump_start SendLog data rounds i n) e
    (λ e' r, ∃ n', r = inr n' ∧ dumping data before (i + Z.of_nat rounds) n' e').
Proof.
  intros Hd. revert i n e. induction rounds as [|k IH]; intros i n e Hi Hle Hdump; simpl dump_loop.
  - apply wpm_ret. exists n. split; [done|]. by rewrite Z.add_0_r.
  - apply wpm_bind. eapply wpm_mono; [apply dump_byte_step; [done|lia|done]|].
    intros e' r (n' & -> & Hdump').
    replace (i + Z.of_nat (S k)) with (i + 1 + Z.of_nat k) by lia. apply IH; [lia|lia|done].
Qed.

(** The last line. *)
Lemma dump_end data before n e :
  dumping data before (zlen data) n e →
  ∃ e' lines,
    ((if n =? 0 then mret () else SendLog n) : M unit) e = Ok (e', inr ()) ∧ logging e' ∧
    sent e' = before ++ ((λ l, (l, zlen l)) <$> lines) ∧
    Forall (λ l, zlen l ≤ 34) lines ∧ concat (dumped_bytes <$> lines) = data.
Proof.
  intros [lines line bs He Hs Hf Ht Hw Hb Hst].
  unfold zlen in Ht at 1. rewrite Nat2Z.id, take_ge in Ht by done.
  assert (sent_line <$> lines = (λ l, (l, zlen l)) <$> (uncurry dump_line <$> lines)) as Hsl.
  { rewrite <- list_fmap_compose. apply list_fmap_ext. by intros ? [] _. }
  destruct Hst as [(Hi & -> & ->)|(Hp & Hlen & -> & Hbuf)].
  - exists e, (uncurry dump_line <$> lines). destruct (read_lines lines Hf) as [H34 Hc].
    split_and!; [done|done|by rewrite Hs, Hsl|done|]. by rewrite Hc, Ht, app_nil_r.
  - destruct (Z.eqb_spec (zlen (dump_line line bs)) 0) as [Hz|_]; [by apply zlen_dump_line_pos in Hz|].
    assert (line_ok (line, bs)) as Hok by (split_and!; [done|done|simpl; zdm]).
    pose proof (zlen_dump_line line bs Hw Hb).
    rewrite (send_line e _ He Hbuf) by (unfold bufferSize; zdm).
    destruct (read_lines (lines ++ [(line, bs)])) as [H34 Hc]; [by apply Forall_app_2; [|apply Forall_singleton]|].
    eexists _, (uncurry dump_line <$> (lines ++ [(line, bs)])).
    split_and!; [done|done| |done|].
    + simpl. by rewrite Hs, Hsl, fmap_app, fmap_app, <- app_assoc.
    + rewrite Hc, Ht, fmap_app, concat_app. simpl. by rewrite app_nil_r.
Qed.

(** MS_DUMP_DATA stays inside the log buffer for any number of bytes and
    prints them faithfully: after its heading it sends lines of at most 34
    characters, each with its exact length, and the bytes read back from the
    lines are the data. *)
Lemma dump_data_roundtrip s data e :
  logging e → bytes_ok data →
  wpm (MS_DUMP_DATA s data (zlen data)) e (λ e' r,
    r = inr () ∧ logging e' ∧
    ∃ lines : list (list Z),
      sent e' = sent e ++ log_entry (str "X(data) " ++ MS_LOG_STR s) :: ((λ l, (l, zlen l)) <$> lines) ∧
      Forall (λ l, zlen l ≤ 34) lines ∧
      concat (dumped_bytes <$> lines) = data).
Proof.
  intros [Hc Hb] Hd. unfold MS_DUMP_DATA. set (head := str "X(data) " ++ MS_LOG_STR s).
  destruct (print_to_buffer_start e head Hb) as (b & E & Hl & Ht).
  apply wpm_bind. unfold wpm at 1. rewrite E. cbn [wp].
  apply wpm_bind. unfold wpm at 1, SendLog at 1. cbn [channel buffer sent set_buffer].
  rewrite Hc, Ht. cbn [wp]. apply wpm_bind. eapply wpm_mono.
  { apply (dump_loop_dumps data (sent e ++ [log_entry head])); [done|lia| |].
    - pose proof (zlen_nonneg data). rewrite Z2Nat.id; lia.
    - apply (dumping_intro _ _ _ _ _ [] 0 []); [done| |done|done|done|done|by left].
      by rewrite app_nil_r. }
  intros e2 r (n & -> & Hdump). rewrite Z2Nat.id, Z.add_0_l in Hdump by apply zlen_nonneg.
  destruct (dump_end _ _ _ _ Hdump) as (e' & lines & Hend & He' & Hs & H34 & Hc').
  cbv beta iota. unfold wpm. rewrite Hend. split_and!; [done|done|]. exists lines. split_and!; [|done|done].
  by rewrite Hs, <- app_assoc.
Qed.

Lemma dump_data_roundtrip_witness :
  logging logging_env ∧ bytes_ok [1; 171; 255] ∧
  wpm (MS_DUMP_DATA (mkSite "Logger" "main" 0) [1; 171; 255] (zlen [1; 171; 255])) logging_env
    (λ e' r, r = inr () ∧ logging e' ∧
       ∃ lines : list (list Z),
         sent e' = sent logging_env ++
           log_entry (str "X(data) " ++ MS_LOG_STR (mkSite "Logger" "main" 0)) ::
             ((λ l, (l, zlen l)) <$> lines) ∧
         Forall (λ l, zlen l ≤ 34) lines ∧ concat (dumped_bytes <$> lines) = [1; 171; 255]).
Proof.
  assert (bytes_ok [1; 171; 255]) as Hb by (repeat constructor; done).
  split_and!; [exact logging_env_ok|exact Hb|].
  exact (dump_data_roundtrip (mkSite "Logger" "main" 0) _ _ logging_env_ok Hb).
Defined.
