(* ===== verification/ByteOps.v ===== *)
(** Utils::Byte and Utils::Bits (src/common/utils.h): network byte order
    getters and setters on raw buffers, and 32-bit padding.  The getters and
    setters are related to the big-endian specification [of_be]/[to_be] of the
    prelude. *)
From S2P Require Import Prelude.

Module Byte.

Definition Get1Byte (data : list Z) (i : Z) : res Z := data.[i].

Definition Get2Bytes (data : list Z) (i : Z) : res Z :=
  b1 ← data.[i + 1]; b0 ← data.[i];
  Ok (u16 (Z.lor b1 (Z.shiftl b0 8))).

Definition Get3Bytes (data : list Z) (i : Z) : res Z :=
  b2 ← data.[i + 2]; b1 ← data.[i + 1]; b0 ← data.[i];
  Ok (u32 (Z.lor (Z.lor b2 (Z.shiftl b1 8)) (Z.shiftl b0 16))).

Definition Get4Bytes (data : list Z) (i : Z) : res Z :=
  b3 ← data.[i + 3]; b2 ← data.[i + 2]; b1 ← data.[i + 1]; b0 ← data.[i];
  Ok (u32 (Z.lor (Z.lor (Z.lor b3 (Z.shiftl b2 8)) (Z.shiftl b1 16))
             (Z.shiftl b0 24))).

Definition Get8Bytes (data : list Z) (i : Z) : res Z :=
  hi ← Get4Bytes data i; lo ← Get4Bytes data (i + 4);
  Ok (u64 (Z.lor (Z.shiftl hi 32) lo)).

Definition Set1Byte (data : list Z) (i value : Z) : res (list Z) :=
  wr data i (u8 value).

Definition Set2Bytes (data : list Z) (i value : Z) : res (list Z) :=
  d ← wr data (i + 1) (u8 value);
  wr d i (u8 (Z.shiftr value 8)).

Definition Set3Bytes (data : list Z) (i value : Z) : res (list Z) :=
  d ← wr data (i + 2) (u8 value);
  d ← wr d (i + 1) (u8 (Z.shiftr value 8));
  wr d i (u8 (Z.shiftr value 16)).

Definition Set4Bytes (data : list Z) (i value : Z) : res (list Z) :=
  d ← wr data (i + 3) (u8 value);
  d ← wr d (i + 2) (u8 (Z.shiftr value 8));
  d ← wr d (i + 1) (u8 (Z.shiftr value 16));
  wr d i (u8 (Z.shiftr value 24)).

Definition Set8Bytes (data : list Z) (i value : Z) : res (list Z) :=
  d ← wr data (i + 7) (u8 value);
  d ← wr d (i + 6) (u8 (Z.shiftr value 8));
  d ← wr d (i + 5) (u8 (Z.shiftr value 16));
  d ← wr d (i + 4) (u8 (Z.shiftr value 24));
  d ← wr d (i + 3) (u8 (Z.shiftr value 32));
  d ← wr d (i + 2) (u8 (Z.shiftr value 40));
  d ← wr d (i + 1) (u8 (Z.shiftr value 48));
  wr d i (u8 (Z.shiftr value 56)).

(** The two overloads of [PadTo4Bytes]; the sum is an [int] that the return
    converts back to the parameter's width. *)
Definition PadTo4Bytes16 (size : Z) : Z :=
  if Z.land size 0x03 =? 0 then size else u16 (Z.land size 0xFFFC + 4).

Definition PadTo4Bytes32 (size : Z) : Z :=
  if Z.land size 0x03 =? 0 then size else u32 (Z.land size 0xFFFFFFFC + 4).

(** [__builtin_popcount]: the number of one bits. *)
Definition CountSetBits (mask : Z) : Z :=
  zlen (filter (λ i, Z.testbit mask i = true) (seqZ 0 16)).

(** ** Decomposition of in-range accesses *)
Lemma split_at (b : list Z) i n :
  0 ≤ i → i + Z.of_nat n ≤ zlen b →
  ∃ pre mid post, b = pre ++ mid ++ post ∧ zlen pre = i ∧ length mid = n.
Proof.
  unfold zlen. intros Hi Hn.
  exists (take (Z.to_nat i) b), (take n (drop (Z.to_nat i) b)),
    (drop n (drop (Z.to_nat i) b)).
  rewrite !take_drop. split; [done|].
  rewrite !length_take, length_drop. split; lia.
Qed.

(** Destruct a list of known length into its elements. *)
Ltac explode l :=
  repeat (let x := fresh "x" in destruct l as [|x l]; [discriminate|]);
  destruct l as [|? ?]; [|discriminate].

Lemma lor_shiftl_r x a n : 0 ≤ n → fits n x → Z.lor x (Z.shiftl a n) = a * 2 ^ n + x.
Proof. intros. rewrite Z.lor_comm. by apply lor_shiftl. Qed.

(** Turn the shifts and ors of byte values into sums. *)
Ltac lor_sum :=
  repeat match goal with
  | |- context [Z.lor ?x (Z.shiftl ?a ?n)] =>
      rewrite (lor_shiftl_r x a n) by (unfold fits; lia)
  | |- context [Z.lor (Z.shiftl ?a ?n) ?x] =>
      rewrite (lor_shiftl a x n) by (unfold fits; lia)
  end.

Lemma rd_pre0 (pre : list Z) l : (pre ++ l).[zlen pre] = l.[0].
Proof. rewrite <- (rd_app_r pre l 0) by lia. f_equal. lia. Qed.

Lemma Get2Bytes_at pre l post :
  length l = 2%nat → bytes_ok l → Get2Bytes (pre ++ l ++ post) (zlen pre) = Ok (of_be l).
Proof.
  intros Hl Hb. explode l. rewrite !Forall_cons in Hb. unfold is_byte in Hb.
  unfold Get2Bytes. rewrite rd_app_r, rd_pre0 by lia. simpl. f_equal.
  unfold of_be. simpl. lor_sum. rewrite wrap_small; unfold fits; lia.
Qed.

Lemma Get3Bytes_at pre l post :
  length l = 3%nat → bytes_ok l → Get3Bytes (pre ++ l ++ post) (zlen pre) = Ok (of_be l).
Proof.
  intros Hl Hb. explode l. rewrite !Forall_cons in Hb. unfold is_byte in Hb.
  unfold Get3Bytes. rewrite !rd_app_r, rd_pre0 by lia. simpl. f_equal.
  unfold of_be. simpl. lor_sum. rewrite wrap_small; unfold fits; lia.
Qed.

Lemma Get4Bytes_at pre l post :
  length l = 4%nat → bytes_ok l → Get4Bytes (pre ++ l ++ post) (zlen pre) = Ok (of_be l).
Proof.
  intros Hl Hb. explode l. rewrite !Forall_cons in Hb. unfold is_byte in Hb.
  unfold Get4Bytes. rewrite !rd_app_r, rd_pre0 by lia. simpl. f_equal.
  unfold of_be. simpl. lor_sum. rewrite wrap_small; unfold fits; lia.
Qed.

Lemma Get8Bytes_at pre l post :
  length l = 8%nat → bytes_ok l → Get8Bytes (pre ++ l ++ post) (zlen pre) = Ok (of_be l).
Proof.
  intros Hl Hb. explode l.
  unfold Get8Bytes.
  change ([x; x0; x1; x2; x3; x4; x5; x6] ++ post)
    with ([x; x0; x1; x2] ++ ([x3; x4; x5; x6] ++ post)).
  change [x; x0; x1; x2; x3; x4; x5; x6]
    with ([x; x0; x1; x2] ++ [x3; x4; x5; x6]) in *.
  apply Forall_app in Hb as [Hb1 Hb2].
  rewrite Get4Bytes_at by done.
  replace (zlen pre + 4) with (zlen (pre ++ [x; x0; x1; x2]))
    by (by autorewrite with zlen).
  rewrite (app_assoc pre), Get4Bytes_at by done. simpl. f_equal.
  pose proof (of_be_bound _ Hb1) as B1. pose proof (of_be_bound _ Hb2) as B2.
  change (256 ^ zlen _) with 4294967296 in B1.
  change (256 ^ zlen _) with 4294967296 in B2.
  rewrite lor_shiftl by (unfold fits; lia).
  rewrite wrap_small by (unfold fits; lia).
  unfold of_be. simpl. lia.
Qed.

(** ** Setters write the big-endian bytes *)
Lemma u8_shiftr v k : 0 ≤ k → u8 (Z.shiftr v k) = v / 2 ^ k mod 256.
Proof. intros. by rewrite shiftr_div. Qed.

(** [wr] at offset [k] of a concrete block that follows [pre]. *)
Lemma wr_at pre l k v :
  0 ≤ k < zlen l → wr (pre ++ l) (zlen pre + k) v = Ok (pre ++ <[Z.to_nat k := v]> l).
Proof.
  intros Hk. unfold wr. rewrite zlen_app. pose proof (zlen_nonneg pre).
  destruct (Z.leb_spec 0 (zlen pre + k)), (Z.ltb_spec (zlen pre + k) (zlen pre + zlen l));
    try lia.
  simpl. f_equal. unfold zlen. rewrite insert_app_r_alt by lia. do 2 f_equal. lia.
Qed.

Lemma wr_at0 pre l v :
  0 < zlen l → wr (pre ++ l) (zlen pre) v = Ok (pre ++ <[O := v]> l).
Proof. intros. rewrite <- (wr_at pre l 0) by lia. f_equal. lia. Qed.

Ltac set_bytes :=
  repeat (rewrite wr_at by (unfold zlen; simpl; lia); cbn -[wr zlen]);
  rewrite wr_at0 by (unfold zlen; simpl; lia);
  cbn -[wr zlen wrap]; rewrite !u8_shiftr by lia.

Lemma Set2Bytes_at pre old post v :
  length old = 2%nat → Set2Bytes (pre ++ old ++ post) (zlen pre) v = Ok (pre ++ to_be 2 v ++ post).
Proof.
  intros Hl. explode old. unfold Set2Bytes. set_bytes. done.
Qed.

Lemma Set3Bytes_at pre old post v :
  length old = 3%nat → Set3Bytes (pre ++ old ++ post) (zlen pre) v = Ok (pre ++ to_be 3 v ++ post).
Proof.
  intros Hl. explode old. unfold Set3Bytes. set_bytes.
  by rewrite !Z.div_div by lia.
Qed.

Lemma Set4Bytes_at pre old post v :
  length old = 4%nat → Set4Bytes (pre ++ old ++ post) (zlen pre) v = Ok (pre ++ to_be 4 v ++ post).
Proof.
  intros Hl. explode old. unfold Set4Bytes. set_bytes.
  by rewrite !Z.div_div by lia.
Qed.

Lemma Set8Bytes_at pre old post v :
  length old = 8%nat → Set8Bytes (pre ++ old ++ post) (zlen pre) v = Ok (pre ++ to_be 8 v ++ post).
Proof.
  intros Hl. explode old. unfold Set8Bytes. set_bytes.
  by rewrite !Z.div_div by lia.
Qed.

Lemma Set1Byte_at pre old post v :
  Set1Byte (pre ++ old :: post) (zlen pre) v = Ok (pre ++ to_be 1 v ++ post).
Proof. unfold Set1Byte. rewrite wr_at0 by (unfold zlen; simpl; lia). done. Qed.

(** ** Padding *)
(** Masking off the [k] low bits of a [w]-bit number rounds it down. *)
Lemma land_mask_high x w k :
  0 ≤ w → 0 ≤ k → fits w x →
  Z.land x (Z.ldiff (Z.ones w) (Z.ones k)) = x / 2 ^ k * 2 ^ k.
Proof.
  intros Hw Hk Hx.
  replace (Z.land x (Z.ldiff (Z.ones w) (Z.ones k)))
    with (Z.ldiff (Z.land x (Z.ones w)) (Z.ones k)).
  - rewrite Z.land_ones, Z.mod_small by (done || apply Hx).
    by rewrite Z.ldiff_ones_r, Z.shiftl_mul_pow2, shiftr_div by lia.
  - apply Z.bits_inj'. intros i Hi.
    rewrite ?Z.land_spec, ?Z.ldiff_spec, ?Z.land_spec.
    by destruct (Z.testbit x i), (Z.testbit (Z.ones w) i), (Z.testbit (Z.ones k) i).
Qed.

(** Padding rounds up to a multiple of four; the 16-bit overload wraps to 0
    for the last three sizes. *)
Lemma PadTo4Bytes16_round size :
  fits 16 size → PadTo4Bytes16 size = u16 (4 * ((size + 3) / 4)).
Proof.
  intros Hs. unfold PadTo4Bytes16.
  rewrite (land_ones' size 2 3) by done.
  change 0xFFFC with (Z.ldiff (Z.ones 16) (Z.ones 2)).
  rewrite land_mask_high by done. change (2 ^ 2) with 4. red in Hs.
  destruct (Z.eqb_spec (size mod 4) 0).
  - rewrite wrap_small; unfold fits; zdm.
  - f_equal. zdm.
Qed.

Lemma PadTo4Bytes16_spec size :
  0 ≤ size ≤ 65532 → PadTo4Bytes16 size = 4 * ((size + 3) / 4).
Proof.
  intros Hs. rewrite PadTo4Bytes16_round by (unfold fits; lia).
  apply wrap_small. unfold fits. zdm.
Qed.

Lemma PadTo4Bytes32_round size :
  fits 32 size → PadTo4Bytes32 size = u32 (4 * ((size + 3) / 4)).
Proof.
  intros Hs. unfold PadTo4Bytes32.
  rewrite (land_ones' size 2 3) by done.
  change 0xFFFFFFFC with (Z.ldiff (Z.ones 32) (Z.ones 2)).
  rewrite land_mask_high by done. change (2 ^ 2) with 4. red in Hs.
  destruct (Z.eqb_spec (size mod 4) 0).
  - rewrite wrap_small; unfold fits; zdm.
  - f_equal. zdm.
Qed.

(** ** In-range accesses succeed *)
Lemma Get2Bytes_in data i :
  bytes_ok data → 0 ≤ i → i + 2 ≤ zlen data →
  ∃ v, Get2Bytes data i = Ok v ∧ fits 16 v.
Proof.
  intros Hb Hi Hn.
  destruct (split_at data i 2) as (pre & mid & post & -> & <- & Hm); [lia..|].
  apply Forall_app in Hb as [_ [Hb _]%Forall_app].
  exists (of_be mid). split; [by apply Get2Bytes_at|].
  pose proof (of_be_bound mid Hb). unfold zlen in *. by rewrite Hm in *.
Qed.

Lemma Get4Bytes_in data i :
  bytes_ok data → 0 ≤ i → i + 4 ≤ zlen data →
  ∃ v, Get4Bytes data i = Ok v ∧ fits 32 v.
Proof.
  intros Hb Hi Hn.
  destruct (split_at data i 4) as (pre & mid & post & -> & <- & Hm); [lia..|].
  apply Forall_app in Hb as [_ [Hb _]%Forall_app].
  exists (of_be mid). split; [by apply Get4Bytes_at|].
  pose proof (of_be_bound mid Hb). unfold zlen in *. by rewrite Hm in *.
Qed.

Lemma Get8Bytes_in data i :
  bytes_ok data → 0 ≤ i → i + 8 ≤ zlen data →
  ∃ v, Get8Bytes data i = Ok v ∧ fits 64 v.
Proof.
  intros Hb Hi Hn.
  destruct (split_at data i 8) as (pre & mid & post & -> & <- & Hm); [lia..|].
  apply Forall_app in Hb as [_ [Hb _]%Forall_app].
  exists (of_be mid). split; [by apply Get8Bytes_at|].
  pose proof (of_be_bound mid Hb). unfold zlen in *. by rewrite Hm in *.
Qed.

Lemma wp_Get2Bytes data i (Q : Z → Prop) :
  bytes_ok data → 0 ≤ i → i + 2 ≤ zlen data →
  (∀ v, Get2Bytes data i = Ok v → fits 16 v → Q v) → wp (Get2Bytes data i) Q.
Proof.
  intros Hb Hi Hn HQ. destruct (Get2Bytes_in data i Hb Hi Hn) as (v & Hv & Hf).
  rewrite Hv. by apply HQ.
Qed.

Lemma wp_Get4Bytes data i (Q : Z → Prop) :
  bytes_ok data → 0 ≤ i → i + 4 ≤ zlen data →
  (∀ v, Get4Bytes data i = Ok v → fits 32 v → Q v) → wp (Get4Bytes data i) Q.
Proof.
  intros Hb Hi Hn HQ. destruct (Get4Bytes_in data i Hb Hi Hn) as (v & Hv & Hf).
  rewrite Hv. by apply HQ.
Qed.

Lemma wp_Get8Bytes data i (Q : Z → Prop) :
  bytes_ok data → 0 ≤ i → i + 8 ≤ zlen data →
  (∀ v, Get8Bytes data i = Ok v → fits 64 v → Q v) → wp (Get8Bytes data i) Q.
Proof.
  intros Hb Hi Hn HQ. destruct (Get8Bytes_in data i Hb Hi Hn) as (v & Hv & Hf).
  rewrite Hv. by apply HQ.
Qed.

(** ** Frames

    A buffer operation at an offset does the same inside a larger buffer. *)
Definition framed (op : list Z → Z → res (list Z)) : Prop :=
  ∀ pre l post k l', 0 ≤ k → op l k = Ok l' →
    op (pre ++ l ++ post) (zlen pre + k) = Ok (pre ++ l' ++ post).

Lemma framed_at0 op pre l post l' :
  framed op → op l 0 = Ok l' → op (pre ++ l ++ post) (zlen pre) = Ok (pre ++ l' ++ post).
Proof. intros Hf Ho. rewrite <- (Hf pre l post 0 l') by (done || lia). f_equal. lia. Qed.

Lemma rd_frame pre l post k x :
  0 ≤ k → l.[k] = Ok x → (pre ++ l ++ post).[zlen pre + k] = Ok x.
Proof.
  intros Hk Hx. rewrite rd_app_r by lia. rewrite rd_app_l; [done|].
  apply rd_Ok in Hx as [_ Hx]. apply lookup_lt_Some in Hx. unfold zlen. lia.
Qed.

Lemma framed_wr v : framed (λ b i, wr b i v).
Proof.
  intros pre l post k l' Hk. unfold wr at 1.
  destruct (Z.leb_spec 0 k), (Z.ltb_spec k (zlen l)); try done. intros [= <-].
  rewrite wr_at by (rewrite zlen_app; pose proof (zlen_nonneg post); lia).
  by rewrite insert_app_l by (unfold zlen in *; lia).
Qed.

Lemma framed_memcpy src : framed (λ b i, memcpy b i src).
Proof.
  intros pre l post k l' Hk. unfold memcpy at 1.
  destruct (Z.leb_spec 0 k), (Z.leb_spec (k + zlen src) (zlen l)); try done. intros [= <-].
  destruct (split_at l k (length src)) as (a & old & c & -> & <- & Hl); [lia|unfold zlen in *; lia|].
  rewrite <- !app_assoc, app_assoc, <- zlen_app, memcpy_app by done. f_equal.
  rewrite <- !app_assoc. unfold zlen. rewrite Nat2Z.id, take_app_length, <- Hl, <- drop_drop.
  by rewrite drop_app_length, drop_app_length.
Qed.

Lemma framed_seq op1 op2 :
  framed op1 → framed op2 → framed (λ b i, b' ← op1 b i; op2 b' i).
Proof.
  intros H1 H2 pre l post k l' Hk (l1 & E1 & E2)%bind_Ok.
  rewrite (H1 pre l post k l1) by done. by apply H2.
Qed.

Lemma framed_shift op j : 0 ≤ j → framed op → framed (λ b i, op b (i + j)).
Proof.
  intros Hj Hf pre l post k l' Hk Ho. rewrite <- Z.add_assoc. apply Hf; [lia|done].
Qed.

Lemma framed_wr_shift v j : 0 ≤ j → framed (λ b i, wr b (i + j) v).
Proof. intros. by apply (framed_shift (λ b i, wr b i v)), framed_wr. Qed.

Lemma framed_Set1Byte v : framed (λ b i, Set1Byte b i v).
Proof. apply framed_wr. Qed.

Lemma framed_Set2Bytes v : framed (λ b i, Set2Bytes b i v).
Proof.
  unfold Set2Bytes. repeat (apply framed_seq; [by apply framed_wr_shift|]). apply framed_wr.
Qed.

Lemma framed_Set4Bytes v : framed (λ b i, Set4Bytes b i v).
Proof.
  unfold Set4Bytes. repeat (apply framed_seq; [by apply framed_wr_shift|]). apply framed_wr.
Qed.

Lemma framed_Set8Bytes v : framed (λ b i, Set8Bytes b i v).
Proof.
  unfold Set8Bytes. repeat (apply framed_seq; [by apply framed_wr_shift|]). apply framed_wr.
Qed.

(** The setters of width 2, 3, 4 and 8 with the getters of the same width. *)
Inductive accessor : nat → (list Z → Z → res Z) → (list Z → Z → Z → res (list Z)) → Prop :=
| acc2 : accessor 2 Get2Bytes Set2Bytes
| acc3 : accessor 3 Get3Bytes Set3Bytes
| acc4 : accessor 4 Get4Bytes Set4Bytes
| acc8 : accessor 8 Get8Bytes Set8Bytes.

Lemma accessor_at n get set pre old post v :
  accessor n get set → length old = n →
  set (pre ++ old ++ post) (zlen pre) v = Ok (pre ++ to_be n v ++ post) ∧
  get (pre ++ to_be n v ++ post) (zlen pre) = Ok (of_be (to_be n v)).
Proof.
  intros [] Hl; split;
    auto using Set2Bytes_at, Set3Bytes_at, Set4Bytes_at, Set8Bytes_at,
      Get2Bytes_at, Get3Bytes_at, Get4Bytes_at, Get8Bytes_at, to_be_bytes, length_to_be.
Qed.

(** Writing a value with a setter inside the buffer and reading it back
    with the getter of the same width gives the value modulo the width, and
    the write changes no byte outside the field and not the buffer length. *)
Lemma set_get_roundtrip n get set data i v :
  accessor n get set → 0 ≤ i → i + Z.of_nat n ≤ zlen data →
  ∃ data', set data i v = Ok data' ∧ get data' i = Ok (v mod 256 ^ Z.of_nat n) ∧
    length data' = length data ∧
    (∀ j, j < i ∨ i + Z.of_nat n ≤ j → data'.[j] = data.[j]).
Proof.
  intros Ha Hi Hn.
  destruct (split_at data i n) as (pre & old & post & -> & <- & Hl); [lia..|].
  destruct (accessor_at n get set pre old post v Ha Hl) as [Hs Hg].
  eexists. split; [exact Hs|]. split; [by rewrite Hg, of_be_to_be|].
  split; [rewrite !length_app, length_to_be; lia|]. intros j [Hj|Hj].
  - by rewrite !rd_app_l by lia.
  - replace j with (zlen pre + (Z.of_nat n + (j - zlen pre - Z.of_nat n))) by lia.
    rewrite (rd_app_r pre (to_be n v ++ post)), (rd_app_r pre (old ++ post)) by lia.
    rewrite <- (zlen_to_be n v) at 1. rewrite (rd_app_r (to_be n v)) by lia.
    replace (Z.of_nat n + _) with (zlen old + (j - zlen pre - Z.of_nat n))
      by (unfold zlen; lia).
    by rewrite (rd_app_r old) by lia.
Qed.

Lemma set_get_roundtrip_witness :
  ∃ data', Set4Bytes (replicate 8 0) 2 0x5354554e = Ok data' ∧
    Get4Bytes data' 2 = Ok (0x5354554e mod 256 ^ Z.of_nat 4) ∧
    length data' = length (replicate 8 0) ∧
    (∀ j, j < 2 ∨ 2 + Z.of_nat 4 ≤ j → data'.[j] = (replicate 8 0).[j]).
Proof.
  apply (set_get_roundtrip 4 Get4Bytes Set4Bytes (replicate 8 0) 2 0x5354554e acc4);
    vm_compute; congruence.
Defined.

(** Both overloads of PadTo4Bytes round up to the next multiple of four,
    the result being reduced to the width of the parameter. *)
Lemma PadTo4Bytes_rounds size :
  (fits 16 size → PadTo4Bytes16 size = u16 (4 * ((size + 3) / 4))) ∧
  (fits 32 size → PadTo4Bytes32 size = u32 (4 * ((size + 3) / 4))).
Proof. split; [apply PadTo4Bytes16_round | apply PadTo4Bytes32_round]. Qed.

End Byte.
