(* ===== verification/ByteIO.v ===== *)
(** webrtc::ByteReader and webrtc::ByteWriter (src/rtp/byte_io.h): the generic
    loops, the specialisations for 1, 2, 4 and 8 bytes, and the signed readers
    and writers with their sign extension. *)
From S2P Require Import Prelude ByteOps.

Module ByteIO.
Import Byte.

(** [sz] is sizeof(T), [B] the number of bytes; the pointer is an offset. *)

(** ** Reading *)

(** The loops of the generic template: [k] iterations are left, so the index
    is B - k. *)
Fixpoint read_be_loop (sz : Z) (k : nat) (data : list Z) (i val : Z) : res Z :=
  match k with
  | O => Ok val
  | S k' =>
      b ← data.[i];
      read_be_loop sz k' data (i + 1)
        (Z.lor val (wrap (sz * 8) (Z.shiftl b (Z.of_nat k' * 8))))
  end.

Definition InternalReadBigEndian (sz : Z) (B : nat) (data : list Z) (i : Z) : res Z :=
  read_be_loop sz B data i 0.

Fixpoint read_le_loop (sz : Z) (k : nat) (data : list Z) (p i val : Z) : res Z :=
  match k with
  | O => Ok val
  | S k' =>
      b ← data.[p + i];
      read_le_loop sz k' data p (i + 1) (Z.lor val (wrap (sz * 8) (Z.shiftl b (i * 8))))
  end.

Definition InternalReadLittleEndian (sz : Z) (B : nat) (data : list Z) (i : Z) : res Z :=
  read_le_loop sz B data i 0 0.

Definition ReadBigEndian1 (data : list Z) (i : Z) : res Z := data.[i].
Definition ReadLittleEndian1 (data : list Z) (i : Z) : res Z := data.[i].

Definition ReadBigEndian2 (sz : Z) (data : list Z) (i : Z) : res Z :=
  b0 ← data.[i]; b1 ← data.[i + 1];
  Ok (wrap (sz * 8) (Z.lor (Z.shiftl b0 8) b1)).

Definition ReadLittleEndian2 (sz : Z) (data : list Z) (i : Z) : res Z :=
  b0 ← data.[i]; b1 ← data.[i + 1];
  Ok (wrap (sz * 8) (Z.lor b0 (Z.shiftl b1 8))).

Definition ReadBigEndian4 (sz : Z) (data : list Z) (i : Z) : res Z :=
  let sh b n := wrap (sz * 8) (Z.shiftl b n) in
  b0 ← data.[i]; b1 ← data.[i + 1]; b2 ← data.[i + 2]; b3 ← data.[i + 3];
  Ok (Z.lor (Z.lor (Z.lor (sh b0 24) (sh b1 16)) (sh b2 8)) b3).

Definition ReadLittleEndian4 (sz : Z) (data : list Z) (i : Z) : res Z :=
  let sh b n := wrap (sz * 8) (Z.shiftl b n) in
  b0 ← data.[i]; b1 ← data.[i + 1]; b2 ← data.[i + 2]; b3 ← data.[i + 3];
  Ok (Z.lor (Z.lor (Z.lor b0 (sh b1 8)) (sh b2 16)) (sh b3 24)).

Definition ReadBigEndian8 (sz : Z) (data : list Z) (i : Z) : res Z :=
  let sh b n := wrap (sz * 8) (Z.shiftl b n) in
  b0 ← data.[i]; b1 ← data.[i + 1]; b2 ← data.[i + 2]; b3 ← data.[i + 3];
  b4 ← data.[i + 4]; b5 ← data.[i + 5]; b6 ← data.[i + 6]; b7 ← data.[i + 7];
  Ok (Z.lor (Z.lor (Z.lor (Z.lor (Z.lor (Z.lor (Z.lor
    (sh b0 56) (sh b1 48)) (sh b2 40)) (sh b3 32)) (sh b4 24)) (sh b5 16)) (sh b6 8)) b7).

Definition ReadLittleEndian8 (sz : Z) (data : list Z) (i : Z) : res Z :=
  let sh b n := wrap (sz * 8) (Z.shiftl b n) in
  b0 ← data.[i]; b1 ← data.[i + 1]; b2 ← data.[i + 2]; b3 ← data.[i + 3];
  b4 ← data.[i + 4]; b5 ← data.[i + 5]; b6 ← data.[i + 6]; b7 ← data.[i + 7];
  Ok (Z.lor (Z.lor (Z.lor (Z.lor (Z.lor (Z.lor (Z.lor
    b0 (sh b1 8)) (sh b2 16)) (sh b3 24)) (sh b4 32)) (sh b5 40)) (sh b6 48)) (sh b7 56)).

(** Which template the compiler selects. *)
Definition ReadBigEndian (sz : Z) (B : nat) (data : list Z) (i : Z) : res Z :=
  match B with
  | 1%nat => ReadBigEndian1 data i
  | 2%nat => ReadBigEndian2 sz data i
  | 4%nat => ReadBigEndian4 sz data i
  | 8%nat => ReadBigEndian8 sz data i
  | _ => InternalReadBigEndian sz B data i
  end.

Definition ReadLittleEndian (sz : Z) (B : nat) (data : list Z) (i : Z) : res Z :=
  match B with
  | 1%nat => ReadLittleEndian1 data i
  | 2%nat => ReadLittleEndian2 sz data i
  | 4%nat => ReadLittleEndian4 sz data i
  | 8%nat => ReadLittleEndian8 sz data i
  | _ => InternalReadLittleEndian sz B data i
  end.

(** ** Signed readers *)

(** [1 << n] on an int is undefined from 31 on. *)
Definition SignExtend (sz : Z) (B : nat) (val : Z) : res Z :=
  let kMsb := u8 (Z.shiftr val ((Z.of_nat B - 1) * 8)) in
  if negb (Z.land kMsb 0x80 =? 0) then
    let n := (Z.of_nat B mod sz) * 8 in
    if 31 <=? n then UB BadShift
    else
      let kUsedBitsMask := wrap (sz * 8) (Z.shiftl 1 n - 1) in
      Ok (wrap (sz * 8) (Z.lor (Z.lnot kUsedBitsMask) val))
  else Ok val.

Definition ReinterpretAsSigned (sz : Z) (unsigned_val : Z) : Z :=
  let kUnsignedHighestBitMask := Z.shiftl 1 (sz * 8 - 1) in
  let kSignedHighestBitMask := - 2 ^ (sz * 8 - 1) in
  if negb (Z.land unsigned_val kUnsignedHighestBitMask =? 0)
  then Z.lor (Z.land unsigned_val (Z.lnot kUnsignedHighestBitMask)) kSignedHighestBitMask
  else unsigned_val.

Definition ReadBigEndianSigned (sz : Z) (B : nat) (data : list Z) (i : Z) : res Z :=
  unsigned_val ← ReadBigEndian sz B data i;
  unsigned_val ← (if Z.of_nat B <? sz then SignExtend sz B unsigned_val else Ok unsigned_val);
  Ok (ReinterpretAsSigned sz unsigned_val).

Definition ReadLittleEndianSigned (sz : Z) (B : nat) (data : list Z) (i : Z) : res Z :=
  unsigned_val ← ReadLittleEndian sz B data i;
  unsigned_val ← (if Z.of_nat B <? sz then SignExtend sz B unsigned_val else Ok unsigned_val);
  Ok (ReinterpretAsSigned sz unsigned_val).

(** ** Writing *)
Fixpoint write_be_loop (k : nat) (data : list Z) (i val : Z) : res (list Z) :=
  match k with
  | O => Ok data
  | S k' =>
      data ← wr data i (u8 (Z.shiftr val (Z.of_nat k' * 8)));
      write_be_loop k' data (i + 1) val
  end.

Fixpoint write_le_loop (k : nat) (data : list Z) (p i val : Z) : res (list Z) :=
  match k with
  | O => Ok data
  | S k' =>
      data ← wr data (p + i) (u8 (Z.shiftr val (i * 8)));
      write_le_loop k' data p (i + 1) val
  end.

(** A specialisation writes the bytes of [val >> s] for a list of shifts. *)
Fixpoint write_shifts (shifts : list Z) (data : list Z) (i val : Z) : res (list Z) :=
  match shifts with
  | [] => Ok data
  | s :: shifts =>
      data ← wr data i (u8 (Z.shiftr val s));
      write_shifts shifts data (i + 1) val
  end.

Definition WriteBigEndian1 : list Z → Z → Z → res (list Z) := write_shifts [0].
Definition WriteLittleEndian1 : list Z → Z → Z → res (list Z) := write_shifts [0].
Definition WriteBigEndian2 : list Z → Z → Z → res (list Z) := write_shifts [8; 0].
Definition WriteLittleEndian2 : list Z → Z → Z → res (list Z) := write_shifts [0; 8].
Definition WriteBigEndian4 : list Z → Z → Z → res (list Z) := write_shifts [24; 16; 8; 0].
Definition WriteLittleEndian4 : list Z → Z → Z → res (list Z) := write_shifts [0; 8; 16; 24].
Definition WriteBigEndian8 : list Z → Z → Z → res (list Z) := write_shifts [56; 48; 40; 32; 24; 16; 8; 0].
Definition WriteLittleEndian8 : list Z → Z → Z → res (list Z) := write_shifts [0; 8; 16; 24; 32; 40; 48; 56].

(** The template that is selected: a specialisation, or the loop. *)
Definition WriteBigEndian (B : nat) (data : list Z) (i val : Z) : res (list Z) :=
  match B with
  | 1%nat => WriteBigEndian1 data i val
  | 2%nat => WriteBigEndian2 data i val
  | 4%nat => WriteBigEndian4 data i val
  | 8%nat => WriteBigEndian8 data i val
  | _ => write_be_loop B data i val
  end.

Definition WriteLittleEndian (B : nat) (data : list Z) (i val : Z) : res (list Z) :=
  match B with
  | 1%nat => WriteLittleEndian1 data i val
  | 2%nat => WriteLittleEndian2 data i val
  | 4%nat => WriteLittleEndian4 data i val
  | 8%nat => WriteLittleEndian8 data i val
  | _ => write_le_loop B data i 0 val
  end.

Definition ReinterpretAsUnsigned (sz val : Z) : Z := wrap (sz * 8) val.

Definition WriteBigEndianSigned (sz : Z) (B : nat) (data : list Z) (i val : Z) : res (list Z) :=
  WriteBigEndian B data i (ReinterpretAsUnsigned sz val).

Definition WriteLittleEndianSigned (sz : Z) (B : nat) (data : list Z) (i val : Z) : res (list Z) :=
  WriteLittleEndian B data i (ReinterpretAsUnsigned sz val).

(** ** The generic loops *)
Lemma of_be_app l k : of_be (l ++ k) = of_be l * 256 ^ zlen k + of_be k.
Proof.
  induction k as [|b k IH] using rev_ind.
  { rewrite app_nil_r, zlen_nil, Z.pow_0_r. change (of_be []) with 0. lia. }
  rewrite app_assoc, !of_be_snoc, IH, zlen_app. change (zlen [b]) with 1.
  rewrite Z.pow_add_r by (pose proof (zlen_nonneg k); lia). lia.
Qed.

Lemma of_be_cons b l : of_be (b :: l) = b * 256 ^ zlen l + of_be l.
Proof. apply (of_be_app [b] l). Qed.

Lemma pow256 n : 0 ≤ n → 2 ^ (n * 8) = 256 ^ n.
Proof. intros. rewrite Z.mul_comm, Z.pow_mul_r by lia. done. Qed.

(** A byte shifted inside the type is not truncated. *)
Lemma wrap_shift sz b k : is_byte b → 0 ≤ k < sz → wrap (sz * 8) (Z.shiftl b (k * 8)) = Z.shiftl b (k * 8).
Proof.
  intros Hb Hk. apply wrap_small. rewrite Z.shiftl_mul_pow2 by lia. unfold is_byte in Hb.
  assert (0 < 2 ^ (k * 8)) by (apply Z.pow_pos_nonneg; lia).
  assert (2 ^ (k * 8) * 2 ^ 8 ≤ 2 ^ (sz * 8)).
  { rewrite <- Z.pow_add_r by lia. apply Z.pow_le_mono_r; lia. }
  unfold fits. nia.
Qed.

Lemma read_be_loop_spec sz l : ∀ pre post v,
  bytes_ok l → zlen l ≤ sz → 0 ≤ v →
  read_be_loop sz (length l) (pre ++ l ++ post) (zlen pre) (Z.shiftl v (zlen l * 8))
  = Ok (v * 256 ^ zlen l + of_be l).
Proof.
  induction l as [|b l IH]; intros pre post v Hb Hsz Hv.
  { cbn. by rewrite Z.shiftl_0_r, Z.mul_1_r, Z.add_0_r. }
  apply Forall_cons in Hb as [Hb Hl]. rewrite zlen_cons in *. pose proof (zlen_nonneg l).
  cbn [length read_be_loop]. rewrite Byte.rd_pre0. cbn [app]. rewrite rd_cons_0. cbn [mbind res_bind].
  change (Z.of_nat (length l)) with (zlen l). rewrite wrap_shift by (done || lia).
  replace (Z.lor _ _) with (Z.shiftl (v * 256 + b) (zlen l * 8)).
  - change (b :: l ++ post) with ([b] ++ l ++ post). rewrite app_assoc.
    replace (zlen pre + 1) with (zlen (pre ++ [b])) by (by rewrite zlen_app).
    unfold is_byte in Hb. rewrite IH by (done || lia). f_equal.
    rewrite of_be_cons, Z.pow_add_r by lia. lia.
  - unfold is_byte in Hb. rewrite lor_shiftl.
    + rewrite !Z.shiftl_mul_pow2 by lia.
      replace ((1 + zlen l) * 8) with (8 + zlen l * 8) by lia. rewrite Z.pow_add_r by lia. lia.
    + lia.
    + unfold fits. rewrite Z.shiftl_mul_pow2 by lia.
      replace ((1 + zlen l) * 8) with (8 + zlen l * 8) by lia. rewrite Z.pow_add_r by lia.
      assert (0 < 2 ^ (zlen l * 8)) by (apply Z.pow_pos_nonneg; lia). nia.
Qed.

Lemma read_le_loop_spec sz l : ∀ pre d post,
  bytes_ok l → bytes_ok d → zlen d + zlen l ≤ sz →
  read_le_loop sz (length l) (pre ++ d ++ l ++ post) (zlen pre) (zlen d) (of_be (rev d))
  = Ok (of_be (rev (d ++ l))).
Proof.
  induction l as [|b l IH]; intros pre d post Hl Hd Hsz.
  { cbn. by rewrite app_nil_r. }
  apply Forall_cons in Hl as [Hb Hl]. rewrite zlen_cons in *.
  pose proof (zlen_nonneg l). pose proof (zlen_nonneg d).
  cbn [length read_le_loop]. rewrite rd_app_r by lia. rewrite Byte.rd_pre0. cbn [app].
  rewrite rd_cons_0. cbn [mbind res_bind]. rewrite wrap_shift by (done || lia).
  rewrite Byte.lor_shiftl_r.
  - rewrite pow256 by lia.
    replace (b * 256 ^ zlen d + of_be (rev d)) with (of_be (rev (d ++ [b]))).
    + replace (zlen d + 1) with (zlen (d ++ [b])) by (by rewrite zlen_app).
      change (b :: l ++ post) with ([b] ++ l ++ post). rewrite (app_assoc d).
      rewrite IH; [by rewrite <- app_assoc|done| |rewrite zlen_app; change (zlen [b]) with 1; lia].
      apply Forall_app_2; [done|]. by apply Forall_singleton.
    + rewrite rev_app_distr. cbn [rev app]. rewrite of_be_cons. unfold zlen. by rewrite length_rev.
  - lia.
  - unfold fits. rewrite pow256 by lia. assert (zlen (rev d) = zlen d) as <- by (unfold zlen; by rewrite length_rev).
    apply of_be_bound. by apply Forall_rev.
Qed.

(** ** The specialisations *)
Lemma wrap_shift' sz b n : is_byte b → 0 ≤ n ≤ sz * 8 - 8 → wrap (sz * 8) (Z.shiftl b n) = Z.shiftl b n.
Proof.
  intros Hb Hn. apply wrap_small. rewrite Z.shiftl_mul_pow2 by lia. unfold is_byte in Hb.
  assert (0 < 2 ^ n) by (apply Z.pow_pos_nonneg; lia).
  assert (2 ^ n * 2 ^ 8 ≤ 2 ^ (sz * 8)).
  { rewrite <- Z.pow_add_r by lia. apply Z.pow_le_mono_r; lia. }
  unfold fits. nia.
Qed.

Lemma wrap_bytes sz l : bytes_ok l → zlen l ≤ sz → wrap (sz * 8) (of_be l) = of_be l.
Proof.
  intros Hl Hsz. pose proof (of_be_bound l Hl). pose proof (zlen_nonneg l). apply wrap_small.
  unfold fits. rewrite pow256 by lia.
  assert (256 ^ zlen l ≤ 256 ^ sz) by (apply Z.pow_le_mono_r; lia). lia.
Qed.

(** Read the explicit bytes of a block behind [pre]. *)
Ltac read_block l Hb :=
  explode l; rewrite !Forall_cons in Hb; destruct_and!;
  rewrite ?rd_app_r, ?Byte.rd_pre0 by lia; simpl;
  rewrite ?wrap_shift' by (done || lia); unfold is_byte in *.

(** Left-nested shifts, highest byte first. *)
Lemma lor_shl a b m : 0 ≤ m → is_byte b →
  Z.lor (Z.shiftl a (8 + m)) (Z.shiftl b m) = Z.shiftl (a * 256 + b) m.
Proof.
  intros Hm Hb. rewrite <- Z.shiftl_shiftl, <- Z.shiftl_lor by lia.
  rewrite lor_shiftl by (done || lia). done.
Qed.

Ltac lor_left :=
  repeat match goal with
  | |- context [Z.lor (Z.shiftl ?a ?n) (Z.shiftl ?b ?m)] =>
      rewrite (lor_shl a b m : _ → _ → Z.lor (Z.shiftl a n) (Z.shiftl b m) = _) by (done || lia)
  end.

Lemma ReadBigEndian2_at sz pre l post :
  length l = 2%nat → bytes_ok l → 2 ≤ sz → ReadBigEndian2 sz (pre ++ l ++ post) (zlen pre) = Ok (of_be l).
Proof.
  intros Hl Hb Hsz. rewrite <- (wrap_bytes sz l) by (done || unfold zlen; lia).
  unfold ReadBigEndian2. read_block l Hb. do 2 f_equal. unfold of_be. cbn [foldl]. Byte.lor_sum. lia.
Qed.

Lemma ReadLittleEndian2_at sz pre l post :
  length l = 2%nat → bytes_ok l → 2 ≤ sz →
  ReadLittleEndian2 sz (pre ++ l ++ post) (zlen pre) = Ok (of_be (rev l)).
Proof.
  intros Hl Hb Hsz. rewrite <- (wrap_bytes sz (rev l))
    by (first [by apply Forall_rev|unfold zlen; rewrite length_rev; lia]).
  unfold ReadLittleEndian2. read_block l Hb. do 2 f_equal. unfold of_be. cbn [rev app foldl].
  lor_sum. lia.
Qed.

Lemma ReadBigEndian4_at sz pre l post :
  length l = 4%nat → bytes_ok l → 4 ≤ sz → ReadBigEndian4 sz (pre ++ l ++ post) (zlen pre) = Ok (of_be l).
Proof.
  intros Hl Hb Hsz. unfold ReadBigEndian4. read_block l Hb. f_equal. unfold of_be. cbn [foldl].
  lor_left. lor_sum. lia.
Qed.

Lemma ReadLittleEndian4_at sz pre l post :
  length l = 4%nat → bytes_ok l → 4 ≤ sz →
  ReadLittleEndian4 sz (pre ++ l ++ post) (zlen pre) = Ok (of_be (rev l)).
Proof.
  intros Hl Hb Hsz. unfold ReadLittleEndian4. read_block l Hb. f_equal. unfold of_be. cbn [rev app foldl].
  lor_sum. lia.
Qed.

Lemma ReadBigEndian8_at sz pre l post :
  length l = 8%nat → bytes_ok l → 8 ≤ sz → ReadBigEndian8 sz (pre ++ l ++ post) (zlen pre) = Ok (of_be l).
Proof.
  intros Hl Hb Hsz. unfold ReadBigEndian8. read_block l Hb. f_equal. unfold of_be. cbn [foldl].
  lor_left. lor_sum. lia.
Qed.

Lemma ReadLittleEndian8_at sz pre l post :
  length l = 8%nat → bytes_ok l → 8 ≤ sz →
  ReadLittleEndian8 sz (pre ++ l ++ post) (zlen pre) = Ok (of_be (rev l)).
Proof.
  intros Hl Hb Hsz. unfold ReadLittleEndian8. read_block l Hb. f_equal. unfold of_be. cbn [rev app foldl].
  lor_sum. lia.
Qed.

Lemma ReadBigEndian_at sz B pre l post :
  length l = B → (0 < B)%nat → bytes_ok l → Z.of_nat B ≤ sz →
  ReadBigEndian sz B (pre ++ l ++ post) (zlen pre) = Ok (of_be l).
Proof.
  intros Hl HB Hb Hsz. assert (InternalReadBigEndian sz B (pre ++ l ++ post) (zlen pre) = Ok (of_be l)).
  { unfold InternalReadBigEndian. rewrite <- Hl.
    pose proof (read_be_loop_spec sz l pre post 0 Hb) as Hs. rewrite Z.shiftl_0_l in Hs.
    rewrite Hs by (unfold zlen; lia). done. }
  unfold ReadBigEndian.
  destruct B as [|[|[|[|[|[|[|[|[|B]]]]]]]]]; try done.
  - explode l. unfold ReadBigEndian1. by rewrite rd_pre0.
  - apply ReadBigEndian2_at; done || lia.
  - apply ReadBigEndian4_at; done || lia.
  - apply ReadBigEndian8_at; done || lia.
Qed.

Lemma ReadLittleEndian_at sz B pre l post :
  length l = B → (0 < B)%nat → bytes_ok l → Z.of_nat B ≤ sz →
  ReadLittleEndian sz B (pre ++ l ++ post) (zlen pre) = Ok (of_be (rev l)).
Proof.
  intros Hl HB Hb Hsz.
  assert (InternalReadLittleEndian sz B (pre ++ l ++ post) (zlen pre) = Ok (of_be (rev l))).
  { unfold InternalReadLittleEndian. rewrite <- Hl.
    apply (read_le_loop_spec sz l pre [] post); [done|constructor|unfold zlen; simpl; lia]. }
  unfold ReadLittleEndian.
  destruct B as [|[|[|[|[|[|[|[|[|B]]]]]]]]]; try done.
  - explode l. unfold ReadLittleEndian1. by rewrite rd_pre0.
  - apply ReadLittleEndian2_at; done || lia.
  - apply ReadLittleEndian4_at; done || lia.
  - apply ReadLittleEndian8_at; done || lia.
Qed.

(** ** Writers *)
Lemma to_be_front n v : to_be (S n) v = (v / 256 ^ Z.of_nat n) mod 256 :: to_be n v.
Proof.
  revert v. induction n as [|n IH]; intros v; [cbn; by rewrite Z.div_1_r|].
  change (to_be (S (S n)) v) with (to_be (S n) (v / 256) ++ [v mod 256]). rewrite IH.
  change (to_be (S n) v) with (to_be n (v / 256) ++ [v mod 256]). cbn [app]. do 2 f_equal.
  rewrite Nat2Z.inj_succ, Z.pow_succ_r, Z.div_div by lia. done.
Qed.

Lemma shiftr_byte v k : u8 (Z.shiftr v (Z.of_nat k * 8)) = (v / 256 ^ Z.of_nat k) mod 256.
Proof. unfold wrap. rewrite shiftr_div, pow256 by lia. done. Qed.

Lemma write_be_loop_at v old : ∀ pre post,
  write_be_loop (length old) (pre ++ old ++ post) (zlen pre) v = Ok (pre ++ to_be (length old) v ++ post).
Proof.
  induction old as [|o old IH]; intros pre post; [done|]. cbn [length write_be_loop app].
  rewrite wr_app by done. cbn [mbind res_bind]. rewrite shiftr_byte, to_be_front.
  set (x := (v / _) mod 256). change (pre ++ x :: old ++ post) with (pre ++ [x] ++ old ++ post).
  rewrite app_assoc. replace (zlen pre + 1) with (zlen (pre ++ [x])) by (by rewrite zlen_app).
  rewrite IH. by rewrite <- app_assoc.
Qed.

Lemma rev_to_be_snoc n v : rev (to_be (S n) v) = rev (to_be n v) ++ [(v / 256 ^ Z.of_nat n) mod 256].
Proof. by rewrite to_be_front. Qed.

Lemma write_le_loop_at v old : ∀ pre n post,
  write_le_loop (length old) (pre ++ rev (to_be n v) ++ old ++ post) (zlen pre) (Z.of_nat n) v
  = Ok (pre ++ rev (to_be (n + length old) v) ++ post).
Proof.
  induction old as [|o old IH]; intros pre n post.
  { cbn. by rewrite Nat.add_0_r. }
  cbn [length write_le_loop app]. rewrite (app_assoc pre).
  assert (zlen (rev (to_be n v)) = Z.of_nat n) as Hz
    by (unfold zlen; by rewrite length_rev, length_to_be).
  rewrite wr_app by (by rewrite zlen_app, Hz). cbn [mbind res_bind]. rewrite shiftr_byte.
  set (x := (v / _) mod 256).
  change (?p ++ x :: old ++ post) with (p ++ [x] ++ old ++ post).
  rewrite <- (app_assoc pre), (app_assoc (rev _) [x]).
  subst x. rewrite <- rev_to_be_snoc. replace (Z.of_nat n + 1) with (Z.of_nat (S n)) by lia.
  rewrite IH. by rewrite Nat.add_succ_comm.
Qed.

Lemma write_shifts_be v B shifts pre old post :
  length old = B → shifts = (λ k, Z.of_nat k * 8) <$> rev (seq 0 B) →
  write_shifts shifts (pre ++ old ++ post) (zlen pre) v = Ok (pre ++ to_be B v ++ post).
Proof.
  intros <- ->. rewrite <- write_be_loop_at. generalize (pre ++ old ++ post), (zlen pre).
  induction (length old) as [|k IH]; intros b i; [done|].
  rewrite seq_S, rev_app_distr. cbn. destruct (wr b i _); cbn; [apply IH|done..].
Qed.

Lemma write_shifts_le v B shifts pre old post :
  length old = B → shifts = (λ k, Z.of_nat k * 8) <$> seq 0 B →
  write_shifts shifts (pre ++ old ++ post) (zlen pre) v = Ok (pre ++ rev (to_be B v) ++ post).
Proof.
  intros <- ->. pose proof (write_le_loop_at v old pre 0 post) as Hle. cbn [to_be rev app] in Hle.
  rewrite Nat.add_0_l in Hle. rewrite <- Hle. clear Hle.
  rewrite <- (Z.add_0_r (zlen pre)) at 1. change 0 with (Z.of_nat 0) at 1.
  generalize (pre ++ old ++ post), (zlen pre), 0%nat.
  induction (length old) as [|k IH]; intros b p n; [done|]. cbn [seq fmap list_fmap write_shifts write_le_loop].
  destruct (wr b _ _); cbn [mbind res_bind]; [|done..].
  replace (p + Z.of_nat n + 1) with (p + Z.of_nat (S n)) by lia.
  replace (Z.of_nat n + 1) with (Z.of_nat (S n)) by lia. apply IH.
Qed.

Lemma WriteBigEndian_at B pre old post v :
  length old = B → WriteBigEndian B (pre ++ old ++ post) (zlen pre) v = Ok (pre ++ to_be B v ++ post).
Proof.
  intros Hl. unfold WriteBigEndian.
  destruct B as [|[|[|[|[|[|[|[|[|B]]]]]]]]];
    first [by apply write_shifts_be | rewrite <- Hl; apply write_be_loop_at].
Qed.

Lemma WriteLittleEndian_at B pre old post v :
  length old = B →
  WriteLittleEndian B (pre ++ old ++ post) (zlen pre) v = Ok (pre ++ rev (to_be B v) ++ post).
Proof.
  intros Hl. unfold WriteLittleEndian.
  destruct B as [|[|[|[|[|[|[|[|[|B]]]]]]]]];
    first [by apply write_shifts_le | rewrite <- Hl; apply (write_le_loop_at v old pre 0)].
Qed.

(** ** Sign bits *)
Definition to_signed (w u : Z) : Z := if u <? 2 ^ (w - 1) then u else u - 2 ^ w.

(** A number of n + 1 bits with the top bit apart. *)
Lemma top_bit n x :
  0 ≤ n → fits (n + 1) x → 2 ^ n ≤ x → ∃ b, fits n b ∧ x = Z.lor (Z.shiftl 1 n) b ∧ x = 2 ^ n + b.
Proof.
  unfold fits. intros Hn Hx Hle. rewrite Z.pow_add_r in Hx by lia. exists (x - 2 ^ n).
  split; [lia|]. rewrite lor_shiftl by (unfold fits; lia). lia.
Qed.

Lemma land_top_bit n x :
  0 ≤ n → fits (n + 1) x → (Z.land x (Z.shiftl 1 n) =? 0) = (x <? 2 ^ n).
Proof.
  intros Hn Hx. destruct (Z.ltb_spec x (2 ^ n)) as [Hlt|Hge].
  - rewrite Z.land_comm, shiftl_land_0; [done|done|unfold fits in *; lia].
  - destruct (top_bit n x Hn Hx Hge) as (b & Hb & -> & _).
    rewrite Z.land_lor_distr_l, Z.land_diag, (Z.land_comm b), shiftl_land_0, Z.lor_0_r by done.
    rewrite Z.shiftl_mul_pow2 by done. apply Z.eqb_neq. pose proof (Z.pow_pos_nonneg 2 n). lia.
Qed.

Lemma land_lnot_top n x :
  0 ≤ n → fits (n + 1) x → 2 ^ n ≤ x → Z.land x (Z.lnot (Z.shiftl 1 n)) = x - 2 ^ n.
Proof.
  intros Hn Hx Hge. destruct (top_bit n x Hn Hx Hge) as (b & Hb & Hor & Hx').
  replace (x - 2 ^ n) with b by lia. rewrite Hor.
  rewrite Z.land_lor_distr_l, Z.land_lnot_diag, Z.lor_0_l, <- Z.ldiff_land.
  rewrite <- (Z.lor_ldiff_and b (Z.shiftl 1 n)) at 2.
  by rewrite (Z.land_comm b), shiftl_land_0, Z.lor_0_r.
Qed.

Lemma ReinterpretAsSigned_spec sz x :
  0 < sz → fits (sz * 8) x → ReinterpretAsSigned sz x = to_signed (sz * 8) x.
Proof.
  intros Hsz Hx. unfold ReinterpretAsSigned, to_signed. set (n := sz * 8 - 1).
  assert (sz * 8 = n + 1) as E by lia. rewrite E in *.
  replace (n + 1 - 1) with n by lia. rewrite land_top_bit by (done || lia).
  destruct (Z.ltb_spec x (2 ^ n)) as [Hlt|Hge]; [done|]. cbn [negb].
  rewrite land_lnot_top by (done || lia).
  replace (- 2 ^ n) with (Z.shiftl (-1) n) by (rewrite Z.shiftl_mul_pow2 by lia; lia).
  unfold fits in Hx. rewrite Z.pow_add_r in * by lia.
  rewrite Z.lor_comm, lor_shiftl by (unfold fits; lia). lia.
Qed.

Lemma SignExtend_spec sz B u :
  (0 < B)%nat → Z.of_nat B < sz → Z.of_nat B < 4 → fits (Z.of_nat B * 8) u →
  ∃ x, SignExtend sz B u = Ok x ∧ fits (sz * 8) x ∧ to_signed (sz * 8) x = to_signed (Z.of_nat B * 8) u.
Proof.
  intros HB Hsz H4 Hu. unfold SignExtend. set (b := Z.of_nat B) in *.
  assert (0 < b) by lia. set (m := b * 8 - 1).
  assert (2 ^ (b * 8) = 2 * 2 ^ m) as E2 by (subst m; rewrite <- Z.pow_succ_r by lia; f_equal; lia).
  assert (2 ^ m = 2 ^ ((b - 1) * 8) * 128) as Em
    by (subst m; rewrite <- (Z.pow_add_r 2 _ 7) by lia; f_equal; lia).
  assert (2 ^ (sz * 8) = 2 ^ (b * 8) * 2 ^ ((sz - b) * 8)) as Es
    by (rewrite <- Z.pow_add_r by lia; f_equal; lia).
  assert (256 ≤ 2 ^ ((sz - b) * 8)) as Hbig by (apply (Z.pow_le_mono_r 2 8); lia).
  assert (0 < 2 ^ ((b - 1) * 8)) as Hpos by (apply Z.pow_pos_nonneg; lia).
  assert (2 ^ (sz * 8) = 2 * 2 ^ (sz * 8 - 1)) as E1
    by (rewrite <- Z.pow_succ_r by lia; f_equal; lia).
  unfold fits in Hu. rewrite shiftr_div by lia.
  assert (0 ≤ u / 2 ^ ((b - 1) * 8) < 256) as Hmsb.
  { split; [apply Z.div_pos; lia|apply Z.div_lt_upper_bound; lia]. }
  rewrite wrap_small by done.
  rewrite (land_top_bit 7 (u / 2 ^ ((b - 1) * 8)) : _ → _ → (Z.land _ 0x80 =? 0) = _) by (done || lia).
  assert ((u / 2 ^ ((b - 1) * 8) <? 2 ^ 7) = (u <? 2 ^ m)) as ->.
  { apply eq_bool_prop_intro. rewrite !Is_true_true, !Z.ltb_lt. change (2 ^ 7) with 128.
    split; intros Hlt; [|apply Z.div_lt_upper_bound; lia].
    apply Z.nle_gt. intros Hge. assert (128 ≤ u / 2 ^ ((b - 1) * 8)); [|lia].
    apply Z.div_le_lower_bound; lia. }
  unfold to_signed. fold m. destruct (Z.ltb_spec u (2 ^ m)) as [Hlt|Hge]; cbn [negb].
  - exists u. split; [done|]. split; [unfold fits; nia|].
    destruct (Z.ltb_spec u (2 ^ (sz * 8 - 1))); [done|nia].
  - rewrite (Z.mod_small b sz) by lia. destruct (Z.leb_spec 31 (b * 8)); [lia|].
    eexists. split; [done|]. rewrite Z.shiftl_mul_pow2, Z.mul_1_l by lia.
    rewrite (wrap_small _ (2 ^ (b * 8) - 1)) by (unfold fits; nia).
    replace (Z.lnot (2 ^ (b * 8) - 1)) with (Z.shiftl (-1) (b * 8))
      by (rewrite Z.shiftl_mul_pow2 by lia; unfold Z.lnot; lia).
    rewrite lor_shiftl by (unfold fits; lia).
    assert (wrap (sz * 8) (-1 * 2 ^ (b * 8) + u) = 2 ^ (sz * 8) - 2 ^ (b * 8) + u) as ->.
    { unfold wrap. rewrite <- (Z.mod_add _ 1), Z.mod_small by nia. lia. }
    split; [unfold fits; nia|]. destruct (Z.ltb_spec (2 ^ (sz * 8) - 2 ^ (b * 8) + u) (2 ^ (sz * 8 - 1))); nia.
Qed.

Lemma to_signed_mod w v : 0 < w → - 2 ^ (w - 1) ≤ v < 2 ^ (w - 1) → to_signed w (v mod 2 ^ w) = v.
Proof.
  intros Hw Hv. assert (2 ^ w = 2 * 2 ^ (w - 1)) as E by (rewrite <- Z.pow_succ_r by lia; f_equal; lia).
  unfold to_signed. destruct (decide (0 ≤ v)).
  - rewrite Z.mod_small by lia. destruct (Z.ltb_spec v (2 ^ (w - 1))); lia.
  - rewrite <- (Z.mod_add v 1), Z.mod_small by lia.
    destruct (Z.ltb_spec (v + 1 * 2 ^ w) (2 ^ (w - 1))); lia.
Qed.

(** ** Properties *)

(** For every type size and byte count, the writer followed by the reader
    gives the value back modulo 256^B, in both byte orders, whichever of the
    specialised templates is selected, and touches only the B bytes. *)
Lemma byte_io_roundtrip sz B pre old post v :
  length old = B → (0 < B)%nat → Z.of_nat B ≤ sz →
  (∃ data, WriteBigEndian B (pre ++ old ++ post) (zlen pre) v = Ok data ∧
     data = pre ++ to_be B v ++ post ∧
     ReadBigEndian sz B data (zlen pre) = Ok (v mod 256 ^ Z.of_nat B)) ∧
  (∃ data, WriteLittleEndian B (pre ++ old ++ post) (zlen pre) v = Ok data ∧
     data = pre ++ rev (to_be B v) ++ post ∧
     ReadLittleEndian sz B data (zlen pre) = Ok (v mod 256 ^ Z.of_nat B)).
Proof.
  intros Hl HB Hsz. split; eexists.
  - rewrite WriteBigEndian_at by done. split; [done|]. split; [done|].
    rewrite ReadBigEndian_at by (auto with cpp; apply length_to_be). by rewrite of_be_to_be.
  - rewrite WriteLittleEndian_at by done. split; [done|]. split; [done|].
    rewrite ReadLittleEndian_at; [|by rewrite length_rev, length_to_be|done|apply Forall_rev, to_be_bytes|done].
    by rewrite rev_involutive, of_be_to_be.
Qed.

Lemma byte_io_roundtrip_witness :
  (∃ data, WriteBigEndian 3 ([9] ++ [0; 0; 0] ++ [9]) 1 0x1234567 = Ok data ∧
     data = [9] ++ to_be 3 0x1234567 ++ [9] ∧ ReadBigEndian 4 3 data 1 = Ok 0x234567) ∧
  (∃ data, WriteLittleEndian 3 ([9] ++ [0; 0; 0] ++ [9]) 1 0x1234567 = Ok data ∧
     data = [9] ++ rev (to_be 3 0x1234567) ++ [9] ∧ ReadLittleEndian 4 3 data 1 = Ok 0x234567).
Proof. apply (byte_io_roundtrip 4 3 [9] [0; 0; 0] [9] 0x1234567); [done|lia|lia]. Defined.

Lemma mod_mod_pow v B sz :
  (0 ≤ B ≤ sz) → (wrap (sz * 8) v) mod 256 ^ B = v mod 2 ^ (B * 8).
Proof.
  intros HB. unfold wrap. rewrite <- pow256 by lia.
  replace (2 ^ (sz * 8)) with (2 ^ (B * 8) * 2 ^ ((sz - B) * 8))
    by (rewrite <- Z.pow_add_r by lia; f_equal; lia).
  assert (0 < 2 ^ (B * 8)) by (apply Z.pow_pos_nonneg; lia).
  assert (0 < 2 ^ ((sz - B) * 8)) by (apply Z.pow_pos_nonneg; lia).
  rewrite Z.rem_mul_r, (Z.mul_comm (2 ^ (B * 8)) (_ mod _)), Z.mod_add, Z.mod_mod by lia. done.
Qed.

Lemma read_signed sz B u :
  (0 < B)%nat → Z.of_nat B ≤ sz → Z.of_nat B = sz ∨ Z.of_nat B < 4 → fits (Z.of_nat B * 8) u →
  (u ← (if Z.of_nat B <? sz then SignExtend sz B u else Ok u); Ok (ReinterpretAsSigned sz u))
  = Ok (to_signed (Z.of_nat B * 8) u).
Proof.
  intros HB Hsz H4 Hu. destruct (Z.ltb_spec (Z.of_nat B) sz) as [Hlt|Hge].
  - destruct (SignExtend_spec sz B u) as (x & -> & Hx & Hs); [done|done|lia|done|].
    cbn [mbind res_bind]. rewrite ReinterpretAsSigned_spec by (done || lia). by rewrite Hs.
  - assert (Z.of_nat B = sz) as E by lia. cbn [mbind res_bind].
    rewrite ReinterpretAsSigned_spec by (rewrite ?E in *; done || lia). by rewrite E.
Qed.

(** A signed value that fits B bytes survives the signed writer and reader
    in both byte orders, when B is the size of the type or at most three. *)
Lemma byte_io_signed_roundtrip sz B pre old post v :
  length old = B → (0 < B)%nat → Z.of_nat B ≤ sz → Z.of_nat B = sz ∨ Z.of_nat B < 4 →
  - 2 ^ (Z.of_nat B * 8 - 1) ≤ v < 2 ^ (Z.of_nat B * 8 - 1) →
  (data ← WriteBigEndianSigned sz B (pre ++ old ++ post) (zlen pre) v;
   ReadBigEndianSigned sz B data (zlen pre)) = Ok v ∧
  (data ← WriteLittleEndianSigned sz B (pre ++ old ++ post) (zlen pre) v;
   ReadLittleEndianSigned sz B data (zlen pre)) = Ok v.
Proof.
  intros Hl HB Hsz H4 Hv. unfold WriteBigEndianSigned, WriteLittleEndianSigned, ReinterpretAsUnsigned.
  rewrite WriteBigEndian_at, WriteLittleEndian_at by done. cbn [mbind res_bind].
  unfold ReadBigEndianSigned, ReadLittleEndianSigned.
  rewrite ReadBigEndian_at by (auto with cpp; apply length_to_be).
  rewrite ReadLittleEndian_at; [|by rewrite length_rev, length_to_be|done|apply Forall_rev, to_be_bytes|done].
  rewrite rev_involutive, of_be_to_be, mod_mod_pow by lia. cbn [mbind res_bind].
  rewrite !read_signed by (done || apply Z.mod_pos_bound, Z.pow_pos_nonneg; lia).
  rewrite to_signed_mod by (done || lia). done.
Qed.

Lemma byte_io_signed_roundtrip_witness :
  (data ← WriteBigEndianSigned 4 3 ([] ++ [0; 0; 0] ++ []) 0 (-70000);
   ReadBigEndianSigned 4 3 data 0) = Ok (-70000) ∧
  (data ← WriteLittleEndianSigned 4 3 ([] ++ [0; 0; 0] ++ []) 0 (-70000);
   ReadLittleEndianSigned 4 3 data 0) = Ok (-70000).
Proof. apply (byte_io_signed_roundtrip 4 3 [] [0; 0; 0] [] (-70000)); [done|lia|lia|lia|by vm_compute]. Defined.

(** The mask of SignExtend is built with an int shift: a negative value of five
    bytes in a 64-bit type shifts by 40. *)
Example SignExtend_shift_undefined : ReadBigEndianSigned 8 5 [0x80; 0; 0; 0; 0] 0 = UB BadShift.
Proof. reflexivity. Qed.
End ByteIO.
