(* ===== verification/Rtp.v ===== *)
(** webrtc::RtpPacket (src/rtp/rtp_packet.h, rtp_packet.cc), the packet tests of
    src/rtp/rtp_util.cc, the H.264 depacketizer
    (src/rtp/video_rtp_depacketizer_h264.cc) and the RTP channel of
    src/example/publish.cc that composes them. *)
From S2P Require Import Prelude ByteOps ByteIO.

Module Rtp.
Import ByteIO.

(** ** rtp_util.cc *)
Definition kRtpVersion : Z := 2.
Definition kMinRtpPacketLen : Z := 12.
Definition kMinRtcpPacketLen : Z := 4.

Definition HasCorrectRtpVersion (packet : list Z) : res bool :=
  b ← packet.[0]; Ok (Z.shiftr b 6 =? kRtpVersion).

Definition PayloadTypeIsReservedForRtcp (payload_type : Z) : bool :=
  (64 <=? payload_type) && (payload_type <? 96).

Definition IsRtpPacket (packet : list Z) (size : Z) : res bool :=
  Ok (kMinRtpPacketLen <=? size) &&& HasCorrectRtpVersion packet &&&
  (b ← packet.[1]; Ok (negb (PayloadTypeIsReservedForRtcp (Z.land b 0x7F)))).

Definition IsRtcpPacket (packet : list Z) (size : Z) : res bool :=
  Ok (kMinRtcpPacketLen <=? size) &&& HasCorrectRtpVersion packet &&&
  (b ← packet.[1]; Ok (PayloadTypeIsReservedForRtcp (Z.land b 0x7F))).

Definition ParseRtpPayloadType (rtp_packet : list Z) : res Z :=
  b ← rtp_packet.[1]; Ok (Z.land b 0x7F).
Definition ParseRtpSequenceNumber (rtp_packet : list Z) : res Z := ReadBigEndian 2 2 rtp_packet 2.
Definition ParseRtpSsrc (rtp_packet : list Z) : res Z := ReadBigEndian 4 4 rtp_packet 8.

(** ** RtpPacket *)
Record RtpPacket := mkRtpPacket {
  marker_ : bool;
  payload_type_ : Z;
  padding_size_ : Z;
  sequence_number_ : Z;
  timestamp_ : Z;
  ssrc_ : Z;
  payload_offset_ : Z;
  payload_size_ : Z;
  buffer_ : list Z;
}.

Definition kFixedHeaderSize : Z := 12.

Definition packet_size (p : RtpPacket) : Z :=
  p.(payload_offset_) + p.(payload_size_) + p.(padding_size_).

(** Everything but the buffer is reset. *)
Definition Clear (p : RtpPacket) : RtpPacket :=
  mkRtpPacket false 0 0 0 0 0 kFixedHeaderSize 0 p.(buffer_).

(** Assignments of ParseBuffer, in the order it makes them. *)
Definition set_header (marker : bool) (pt seq ts ssrc : Z) (p : RtpPacket) : RtpPacket :=
  mkRtpPacket marker pt p.(padding_size_) seq ts ssrc p.(payload_offset_) p.(payload_size_) p.(buffer_).
Definition set_offset (o : Z) (p : RtpPacket) : RtpPacket :=
  mkRtpPacket p.(marker_) p.(payload_type_) p.(padding_size_) p.(sequence_number_) p.(timestamp_)
    p.(ssrc_) o p.(payload_size_) p.(buffer_).
Definition set_padding (n : Z) (p : RtpPacket) : RtpPacket :=
  mkRtpPacket p.(marker_) p.(payload_type_) n p.(sequence_number_) p.(timestamp_)
    p.(ssrc_) p.(payload_offset_) p.(payload_size_) p.(buffer_).
Definition set_payload_size (n : Z) (p : RtpPacket) : RtpPacket :=
  mkRtpPacket p.(marker_) p.(payload_type_) p.(padding_size_) p.(sequence_number_) p.(timestamp_)
    p.(ssrc_) p.(payload_offset_) n p.(buffer_).
Definition set_buffer (b : list Z) (p : RtpPacket) : RtpPacket :=
  mkRtpPacket p.(marker_) p.(payload_type_) p.(padding_size_) p.(sequence_number_) p.(timestamp_)
    p.(ssrc_) p.(payload_offset_) p.(payload_size_) b.

(** The header extension; the profile is read and not used. *)
Definition parse_extension (buffer : list Z) (size : Z) (p : RtpPacket) : res (bool * RtpPacket) :=
  let extension_offset := p.(payload_offset_) + 4 in
  if size <? extension_offset then Ok (false, p)
  else
    profile ← ReadBigEndian 2 2 buffer p.(payload_offset_);
    words ← ReadBigEndian 2 2 buffer (p.(payload_offset_) + 2);
    let extensions_capacity := words * 4 in
    if size <? extension_offset + extensions_capacity then Ok (false, p)
    else Ok (true, set_offset (extension_offset + extensions_capacity) p).

Definition parse_padding (buffer : list Z) (size : Z) (has_padding : bool) (p : RtpPacket) :
    res (bool * RtpPacket) :=
  if has_padding && (p.(payload_offset_) <? size) then
    n ← buffer.[size - 1];
    Ok (negb (n =? 0), set_padding n p)
  else Ok (true, set_padding 0 p).

Definition ParseBuffer (p : RtpPacket) (buffer : list Z) (size : Z) : res (bool * RtpPacket) :=
  if size <? kFixedHeaderSize then Ok (false, p)
  else
    b0 ← buffer.[0];
    if negb (Z.shiftr b0 6 =? kRtpVersion) then Ok (false, p)
    else
      let has_padding := negb (Z.land b0 0x20 =? 0) in
      let has_extension := negb (Z.land b0 0x10 =? 0) in
      let number_of_crcs := Z.land b0 0x0f in
      b1 ← buffer.[1];
      seq ← ReadBigEndian 2 2 buffer 2;
      ts ← ReadBigEndian 4 4 buffer 4;
      ssrc ← ReadBigEndian 4 4 buffer 8;
      let p := set_header (negb (Z.land b1 0x80 =? 0)) (Z.land b1 0x7f) seq ts ssrc p in
      if size <? kFixedHeaderSize + number_of_crcs * 4 then Ok (false, p)
      else
        let p := set_offset (kFixedHeaderSize + number_of_crcs * 4) p in
        '(ok, p) ← (if has_extension then parse_extension buffer size p else Ok (true, p));
        if negb ok then Ok (false, p)
        else
          '(ok, p) ← parse_padding buffer size has_padding p;
          if negb ok then Ok (false, p)
          else if size <? p.(payload_offset_) + p.(padding_size_) then Ok (false, p)
          else Ok (true, set_payload_size (size - p.(payload_offset_) - p.(padding_size_)) p).

(** The statements of Parse: [false] is the early return. *)
Definition parse_body (p : RtpPacket) (buffer : list Z) (size : Z) : res (bool * RtpPacket) :=
  '(ok, p) ← ParseBuffer p buffer size;
  if negb ok then Ok (false, Clear p)
  else
    copy ← rd_range buffer 0 size;
    Ok (true, set_buffer copy p).

(** Behind the last statement there is no return: in C++ that is undefined
    whether or not the caller looks at the value. *)
Definition Parse (p : RtpPacket) (buffer : list Z) (size : Z) : res (bool * RtpPacket) :=
  '(accepted, p) ← parse_body p buffer size;
  if (accepted : bool) then UB NoReturn else Ok (false, p).
End Rtp.

(** ** The H.264 depacketizer *)
Module H264.
Import ByteIO Rtp.

Definition kIdr : Z := 5.
Definition kSei : Z := 6.
Definition kSps : Z := 7.
Definition kPps : Z := 8.
Definition kAud : Z := 9.
Definition kStapA : Z := 24.
Definition kFuA : Z := 28.

Definition kNaluTypeSize : Z := 1.
Definition kNalHeaderSize : Z := 1.
Definition kFuAHeaderSize : Z := 2.
Definition kLengthFieldSize : Z := 2.
Definition kStapAHeaderSize : Z := kNalHeaderSize + kLengthFieldSize.
Definition kFBit : Z := 0x80.
Definition kNriMask : Z := 0x60.
Definition kTypeMask : Z := 0x1F.
Definition kSBit : Z := 0x80.

Inductive VideoFrameType := kEmptyFrame | kVideoFrameKey | kVideoFrameDelta.

Record RtpVideoHeader := mkVideoHeader {
  is_first_packet_in_frame : bool;
  is_last_packet_in_frame : bool;
  frame_type : VideoFrameType;
}.

(** [parsed_packet] is [None] while the pointer is indeterminate. *)
Record ParsedRtpPayload := mkParsed {
  parsed_packet : option RtpPacket;
  video_header : RtpVideoHeader;
  parsed_playload_offset : Z;
  playload_size : Z;
  has_playload_header : bool;
  playload_header : list Z;
}.

(** [nalu_ptr] is an index into the packet buffer; the loop runs with fuel. *)
Fixpoint stap_a_loop (fuel : nat) (data : list Z) (nalu_ptr length_remaining offset : Z)
    (offsets : list Z) : res (bool * list Z) :=
  match fuel with
  | O => OutOfFuel
  | S fuel =>
      if 0 <? length_remaining then
        if length_remaining <? 2 then Ok (false, offsets)
        else
          nalu_size ← ReadBigEndian 2 2 data nalu_ptr;
          let nalu_ptr := nalu_ptr + 2 in
          let length_remaining := length_remaining - 2 in
          if length_remaining <? nalu_size then Ok (false, offsets)
          else
            stap_a_loop fuel data (nalu_ptr + nalu_size) (length_remaining - nalu_size)
              (offset + (kLengthFieldSize + nalu_size)) (offsets ++ [offset + kStapAHeaderSize])
      else Ok (true, offsets)
  end.

(** Each iteration consumes two bytes at least. *)
Definition ParseStapAStartOffsets (data : list Z) (nalu_ptr length_remaining : Z) (offsets : list Z) :
    res (bool * list Z) :=
  stap_a_loop (S (Z.to_nat length_remaining)) data nalu_ptr length_remaining 0 offsets.

(** The loop over consecutive pairs of offsets: [false] is the early return. *)
Fixpoint check_nalus (data : list Z) (payload : Z) (offsets : list Z) : res bool :=
  match offsets with
  | start_offset :: ((next :: _) as rest) =>
      let end_offset := u64 (next - kLengthFieldSize) in
      if u64 (end_offset - start_offset) <? kNaluTypeSize then Ok false
      else
        b ← data.[payload + start_offset];
        let type := Z.land b kTypeMask in
        if (type =? kStapA) || (type =? kFuA) then Ok false
        else check_nalus data payload rest
  | _ => Ok true
  end.

Definition ProcessStapAOrSingleNalu (packet : RtpPacket) : res (option ParsedRtpPayload) :=
  let data := packet.(buffer_) in
  let payload := packet.(payload_offset_) in
  let nalu_start := payload + kNalHeaderSize in
  let nalu_length := u64 (packet.(payload_size_) - kNalHeaderSize) in
  b ← data.[payload];
  let nal_type := Z.land b kTypeMask in
  offsets ← (if nal_type =? kStapA then
               if packet.(payload_size_) <=? kStapAHeaderSize then Ok None
               else
                 '(ok, offsets) ← ParseStapAStartOffsets data nalu_start nalu_length [];
                 if negb ok then Ok None
                 else data.[payload + kStapAHeaderSize];; Ok (Some offsets)
             else Ok (Some [0]));
  match offsets with
  | None => Ok None
  | Some offsets =>
      let offsets := offsets ++ [packet.(payload_size_) + kLengthFieldSize] in
      ok ← check_nalus data payload offsets;
      if negb ok then Ok None
      else Ok (Some (mkParsed None (mkVideoHeader false false kVideoFrameDelta) 0 0 false []))
  end.

Definition ParseFuaNalu (packet : RtpPacket) : res (option ParsedRtpPayload) :=
  if packet.(payload_size_) <? kFuAHeaderSize then Ok None
  else
    let data := packet.(buffer_) in
    let payload := packet.(payload_offset_) in
    b0 ← data.[payload];
    b1 ← data.[payload + 1];
    let fnri := Z.land b0 (Z.lor kFBit kNriMask) in
    let original_nal_type := Z.land b1 kTypeMask in
    let first_fragment := 0 <? Z.land b1 kSBit in
    Ok (Some (mkParsed (Some packet)
      (mkVideoHeader first_fragment false
         (if original_nal_type =? kIdr then kVideoFrameKey else kVideoFrameDelta))
      kFuAHeaderSize (packet.(payload_size_) - kFuAHeaderSize) first_fragment
      (if first_fragment then [Z.lor fnri original_nal_type] else []))).

Definition DepacketizerParse (packet : RtpPacket) : res (option ParsedRtpPayload) :=
  if packet.(payload_size_) =? 0 then Ok None
  else
    b ← packet.(buffer_).[packet.(payload_offset_)];
    if Z.land b kTypeMask =? kFuA then ParseFuaNalu packet
    else ProcessStapAOrSingleNalu packet.

(** RTPChannel::OnRTP of publish.cc; [junk] is the uninitialised packet object. *)
Definition OnRTP (junk : RtpPacket) (data : list Z) (len : Z) : res (option ParsedRtpPayload) :=
  '(_, rtp_packet) ← Rtp.Parse junk data len;
  DepacketizerParse rtp_packet.
End H264.
