(* ===== verification/RtpProofs.v ===== *)
(** The RTP path never reads outside the packet, RtpPacket::ParseBuffer inverts
    the RTP packet layout, and the depacketizer accepts the H.264 payloads the
    packetization modes produce. *)
From S2P Require Import Prelude ByteOps ByteIO Rtp.

Module RtpProofs.
Import Byte ByteIO Rtp H264.

(** ** Reading *)
Lemma wp_ReadBigEndian sz B data i (Q : Z → Prop) :
  bytes_ok data → (0 < B)%nat → Z.of_nat B ≤ sz → 0 ≤ i → i + Z.of_nat B ≤ zlen data →
  (∀ v, ReadBigEndian sz B data i = Ok v → 0 ≤ v < 256 ^ Z.of_nat B → Q v) →
  wp (ReadBigEndian sz B data i) Q.
Proof.
  intros Hb HB Hsz Hi Hl HQ. destruct (split_at data i B) as (pre & mid & post & -> & <- & Hm); [lia..|].
  apply Forall_app in Hb as [_ [Hb _]%Forall_app].
  pose proof (ReadBigEndian_at sz B pre mid post Hm HB Hb Hsz) as E.
  rewrite E. apply HQ; [done|]. pose proof (of_be_bound mid Hb) as Hbd. unfold zlen in Hbd. by rewrite Hm in Hbd.
Qed.

(** ** RtpPacket::Parse is total and what it accepts is inside the packet *)
Record wf_rtp (len : Z) (p : RtpPacket) : Prop := {
  wr_offset : 12 ≤ payload_offset_ p;
  wr_payload : 0 ≤ payload_size_ p;
  wr_padding : is_byte (padding_size_ p);
  wr_size : packet_size p = len;
  wr_pt : 0 ≤ payload_type_ p < 128;
  wr_seq : fits 16 (sequence_number_ p);
  wr_ts : fits 32 (timestamp_ p);
  wr_ssrc : fits 32 (ssrc_ p);
}.

Lemma parse_extension_wp data o0 p :
  bytes_ok data → 12 ≤ o0 ≤ zlen data →
  wp (parse_extension data (zlen data) (set_offset o0 p)) (λ r, ∃ o,
    r.2 = set_offset o p ∧ (r.1 = true → 12 ≤ o ≤ zlen data)).
Proof.
  intros Hb Ho. unfold parse_extension. cbn [payload_offset_ set_offset].
  destruct (Z.ltb_spec (zlen data) (o0 + 4)) as [?|Hx]; [by eexists|].
  apply wp_bind, wp_ReadBigEndian; try (done || lia). intros profile _ _.
  apply wp_bind, wp_ReadBigEndian; try (done || lia). intros words _ Hw.
  destruct (Z.ltb_spec (zlen data) (o0 + 4 + words * 4)); [by eexists|].
  eexists. split; [done|]. lia.
Qed.

Lemma parse_padding_wp data b p :
  bytes_ok data → 12 ≤ payload_offset_ p ≤ zlen data →
  wp (parse_padding data (zlen data) b p) (λ r, ∃ n, is_byte n ∧ r.2 = set_padding n p).
Proof.
  intros Hb Ho. unfold parse_padding. destruct b; cbn [andb]; [|by exists 0].
  destruct (Z.ltb_spec (payload_offset_ p) (zlen data)); [|by exists 0].
  apply wp_bind, wp_rd; try (done || lia). intros n _ Hn. by exists n.
Qed.

Lemma ParseBuffer_wp p data :
  bytes_ok data →
  wp (ParseBuffer p data (zlen data)) (λ r, buffer_ r.2 = buffer_ p ∧ (r.1 = true → wf_rtp (zlen data) r.2)).
Proof.
  intros Hb. unfold ParseBuffer. unfold kFixedHeaderSize.
  destruct (Z.ltb_spec (zlen data) 12) as [?|Hlen]; [done|].
  apply wp_bind, wp_rd; try (done || lia). intros b0 _ Hb0.
  destruct (negb _); [done|].
  apply wp_bind, wp_rd; try (done || lia). intros b1 _ Hb1.
  apply wp_bind, wp_ReadBigEndian; try (done || lia). intros seq _ Hseq.
  apply wp_bind, wp_ReadBigEndian; try (done || lia). intros ts _ Hts.
  apply wp_bind, wp_ReadBigEndian; try (done || lia). intros ssrc _ Hssrc.
  rewrite (land_ones' b0 4) by done. assert (0 ≤ b0 mod 2 ^ 4) by (apply Z.mod_pos_bound; lia).
  set (p1 := set_header _ _ _ _ _ p).
  destruct (Z.ltb_spec (zlen data) (12 + b0 mod 2 ^ 4 * 4)); [done|].
  apply wp_bind. eapply (wp_mono _ (λ r, ∃ o, r.2 = set_offset o p1 ∧ (r.1 = true → 12 ≤ o ≤ zlen data))).
  { case_match; [|eexists; split; [done|lia]]. apply parse_extension_wp; [done|lia]. }
  intros [ok p2] (o & Hp2 & Ho). cbn [fst snd] in *. subst p2. destruct ok; [|done].
  specialize (Ho eq_refl). cbn [negb]. apply wp_bind.
  eapply wp_mono; [by apply parse_padding_wp|].
  intros [ok p2] (n & Hn & Hp2). cbn [fst snd] in *. subst p2. destruct ok; [|done]. cbn [negb].
  cbn [payload_offset_ padding_size_ set_padding set_offset].
  destruct (Z.ltb_spec (zlen data) (o + n)); [done|]. split; [done|]. intros _.
  split; cbn; try done; try lia.
  - unfold packet_size. cbn. lia.
  - rewrite (land_ones' b1 7) by done. by apply Z.mod_pos_bound.
Qed.

(** ** The packet layout *)
Record rtp := mkRtp {
  r_marker : bool;
  r_pt : Z;
  r_seq : Z;
  r_ts : Z;
  r_ssrc : Z;
  r_csrcs : list Z;
  r_ext : option (Z * list Z);
  r_payload : list Z;
  r_pad : option Z;
}.

Definition bit (b : bool) (v : Z) : Z := if b then v else 0.

Definition first_byte (r : rtp) : Z :=
  128 + bit (bool_decide (is_Some (r_pad r))) 32 + bit (bool_decide (is_Some (r_ext r))) 16
    + zlen (r_csrcs r).

Definition enc_fixed (r : rtp) : list Z :=
  [first_byte r; bit (r_marker r) 128 + r_pt r] ++ to_be 2 (r_seq r) ++ to_be 4 (r_ts r)
    ++ to_be 4 (r_ssrc r).
Definition enc_csrcs (r : rtp) : list Z := concat (to_be 4 <$> r_csrcs r).
Definition enc_ext (r : rtp) : list Z :=
  match r_ext r with
  | Some (profile, l) => to_be 2 profile ++ to_be 2 (zlen l / 4) ++ l
  | None => []
  end.
Definition enc_pad (r : rtp) : list Z :=
  match r_pad r with Some n => replicate (Z.to_nat (n - 1)) 0 ++ [n] | None => [] end.

Definition encode (r : rtp) : list Z :=
  enc_fixed r ++ enc_csrcs r ++ enc_ext r ++ r_payload r ++ enc_pad r.

Record wf_layout (r : rtp) : Prop := {
  wl_pt : 0 ≤ r_pt r < 128;
  wl_seq : fits 16 (r_seq r);
  wl_ts : fits 32 (r_ts r);
  wl_ssrc : fits 32 (r_ssrc r);
  wl_csrcs : zlen (r_csrcs r) < 16;
  wl_ext profile l : r_ext r = Some (profile, l) → fits 16 profile ∧ zlen l mod 4 = 0 ∧ zlen l / 4 < 65536;
  wl_pad n : r_pad r = Some n → 0 < n < 256;
}.

(** The packet object that describes the layout. *)
Definition decoded (r : rtp) (p : RtpPacket) : RtpPacket :=
  mkRtpPacket (r_marker r) (r_pt r) (default 0 (r_pad r)) (r_seq r) (r_ts r) (r_ssrc r)
    (12 + zlen (enc_csrcs r) + zlen (enc_ext r)) (zlen (r_payload r)) (buffer_ p).

Lemma zlen_enc_csrcs r : zlen (enc_csrcs r) = zlen (r_csrcs r) * 4.
Proof.
  unfold enc_csrcs. induction (r_csrcs r) as [|x l IH]; [done|].
  cbn [fmap list_fmap concat]. rewrite zlen_app, zlen_to_be, IH, zlen_cons. lia.
Qed.

Lemma zlen_enc_pad r : wf_layout r → zlen (enc_pad r) = default 0 (r_pad r).
Proof.
  intros Hr. unfold enc_pad. destruct (r_pad r) as [n|] eqn:E; [|done].
  pose proof (wl_pad r Hr n E). rewrite zlen_app. unfold zlen. rewrite length_replicate. cbn. lia.
Qed.

Definition first_byte_ok (p x : bool) (cc : Z) : bool :=
  let b := 128 + bit p 32 + bit x 16 + cc in
  (Z.shiftr b 6 =? 2) && Bool.eqb (negb (Z.land b 0x20 =? 0)) p &&
  Bool.eqb (negb (Z.land b 0x10 =? 0)) x && (Z.land b 0x0f =? cc).

Lemma first_byte_fields p x cc :
  0 ≤ cc < 16 →
  let b := 128 + bit p 32 + bit x 16 + cc in
  Z.shiftr b 6 = 2 ∧ negb (Z.land b 0x20 =? 0) = p ∧ negb (Z.land b 0x10 =? 0) = x ∧
  Z.land b 0x0f = cc.
Proof.
  intros Hcc.
  assert (forallb (λ n, first_byte_ok p x (Z.of_nat n)) (seq 0 16) = true) as Hall
    by (by destruct p, x; vm_compute).
  rewrite forallb_forall in Hall. specialize (Hall (Z.to_nat cc)).
  rewrite in_seq, Z2Nat.id in Hall by lia. specialize (Hall ltac:(lia)).
  unfold first_byte_ok in Hall.
  rewrite !andb_true_iff, !Z.eqb_eq, !eqb_true_iff in Hall. cbv zeta. tauto.
Qed.

Lemma second_byte_fields (m : bool) pt :
  0 ≤ pt < 128 →
  negb (Z.land (bit m 128 + pt) 0x80 =? 0) = m ∧ Z.land (bit m 128 + pt) 0x7f = pt.
Proof.
  intros Hpt. rewrite (land_ones' _ 7 0x7f) by done.
  rewrite (land_top_bit 7 (bit m 128 + pt) : _ → _ → (Z.land _ 0x80 =? 0) = _);
    [|lia|unfold fits; destruct m; cbn [bit]; lia].
  change (2 ^ 7) with 128. destruct m; cbn [bit].
  - destruct (Z.ltb_spec (128 + pt) 128); [lia|]. split; [done|]. zdm.
  - destruct (Z.ltb_spec (0 + pt) 128); [|lia]. split; [done|]. zdm.
Qed.

Lemma parse_extension_at r pre post p :
  wf_layout r → is_Some (r_ext r) → zlen pre = payload_offset_ p →
  parse_extension (pre ++ enc_ext r ++ post) (zlen (pre ++ enc_ext r ++ post)) p
  = Ok (true, set_offset (zlen pre + zlen (enc_ext r)) p).
Proof.
  intros Hr [[profile l] He] Hpre. destruct (wl_ext r Hr profile l He) as (Hprof & Hmod & Hlt).
  unfold parse_extension, enc_ext. rewrite He, <- Hpre. clear Hpre.
  pose proof (zlen_nonneg l). pose proof (zlen_nonneg post).
  assert (zlen (pre ++ (to_be 2 profile ++ to_be 2 (zlen l / 4) ++ l) ++ post)
          = zlen pre + (4 + zlen l) + zlen post) as Hz
    by (rewrite !zlen_app, !zlen_to_be; lia).
  rewrite Hz. rewrite <- !app_assoc.
  destruct (Z.ltb_spec (zlen pre + (4 + zlen l) + zlen post) (zlen pre + 4)); [lia|].
  rewrite ReadBigEndian_at by (auto with cpp; lia). cbn [mbind res_bind].
  rewrite (app_assoc pre). replace (zlen pre + 2) with (zlen (pre ++ to_be 2 profile))
    by (rewrite zlen_app, zlen_to_be; lia).
  rewrite ReadBigEndian_at by (auto with cpp; lia). cbn [mbind res_bind].
  rewrite to_be_small by (change (256 ^ Z.of_nat 2) with 65536; zdm).
  replace (zlen l / 4 * 4) with (zlen l) by zdm.
  destruct (Z.ltb_spec (zlen pre + (4 + zlen l) + zlen post) (zlen pre + 4 + zlen l)); [lia|].
  do 3 f_equal. rewrite !zlen_app, !zlen_to_be. lia.
Qed.

Lemma parse_padding_at r pre p :
  wf_layout r → zlen pre = payload_offset_ p + zlen (r_payload r) →
  parse_padding (pre ++ enc_pad r) (zlen (pre ++ enc_pad r)) (bool_decide (is_Some (r_pad r))) p
  = Ok (true, set_padding (default 0 (r_pad r)) p).
Proof.
  intros Hr Hpre. unfold parse_padding. pose proof (zlen_enc_pad r Hr) as Hz.
  pose proof (zlen_nonneg (r_payload r)).
  destruct (r_pad r) as [n|] eqn:E; [|by rewrite bool_decide_false by (intros []; done)].
  rewrite bool_decide_true by done. pose proof (wl_pad r Hr n E) as Hn. change (zlen (enc_pad r) = n) in Hz.
  rewrite zlen_app, Hz. destruct (Z.ltb_spec (payload_offset_ p) (zlen pre + n)); [|lia].
  cbn [andb]. unfold enc_pad. rewrite E.
  assert ((pre ++ replicate (Z.to_nat (n - 1)) 0 ++ [n]).[zlen pre + n - 1] = Ok n) as ->.
  { rewrite app_assoc. rewrite <- (rd_cons_0 n []).
    rewrite <- (rd_app_r (pre ++ replicate (Z.to_nat (n - 1)) 0) [n]) by lia. f_equal.
    rewrite zlen_app. unfold zlen. rewrite length_replicate. lia. }
  cbn [mbind res_bind].
  destruct (Z.eqb_spec n 0); [lia|]. done.
Qed.

Lemma read_fixed r rest :
  wf_layout r →
  ReadBigEndian 2 2 (enc_fixed r ++ rest) 2 = Ok (r_seq r) ∧
  ReadBigEndian 4 4 (enc_fixed r ++ rest) 4 = Ok (r_ts r) ∧
  ReadBigEndian 4 4 (enc_fixed r ++ rest) 8 = Ok (r_ssrc r).
Proof.
  intros Hr. set (h := [first_byte r; bit (r_marker r) 128 + r_pt r]).
  set (a := to_be 2 (r_seq r)). set (b := to_be 4 (r_ts r)). set (c := to_be 4 (r_ssrc r)).
  assert (enc_fixed r ++ rest = h ++ a ++ b ++ c ++ rest) as Ea
    by (unfold enc_fixed; by rewrite <- !app_assoc).
  assert (enc_fixed r ++ rest = (h ++ a) ++ b ++ c ++ rest) as Eb by (by rewrite <- app_assoc).
  assert (enc_fixed r ++ rest = (h ++ a ++ b) ++ c ++ rest) as Ec by (by rewrite <- !app_assoc).
  split; [|split].
  - rewrite Ea. rewrite (ReadBigEndian_at 2 2 h a) by (subst a; auto with cpp; lia).
    subst a. rewrite to_be_small; [done|apply (wl_seq r Hr)].
  - rewrite Eb. rewrite (ReadBigEndian_at 4 4 (h ++ a) b) by (subst b; auto with cpp; lia).
    subst b. rewrite to_be_small; [done|apply (wl_ts r Hr)].
  - rewrite Ec. rewrite (ReadBigEndian_at 4 4 (h ++ a ++ b) c) by (subst c; auto with cpp; lia).
    subst c. rewrite to_be_small; [done|apply (wl_ssrc r Hr)].
Qed.

Lemma ParseBuffer_encode r p :
  wf_layout r → ParseBuffer p (encode r) (zlen (encode r)) = Ok (true, decoded r p).
Proof.
  intros Hr. set (data := encode r). pose proof (wl_csrcs r Hr) as Hcc.
  pose proof (zlen_nonneg (r_csrcs r)). pose proof (zlen_nonneg (enc_ext r)).
  pose proof (zlen_nonneg (r_payload r)). pose proof (zlen_enc_pad r Hr) as Hpad.
  assert (0 ≤ default 0 (r_pad r)) by (rewrite <- Hpad; apply zlen_nonneg).
  destruct (read_fixed r (enc_csrcs r ++ enc_ext r ++ r_payload r ++ enc_pad r) Hr) as (Hs & Ht & Hss).
  fold (encode r) data in Hs, Ht, Hss.
  assert (zlen (enc_fixed r) = 12) as Hf by done.
  assert (zlen data = 12 + zlen (enc_csrcs r) + zlen (enc_ext r) + zlen (r_payload r) + default 0 (r_pad r))
    as Hz by (subst data; unfold encode; rewrite !zlen_app; lia).
  rewrite zlen_enc_csrcs in Hz.
  destruct (first_byte_fields (bool_decide (is_Some (r_pad r))) (bool_decide (is_Some (r_ext r)))
    (zlen (r_csrcs r))) as (Hv & Hp & Hx & Hc); [lia|]. fold (first_byte r) in Hv, Hp, Hx, Hc.
  destruct (second_byte_fields (r_marker r) (r_pt r) (wl_pt r Hr)) as [Hm Hpt].
  unfold ParseBuffer, kFixedHeaderSize. destruct (Z.ltb_spec (zlen data) 12); [lia|].
  change (data.[0]) with (Ok (first_byte r)). change (data.[1]) with (Ok (bit (r_marker r) 128 + r_pt r)).
  cbn [mbind res_bind]. rewrite Hv. cbn [negb Z.eqb kRtpVersion Pos.eqb].
  rewrite Hs, Ht, Hss. cbn [mbind res_bind]. rewrite Hp, Hx, Hc, Hm, Hpt.
  destruct (Z.ltb_spec (zlen data) (12 + zlen (r_csrcs r) * 4)); [lia|].
  set (p1 := set_offset _ _).
  assert ((if bool_decide (is_Some (r_ext r)) then parse_extension data (zlen data) p1 else Ok (true, p1))
    = Ok (true, set_offset (12 + zlen (enc_csrcs r) + zlen (enc_ext r)) p1)) as ->.
  { destruct (r_ext r) as [e|] eqn:E.
    - rewrite bool_decide_true by done.
      assert (data = (enc_fixed r ++ enc_csrcs r) ++ enc_ext r ++ r_payload r ++ enc_pad r) as Hd
        by (subst data; unfold encode; by rewrite <- app_assoc).
      rewrite Hd, parse_extension_at; [by rewrite zlen_app, Hf|done|by rewrite E|].
      by rewrite zlen_app, Hf, zlen_enc_csrcs.
    - rewrite bool_decide_false by (by intros []). unfold enc_ext. rewrite E, zlen_nil, Z.add_0_r.
      by rewrite zlen_enc_csrcs. }
  cbn [mbind res_bind negb]. set (p2 := set_offset _ p1).
  assert (data = (enc_fixed r ++ enc_csrcs r ++ enc_ext r ++ r_payload r) ++ enc_pad r) as Hd
    by (subst data; unfold encode; by rewrite <- !app_assoc).
  rewrite Hd, parse_padding_at, <- Hd; [|done|rewrite !zlen_app, Hf; cbn; lia].
  cbn [mbind res_bind negb]. cbn [p2 p1 set_padding set_offset payload_offset_ padding_size_].
  rewrite zlen_enc_csrcs in *.
  destruct (Z.ltb_spec (zlen data) (12 + zlen (r_csrcs r) * 4 + zlen (enc_ext r) + default 0 (r_pad r))); [lia|].
  unfold decoded, set_payload_size. rewrite zlen_enc_csrcs.
  cbn [set_padding set_offset set_header marker_ payload_type_ padding_size_ sequence_number_ timestamp_
    ssrc_ payload_offset_ payload_size_ buffer_]. do 3 f_equal. 2: lia.
  subst p2. cbn [set_offset payload_offset_]. by rewrite zlen_enc_csrcs.
Qed.

(** C32: ParseBuffer inverts the RTP layout of RFC 3550: for every marker,
    payload type, sequence number, timestamp, SSRC, up to fifteen CSRCs, any
    extension block, payload and padding, it accepts the packet and reports
    those fields, the payload's offset and size and the padding. *)
Theorem ParseBuffer_inverts_layout r p :
  wf_layout r → ParseBuffer p (encode r) (zlen (encode r)) = Ok (true, decoded r p).
Proof. apply ParseBuffer_encode. Qed.

Definition sample_rtp : rtp :=
  mkRtp true 96 513 70000 12345678 [1; 2] (Some (0xBEDE, [1; 2; 3; 4])) [0x65; 1; 2; 3] (Some 3).

Lemma sample_rtp_wf : wf_layout sample_rtp.
Proof.
  split; try done.
  - intros profile l [= <- <-]. done.
  - intros n [= <-]. done.
Qed.

Definition no_packet : RtpPacket := mkRtpPacket false 0 0 0 0 0 0 0 [].

Lemma ParseBuffer_inverts_layout_witness :
  ParseBuffer no_packet (encode sample_rtp) (zlen (encode sample_rtp))
  = Ok (true, mkRtpPacket true 96 3 513 70000 12345678 28 4 []).
Proof. apply (ParseBuffer_inverts_layout sample_rtp no_packet sample_rtp_wf). Defined.

(** ** STAP-A: offsets of the aggregated units *)
Fixpoint starts (o : Z) (ns : list Z) : list Z :=
  match ns with
  | [] => []
  | n :: ns => (o + 3) :: starts (o + (2 + n)) ns
  end.

Fixpoint total (ns : list Z) : Z := match ns with [] => 0 | n :: ns => 2 + n + total ns end.

Lemma total_nonneg ns : Forall (λ n, 0 ≤ n) ns → 0 ≤ total ns.
Proof. induction 1; cbn [total]; lia. Qed.

Lemma stap_a_loop_wp fuel : ∀ data ptr len o offs,
  bytes_ok data → 0 ≤ ptr → 0 ≤ len → ptr + len ≤ zlen data → len < Z.of_nat fuel →
  wp (stap_a_loop fuel data ptr len o offs) (λ r, r.1 = true →
    ∃ ns, r.2 = offs ++ starts o ns ∧ Forall (λ n, 0 ≤ n) ns ∧ total ns = len).
Proof.
  induction fuel as [|fuel IH]; intros data ptr len o offs Hb Hp Hl Hin Hf; [lia|]. cbn [stap_a_loop].
  destruct (Z.ltb_spec 0 len).
  2: { intros _. exists []. cbn. rewrite app_nil_r. split; [done|]. split; [done|]. lia. }
  destruct (Z.ltb_spec len 2); [done|].
  apply wp_bind, wp_ReadBigEndian; try (done || lia). intros n _ Hn.
  destruct (Z.ltb_spec (len - 2) n); [done|].
  eapply wp_mono; [apply IH; done || lia|]. intros [ok offs'] Hr Hok.
  destruct (Hr Hok) as (ns & Hoffs & Hns & Htot). cbn [fst snd] in *.
  exists (n :: ns). cbn [starts total]. rewrite Hoffs, <- app_assoc. split; [done|].
  split; [constructor; [lia|done]|lia].
Qed.

Lemma u64_small x : 0 ≤ x < 2 ^ 64 → u64 x = x.
Proof. apply wrap_small. Qed.

Lemma check_nalus_cons data payload o n ns e :
  0 ≤ o → 0 ≤ n → o + (2 + n) < 2 ^ 62 →
  check_nalus data payload (starts o (n :: ns) ++ [e]) =
  (let next := match ns with [] => e | _ => o + (2 + n) + 3 end in
   if u64 (u64 (next - 2) - (o + 3)) <? 1 then Ok false
   else
     b ← data.[payload + (o + 3)];
     if (Z.land b kTypeMask =? kStapA) || (Z.land b kTypeMask =? kFuA) then Ok false
     else check_nalus data payload (starts (o + (2 + n)) ns ++ [e])).
Proof. intros. destruct ns; done. Qed.

Lemma check_nalus_step data payload o n ns :
  0 ≤ o → Forall (λ n, 0 ≤ n) (n :: ns) → o + total (n :: ns) < 2 ^ 62 →
  check_nalus data payload (starts o (n :: ns) ++ [o + total (n :: ns) + 3]) =
  if n <? 1 then Ok false
  else
    b ← data.[payload + (o + 3)];
    if (Z.land b kTypeMask =? kStapA) || (Z.land b kTypeMask =? kFuA) then Ok false
    else check_nalus data payload
           (starts (o + (2 + n)) ns ++ [o + (2 + n) + total ns + 3]).
Proof.
  intros Ho [Hn Hns]%Forall_cons Hlt. pose proof (total_nonneg ns Hns). cbn [total] in Hlt.
  rewrite check_nalus_cons by lia. cbn [total]. cbv zeta.
  assert (match ns with [] => o + (2 + n + total ns) + 3 | _ => o + (2 + n) + 3 end = o + (2 + n) + 3) as ->
    by (destruct ns; cbn [total]; lia).
  rewrite (u64_small (o + (2 + n) + 3 - 2)) by lia. rewrite u64_small by lia.
  replace (o + (2 + n) + 3 - 2 - (o + 3)) with n by lia.
  by replace (o + (2 + n + total ns) + 3) with (o + (2 + n) + total ns + 3) by lia.
Qed.

Lemma check_nalus_wp data payload ns : ∀ o,
  bytes_ok data → 0 ≤ payload → 0 ≤ o → Forall (λ n, 0 ≤ n) ns → o + total ns < 2 ^ 62 →
  payload + o + 1 + total ns ≤ zlen data →
  wp (check_nalus data payload (starts o ns ++ [o + total ns + 3])) (λ _, True).
Proof.
  induction ns as [|n ns IH]; intros o Hb Hp Ho Hns Hlt Hin; [done|].
  rewrite check_nalus_step by done. apply Forall_cons in Hns as [Hn Hns].
  pose proof (total_nonneg ns Hns). cbn [total] in *.
  destruct (Z.ltb_spec n 1); [done|]. apply wp_bind, wp_rd; try (done || lia). intros b _ _.
  destruct (_ || _); [done|]. apply IH; try (done || lia).
Qed.

(** ** The depacketizer is memory safe *)
Record in_buffer (p : RtpPacket) : Prop := {
  ib_bytes : bytes_ok (buffer_ p);
  ib_offset : 0 ≤ payload_offset_ p;
  ib_size : 0 ≤ payload_size_ p < 2 ^ 62;
  ib_in : payload_offset_ p + payload_size_ p ≤ zlen (buffer_ p);
}.

Lemma ProcessStapAOrSingleNalu_wp p :
  in_buffer p → 0 < payload_size_ p → wp (ProcessStapAOrSingleNalu p) (λ _, True).
Proof.
  intros [Hb Ho Hs Hin] Hpos. unfold ProcessStapAOrSingleNalu, kStapAHeaderSize, kNalHeaderSize, kLengthFieldSize.
  rewrite u64_small by lia. apply wp_bind, wp_rd; try (done || lia). intros b _ _.
  apply wp_bind. eapply (wp_mono _ (λ r, ∀ l, r = Some l → ∃ ns, l ++ [payload_size_ p + 2] =
    (if Z.land b kTypeMask =? kStapA then starts 0 ns ++ [0 + total ns + 3] else [0; payload_size_ p + 2]) ∧
    (Z.land b kTypeMask =? kStapA = true → Forall (λ n, 0 ≤ n) ns ∧ total ns = payload_size_ p - 1))).
  - destruct (Z.land b kTypeMask =? kStapA).
    2: { intros l [= <-]. exists []. done. }
    destruct (Z.leb_spec (payload_size_ p) (1 + 2)); [done|].
    apply wp_bind. eapply wp_mono; [apply stap_a_loop_wp; done || lia|].
    intros [ok offs] Hr. destruct ok; [|done]. cbn [negb].
    destruct (Hr eq_refl) as (ns & Hoffs & Hns & Htot). cbn [fst snd] in *. subst offs.
    apply wp_bind, wp_rd; try (done || lia). intros ? _ _ l [= <-]. exists ns. split; [|done].
    cbn [app]. do 2 f_equal. lia.
  - intros [l|] Hl; [|done]. destruct (Hl l eq_refl) as (ns & -> & Hns).
    apply wp_bind. apply (wp_mono _ (λ _, True)); [|intros [] _; done].
    destruct (Z.land b kTypeMask =? kStapA).
    + destruct (Hns eq_refl) as [? ?]. apply check_nalus_wp; try (done || lia).
    + cbn [check_nalus]. case_match; [done|]. apply wp_bind, wp_rd; try (done || lia).
      intros ? _ _. by case_match.
Qed.

Lemma DepacketizerParse_wp p : in_buffer p → wp (DepacketizerParse p) (λ _, True).
Proof.
  intros Hin. pose proof Hin as [Hb Ho Hs Hi]. unfold DepacketizerParse.
  destruct (Z.eqb_spec (payload_size_ p) 0); [done|].
  apply wp_bind, wp_rd; try (done || lia). intros b _ _.
  case_match; [|by apply ProcessStapAOrSingleNalu_wp; [|lia]].
  unfold ParseFuaNalu, kFuAHeaderSize. destruct (Z.ltb_spec (payload_size_ p) 2); [done|].
  apply wp_bind, wp_rd; try (done || lia). intros b0 _ _.
  apply wp_bind, wp_rd; try (done || lia).
Qed.

Lemma parse_body_wp junk data :
  bytes_ok data → zlen data < 2 ^ 62 →
  wp (parse_body junk data (zlen data)) (λ '(_, p), wp (DepacketizerParse p) (λ _, True)).
Proof.
  intros Hb Hlt. unfold parse_body. apply wp_bind.
  eapply wp_mono; [by apply ParseBuffer_wp|]. intros [ok p] [_ Hwf]. destruct ok; cbn [negb]; [|done].
  specialize (Hwf eq_refl). cbn [fst snd] in Hwf. destruct Hwf. unfold packet_size in *.
  unfold is_byte in *. apply wp_bind, wp_rd_range; try (done || lia).
  intros copy Hc Hcb Hcl. apply DepacketizerParse_wp.
  split; cbn [buffer_ payload_offset_ payload_size_ set_buffer]; try (done || lia).
Qed.

(** C33: for every datagram and whatever the uninitialised packet object holds,
    the statements of RtpPacket::Parse and the depacketizer run on its result
    read nothing outside the datagram or its copy, and both loops end.  The one
    fault of the RTP channel is the missing return of Parse on accepted packets;
    a rejected packet yields nothing. *)
Theorem rtp_channel_safe junk data :
  bytes_ok data → zlen data < 2 ^ 62 →
  ∃ accepted p r, parse_body junk data (zlen data) = Ok (accepted, p) ∧
    DepacketizerParse p = Ok r ∧
    OnRTP junk data (zlen data) = if (accepted : bool) then UB NoReturn else Ok r.
Proof.
  intros Hb Hlt. pose proof (parse_body_wp junk data Hb Hlt) as ([ok p] & HE & Hd)%wp_Ok.
  apply wp_Ok in Hd as (r & Hr & _). exists ok, p, r. split; [done|]. split; [done|].
  unfold OnRTP, Rtp.Parse. rewrite HE. cbn. by destruct ok.
Qed.

Lemma rtp_channel_safe_witness :
  ∃ accepted p r, parse_body no_packet (encode sample_rtp) 35 = Ok (accepted, p) ∧
    DepacketizerParse p = Ok r ∧
    OnRTP no_packet (encode sample_rtp) 35 = if (accepted : bool) then UB NoReturn else Ok r.
Proof.
  apply (rtp_channel_safe no_packet (encode sample_rtp)); [|by vm_compute].
  apply (bool_decide_unpack _). by vm_compute.
Defined.

(** ** What the depacketizer accepts *)

(** A STAP-A payload: the aggregation header, then each unit with its length. *)
Definition enc_nalu (n : list Z) : list Z := to_be 2 (zlen n) ++ n.
Definition enc_nalus (l : list (list Z)) : list Z := concat (enc_nalu <$> l).

(** A unit that may be aggregated: not empty, not itself an aggregate or a
    fragment. *)
Definition good_nalu (n : list Z) : bool :=
  match n with
  | [] => false
  | b :: _ => negb ((Z.land b kTypeMask =? kStapA) || (Z.land b kTypeMask =? kFuA))
  end.

Definition is_nalu (n : list Z) : Prop := bytes_ok n ∧ zlen n < 65536.

Lemma enc_nalus_cons n l : enc_nalus (n :: l) = to_be 2 (zlen n) ++ n ++ enc_nalus l.
Proof.
  change (enc_nalus (n :: l)) with ((to_be 2 (zlen n) ++ n) ++ enc_nalus l). by rewrite <- app_assoc.
Qed.

Lemma zlen_enc_nalus l : zlen (enc_nalus l) = total (zlen <$> l).
Proof.
  induction l as [|n l IH]; [done|]. rewrite enc_nalus_cons, !zlen_app, zlen_to_be, IH.
  cbn [fmap list_fmap total]. lia.
Qed.

Lemma zlens_nonneg (l : list (list Z)) : Forall (λ n, 0 ≤ n) (zlen <$> l).
Proof. apply Forall_fmap, Forall_true. intros. apply zlen_nonneg. Qed.

Lemma stap_a_loop_at l : ∀ fuel pre post o offs,
  Forall is_nalu l → total (zlen <$> l) < Z.of_nat fuel →
  stap_a_loop fuel (pre ++ enc_nalus l ++ post) (zlen pre) (total (zlen <$> l)) o offs
  = Ok (true, offs ++ starts o (zlen <$> l)).
Proof.
  induction l as [|n l IH]; intros fuel pre post o offs Hl Hf.
  { destruct fuel as [|fuel]; [cbn in Hf; lia|]. cbn. by rewrite app_nil_r. }
  destruct fuel as [|fuel]; [pose proof (total_nonneg _ (zlens_nonneg (n :: l))); lia|].
  apply Forall_cons in Hl as [[Hn Hlt] Hl]. pose proof (total_nonneg _ (zlens_nonneg l)).
  pose proof (zlen_nonneg n). cbn [fmap list_fmap total starts stap_a_loop] in *.
  rewrite enc_nalus_cons, <- !app_assoc.
  destruct (Z.ltb_spec 0 (2 + zlen n + total (zlen <$> l))); [|lia].
  destruct (Z.ltb_spec (2 + zlen n + total (zlen <$> l)) 2); [lia|].
  rewrite ReadBigEndian_at by (auto with cpp; lia). cbn [mbind res_bind].
  rewrite to_be_small by (change (256 ^ Z.of_nat 2) with 65536; lia).
  destruct (Z.ltb_spec (2 + zlen n + total (zlen <$> l) - 2) (zlen n)); [lia|].
  rewrite (app_assoc pre), (app_assoc _ n).
  replace (zlen pre + 2 + zlen n) with (zlen ((pre ++ to_be 2 (zlen n)) ++ n))
    by (rewrite !zlen_app, zlen_to_be; lia).
  replace (2 + zlen n + total (zlen <$> l) - 2 - zlen n) with (total (zlen <$> l)) by lia.
  rewrite IH by (done || lia). by rewrite <- app_assoc.
Qed.

Lemma check_nalus_at l : ∀ pre post payload o,
  payload + o + 1 = zlen pre → 0 ≤ o → o + total (zlen <$> l) < 2 ^ 62 →
  check_nalus (pre ++ enc_nalus l ++ post) payload (starts o (zlen <$> l) ++ [o + total (zlen <$> l) + 3])
  = Ok (forallb good_nalu l).
Proof.
  induction l as [|n l IH]; intros pre post payload o Hp Ho Hlt; [done|].
  pose proof (zlens_nonneg (n :: l)) as Hnn. pose proof (total_nonneg _ (zlens_nonneg l)).
  cbn [fmap list_fmap] in *. rewrite check_nalus_step by done. cbn [total] in Hlt.
  destruct n as [|b n]; [done|]. rewrite zlen_cons in *. pose proof (zlen_nonneg n).
  destruct (Z.ltb_spec (1 + zlen n) 1); [lia|]. rewrite enc_nalus_cons, <- !app_assoc.
  set (q := pre ++ to_be 2 (zlen (b :: n))).
  replace (pre ++ to_be 2 _ ++ (b :: n) ++ enc_nalus l ++ post) with (q ++ b :: (n ++ enc_nalus l ++ post))
    by (subst q; by rewrite <- app_assoc).
  assert (payload + (o + 3) = zlen q + 0) as -> by (subst q; rewrite zlen_app, zlen_to_be; lia).
  rewrite rd_app_r, rd_cons_0 by lia. cbn [mbind res_bind forallb good_nalu].
  destruct (_ || _); [done|]. cbn [negb andb].
  replace (q ++ b :: n ++ enc_nalus l ++ post) with ((q ++ b :: n) ++ enc_nalus l ++ post)
    by (by rewrite <- app_assoc).
  apply IH; [|lia|lia]. subst q. rewrite !zlen_app, zlen_to_be, zlen_cons. lia.
Qed.

(** C34: on a STAP-A payload the depacketizer finds exactly the aggregated
    units: it accepts the packet when every unit is non-empty and none is an
    aggregate or a fragment, and drops it otherwise. *)
Theorem StapA_accepted p pre hdr nalus post :
  buffer_ p = pre ++ (hdr :: enc_nalus nalus) ++ post → payload_offset_ p = zlen pre →
  payload_size_ p = 1 + zlen (enc_nalus nalus) → payload_size_ p < 2 ^ 62 →
  Z.land hdr kTypeMask = kStapA → Forall is_nalu nalus → nalus ≠ [] →
  ∃ r, DepacketizerParse p = Ok r ∧ (is_Some r ↔ forallb good_nalu nalus = true).
Proof.
  intros Hbuf Hoff Hsize Hlt Hhdr Hn Hne. rewrite zlen_enc_nalus in Hsize.
  pose proof (total_nonneg _ (zlens_nonneg nalus)).
  unfold DepacketizerParse, ProcessStapAOrSingleNalu, kStapAHeaderSize, kNalHeaderSize, kLengthFieldSize.
  destruct (Z.eqb_spec (payload_size_ p) 0); [lia|].
  assert ((buffer_ p).[payload_offset_ p] = Ok hdr) as Hrd by (by rewrite Hbuf, Hoff, Byte.rd_pre0).
  rewrite Hrd. cbn [mbind res_bind]. rewrite Hhdr, Hsize.
  change (kStapA =? kFuA) with false. change (kStapA =? kStapA) with true. cbv iota.
  rewrite u64_small by lia. replace (1 + total (zlen <$> nalus) - 1) with (total (zlen <$> nalus)) by lia.
  destruct (Z.leb_spec (1 + total (zlen <$> nalus)) (1 + 2)) as [Hsmall|Hbig].
  - (* one empty unit *)
    exists None. split; [done|]. destruct nalus as [|u nalus]; [done|].
    pose proof (total_nonneg _ (zlens_nonneg nalus)). pose proof (zlen_nonneg u). cbn [fmap list_fmap total] in Hsmall.
    assert (u = []) as -> by (apply length_zero_iff_nil; unfold zlen in *; lia). cbn. by split; [intros []|].
  - unfold ParseStapAStartOffsets.
    assert (buffer_ p = (pre ++ [hdr]) ++ enc_nalus nalus ++ post) as Hbuf' by (by rewrite Hbuf, <- app_assoc).
    assert (payload_offset_ p + 1 = zlen (pre ++ [hdr])) as Hoff' by (by rewrite Hoff, zlen_app).
    rewrite Hoff', Hbuf', stap_a_loop_at by (done || lia). cbn [mbind res_bind negb app].
    destruct (rd_in (((pre ++ [hdr]) ++ enc_nalus nalus ++ post)) (payload_offset_ p + (1 + 2))) as [x ->].
    { rewrite !zlen_app, zlen_enc_nalus. pose proof (zlen_nonneg pre). pose proof (zlen_nonneg post).
      change (zlen [hdr]) with 1. lia. }
    cbn [mbind res_bind].
    replace (1 + total (zlen <$> nalus) + 2) with (0 + total (zlen <$> nalus) + 3) by lia.
    rewrite (check_nalus_at nalus (pre ++ [hdr]) post (payload_offset_ p) 0) by lia. cbn [mbind res_bind].
    destruct (forallb good_nalu nalus); cbn [negb]; eexists; (split; [done|]); split; try done; by intros [? ?].
Qed.

Definition stap_packet : RtpPacket :=
  mkRtpPacket false 96 0 0 0 0 12 11 (replicate 12 0 ++ (24 :: enc_nalus [[0x67; 1]; [0x68; 2; 3; 4]]) ++ []).

Lemma StapA_accepted_witness :
  ∃ r, DepacketizerParse stap_packet = Ok r ∧
    (is_Some r ↔ forallb good_nalu [[0x67; 1]; [0x68; 2; 3; 4]] = true).
Proof.
  apply (StapA_accepted stap_packet (replicate 12 0) 24 [[0x67; 1]; [0x68; 2; 3; 4]] []); try done.
  repeat constructor; done.
Defined.

(** *** FU-A *)
Definition fu_indicator (h : Z) : Z := Z.lor (Z.land h 0xE0) 28.
Definition fu_header (first last : bool) (h : Z) : Z := bit first 128 + bit last 64 + Z.land h 0x1F.

Definition fu_roundtrips (first last : bool) (h : Z) : bool :=
  (Z.land (fu_indicator h) kTypeMask =? kFuA) &&
  (Z.land (fu_header first last h) kTypeMask =? Z.land h kTypeMask) &&
  Bool.eqb (0 <? Z.land (fu_header first last h) kSBit) first &&
  (Z.lor (Z.land (fu_indicator h) (Z.lor kFBit kNriMask))
     (Z.land (fu_header first last h) kTypeMask) =? h).

Lemma fu_bits first last h :
  is_byte h → fu_roundtrips first last h = true.
Proof.
  intros Hh.
  assert (forallb (λ n, fu_roundtrips first last (Z.of_nat n)) (seq 0 256) = true) as Hall
    by (by destruct first, last; vm_compute).
  rewrite forallb_forall in Hall. unfold is_byte in Hh. specialize (Hall (Z.to_nat h)).
  rewrite in_seq, Z2Nat.id in Hall by lia. apply Hall. lia.
Qed.

(** A fragment of a NAL unit with header [h], cut as FU-A, is recognised;
    the first fragment gives the NAL header back, later ones add nothing, the
    fragment bytes are the payload behind the two FU bytes, and the frame is
    marked key exactly for an IDR unit. *)
Lemma FuA_parsed p pre h first last fragment post :
  buffer_ p = pre ++ (fu_indicator h :: fu_header first last h :: fragment) ++ post →
  payload_offset_ p = zlen pre → payload_size_ p = 2 + zlen fragment → is_byte h →
  DepacketizerParse p = Ok (Some (mkParsed (Some p)
    (mkVideoHeader first false (if Z.land h kTypeMask =? kIdr then kVideoFrameKey else kVideoFrameDelta))
    2 (zlen fragment) first (if first then [h] else []))).
Proof.
  intros Hbuf Hoff Hsize Hh. pose proof (zlen_nonneg fragment).
  pose proof (fu_bits first last h Hh) as Hbits. unfold fu_roundtrips in Hbits.
  rewrite !andb_true_iff, !Z.eqb_eq, eqb_true_iff in Hbits. destruct Hbits as [[[H1 H2] H3] H4].
  unfold DepacketizerParse, ParseFuaNalu, kFuAHeaderSize. rewrite Hsize, Hbuf, Hoff.
  destruct (Z.eqb_spec (2 + zlen fragment) 0); [lia|]. rewrite Byte.rd_pre0, rd_app_r by lia.
  cbn [app]. rewrite rd_cons_0, rd_cons by lia. cbn [mbind res_bind]. rewrite H1. cbn [Z.eqb Pos.eqb kFuA].
  destruct (Z.ltb_spec (2 + zlen fragment) 2); [lia|]. rewrite rd_cons_0. cbn [mbind res_bind].
  rewrite H2, H3 in *. rewrite H4.
  by replace (2 + zlen fragment - 2) with (zlen fragment) by lia.
Qed.

Definition fu_packet : RtpPacket :=
  mkRtpPacket true 96 0 0 0 0 12 5 (replicate 12 0 ++ (fu_indicator 0x65 :: fu_header true false 0x65 :: [7; 8; 9]) ++ []).

Lemma FuA_parsed_witness :
  DepacketizerParse fu_packet = Ok (Some (mkParsed (Some fu_packet)
    (mkVideoHeader true false kVideoFrameKey) 2 3 true [0x65])).
Proof. apply (FuA_parsed fu_packet (replicate 12 0) 0x65 true false [7; 8; 9] []); done. Defined.

(** The result for a single unit or an aggregate keeps the packet pointer
    indeterminate and reports an empty payload. *)
Lemma single_nalu_result p r :
  ProcessStapAOrSingleNalu p = Ok (Some r) →
  parsed_packet r = None ∧ parsed_playload_offset r = 0 ∧ playload_size r = 0.
Proof.
  unfold ProcessStapAOrSingleNalu. intros H. res_inv. case_match; [|done]. res_inv.
  case_match; [done|]. by injection H as <-.
Qed.
End RtpProofs.
