(* ===== verification/Crypto.v ===== *)
(** Utils::Crypto (src/common/utils.h, src/common/crypto.cc): the linear
    congruential generator behind the ICE credentials, the table driven CRC-32
    of the STUN FINGERPRINT, and the HMAC-SHA1 wrapper over OpenSSL. *)
From S2P Require Import Prelude.

Module Crypto.

(** ** Pseudo random numbers; the static [seed] is threaded explicitly *)
Definition GetRandomUInt (seed mn mx : Z) : res (Z * Z) :=
  let seed := u32 (214013 * seed + 2531011) in
  (* Special case. *)
  let mx := if mx =? 4294967295 then mx - 1 else mx in
  let mn := if mx <? mn then mx else mn in
  let d := u32 (mx - mn + 1) in
  if d =? 0 then UB DivByZero
  else Ok (seed, u32 (Z.land (Z.shiftr seed 4) 0x7FFF7FFF mod d + mn)).

Definition chars : list Z := str "0123456789abcdefghijklmnopqrstuvwxyz".

Fixpoint fill_random (n : nat) (i seed : Z) (buffer : list Z) : res (Z * list Z) :=
  match n with
  | O => Ok (seed, buffer)
  | S n' =>
      '(seed, v) ← GetRandomUInt seed 0 (zlen chars - 1);
      c ← chars.[v];
      buffer ← wr buffer i c;
      fill_random n' (i + 1) seed buffer
  end.

(** The static [buffer] of 64 chars is part of the state. *)
Definition GetRandomString (seed : Z) (buffer : list Z) (len : Z) :
    res (Z * list Z * list Z) :=
  let len := if 64 <? len then 64 else len in
  '(seed, buffer) ← fill_random (Z.to_nat len) 0 seed buffer;
  s ← rd_range buffer 0 len;
  Ok (seed, buffer, s).

(** ** CRC-32 *)
Definition crc32Table : list Z :=
  [
   0x00000000; 0x77073096; 0xee0e612c; 0x990951ba; 0x076dc419; 0x706af48f; 0xe963a535; 0x9e6495a3;
   0x0edb8832; 0x79dcb8a4; 0xe0d5e91e; 0x97d2d988; 0x09b64c2b; 0x7eb17cbd; 0xe7b82d07; 0x90bf1d91;
   0x1db71064; 0x6ab020f2; 0xf3b97148; 0x84be41de; 0x1adad47d; 0x6ddde4eb; 0xf4d4b551; 0x83d385c7;
   0x136c9856; 0x646ba8c0; 0xfd62f97a; 0x8a65c9ec; 0x14015c4f; 0x63066cd9; 0xfa0f3d63; 0x8d080df5;
   0x3b6e20c8; 0x4c69105e; 0xd56041e4; 0xa2677172; 0x3c03e4d1; 0x4b04d447; 0xd20d85fd; 0xa50ab56b;
   0x35b5a8fa; 0x42b2986c; 0xdbbbc9d6; 0xacbcf940; 0x32d86ce3; 0x45df5c75; 0xdcd60dcf; 0xabd13d59;
   0x26d930ac; 0x51de003a; 0xc8d75180; 0xbfd06116; 0x21b4f4b5; 0x56b3c423; 0xcfba9599; 0xb8bda50f;
   0x2802b89e; 0x5f058808; 0xc60cd9b2; 0xb10be924; 0x2f6f7c87; 0x58684c11; 0xc1611dab; 0xb6662d3d;
   0x76dc4190; 0x01db7106; 0x98d220bc; 0xefd5102a; 0x71b18589; 0x06b6b51f; 0x9fbfe4a5; 0xe8b8d433;
   0x7807c9a2; 0x0f00f934; 0x9609a88e; 0xe10e9818; 0x7f6a0dbb; 0x086d3d2d; 0x91646c97; 0xe6635c01;
   0x6b6b51f4; 0x1c6c6162; 0x856530d8; 0xf262004e; 0x6c0695ed; 0x1b01a57b; 0x8208f4c1; 0xf50fc457;
   0x65b0d9c6; 0x12b7e950; 0x8bbeb8ea; 0xfcb9887c; 0x62dd1ddf; 0x15da2d49; 0x8cd37cf3; 0xfbd44c65;
   0x4db26158; 0x3ab551ce; 0xa3bc0074; 0xd4bb30e2; 0x4adfa541; 0x3dd895d7; 0xa4d1c46d; 0xd3d6f4fb;
   0x4369e96a; 0x346ed9fc; 0xad678846; 0xda60b8d0; 0x44042d73; 0x33031de5; 0xaa0a4c5f; 0xdd0d7cc9;
   0x5005713c; 0x270241aa; 0xbe0b1010; 0xc90c2086; 0x5768b525; 0x206f85b3; 0xb966d409; 0xce61e49f;
   0x5edef90e; 0x29d9c998; 0xb0d09822; 0xc7d7a8b4; 0x59b33d17; 0x2eb40d81; 0xb7bd5c3b; 0xc0ba6cad;
   0xedb88320; 0x9abfb3b6; 0x03b6e20c; 0x74b1d29a; 0xead54739; 0x9dd277af; 0x04db2615; 0x73dc1683;
   0xe3630b12; 0x94643b84; 0x0d6d6a3e; 0x7a6a5aa8; 0xe40ecf0b; 0x9309ff9d; 0x0a00ae27; 0x7d079eb1;
   0xf00f9344; 0x8708a3d2; 0x1e01f268; 0x6906c2fe; 0xf762575d; 0x806567cb; 0x196c3671; 0x6e6b06e7;
   0xfed41b76; 0x89d32be0; 0x10da7a5a; 0x67dd4acc; 0xf9b9df6f; 0x8ebeeff9; 0x17b7be43; 0x60b08ed5;
   0xd6d6a3e8; 0xa1d1937e; 0x38d8c2c4; 0x4fdff252; 0xd1bb67f1; 0xa6bc5767; 0x3fb506dd; 0x48b2364b;
   0xd80d2bda; 0xaf0a1b4c; 0x36034af6; 0x41047a60; 0xdf60efc3; 0xa867df55; 0x316e8eef; 0x4669be79;
   0xcb61b38c; 0xbc66831a; 0x256fd2a0; 0x5268e236; 0xcc0c7795; 0xbb0b4703; 0x220216b9; 0x5505262f;
   0xc5ba3bbe; 0xb2bd0b28; 0x2bb45a92; 0x5cb36a04; 0xc2d7ffa7; 0xb5d0cf31; 0x2cd99e8b; 0x5bdeae1d;
   0x9b64c2b0; 0xec63f226; 0x756aa39c; 0x026d930a; 0x9c0906a9; 0xeb0e363f; 0x72076785; 0x05005713;
   0x95bf4a82; 0xe2b87a14; 0x7bb12bae; 0x0cb61b38; 0x92d28e9b; 0xe5d5be0d; 0x7cdcefb7; 0x0bdbdf21;
   0x86d3d2d4; 0xf1d4e242; 0x68ddb3f8; 0x1fda836e; 0x81be16cd; 0xf6b9265b; 0x6fb077e1; 0x18b74777;
   0x88085ae6; 0xff0f6a70; 0x66063bca; 0x11010b5c; 0x8f659eff; 0xf862ae69; 0x616bffd3; 0x166ccf45;
   0xa00ae278; 0xd70dd2ee; 0x4e048354; 0x3903b3c2; 0xa7672661; 0xd06016f7; 0x4969474d; 0x3e6e77db;
   0xaed16a4a; 0xd9d65adc; 0x40df0b66; 0x37d83bf0; 0xa9bcae53; 0xdebb9ec5; 0x47b2cf7f; 0x30b5ffe9;
   0xbdbdf21c; 0xcabac28a; 0x53b39330; 0x24b4a3a6; 0xbad03605; 0xcdd70693; 0x54de5729; 0x23d967bf;
   0xb3667a2e; 0xc4614ab8; 0x5d681b02; 0x2a6f2b94; 0xb40bbe37; 0xc30c8ea1; 0x5a05df1b; 0x2d02ef8d
  ].

Fixpoint crc_loop (n : nat) (data : list Z) (p crc : Z) : res Z :=
  match n with
  | O => Ok crc
  | S n' =>
      b ← data.[p];
      t ← crc32Table.[Z.land (Z.lxor crc b) 0xFF];
      crc_loop n' data (p + 1) (Z.lxor t (Z.shiftr crc 8))
  end.

Definition GetCRC32 (data : list Z) (size : Z) : res Z :=
  crc ← crc_loop (Z.to_nat size) data 0 0xFFFFFFFF;
  Ok (Z.lxor crc 0xFFFFFFFF).

(** The reference: the reflected CRC-32 of polynomial 0x04C11DB7, one bit at a
    time. *)
Definition crc_bit (x : Z) : Z :=
  if Z.odd x then Z.lxor (Z.shiftr x 1) 0xEDB88320 else Z.shiftr x 1.

Definition crc_bits (n : nat) (x : Z) : Z := Nat.iter n crc_bit x.

Definition crc_byte (crc b : Z) : Z := crc_bits 8 (Z.lxor crc b).

Definition crc32 (l : list Z) : Z :=
  Z.lxor (foldl crc_byte 0xFFFFFFFF l) 0xFFFFFFFF.

(** ** HMAC-SHA1 over OpenSSL *)

(** What the STUN code is promised: a 20 byte digest of key and data. *)
Class HmacSha1 := {
  hmac_sha1 : list Z → list Z → list Z;
  hmac_sha1_len k d : length (hmac_sha1 k d) = 20%nat;
  hmac_sha1_bytes k d : bytes_ok (hmac_sha1 k d);
}.

(** The OpenSSL calls of [GetHmacShA1]; each returns its status code. *)
Class HmacApi := {
  HMAC_CTX : Type;
  HMAC_Init_ex : HMAC_CTX → list Z → Z * HMAC_CTX;
  HMAC_Update : HMAC_CTX → list Z → Z * HMAC_CTX;
  HMAC_Final : HMAC_CTX → Z * HMAC_CTX * list Z;
}.

Definition GetHmacShA1 `{HmacApi} (ctx : HMAC_CTX) (key data : list Z) (len : Z) :
    res (HMAC_CTX * list Z) :=
  let '(ret, ctx) := HMAC_Init_ex ctx key in
  ms_assert (ret =? 1) "OpenSSL HMAC_Init_ex() failed";;
  d ← rd_range data 0 len;
  let '(ret, ctx) := HMAC_Update ctx d in
  ms_assert (ret =? 1) "OpenSSL HMAC_Update() failed";;
  let '(ret, ctx, out) := HMAC_Final ctx in
  ms_assert (ret =? 1) "OpenSSL HMAC_Final() failed";;
  ms_assert (zlen out =? 20) "OpenSSL HMAC_Final() resultLen";;
  Ok (ctx, out).

(** Documented behaviour of the three calls: they succeed, and Final yields the
    digest of the key given to Init and of the data given to Update since. *)
Record HmacApiSpec `{HmacApi, HmacSha1} (keyed : HMAC_CTX → list Z → list Z → Prop) : Prop := {
  init_spec c k : fst (HMAC_Init_ex c k) = 1 ∧ keyed (snd (HMAC_Init_ex c k)) k [];
  update_spec c k d d' : keyed c k d →
    fst (HMAC_Update c d') = 1 ∧ keyed (snd (HMAC_Update c d')) k (d ++ d');
  final_spec c k d : keyed c k d →
    fst (fst (HMAC_Final c)) = 1 ∧ snd (HMAC_Final c) = hmac_sha1 k d;
}.

(** ** Lemmas: random numbers *)
Lemma GetRandomUInt_bounds seed mn mx :
  fits 32 mn → fits 32 mx →
  wp (GetRandomUInt seed mn mx) (λ '(seed', v),
    fits 32 seed' ∧ v ≤ mx ∧ (mn ≤ mx → mx < 4294967295 → mn ≤ v) ∧ 0 ≤ v).
Proof.
  unfold fits. intros Hmn Hmx. unfold GetRandomUInt.
  set (s := u32 (214013 * seed + 2531011)).
  pose proof (wrap_bound 32 (214013 * seed + 2531011) ltac:(lia)) as Hs. fold s in Hs.
  set (x := Z.land (Z.shiftr s 4) 0x7FFF7FFF).
  assert (0 ≤ x) by (apply Z.land_nonneg; right; lia).
  set (mx' := if mx =? _ then mx - 1 else mx).
  set (mn' := if mx' <? mn then mx' else mn).
  assert (0 ≤ mn' ≤ mx' ∧ mx' < 4294967295 ∧ mx' ≤ mx ∧
    (mn ≤ mx → mx < 4294967295 → mn' = mn)) as (?&?&?&?).
  { unfold mn', mx'. destruct (Z.eqb_spec mx 4294967295);
      case_match eqn:E; rewrite ?Z.ltb_lt, ?Z.ltb_ge in E; lia. }
  rewrite (wrap_small 32 (mx' - mn' + 1)) by (unfold fits; lia).
  destruct (Z.eqb_spec (mx' - mn' + 1) 0); [lia|]. simpl.
  pose proof (Z.mod_pos_bound x (mx' - mn' + 1)).
  rewrite wrap_small by (unfold fits; lia). unfold fits in *. lia.
Qed.

Definition alnum (c : Z) : Prop := 48 ≤ c ≤ 57 ∨ 97 ≤ c ≤ 122.

#[export] Instance alnum_dec c : Decision (alnum c).
Proof. unfold alnum. apply _. Defined.

Lemma chars_alnum : Forall alnum chars.
Proof. apply (bool_decide_unpack _). by vm_compute. Qed.

Lemma fill_random_spec n i seed buffer :
  0 ≤ i → i + Z.of_nat n ≤ zlen buffer →
  wp (fill_random n i seed buffer) (λ '(_, buffer'),
    length buffer' = length buffer ∧
    take (Z.to_nat i) buffer' = take (Z.to_nat i) buffer ∧
    Forall alnum (take n (drop (Z.to_nat i) buffer'))).
Proof.
  revert i seed buffer. induction n as [|n IH]; intros i seed buffer Hi Hn.
  { simpl. by repeat split. }
  change (fill_random (S n) i seed buffer) with
    ('(seed, v) ← GetRandomUInt seed 0 (zlen chars - 1);
     c ← chars.[v]; buffer ← wr buffer i c; fill_random n (i + 1) seed buffer).
  apply wp_bind.
  eapply wp_mono; [by apply GetRandomUInt_bounds|].
  intros [seed' v] (_ & Hv1 & _ & Hv2). apply wp_bind.
  destruct (rd_in chars v) as [c Hc]; [lia|]. rewrite Hc. cbn [wp].
  apply rd_Ok in Hc as [_ Hc]. apply (Forall_lookup_1 _ _ _ _ chars_alnum) in Hc.
  unfold wr. rewrite (proj2 (Z.leb_le 0 i)), (proj2 (Z.ltb_lt i (zlen buffer))) by lia.
  cbn [andb]. apply wp_bind. cbn [wp].
  assert (zlen (<[Z.to_nat i:=c]> buffer) = zlen buffer) as Hz
    by (unfold zlen; by rewrite length_insert).
  eapply wp_mono; [apply (IH (i + 1)); rewrite ?Hz; lia|].
  intros [_ b'] (Hl & Ht & Hf). rewrite length_insert in Hl.
  replace (Z.to_nat (i + 1)) with (S (Z.to_nat i)) in * by lia.
  assert (b' !! Z.to_nat i = Some c) as Hlk.
  { rewrite <- (lookup_take_lt b' (S (Z.to_nat i))) by lia. rewrite Ht.
    rewrite lookup_take_lt by lia. apply list_lookup_insert_eq. unfold zlen in *; lia. }
  split; [done|]. split.
  - apply (f_equal (take (Z.to_nat i))) in Ht.
    rewrite !take_take, !Nat.min_l in Ht by lia. by rewrite Ht, take_insert_ge by lia.
  - rewrite (drop_S b' c) by done. simpl. by constructor.
Qed.

Lemma GetRandomString_spec seed buffer len :
  length buffer = 64%nat → 0 ≤ len →
  wp (GetRandomString seed buffer len) (λ '(_, buffer', s),
    length buffer' = 64%nat ∧ zlen s = Z.min len 64 ∧ Forall alnum s).
Proof.
  intros Hb Hlen. unfold GetRandomString.
  replace (if 64 <? len then 64 else len) with (Z.min len 64)
    by (destruct (Z.ltb_spec 64 len); lia).
  apply wp_bind. eapply wp_mono.
  { apply fill_random_spec; unfold zlen; lia. }
  intros [seed' b'] (Hl & _ & Hf). simpl in Hf. rewrite drop_0 in Hf.
  apply wp_bind. rewrite rd_range_in by (unfold zlen; lia). cbn [wp].
  change (Z.to_nat 0) with 0%nat. rewrite drop_0.
  split; [lia|]. split; [unfold zlen; rewrite length_take; lia|done].
Qed.

(** ** Lemmas: CRC-32 *)

(** One bit step is linear over exclusive or. *)
Lemma crc_bit_lxor a b : crc_bit (Z.lxor a b) = Z.lxor (crc_bit a) (crc_bit b).
Proof.
  unfold crc_bit. rewrite <- !Z.bit0_odd, Z.lxor_spec, Z.shiftr_lxor.
  destruct (Z.testbit a 0), (Z.testbit b 0); simpl; try done.
  - rewrite <- (Z.lxor_assoc (Z.lxor _ _)), (Z.lxor_assoc (Z.shiftr a 1)).
    rewrite (Z.lxor_comm 0xEDB88320), <- Z.lxor_assoc, lxor_cancel. done.
  - rewrite !Z.lxor_assoc. f_equal. apply Z.lxor_comm.
  - by rewrite Z.lxor_assoc.
Qed.

Lemma crc_bits_lxor n a b :
  crc_bits n (Z.lxor a b) = Z.lxor (crc_bits n a) (crc_bits n b).
Proof. induction n as [|n IH]; [done|]. simpl. by rewrite IH, crc_bit_lxor. Qed.

Lemma crc_bits_add n m x : crc_bits (n + m) x = crc_bits n (crc_bits m x).
Proof. apply Nat.iter_add. Qed.

(** Shifted out low bits that are zero leave no trace. *)
Lemma crc_bits_shiftl n x : crc_bits n (Z.shiftl x (Z.of_nat n)) = x.
Proof.
  induction n as [|n IH]; [apply Z.shiftl_0_r|].
  rewrite <- Nat.add_1_r, crc_bits_add. simpl (crc_bits 1 _).
  replace (crc_bit _) with (Z.shiftl x (Z.of_nat n)); [done|].
  unfold crc_bit. rewrite <- Z.bit0_odd, Z.shiftl_spec_low by lia.
  rewrite Z.shiftr_shiftl_l by lia. f_equal. lia.
Qed.

Lemma crc_bit_fits x : fits 32 x → fits 32 (crc_bit x).
Proof.
  intros Hx. unfold crc_bit.
  assert (fits 32 (Z.shiftr x 1)) by (rewrite shiftr_div by lia; unfold fits in *; zdm).
  destruct (Z.odd x); [apply lxor_bound|]; done.
Qed.

Lemma crc_bits_fits n x : fits 32 x → fits 32 (crc_bits n x).
Proof. intros. induction n; simpl; auto using crc_bit_fits. Qed.

(** The kernel of a bit step is trivial, so every number of steps is injective. *)
Lemma crc_bit_zero x : fits 32 x → crc_bit x = 0 → x = 0.
Proof.
  intros Hx. unfold crc_bit. destruct (Z.odd x) eqn:Ho.
  - intros H%Z.lxor_eq. rewrite shiftr_div in H by lia. unfold fits in Hx. zdm.
  - rewrite shiftr_div by lia. rewrite Zodd_mod in Ho. apply Zeq_bool_neq in Ho.
    unfold fits in Hx. intros. zdm.
Qed.

Lemma crc_bits_zero n x : fits 32 x → crc_bits n x = 0 → x = 0.
Proof.
  intros Hx. induction n as [|n IH]; [done|]. simpl. intros H%crc_bit_zero; [auto|].
  by apply crc_bits_fits.
Qed.

Lemma crc_bits_inj n a b :
  fits 32 a → fits 32 b → crc_bits n a = crc_bits n b → a = b.
Proof.
  intros Ha Hb H. apply Z.lxor_eq, (crc_bits_zero n); [by apply lxor_bound|].
  by rewrite crc_bits_lxor, H, Z.lxor_nilpotent.
Qed.

Lemma crc_byte_fits crc b : fits 32 crc → is_byte b → fits 32 (crc_byte crc b).
Proof.
  intros. apply crc_bits_fits, lxor_bound; [lia|done|]. unfold is_byte, fits in *. lia.
Qed.

Lemma crc_fold_fits l crc : fits 32 crc → bytes_ok l → fits 32 (foldl crc_byte crc l).
Proof.
  intros Hc Hl. revert crc Hc. induction Hl; intros; simpl; auto using crc_byte_fits.
Qed.

Lemma crc32_fits l : bytes_ok l → fits 32 (crc32 l).
Proof. intros. apply lxor_bound; [lia| |done]. by apply crc_fold_fits. Qed.

(** The table holds the eight bit steps of each byte value. *)
Lemma crc32Table_eq : crc32Table = crc_bits 8 <$> seqZ 0 256.
Proof. vm_compute. reflexivity. Qed.

Lemma crc32Table_lookup i : 0 ≤ i < 256 → crc32Table.[i] = Ok (crc_bits 8 i).
Proof.
  intros Hi. apply rd_Ok. split; [lia|].
  rewrite crc32Table_eq, list_lookup_fmap, lookup_seqZ_lt by lia. cbn [fmap option_fmap option_map].
  by rewrite Z2Nat.id by lia.
Qed.

Lemma land_FF x : Z.land x 0xFF = x mod 256.
Proof. by apply (land_ones' x 8). Qed.

(** [x] is its low byte plus the rest shifted. *)
Lemma split_low_byte x : x = Z.lxor (x mod 256) (Z.shiftl (Z.shiftr x 8) 8).
Proof.
  apply Z.bits_inj'. intros i Hi. rewrite Z.lxor_spec, Z.shiftl_spec by lia.
  change 256 with (2 ^ 8). destruct (decide (i < 8)).
  - rewrite Z.mod_pow2_bits_low, (Z.testbit_neg_r _ (i - 8)) by lia.
    by rewrite xorb_false_r.
  - rewrite Z.mod_pow2_bits_high, Z.shiftr_spec by lia.
    rewrite xorb_false_l. f_equal. lia.
Qed.

Lemma table_step crc b :
  is_byte b →
  Z.lxor (crc_bits 8 (Z.land (Z.lxor crc b) 0xFF)) (Z.shiftr crc 8) = crc_byte crc b.
Proof.
  intros Hb. unfold crc_byte. rewrite (split_low_byte (Z.lxor crc b)) at 2.
  rewrite crc_bits_lxor, land_FF. f_equal.
  rewrite (crc_bits_shiftl 8), Z.shiftr_lxor.
  rewrite (shiftr_div b), (Z.div_small b) by (unfold is_byte in Hb; lia).
  by rewrite Z.lxor_0_r.
Qed.

Lemma crc_loop_spec n data p crc :
  bytes_ok data → 0 ≤ p → p + Z.of_nat n ≤ zlen data →
  crc_loop n data p crc = Ok (foldl crc_byte crc (take n (drop (Z.to_nat p) data))).
Proof.
  intros Hd. revert p crc. induction n as [|n IH]; intros p crc Hp Hn; [done|].
  cbn [crc_loop]. destruct (rd_in data p) as [b Hb]; [lia|].
  pose proof (rd_is_byte _ _ _ Hd Hb) as Hbb. rewrite Hb. cbn [mbind res_bind].
  rewrite crc32Table_lookup by (rewrite land_FF; apply is_byte_mod). cbn [mbind res_bind].
  rewrite table_step, IH by (done || lia). apply rd_Ok in Hb as [_ Hb].
  rewrite (drop_S data b (Z.to_nat p)) by done. cbn [take foldl].
  by replace (Z.to_nat (p + 1)) with (S (Z.to_nat p)) by lia.
Qed.

Lemma GetCRC32_correct data n :
  bytes_ok data → 0 ≤ n ≤ zlen data → GetCRC32 data n = Ok (crc32 (take (Z.to_nat n) data)).
Proof.
  intros Hd Hn. unfold GetCRC32. rewrite crc_loop_spec by (done || lia). done.
Qed.

(** Little-endian value of a block, the way the register sees it. *)
Fixpoint of_le (l : list Z) : Z :=
  match l with [] => 0 | b :: l' => Z.lxor b (Z.shiftl (of_le l') 8) end.

Lemma of_le_fits l : bytes_ok l → fits (8 * zlen l) (of_le l).
Proof.
  induction 1 as [|b l Hb Hl IH]; [done|]. cbn [of_le]. rewrite zlen_cons.
  pose proof (zlen_nonneg l). unfold fits, is_byte in *.
  replace (8 * (1 + zlen l)) with (8 * zlen l + 8) by lia.
  apply lxor_bound; [lia| |]; unfold fits; rewrite Z.pow_add_r by lia.
  - assert (0 < 2 ^ (8 * zlen l)) by (apply Z.pow_pos_nonneg; lia). lia.
  - rewrite Z.shiftl_mul_pow2 by lia. lia.
Qed.

Lemma of_le_cons b l : is_byte b → of_le (b :: l) = of_le l * 256 + b.
Proof.
  intros Hb. cbn [of_le]. rewrite Z.lxor_comm, <- Z.add_nocarry_lxor.
  - by rewrite Z.shiftl_mul_pow2.
  - by apply shiftl_land_0.
Qed.

Lemma of_le_inj l l' :
  bytes_ok l → bytes_ok l' → length l = length l' → of_le l = of_le l' → l = l'.
Proof.
  intros Hl. revert l'. induction Hl as [|b l Hb Hl IH]; intros [|b' l'] Hl' Hn H;
    try done. apply Forall_cons in Hl' as [Hb' Hl']. rewrite !of_le_cons in H by done. unfold is_byte in *.
  assert (b = b' ∧ of_le l = of_le l') as [-> ?] by lia. f_equal. apply IH; auto.
Qed.

(** Feeding a block is running the register over its exclusive or. *)
Lemma crc_fold_block l crc :
  foldl crc_byte crc l = crc_bits (8 * length l) (Z.lxor crc (of_le l)).
Proof.
  revert crc. induction l as [|b l IH]; intros crc.
  { simpl. by rewrite Z.lxor_0_r. }
  cbn [foldl of_le length]. rewrite IH. unfold crc_byte.
  replace (8 * S (length l))%nat with (8 * length l + 8)%nat by lia.
  rewrite (crc_bits_add (8 * length l) 8). f_equal.
  rewrite <- Z.lxor_assoc, (crc_bits_lxor 8 (Z.lxor crc b)).
  by rewrite (crc_bits_shiftl 8).
Qed.

Lemma crc_fold_inj l a b :
  fits 32 a → fits 32 b → bytes_ok l → foldl crc_byte a l = foldl crc_byte b l → a = b.
Proof.
  intros Ha Hb Hl. revert a b Ha Hb. induction Hl as [|x l Hx Hl IH]; [done|].
  intros a b Ha Hb H. apply IH in H; [|by apply crc_byte_fits..].
  assert (fits 32 x) by (unfold is_byte, fits in *; lia).
  apply crc_bits_inj in H; [|apply lxor_bound; (lia || done)..].
  by rewrite <- (lxor_cancel a x), H, lxor_cancel.
Qed.

Lemma crc32_burst pre m m' post :
  bytes_ok (pre ++ m ++ post) → bytes_ok m' → length m = length m' →
  (length m ≤ 4)%nat → crc32 (pre ++ m ++ post) = crc32 (pre ++ m' ++ post) → m = m'.
Proof.
  intros [Hpre [Hm Hpost]%Forall_app]%Forall_app Hm' Hl H4 H.
  unfold crc32 in H. rewrite !foldl_app in H.
  assert (∀ x, Z.lxor (Z.lxor x 0xFFFFFFFF) 0xFFFFFFFF = x) as Hx by (intros; apply lxor_cancel).
  apply (f_equal (λ x, Z.lxor x 0xFFFFFFFF)) in H. rewrite !Hx in H.
  assert (fits 32 (foldl crc_byte 0xFFFFFFFF pre)) as Hf by by apply crc_fold_fits.
  apply crc_fold_inj in H; [|by apply crc_fold_fits..|done].
  assert (∀ l, bytes_ok l → (length l ≤ 4)%nat → fits 32 (of_le l)) as Hle.
  { intros l Hbl Hll. pose proof (of_le_fits l Hbl) as [? ?]. split; [done|].
    eapply Z.lt_le_trans; [done|]. apply Z.pow_le_mono_r; unfold zlen; lia. }
  set (s := foldl crc_byte _ pre) in *.
  rewrite !(crc_fold_block _ s), <- Hl in H.
  apply crc_bits_inj in H; [|apply lxor_bound; (lia || done || apply Hle; (done || lia))..].
  apply of_le_inj; try done.
  rewrite (Z.lxor_comm s), (Z.lxor_comm s (of_le m')) in H.
  by rewrite <- (lxor_cancel (of_le m) s), H, lxor_cancel.
Qed.

(** C39: GetCRC32 over the first [n] bytes of a buffer never leaves the buffer
    or the table and is the bitwise CRC-32 of those bytes. *)
Theorem GetCRC32_is_crc32 data n :
  bytes_ok data → 0 ≤ n ≤ zlen data → GetCRC32 data n = Ok (crc32 (take (Z.to_nat n) data)).
Proof. apply GetCRC32_correct. Qed.

(** "123456789", the check input of the CRC catalogues. *)
Lemma GetCRC32_is_crc32_witness :
  GetCRC32 (str "123456789") 9 = Ok (crc32 (take 9 (str "123456789"))) ∧
  crc32 (take 9 (str "123456789")) = 0xCBF43926.
Proof.
  split; [|by vm_compute].
  apply (GetCRC32_is_crc32 (str "123456789") 9); [|vm_compute; split; congruence].
  apply (bool_decide_unpack _). by vm_compute.
Defined.

(** The CRC-32 tells apart any two messages that differ only inside a
    window of at most four consecutive bytes. *)
Lemma crc32_detects_bursts pre m m' post :
  bytes_ok (pre ++ m ++ post) → bytes_ok m' → length m = length m' →
  (length m ≤ 4)%nat → m ≠ m' →
  GetCRC32 (pre ++ m ++ post) (zlen (pre ++ m ++ post))
  ≠ GetCRC32 (pre ++ m' ++ post) (zlen (pre ++ m' ++ post)).
Proof.
  intros Hb Hm' Hl H4 Hne. pose proof Hb as [Hpre [Hm Hpost]%Forall_app]%Forall_app.
  rewrite !GetCRC32_correct
    by (try done; try (split; [apply zlen_nonneg|done]); by repeat apply Forall_app_2).
  unfold zlen. rewrite !Nat2Z.id, !firstn_all. intros [= H].
  by apply Hne, (crc32_burst pre m m' post).
Qed.

Lemma crc32_detects_bursts_witness :
  GetCRC32 ([1] ++ [2; 3] ++ [4]) (zlen ([1] ++ [2; 3] ++ [4]))
  ≠ GetCRC32 ([1] ++ [3; 2] ++ [4]) (zlen ([1] ++ [3; 2] ++ [4])).
Proof.
  apply (crc32_detects_bursts [1] [2; 3] [3; 2] [4]);
    try (apply (bool_decide_unpack _); by vm_compute); simpl; (lia || congruence).
Defined.

(** GetRandomUInt never divides by zero and, for min <= max below 2^32-1,
    returns a number of the closed interval [min, max]. *)
Lemma GetRandomUInt_in_range seed mn mx :
  0 ≤ mn ≤ mx → mx < 4294967295 →
  ∃ seed' v, GetRandomUInt seed mn mx = Ok (seed', v) ∧ mn ≤ v ≤ mx ∧ fits 32 seed'.
Proof.
  intros Hmn Hmx.
  pose proof (GetRandomUInt_bounds seed mn mx) as Hw.
  destruct (GetRandomUInt seed mn mx) as [[seed' v]| | | |];
    try (exfalso; apply Hw; unfold fits; lia).
  exists seed', v. split; [done|]. simpl in Hw.
  destruct Hw as (?&?&?&?); unfold fits in *; lia.
Qed.

Lemma GetRandomUInt_in_range_witness :
  ∃ seed' v, GetRandomUInt 7 100000 999999 = Ok (seed', v) ∧
    100000 ≤ v ≤ 999999 ∧ fits 32 seed'.
Proof. apply (GetRandomUInt_in_range 7 100000 999999); lia. Defined.

(** GetRandomString stays inside its 64 byte static buffer and returns
    min(len, 64) characters, all of them digits or lower case letters. *)
Lemma GetRandomString_alnum seed buffer len :
  length buffer = 64%nat → 0 ≤ len →
  ∃ seed' buffer' s, GetRandomString seed buffer len = Ok (seed', buffer', s) ∧
    length buffer' = 64%nat ∧ zlen s = Z.min len 64 ∧ Forall alnum s.
Proof.
  intros Hb Hlen.
  pose proof (GetRandomString_spec seed buffer len Hb Hlen) as
    ([[seed' b'] s] & HE & H)%wp_Ok. eauto 10.
Qed.

Lemma GetRandomString_alnum_witness :
  ∃ seed' buffer' s, GetRandomString 1 (replicate 64 0) 24 = Ok (seed', buffer', s) ∧
    length buffer' = 64%nat ∧ zlen s = Z.min 24 64 ∧ Forall alnum s.
Proof. apply (GetRandomString_alnum 1 (replicate 64 0) 24); [done|lia]. Defined.

(** When the three OpenSSL calls behave as documented, GetHmacShA1 aborts
    on none of its assertions and returns the HMAC-SHA1 of the first [len] bytes. *)
Lemma GetHmacShA1_digest `{HmacApi, HmacSha1} keyed ctx key data len :
  HmacApiSpec keyed → 0 ≤ len ≤ zlen data →
  ∃ ctx', GetHmacShA1 ctx key data len
    = Ok (ctx', hmac_sha1 key (take (Z.to_nat len) data)).
Proof.
  intros [Hi Hu Hf] Hlen. unfold GetHmacShA1.
  destruct (HMAC_Init_ex ctx key) as [r1 c1] eqn:E1.
  specialize (Hi ctx key). rewrite E1 in Hi. simpl in Hi. destruct Hi as [-> Hk]. simpl.
  rewrite rd_range_in by lia. simpl. set (d := take _ _).
  specialize (Hu c1 key [] d Hk). destruct (HMAC_Update c1 d) as [r2 c2].
  simpl in Hu. destruct Hu as [-> Hk2]. simpl in *.
  specialize (Hf c2 key d Hk2). destruct (HMAC_Final c2) as [[r3 c3] out].
  simpl in *. destruct Hf as [-> ->]. simpl.
  replace (zlen _ =? 20) with true by (unfold zlen; by rewrite hmac_sha1_len).
  by exists c3.
Qed.

(** A keyed digest for the witnesses; any 20 byte function of key and data. *)
Program Definition toy_hmac : HmacSha1 := {|
  hmac_sha1 k d := to_be 20 (of_be k * 65537 + of_be d * 31 + 1) |}.
Next Obligation. intros. apply length_to_be. Qed.
Next Obligation. intros. apply to_be_bytes. Qed.

Definition toy_api : HmacApi := {|
  HMAC_CTX := list Z * list Z;
  HMAC_Init_ex _ k := (1, (k, []));
  HMAC_Update c d := (1, (c.1, c.2 ++ d));
  HMAC_Final c := (1, c, @hmac_sha1 toy_hmac c.1 c.2) |}.

Lemma GetHmacShA1_digest_witness :
  ∃ ctx', @GetHmacShA1 toy_api ([], []) [1; 2] [3; 4; 5] 2
    = Ok (ctx', @hmac_sha1 toy_hmac [1; 2] (take 2 [3; 4; 5])).
Proof.
  apply (@GetHmacShA1_digest toy_api toy_hmac (λ c k d, c = (k, d))
           ([], []) [1; 2] [3; 4; 5] 2).
  - split; [done| |]; intros c k d; [intros d'|]; intros ->; done.
  - vm_compute. split; congruence.
Defined.

End Crypto.
