(* ===== verification/StunPacket.v ===== *)
(** RTC::StunPacket (src/rtc/stun_packet.h, src/rtc/stun_packet.cc): the
    packet object, the wire parser, the credential check, and the serializer,
    as executable definitions.  The proofs are in StunParse, StunAuth and
    StunSerialize. *)
From S2P Require Import Prelude ByteOps Crypto.

Module Stun.
Import Byte Crypto.

(** ** Enumerations *)
Inductive Class_ := REQUEST | INDICATION | SUCCESS_RESPONSE | ERROR_RESPONSE.

#[export] Instance Class_eq_dec : EqDecision Class_.
Proof. solve_decision. Defined.

Definition class_to_Z (c : Class_) : Z :=
  match c with
  | REQUEST => 0 | INDICATION => 1 | SUCCESS_RESPONSE => 2 | ERROR_RESPONSE => 3
  end.

(** [static_cast<Class>] of the two class bits. *)
Definition class_of_Z (x : Z) : Class_ :=
  if x =? 0 then REQUEST else if x =? 1 then INDICATION
  else if x =? 2 then SUCCESS_RESPONSE else ERROR_RESPONSE.

(** [Method] is a [uint16_t] enumeration with one named value; a cast can hold
    any number. *)
Definition BINDING : Z := 1.

Module Attribute.
Definition MAPPED_ADDRESS : Z := 0x0001.
Definition USERNAME : Z := 0x0006.
Definition MESSAGE_INTEGRITY : Z := 0x0008.
Definition ERROR_CODE : Z := 0x0009.
Definition UNKNOWN_ATTRIBUTES : Z := 0x000A.
Definition REALM : Z := 0x0014.
Definition NONCE : Z := 0x0015.
Definition XOR_MAPPED_ADDRESS : Z := 0x0020.
Definition PRIORITY : Z := 0x0024.
Definition USE_CANDIDATE : Z := 0x0025.
Definition SOFTWARE : Z := 0x8022.
Definition ALTERNATE_SERVER : Z := 0x8023.
Definition FINGERPRINT : Z := 0x8028.
Definition ICE_CONTROLLED : Z := 0x8029.
Definition ICE_CONTROLLING : Z := 0x802A.
End Attribute.
Import Attribute.

Inductive Authentication := OK | UNAUTHORIZED | BAD_REQUEST.

(** A socket address as its memory holds it: port and address in network byte
    order. *)
Record sockaddr_in := mkSockaddrIn { sin_port : list Z; s_addr : list Z }.
Inductive sockaddr :=
| AF_INET (a : sockaddr_in)
| AF_INET6 (sin6_port s6_addr : list Z)
| AF_OTHER (family : Z).

#[export] Instance sockaddr_in_eq_dec : EqDecision sockaddr_in.
Proof. solve_decision. Defined.

(** ** The packet

    [transactionId] holds the twelve bytes the pointer refers to.  [data_] is
    the buffer behind the data pointer ([None] is nullptr), [messageIntegrity]
    the offset of the attribute value in it. *)
Record StunPacket := mkStunPacket {
  klass : Class_;
  method : Z;
  transactionId : list Z;
  data_ : option (list Z);
  size_ : Z;
  username : list Z;
  priority : Z;
  iceControlling : Z;
  iceControlled : Z;
  hasUseCandidate : bool;
  messageIntegrity : option Z;
  hasFingerprint : bool;
  xorMappedAddress : option sockaddr;
  errorCode : Z;
  password : list Z;
}.

(** The constructor: everything that is not an argument has its default. *)
Definition newStunPacket (klass : Class_) (method : Z) (transactionId : list Z)
    (data : option (list Z)) (size : Z) : StunPacket :=
  mkStunPacket klass method transactionId data size [] 0 0 0 false None false None 0 [].

Definition SetUsername (u : list Z) (p : StunPacket) : StunPacket :=
  mkStunPacket p.(klass) p.(method) p.(transactionId) p.(data_) p.(size_) u
    p.(priority) p.(iceControlling) p.(iceControlled) p.(hasUseCandidate)
    p.(messageIntegrity) p.(hasFingerprint) p.(xorMappedAddress) p.(errorCode)
    p.(password).
Definition SetPriority (x : Z) (p : StunPacket) : StunPacket :=
  mkStunPacket p.(klass) p.(method) p.(transactionId) p.(data_) p.(size_) p.(username)
    x p.(iceControlling) p.(iceControlled) p.(hasUseCandidate)
    p.(messageIntegrity) p.(hasFingerprint) p.(xorMappedAddress) p.(errorCode)
    p.(password).
Definition SetIceControlling (x : Z) (p : StunPacket) : StunPacket :=
  mkStunPacket p.(klass) p.(method) p.(transactionId) p.(data_) p.(size_) p.(username)
    p.(priority) x p.(iceControlled) p.(hasUseCandidate)
    p.(messageIntegrity) p.(hasFingerprint) p.(xorMappedAddress) p.(errorCode)
    p.(password).
Definition SetIceControlled (x : Z) (p : StunPacket) : StunPacket :=
  mkStunPacket p.(klass) p.(method) p.(transactionId) p.(data_) p.(size_) p.(username)
    p.(priority) p.(iceControlling) x p.(hasUseCandidate)
    p.(messageIntegrity) p.(hasFingerprint) p.(xorMappedAddress) p.(errorCode)
    p.(password).
Definition SetUseCandidate (p : StunPacket) : StunPacket :=
  mkStunPacket p.(klass) p.(method) p.(transactionId) p.(data_) p.(size_) p.(username)
    p.(priority) p.(iceControlling) p.(iceControlled) true
    p.(messageIntegrity) p.(hasFingerprint) p.(xorMappedAddress) p.(errorCode)
    p.(password).
Definition SetXorMappedAddress (a : sockaddr) (p : StunPacket) : StunPacket :=
  mkStunPacket p.(klass) p.(method) p.(transactionId) p.(data_) p.(size_) p.(username)
    p.(priority) p.(iceControlling) p.(iceControlled) p.(hasUseCandidate)
    p.(messageIntegrity) p.(hasFingerprint) (Some a) p.(errorCode)
    p.(password).
Definition SetErrorCode (x : Z) (p : StunPacket) : StunPacket :=
  mkStunPacket p.(klass) p.(method) p.(transactionId) p.(data_) p.(size_) p.(username)
    p.(priority) p.(iceControlling) p.(iceControlled) p.(hasUseCandidate)
    p.(messageIntegrity) p.(hasFingerprint) p.(xorMappedAddress) x
    p.(password).
Definition SetMessageIntegrity (o : option Z) (p : StunPacket) : StunPacket :=
  mkStunPacket p.(klass) p.(method) p.(transactionId) p.(data_) p.(size_) p.(username)
    p.(priority) p.(iceControlling) p.(iceControlled) p.(hasUseCandidate)
    o p.(hasFingerprint) p.(xorMappedAddress) p.(errorCode)
    p.(password).
Definition SetFingerprint (p : StunPacket) : StunPacket :=
  mkStunPacket p.(klass) p.(method) p.(transactionId) p.(data_) p.(size_) p.(username)
    p.(priority) p.(iceControlling) p.(iceControlled) p.(hasUseCandidate)
    p.(messageIntegrity) true p.(xorMappedAddress) p.(errorCode)
    p.(password).
Definition SetPassword (w : list Z) (p : StunPacket) : StunPacket :=
  mkStunPacket p.(klass) p.(method) p.(transactionId) p.(data_) p.(size_) p.(username)
    p.(priority) p.(iceControlling) p.(iceControlled) p.(hasUseCandidate)
    p.(messageIntegrity) p.(hasFingerprint) p.(xorMappedAddress) p.(errorCode) w.
(** Assignments to [data], [size] and [transactionId] by other methods. *)
Definition SetData (d : option (list Z)) (p : StunPacket) : StunPacket :=
  mkStunPacket p.(klass) p.(method) p.(transactionId) d p.(size_) p.(username)
    p.(priority) p.(iceControlling) p.(iceControlled) p.(hasUseCandidate)
    p.(messageIntegrity) p.(hasFingerprint) p.(xorMappedAddress) p.(errorCode)
    p.(password).
Definition SetSize (n : Z) (p : StunPacket) : StunPacket :=
  mkStunPacket p.(klass) p.(method) p.(transactionId) p.(data_) n p.(username)
    p.(priority) p.(iceControlling) p.(iceControlled) p.(hasUseCandidate)
    p.(messageIntegrity) p.(hasFingerprint) p.(xorMappedAddress) p.(errorCode)
    p.(password).

Definition HasMessageIntegrity (p : StunPacket) : bool := bool_decide (is_Some p.(messageIntegrity)).

(** ** Recognition *)
Definition magicCookie : list Z := [0x21; 0x12; 0xA4; 0x42].

Definition byte_is (data : list Z) (i v : Z) : res bool := b ← data.[i]; Ok (b =? v).

Definition IsStun (data : list Z) (len : Z) : res bool :=
  (* STUN headers are 20 bytes. *)
  Ok (20 <=? len) &&& (b ← data.[0]; Ok (b <? 3)) &&&
  (* Magic cookie must match. *)
  byte_is data 4 0x21 &&& byte_is data 5 0x12 &&&
  byte_is data 6 0xA4 &&& byte_is data 7 0x42.

(** ** Parsing *)

(** The local variables of the attribute loop. *)
Record ParseState := mkParseState {
  ps_packet : StunPacket;
  ps_hasMessageIntegrity : bool;
  ps_hasFingerprint : bool;
  ps_fingerprintAttrPos : Z;
  ps_fingerprint : Z;
}.

Definition upd_packet (f : StunPacket → StunPacket) (st : ParseState) : ParseState :=
  mkParseState (f st.(ps_packet)) st.(ps_hasMessageIntegrity) st.(ps_hasFingerprint)
    st.(ps_fingerprintAttrPos) st.(ps_fingerprint).

(** The switch over the attribute type; [None] discards the packet. *)
Definition parse_attr (data : list Z) (pos attrType attrLength : Z) (st : ParseState) :
    res (option ParseState) :=
  let attrValuePos := pos + 4 in
  if attrType =? USERNAME then
    u ← rd_range data attrValuePos attrLength;
    Ok (Some (upd_packet (SetUsername u) st))
  else if attrType =? PRIORITY then
    if negb (attrLength =? 4) then Ok None
    else v ← Get4Bytes data attrValuePos; Ok (Some (upd_packet (SetPriority v) st))
  else if attrType =? ICE_CONTROLLING then
    if negb (attrLength =? 8) then Ok None
    else v ← Get8Bytes data attrValuePos; Ok (Some (upd_packet (SetIceControlling v) st))
  else if attrType =? ICE_CONTROLLED then
    if negb (attrLength =? 8) then Ok None
    else v ← Get8Bytes data attrValuePos; Ok (Some (upd_packet (SetIceControlled v) st))
  else if attrType =? USE_CANDIDATE then
    if negb (attrLength =? 0) then Ok None
    else Ok (Some (upd_packet SetUseCandidate st))
  else if attrType =? MESSAGE_INTEGRITY then
    if negb (attrLength =? 20) then Ok None
    else Ok (Some (mkParseState (SetMessageIntegrity (Some attrValuePos) st.(ps_packet)) true
                     st.(ps_hasFingerprint) st.(ps_fingerprintAttrPos) st.(ps_fingerprint)))
  else if attrType =? FINGERPRINT then
    if negb (attrLength =? 4) then Ok None
    else
      fp ← Get4Bytes data attrValuePos;
      Ok (Some (mkParseState (SetFingerprint st.(ps_packet)) st.(ps_hasMessageIntegrity)
                  true pos fp))
  else if attrType =? ERROR_CODE then
    if attrLength <? 4 then Ok None
    else
      errorClass ← Get1Byte data (attrValuePos + 2);
      errorNumber ← Get1Byte data (attrValuePos + 3);
      Ok (Some (upd_packet (SetErrorCode (u16 (errorClass * 100 + errorNumber))) st))
  else Ok (Some st).

(** [while (pos + 4 <= len)]; the position after an attribute is computed in
    sixteen bits. *)
Fixpoint parse_attrs (fuel : nat) (data : list Z) (len pos : Z) (st : ParseState) :
    res (option (Z * ParseState)) :=
  match fuel with
  | O => OutOfFuel
  | S fuel =>
      if pos + 4 <=? len then
        attrType ← Get2Bytes data pos;
        attrLength ← Get2Bytes data (pos + 2);
        if len <? pos + 4 + attrLength then Ok None
        else if st.(ps_hasFingerprint) then Ok None
        else if st.(ps_hasMessageIntegrity) && negb (attrType =? FINGERPRINT) then Ok None
        else
          r ← parse_attr data pos attrType attrLength st;
          match r with
          | None => Ok None
          | Some st => parse_attrs fuel data len (PadTo4Bytes16 (u16 (pos + 4 + attrLength))) st
          end
      else Ok (Some (pos, st))
  end.

(** Method and class bits of the message type. *)
Definition type_method (msgType : Z) : Z :=
  Z.lor (Z.lor (Z.land msgType 0x000f) (Z.shiftr (Z.land msgType 0x00e0) 1))
    (Z.shiftr (Z.land msgType 0x3E00) 2).

Definition type_class (b0 b1 : Z) : Z :=
  Z.lor (Z.shiftl (Z.land b0 0x01) 1) (Z.shiftr (Z.land b1 0x10) 4).

(** After the loop: the position must match, and the FINGERPRINT if any. *)
Definition parse_finish (data : list Z) (len pos : Z) (st : ParseState) :
    res (option StunPacket) :=
  if negb (pos =? len) then Ok None
  else if st.(ps_hasFingerprint) then
    crc ← GetCRC32 data st.(ps_fingerprintAttrPos);
    if negb (st.(ps_fingerprint) =? Z.lxor crc 0x5354554e) then Ok None
    else Ok (Some st.(ps_packet))
  else Ok (Some st.(ps_packet)).

Definition ParseFuel (fuel : nat) (data : list Z) (len : Z) : res (option StunPacket) :=
  isStun ← IsStun data len;
  if negb isStun then Ok None
  else
    msgType ← Get2Bytes data 0;
    msgLength ← Get2Bytes data 2;
    if negb (msgLength =? len - 20) || negb (Z.land msgLength 0x03 =? 0) then Ok None
    else
      b0 ← data.[0]; b1 ← data.[1];
      tid ← rd_range data 8 12;
      let packet := newStunPacket (class_of_Z (type_class b0 b1)) (type_method msgType)
                      tid (Some data) len in
      r ← parse_attrs fuel data len 20 (mkParseState packet false false 0 0);
      match r with
      | None => Ok None
      | Some (pos, st) => parse_finish data len pos st
      end.

(** One more iteration than four-byte units suffices below 64 KiB (StunParse). *)
Definition parse_fuel (len : Z) : nat := S (Z.to_nat (len / 4)).

Definition Parse (data : list Z) (len : Z) : res (option StunPacket) :=
  ParseFuel (parse_fuel len) data len.

(** ** Credentials *)
Section auth.
Context `{HmacSha1}.

(** [CheckAuthentication] rewrites the length field of the received buffer for
    the digest and restores it, so it returns the packet with its buffer. *)
Definition check_integrity (p : StunPacket) (localPassword : list Z) :
    res (StunPacket * Authentication) :=
  match p.(data_), p.(messageIntegrity) with
  | Some data, Some mi =>
      data ← (if p.(hasFingerprint) then Set2Bytes data 2 (u16 (p.(size_) - 20 - 8)) else Ok data);
      prefix ← rd_range data 0 (mi - 4);
      received ← rd_range data mi 20;
      let result := if decide (received = hmac_sha1 localPassword prefix)
                    then OK else UNAUTHORIZED in
      data ← (if p.(hasFingerprint) then Set2Bytes data 2 (u16 (p.(size_) - 20)) else Ok data);
      Ok (SetData (Some data) p, result)
  | _, _ => UB NullDeref
  end.

Definition username_matches (u localUsername : list Z) : bool :=
  negb ((zlen u <=? zlen localUsername) ||
        negb (bool_decide (u !! length localUsername = Some 58)) (* ':' *) ||
        negb (bool_decide (take (length localUsername) u = localUsername))).

Definition CheckAuthentication (p : StunPacket) (localUsername localPassword : list Z) :
    res (StunPacket * Authentication) :=
  match p.(klass) with
  | REQUEST | INDICATION =>
      if negb (HasMessageIntegrity p) || bool_decide (p.(username) = []) then Ok (p, BAD_REQUEST)
      else if negb (username_matches p.(username) localUsername) then Ok (p, UNAUTHORIZED)
      else check_integrity p localPassword
  | SUCCESS_RESPONSE | ERROR_RESPONSE => Ok (p, BAD_REQUEST)
  end.

(** ** Responses *)
Definition CreateSuccessResponse (p : StunPacket) : res StunPacket :=
  ms_assert (bool_decide (p.(klass) = REQUEST))
    "attempt to create a success response for a non Request STUN packet";;
  Ok (newStunPacket SUCCESS_RESPONSE p.(method) p.(transactionId) None 0).

Definition CreateErrorResponse (p : StunPacket) (errorCode : Z) : res StunPacket :=
  ms_assert (bool_decide (p.(klass) = REQUEST))
    "attempt to create an error response for a non Request STUN packet";;
  Ok (SetErrorCode errorCode
        (newStunPacket ERROR_RESPONSE p.(method) p.(transactionId) None 0)).

Definition Authenticate (p : StunPacket) (password : list Z) : StunPacket :=
  match p.(klass) with
  | ERROR_RESPONSE => p
  | _ => SetPassword password p
  end.

(** ** Serializing *)

(** What [Serialize] decides to add, before it writes anything. *)
Definition usernamePaddedLen (p : StunPacket) : Z :=
  if decide (p.(username) = []) then 0 else PadTo4Bytes16 (u16 (zlen p.(username))).

(** The address to add with the length of its value; an unknown family is
    logged and dropped. *)
Definition addXorMappedAddress (p : StunPacket) : option (sockaddr * Z) :=
  match p.(xorMappedAddress) with
  | Some a =>
      if (p.(method) =? BINDING) && bool_decide (p.(klass) = SUCCESS_RESPONSE) then
        match a with
        | AF_INET _ => Some (a, 8)
        | AF_INET6 _ _ => Some (a, 20)
        | AF_OTHER _ => None
        end
      else None
  | None => None
  end.

Definition addErrorCode (p : StunPacket) : bool :=
  negb (p.(errorCode) =? 0) && bool_decide (p.(klass) = ERROR_RESPONSE).

Definition addMessageIntegrity (p : StunPacket) : bool :=
  negb (bool_decide (p.(klass) = ERROR_RESPONSE)) && negb (bool_decide (p.(password) = [])).

(** [addFingerprint] is always true. *)
Definition serialized_size (p : StunPacket) : Z :=
  20 + (if decide (p.(username) = []) then 0 else 4 + usernamePaddedLen p)
     + (if p.(priority) =? 0 then 0 else 4 + 4)
     + (if p.(iceControlling) =? 0 then 0 else 4 + 8)
     + (if p.(iceControlled) =? 0 then 0 else 4 + 8)
     + (if p.(hasUseCandidate) then 4 else 0)
     + (match addXorMappedAddress p with Some (_, n) => 4 + n | None => 0 end)
     + (if addErrorCode p then 4 + 4 else 0)
     + (if addMessageIntegrity p then 4 + 20 else 0)
     + (4 + 4).

(** Merge class and method fields into type. *)
Definition type_field (k m : Z) : Z :=
  u16 (Z.lor (Z.lor (Z.lor (Z.lor
    (u16 (Z.shiftl (Z.land m 0x0f80) 2))
    (Z.shiftl (Z.land m 0x0070) 1))
    (Z.land m 0x000f))
    (Z.shiftl (Z.land k 0x02) 7))
    (Z.shiftl (Z.land k 0x01) 4)).

Definition ser_header (p : StunPacket) (size : Z) (buffer : list Z) : res (list Z) :=
  b ← Set2Bytes buffer 0 (type_field (class_to_Z p.(klass)) p.(method));
  b ← Set2Bytes b 2 (u16 (u16 size - 20));
  b ← memcpy b 4 magicCookie;
  memcpy b 8 p.(transactionId).

Definition ser_username (p : StunPacket) (bp : list Z * Z) : res (list Z * Z) :=
  let '(buffer, pos) := bp in
  if usernamePaddedLen p =? 0 then Ok bp
  else
    b ← Set2Bytes buffer pos USERNAME;
    b ← Set2Bytes b (pos + 2) (u16 (zlen p.(username)));
    b ← memcpy b (pos + 4) p.(username);
    Ok (b, pos + (4 + usernamePaddedLen p)).

Definition ser_priority (p : StunPacket) (bp : list Z * Z) : res (list Z * Z) :=
  let '(buffer, pos) := bp in
  if p.(priority) =? 0 then Ok bp
  else
    b ← Set2Bytes buffer pos PRIORITY;
    b ← Set2Bytes b (pos + 2) 4;
    b ← Set4Bytes b (pos + 4) p.(priority);
    Ok (b, pos + (4 + 4)).

Definition ser_iceControlling (p : StunPacket) (bp : list Z * Z) : res (list Z * Z) :=
  let '(buffer, pos) := bp in
  if p.(iceControlling) =? 0 then Ok bp
  else
    b ← Set2Bytes buffer pos ICE_CONTROLLING;
    b ← Set2Bytes b (pos + 2) 8;
    b ← Set8Bytes b (pos + 4) p.(iceControlling);
    Ok (b, pos + (4 + 8)).

Definition ser_iceControlled (p : StunPacket) (bp : list Z * Z) : res (list Z * Z) :=
  let '(buffer, pos) := bp in
  if p.(iceControlled) =? 0 then Ok bp
  else
    b ← Set2Bytes buffer pos ICE_CONTROLLED;
    b ← Set2Bytes b (pos + 2) 8;
    b ← Set8Bytes b (pos + 4) p.(iceControlled);
    Ok (b, pos + (4 + 8)).

Definition ser_useCandidate (p : StunPacket) (bp : list Z * Z) : res (list Z * Z) :=
  let '(buffer, pos) := bp in
  if p.(hasUseCandidate) then
    b ← Set2Bytes buffer pos USE_CANDIDATE;
    b ← Set2Bytes b (pos + 2) 0;
    Ok (b, pos + 4)
  else Ok bp.

(** [buffer[i] ^= x] for the bytes of a mask. *)
Fixpoint xor_at (buffer : list Z) (i : Z) (mask : list Z) : res (list Z) :=
  match mask with
  | [] => Ok buffer
  | x :: mask =>
      b ← buffer.[i];
      buffer ← wr buffer i (Z.lxor b x);
      xor_at buffer (i + 1) mask
  end.

Definition ser_xorMappedAddress (p : StunPacket) (bp : list Z * Z) : res (list Z * Z) :=
  let '(buffer, pos) := bp in
  match addXorMappedAddress p with
  | None => Ok bp
  | Some (a, paddedLen) =>
      b ← Set2Bytes buffer pos XOR_MAPPED_ADDRESS;
      b ← Set2Bytes b (pos + 2) paddedLen;
      let attrValue := pos + 4 in
      b ← wr b attrValue 0;
      match a with
      | AF_INET a =>
          b ← wr b (attrValue + 1) 0x01;
          b ← memcpy b (attrValue + 2) a.(sin_port);
          b ← xor_at b (attrValue + 2) (take 2 magicCookie);
          b ← memcpy b (attrValue + 4) a.(s_addr);
          b ← xor_at b (attrValue + 4) magicCookie;
          Ok (b, pos + (4 + 8))
      | AF_INET6 port addr =>
          b ← wr b (attrValue + 1) 0x02;
          b ← memcpy b (attrValue + 2) port;
          b ← xor_at b (attrValue + 2) (take 2 magicCookie);
          b ← memcpy b (attrValue + 4) addr;
          b ← xor_at b (attrValue + 4) magicCookie;
          b ← xor_at b (attrValue + 8) p.(transactionId);
          Ok (b, pos + (4 + 20))
      | AF_OTHER _ => Ok (b, pos)
      end
  end.

Definition ser_errorCode (p : StunPacket) (bp : list Z * Z) : res (list Z * Z) :=
  let '(buffer, pos) := bp in
  if addErrorCode p then
    b ← Set2Bytes buffer pos ERROR_CODE;
    b ← Set2Bytes b (pos + 2) 4;
    let codeClass := u8 (p.(errorCode) / 100) in
    let codeNumber := u8 (u8 p.(errorCode) - codeClass * 100) in
    b ← Set2Bytes b (pos + 4) 0;
    b ← Set1Byte b (pos + 6) codeClass;
    b ← Set1Byte b (pos + 7) codeNumber;
    Ok (b, pos + (4 + 4))
  else Ok bp.

(** Returns the new value of the [messageIntegrity] pointer too. *)
Definition ser_messageIntegrity (p : StunPacket) (size : Z) (bp : list Z * Z) :
    res (list Z * Z * option Z) :=
  let '(buffer, pos) := bp in
  if addMessageIntegrity p then
    (* Ignore FINGERPRINT. *)
    b ← Set2Bytes buffer 2 (u16 (size - 20 - 8));
    prefix ← rd_range b 0 pos;
    let computed := hmac_sha1 p.(password) prefix in
    b ← Set2Bytes b pos MESSAGE_INTEGRITY;
    b ← Set2Bytes b (pos + 2) 20;
    b ← memcpy b (pos + 4) computed;
    (* Restore length field. *)
    b ← Set2Bytes b 2 (u16 (size - 20));
    Ok (b, pos + (4 + 20), Some (pos + 4))
  else Ok (buffer, pos, None).

Definition ser_fingerprint (bp : list Z * Z) : res (list Z * Z) :=
  let '(buffer, pos) := bp in
  crc ← GetCRC32 buffer pos;
  b ← Set2Bytes buffer pos FINGERPRINT;
  b ← Set2Bytes b (pos + 2) 4;
  b ← Set4Bytes b (pos + 4) (Z.lxor crc 0x5354554e);
  Ok (b, pos + (4 + 4)).

(** The attributes up to ERROR-CODE, in the order the code adds them. *)
Definition ser_attributes (p : StunPacket) (bp : list Z * Z) : res (list Z * Z) :=
  bp ← ser_username p bp;
  bp ← ser_priority p bp;
  bp ← ser_iceControlling p bp;
  bp ← ser_iceControlled p bp;
  bp ← ser_useCandidate p bp;
  bp ← ser_xorMappedAddress p bp;
  ser_errorCode p bp.

(** The packet afterwards points into [buffer]; the buffer is returned as its
    [data_]. *)
Definition Serialize (p : StunPacket) (buffer : list Z) : res StunPacket :=
  let size := serialized_size p in
  b ← ser_header p size buffer;
  bp ← ser_attributes p (b, 20);
  '(b, pos, mi) ← ser_messageIntegrity p size bp;
  '(b, pos) ← ser_fingerprint (b, pos);
  ms_assert (pos =? size) "pos != this->size";;
  Ok (SetFingerprint (SetMessageIntegrity mi (SetSize size (SetData (Some b) p)))).
End auth.
End Stun.
