(* ===== verification/Utils.v ===== *)
(** * Utils: socket addresses, strings and clocks

    Utils::IP, Utils::String::ToLowerCase and Utils::Time of common/utils.h.
    Addresses are the bytes of a [sockaddr] in memory (Linux, little endian),
    where a byte that was never written is [None]; the double arithmetic of
    the NTP conversions is IEEE 754 binary64 with rounding to nearest even,
    as specified by the standard library's SpecFloat. *)
From Stdlib Require Import SpecFloat.
From S2P Require Import Prelude Text ByteOps StunPacket.

Module IP.
Import Stun.

Definition AF_INET_ : Z := 2.
Definition AF_INET6_ : Z := 10.
Definition sizeof_sockaddr_in : Z := 16.
Definition sizeof_sockaddr_in6 : Z := 28.
Definition sizeof_sockaddr_storage : Z := 128.

(** ** Memory with unwritten bytes *)
Abbreviation cells := (list (option Z)).

Definition rd_cell (m : cells) (i : Z) : res Z :=
  if 0 <=? i then
    match m !! Z.to_nat i with
    | Some (Some x) => Ok x
    | Some None => UB Uninit
    | None => UB OutOfBounds
    end
  else UB OutOfBounds.

Fixpoint rd_cells (m : cells) (i : Z) (n : nat) : res (list Z) :=
  match n with
  | O => Ok []
  | S n' => x ← rd_cell m i; rest ← rd_cells m (i + 1) n'; Ok (x :: rest)
  end.

(** [addr->sa_family]: two bytes at the start, in host order. *)
Definition sa_family (m : cells) : res Z :=
  a ← rd_cell m 0; b ← rd_cell m 1; Ok (a + 256 * b).

Definition differ (l1 l2 : list Z) : bool := bool_decide (l1 ≠ l2).

Definition CompareAddresses (addr1 addr2 : cells) : res bool :=
  family1 ← sa_family addr1;
  family2 ← sa_family addr2;
  if negb (family1 =? family2) || (negb (family1 =? AF_INET_) && negb (family1 =? AF_INET6_))
  then Ok false
  else
    port1 ← rd_cells addr1 2 2;
    port2 ← rd_cells addr2 2 2;
    if differ port1 port2 then Ok false
    else if family1 =? AF_INET_ then
      s_addr1 ← rd_cells addr1 4 4;
      s_addr2 ← rd_cells addr2 4 4;
      Ok (negb (differ s_addr1 s_addr2))
    else if family1 =? AF_INET6_ then
      sin6_addr1 ← rd_cells addr1 8 16;
      sin6_addr2 ← rd_cells addr2 8 16;
      Ok (negb (differ sin6_addr1 sin6_addr2))
    else Ok false.

(** [memcpy(&copiedAddr, addr, n)]: bytes are copied whether written or not. *)
Definition copy_cells (dst src : cells) (n : Z) : res cells :=
  if n <=? zlen src then Ok (take (Z.to_nat n) src ++ drop (Z.to_nat n) dst)
  else UB OutOfBounds.

Definition CopyAddress (addr : cells) : res cells :=
  let copiedAddr := replicate (Z.to_nat sizeof_sockaddr_storage) None in
  family ← sa_family addr;
  if family =? AF_INET_ then copy_cells copiedAddr addr sizeof_sockaddr_in
  else if family =? AF_INET6_ then copy_cells copiedAddr addr sizeof_sockaddr_in6
  else Ok copiedAddr.

(** ** The address a piece of memory holds *)

(** The layout of sockaddr_in and sockaddr_in6; what an address leaves open
    (sin_zero, flow information, scope, the rest of the storage) is arbitrary,
    written or not. *)
Inductive holds : cells → sockaddr → Prop :=
| holds_inet port addr sin_zero rest :
    length port = 2%nat → length addr = 4%nat → length sin_zero = 8%nat →
    holds ((Some <$> ([2; 0] ++ port ++ addr)) ++ sin_zero ++ rest)
      (AF_INET (mkSockaddrIn port addr))
| holds_inet6 port flowinfo addr scope rest :
    length port = 2%nat → length flowinfo = 4%nat → length addr = 16%nat → length scope = 4%nat →
    holds ((Some <$> ([10; 0] ++ port)) ++ flowinfo ++ (Some <$> addr) ++ scope ++ rest)
      (AF_INET6 port addr)
| holds_other a b rest :
    is_byte a → is_byte b → a + 256 * b ≠ 2 → a + 256 * b ≠ 10 →
    holds (Some a :: Some b :: rest) (AF_OTHER (a + 256 * b)).

#[export] Instance sockaddr_eq_dec : EqDecision sockaddr.
Proof. solve_decision. Defined.

Definition is_ip (a : sockaddr) : bool := match a with AF_OTHER _ => false | _ => true end.

(** ** Proofs *)

Lemma rd_cells_app pre l post i :
  i = zlen pre → rd_cells (pre ++ (Some <$> l) ++ post) i (length l) = Ok l.
Proof.
  intros ->. revert pre. induction l as [|x l IH]; intros pre; [done|].
  rewrite fmap_cons. cbn [rd_cells length app].
  unfold rd_cell at 1. destruct (Z.leb_spec 0 (zlen pre)); [|pose proof (zlen_nonneg pre); lia].
  replace (Z.to_nat (zlen pre)) with (length pre) by (unfold zlen; lia).
  rewrite list_lookup_middle by done. cbn [mbind res_bind].
  specialize (IH (pre ++ [Some x])). rewrite <- app_assoc in IH. simpl in IH.
  rewrite zlen_app, zlen_cons, zlen_nil, Z.add_0_r in IH. by rewrite IH.
Qed.

(** Memory that holds an address has its family, port and address where
    CompareAddresses looks for them. *)
Lemma holds_family m a :
  holds m a →
  sa_family m = Ok (match a with AF_INET _ => 2 | AF_INET6 _ _ => 10 | AF_OTHER f => f end).
Proof. by destruct 1. Qed.

Lemma holds_inet_fields m port addr :
  holds m (AF_INET (mkSockaddrIn port addr)) →
  rd_cells m 2 2 = Ok port ∧ rd_cells m 4 4 = Ok addr.
Proof.
  inversion 1 as [? ? z r Hp Ha Hz| |]; subst. split; [rewrite <- Hp|rewrite <- Ha].
  - rewrite !fmap_app, <- !app_assoc. by apply (rd_cells_app [Some 2; Some 0]).
  - rewrite (app_assoc [2; 0] port addr), (fmap_app _ ([2; 0] ++ port)), <- app_assoc.
    apply (rd_cells_app (Some <$> ([2; 0] ++ port))).
    unfold zlen. rewrite length_fmap, length_app, Hp. done.
Qed.

Lemma holds_inet6_fields m port addr :
  holds m (AF_INET6 port addr) →
  rd_cells m 2 2 = Ok port ∧ rd_cells m 8 16 = Ok addr.
Proof.
  inversion 1 as [|? f ? s r Hp Hf Ha Hs|]; subst. split; [rewrite <- Hp|rewrite <- Ha].
  - rewrite fmap_app, <- app_assoc. by apply (rd_cells_app [Some 10; Some 0]).
  - rewrite app_assoc. apply (rd_cells_app ((Some <$> ([10; 0] ++ port)) ++ f)).
    unfold zlen. rewrite length_app, length_fmap, length_app, Hp, Hf. done.
Qed.

Lemma holds_other_family m f : holds m (AF_OTHER f) → f ≠ 2 ∧ f ≠ 10.
Proof. by inversion 1; subst. Qed.

Lemma CompareAddresses_other m1 m2 a1 a2 :
  holds m1 a1 → holds m2 a2 → is_ip a1 = false ∨ is_ip a2 = false →
  CompareAddresses m1 m2 = Ok false.
Proof.
  intros H1 H2 Ho. unfold CompareAddresses.
  rewrite (holds_family _ _ H1), (holds_family _ _ H2). cbn [mbind res_bind].
  match goal with |- (if ?c then _ else _) = _ => assert (c = true) as ->; [|done] end.
  unfold AF_INET_, AF_INET6_. destruct a1, a2; simpl in Ho; try (by destruct Ho);
    repeat match goal with H : holds _ (AF_OTHER _) |- _ => apply holds_other_family in H as [??] end;
    repeat match goal with |- context [?x =? ?y] => destruct (Z.eqb_spec x y) end; simpl; lia || done.
Qed.

Lemma differ_negb l1 l2 : negb (differ l1 l2) = bool_decide (l1 = l2).
Proof. unfold differ. by repeat case_bool_decide; naive_solver. Qed.

Lemma CompareAddresses_spec m1 m2 a1 a2 :
  holds m1 a1 → holds m2 a2 →
  CompareAddresses m1 m2 = Ok (is_ip a1 && bool_decide (a1 = a2)).
Proof.
  intros H1 H2. destruct (is_ip a1) eqn:I1; [|by rewrite (CompareAddresses_other _ _ a1 a2); eauto].
  destruct (is_ip a2) eqn:I2.
  2:{ rewrite (CompareAddresses_other _ _ a1 a2) by eauto. rewrite bool_decide_eq_false_2; [done|].
      intros ->. congruence. }
  unfold CompareAddresses.
  rewrite (holds_family _ _ H1), (holds_family _ _ H2). cbn [mbind res_bind].
  destruct a1 as [[p1 s1]|p1 s1|], a2 as [[p2 s2]|p2 s2|]; try done; cbn -[rd_cells differ].
  - apply holds_inet_fields in H1 as [-> ->], H2 as [-> ->]. cbn [mbind res_bind].
    rewrite differ_negb. unfold differ. repeat case_bool_decide; naive_solver.
  - apply holds_inet6_fields in H1 as [-> ->], H2 as [-> ->]. cbn [mbind res_bind].
    rewrite differ_negb. unfold differ. repeat case_bool_decide; naive_solver.
Qed.

Lemma copy_cells_app d l rest n :
  n = zlen l → copy_cells d (l ++ rest) n = Ok (l ++ drop (length l) d).
Proof.
  intros ->. unfold copy_cells. rewrite zlen_app. pose proof (zlen_nonneg rest).
  destruct (Z.leb_spec (zlen l) (zlen l + zlen rest)); [|lia].
  unfold zlen. by rewrite Nat2Z.id, take_app_length.
Qed.

Lemma CopyAddress_spec m a :
  holds m a → is_ip a = true → ∃ m', CopyAddress m = Ok m' ∧ holds m' a ∧ zlen m' = 128.
Proof.
  intros Hm Ha. unfold CopyAddress. rewrite (holds_family _ _ Hm).
  set (d := replicate _ _). assert (length d = 128%nat) as Hd by done. clearbody d.
  destruct Hm as [port addr z rest Hp Hs Hz|port f addr sc rest Hp Hf Hs Hsc|]; [| |done].
  - set (l := (Some <$> ([2; 0] ++ port ++ addr)) ++ z).
    assert (length l = 16%nat) as Hl.
    { unfold l. rewrite length_app, length_fmap, !length_app, Hp, Hs, Hz. done. }
    exists (l ++ drop (length l) d). rewrite app_assoc. fold l. split_and!.
    + apply copy_cells_app. unfold zlen. by rewrite Hl.
    + unfold l. rewrite <- app_assoc. by constructor.
    + unfold zlen. rewrite length_app, length_drop, Hl, Hd. done.
  - set (l := (Some <$> ([10; 0] ++ port)) ++ f ++ (Some <$> addr) ++ sc).
    assert (length l = 28%nat) as Hl.
    { unfold l. rewrite !length_app, !length_fmap, !length_app, Hp, Hf, Hs, Hsc. done. }
    exists (l ++ drop (length l) d).
    assert ((Some <$> ([10; 0] ++ port)) ++ f ++ (Some <$> addr) ++ sc ++ rest = l ++ rest) as ->
      by (unfold l; by rewrite <- !app_assoc).
    split_and!.
    + apply copy_cells_app. unfold zlen. by rewrite Hl.
    + unfold l. rewrite <- !app_assoc. by constructor.
    + unfold zlen. rewrite length_app, length_drop, Hl, Hd. done.
Qed.

(** Comparing socket addresses decides their equality.  For any two pieces of
    memory that hold addresses CompareAddresses reads only bytes that are there
    and written, and answers whether family, port and IP are the same (IPv6 flow
    information, scope and padding play no part), false for other families; a
    copy made by CopyAddress compares equal to its original. *)
Lemma CompareAddresses_decides m1 m2 a1 a2 :
  holds m1 a1 → holds m2 a2 →
  CompareAddresses m1 m2 = Ok (is_ip a1 && bool_decide (a1 = a2)) ∧
  (is_ip a1 = true → ∃ m', CopyAddress m1 = Ok m' ∧ CompareAddresses m1 m' = Ok true).
Proof.
  intros H1 H2. split; [by apply CompareAddresses_spec|]. intros Ha.
  destruct (CopyAddress_spec m1 a1 H1 Ha) as (m' & E & H' & _). exists m'. split; [done|].
  by rewrite (CompareAddresses_spec m1 m' a1 a1), Ha, bool_decide_eq_true_2.
Qed.

(** For another family CopyAddress returns storage that was never written:
    comparing it is undefined. *)
Lemma CopyAddress_other_family m a m' :
  holds m a → is_ip a = false → CopyAddress m = Ok m' → CompareAddresses m' m' = UB Uninit.
Proof.
  intros Hm Ha. unfold CopyAddress. rewrite (holds_family _ _ Hm). cbn [mbind res_bind].
  destruct a as [| |f]; [done|done|]. apply holds_other_family in Hm as [??].
  unfold AF_INET_, AF_INET6_. destruct (Z.eqb_spec f 2), (Z.eqb_spec f 10); try done.
  by intros [= <-].
Qed.

Definition loopback_cells (host : Z) : cells :=
  Some <$> [2; 0; 31; 64; 127; 0; 0; host; 0; 0; 0; 0; 0; 0; 0; 0].
Definition loopback (host : Z) : sockaddr := AF_INET (mkSockaddrIn [31; 64] [127; 0; 0; host]).

Lemma CompareAddresses_decides_witness :
  holds (loopback_cells 1) (loopback 1) ∧ holds (loopback_cells 2) (loopback 2) ∧
  CompareAddresses (loopback_cells 1) (loopback_cells 2) = Ok false.
Proof.
  assert (∀ h, holds (loopback_cells h) (loopback h)) as Hh.
  { intros h.
    exact (holds_inet [31; 64] [127; 0; 0; h] (Some <$> [0; 0; 0; 0; 0; 0; 0; 0]) [] eq_refl eq_refl eq_refl). }
  split_and!; [apply Hh|apply Hh|].
  destruct (CompareAddresses_decides _ _ _ _ (Hh 1) (Hh 2)) as [-> _]. reflexivity.
Defined.
End IP.

(** * Utils::String *)
Module Strings.

(** [std::transform(str.begin(), str.end(), str.begin(), ::tolower)] *)
Definition ToLowerCase (s : list Z) : list Z := tolower <$> s.

Lemma tolower_idemp c : tolower (tolower c) = tolower c.
Proof.
  unfold tolower. destruct (Z.leb_spec 65 c), (Z.leb_spec c 90); simpl;
    repeat match goal with |- context [?x <=? ?y] => destruct (Z.leb_spec x y) end; simpl; lia.
Qed.

Lemma ToLowerCase_idemp s : ToLowerCase (ToLowerCase s) = ToLowerCase s.
Proof.
  unfold ToLowerCase. rewrite <- list_fmap_compose. apply list_fmap_ext.
  intros. apply tolower_idemp.
Qed.

End Strings.

(** * Utils::Time *)
Module Time.

Definition UnixNtpOffset : Z := 0x83AA7E80.
Definition NtpFractionalUnit : Z := 2 ^ 32.

Record Ntp := mkNtp { seconds : Z; fractions : Z }.

(** ** double *)
Definition double_of (v : Z) : spec_float := binary_normalize 53 1024 v 0 false.
Definition double_mul : spec_float → spec_float → spec_float := SFmul 53 1024.
Definition double_div : spec_float → spec_float → spec_float := SFdiv 53 1024.

(** Conversion to an integer type drops the fraction; a value that is not a
    number or infinite has no conversion. *)
Definition trunc (x : spec_float) : option Z :=
  match x with
  | S754_zero _ => Some 0
  | S754_finite s m e =>
      let v := if 0 <=? e then Zpos m * 2 ^ e else Zpos m / 2 ^ (- e) in
      Some (if s then - v else v)
  | _ => None
  end.

(** [std::round]: half away from zero. *)
Definition round (x : spec_float) : option Z :=
  match x with
  | S754_zero _ => Some 0
  | S754_finite s m e =>
      let v := if 0 <=? e then Zpos m * 2 ^ e else (2 * Zpos m + 2 ^ (- e)) / (2 * 2 ^ (- e)) in
      Some (if s then - v else v)
  | _ => None
  end.

(** [static_cast<uintN_t>] of a double: undefined outside the range. *)
Definition to_unsigned (w : Z) (v : option Z) : res Z :=
  match v with
  | Some v => if (0 <=? v) && (v <? 2 ^ w) then Ok v else UB OutOfBounds
  | None => UB OutOfBounds
  end.

Definition TimeMs2Ntp (ms : Z) : res Ntp :=
  fractions ← to_unsigned 32
    (trunc (double_mul (double_div (double_of (ms mod 1000)) (double_of 1000))
              (double_of NtpFractionalUnit)));
  Ok (mkNtp (u32 (ms / 1000)) fractions).

Definition Ntp2TimeMs (ntp : Ntp) : res Z :=
  ms ← to_unsigned 64
    (round (double_div (double_mul (double_of (fractions ntp)) (double_of 1000))
              (double_of NtpFractionalUnit)));
  Ok (u64 (seconds ntp * 1000 + ms)).

Definition IsNewerTimestamp (timestamp prevTimestamp : Z) : bool :=
  if u32 (timestamp - prevTimestamp) =? 0x80000000 then prevTimestamp <? timestamp
  else negb (timestamp =? prevTimestamp) && (u32 (timestamp - prevTimestamp) <? 0x80000000).

Definition LatestTimestamp (timestamp1 timestamp2 : Z) : Z :=
  if IsNewerTimestamp timestamp1 timestamp2 then timestamp1 else timestamp2.

Definition TimeMsToAbsSendTime (ms : Z) : Z :=
  Z.land (u32 (u64 (u64 (Z.shiftl ms 18) + 500) / 1000)) 0x00FFFFFF.

(** ** Proofs *)

(** The double arithmetic gives the exact fraction, rounded down, for each of
    the thousand milliseconds, and the way back is exact. *)
Lemma fractions_table k :
  0 ≤ k < 1000 →
  TimeMs2Ntp k = Ok (mkNtp 0 (k * 2 ^ 32 / 1000)) ∧
  Ntp2TimeMs (mkNtp 0 (k * 2 ^ 32 / 1000)) = Ok k.
Proof.
  intros Hk.
  pose (P := λ k,
    match TimeMs2Ntp k, Ntp2TimeMs (mkNtp 0 (k * 2 ^ 32 / 1000)) with
    | Ok n, Ok v => (seconds n =? 0) && (fractions n =? k * 2 ^ 32 / 1000) && (v =? k)
    | _, _ => false
    end).
  assert (P k = true) as HP.
  { apply (forall_from_true P 1000 0); [vm_compute; reflexivity|lia]. }
  unfold P in HP. destruct (TimeMs2Ntp k) as [[s f]| | | |]; try done.
  destruct (Ntp2TimeMs _) as [v| | | |]; try done.
  apply andb_true_iff in HP as [[Hs Hf]%andb_true_iff Hv]. simpl in *.
  by apply Z.eqb_eq in Hs, Hf, Hv; subst.
Qed.

Lemma TimeMs2Ntp_exact ms :
  0 ≤ ms → TimeMs2Ntp ms = Ok (mkNtp (u32 (ms / 1000)) (ms mod 1000 * 2 ^ 32 / 1000)).
Proof.
  intros Hms. assert (0 ≤ ms mod 1000 < 1000) as Hk by (apply Z.mod_pos_bound; lia).
  destruct (fractions_table _ Hk) as [E _]. unfold TimeMs2Ntp in *. rewrite Zmod_mod in E.
  apply bind_Ok in E as (f & -> & [= _ ->]). done.
Qed.

Lemma Ntp2TimeMs_exact s k :
  fits 32 s → 0 ≤ k < 1000 → Ntp2TimeMs (mkNtp s (k * 2 ^ 32 / 1000)) = Ok (s * 1000 + k).
Proof.
  intros Hs Hk. destruct (fractions_table _ Hk) as [_ E]. unfold Ntp2TimeMs in *.
  apply bind_Ok in E as (v & Hv & [= E]). cbn [fractions seconds] in *. rewrite Hv.
  cbn [mbind res_bind]. f_equal.
  assert (0 ≤ v < 2 ^ 64) as Hv'.
  { unfold to_unsigned in Hv. destruct (round _); [|done].
    destruct (Z.leb_spec 0 z), (Z.ltb_spec z (2 ^ 64)); simpl in Hv; by simplify_eq. }
  assert (v = k) as -> by (rewrite <- E; symmetry; by apply wrap_small).
  apply wrap_small. unfold fits in *. lia.
Qed.

(** The NTP conversions are exact.  For every time TimeMs2Ntp computes, in
    spite of its double arithmetic, the exact number of 2^-32 seconds rounded
    down, without leaving the range of uint32_t; and Ntp2TimeMs gives the
    milliseconds back for every time that has a 32 bit number of seconds. *)
Lemma ntp_roundtrip ms :
  0 ≤ ms < 2 ^ 32 * 1000 →
  ∃ ntp, TimeMs2Ntp ms = Ok ntp ∧
    seconds ntp = ms / 1000 ∧ fractions ntp = ms mod 1000 * 2 ^ 32 / 1000 ∧
    Ntp2TimeMs ntp = Ok ms.
Proof.
  intros Hms. rewrite TimeMs2Ntp_exact by lia.
  assert (fits 32 (ms / 1000)) as Hs.
  { split; [apply Z.div_pos; lia|apply Z.div_lt_upper_bound; lia]. }
  rewrite wrap_small by done. eexists. split_and!; [done..|].
  rewrite Ntp2TimeMs_exact; [|done|apply Z.mod_pos_bound; lia]. f_equal. zdm.
Qed.

Lemma ntp_roundtrip_witness :
  0 ≤ 1700000000123 < 2 ^ 32 * 1000 ∧
  ∃ ntp, TimeMs2Ntp 1700000000123 = Ok ntp ∧ Ntp2TimeMs ntp = Ok 1700000000123.
Proof.
  assert (0 ≤ 1700000000123 < 2 ^ 32 * 1000) as Hms by lia. split; [exact Hms|].
  destruct (ntp_roundtrip 1700000000123 Hms) as (ntp & E & _ & _ & B). exists ntp. by split.
Defined.

(** The distance between two timestamps going forward from [t2]. *)
Lemma u32_sub t1 t2 :
  fits 32 t1 → fits 32 t2 → u32 (t1 - t2) = if t2 <=? t1 then t1 - t2 else t1 - t2 + 2 ^ 32.
Proof.
  unfold fits, wrap. intros H1 H2. destruct (Z.leb_spec t2 t1); zdm.
Qed.

Ltac newer_cases :=
  unfold IsNewerTimestamp; rewrite ?u32_sub by done; unfold fits in *;
  repeat match goal with
  | |- context [?x <=? ?y] => destruct (Z.leb_spec x y)
  | |- context [?x =? ?y] => destruct (Z.eqb_spec x y)
  | |- context [?x <? ?y] => destruct (Z.ltb_spec x y)
  end; simpl; lia || done.

Lemma newer_antisym t1 t2 :
  fits 32 t1 → fits 32 t2 →
  IsNewerTimestamp t1 t2 = (negb (t1 =? t2) && negb (IsNewerTimestamp t2 t1)).
Proof. intros H1 H2. newer_cases. Qed.

Lemma newer_ahead t d :
  fits 32 t → 0 < d < 2 ^ 31 → IsNewerTimestamp (u32 (t + d)) t = true.
Proof.
  intros Ht Hd. assert (fits 32 (u32 (t + d))) as Hf by by apply wrap_bound.
  assert (u32 (t + d) = t + d ∨ u32 (t + d) = t + d - 2 ^ 32) as Hc.
  { unfold fits, wrap in *. zdm. }
  newer_cases.
Qed.

(** IsNewerTimestamp orders any two different 32 bit timestamps one way and
    not the other, a timestamp is newer than those up to 2^31 - 1 before it
    across the wrap-around, and LatestTimestamp does not depend on the order of
    its arguments. *)
Lemma newer_timestamp_order t1 t2 :
  fits 32 t1 → fits 32 t2 →
  IsNewerTimestamp t1 t2 = (negb (t1 =? t2) && negb (IsNewerTimestamp t2 t1)) ∧
  (∀ d, 0 < d < 2 ^ 31 → IsNewerTimestamp (u32 (t1 + d)) t1 = true) ∧
  LatestTimestamp t1 t2 = LatestTimestamp t2 t1.
Proof.
  intros H1 H2. pose proof (newer_antisym t1 t2 H1 H2) as Ha.
  split_and!; [done|intros; by apply newer_ahead|].
  unfold LatestTimestamp. rewrite Ha. destruct (Z.eqb_spec t1 t2) as [->|]; [by destruct (IsNewerTimestamp t2 t2)|].
  by destruct (IsNewerTimestamp t2 t1).
Qed.

Lemma newer_timestamp_order_witness :
  fits 32 5 ∧ fits 32 0xFFFFFFF0 ∧ LatestTimestamp 5 0xFFFFFFF0 = LatestTimestamp 0xFFFFFFF0 5 ∧
  LatestTimestamp 5 0xFFFFFFF0 = 5.
Proof.
  assert (fits 32 5) as H1 by (unfold fits; lia).
  assert (fits 32 0xFFFFFFF0) as H2 by (unfold fits; lia).
  destruct (newer_timestamp_order 5 0xFFFFFFF0 H1 H2) as (_ & _ & HL).
  split_and!; [exact H1|exact H2|exact HL|reflexivity].
Defined.

(** The 24 bit absolute send time: milliseconds as 6.18 fixed point seconds,
    rounded to nearest, repeating every 64 seconds. *)
Lemma TimeMsToAbsSendTime_rounds ms :
  0 ≤ ms < 2 ^ 45 →
  TimeMsToAbsSendTime ms = (ms * 2 ^ 18 + 500) / 1000 mod 2 ^ 24 ∧
  TimeMsToAbsSendTime (ms + 64000) = TimeMsToAbsSendTime ms.
Proof.
  assert (∀ ms, 0 ≤ ms < 2 ^ 46 - 1 →
    TimeMsToAbsSendTime ms = (ms * 2 ^ 18 + 500) / 1000 mod 2 ^ 24) as Hr.
  { clear ms. intros ms Hms. unfold TimeMsToAbsSendTime.
    rewrite (land_ones' _ 24) by done. rewrite Z.shiftl_mul_pow2 by lia.
    rewrite !(wrap_small 64) by (unfold fits; rewrite ?wrap_small by (unfold fits; lia); lia).
    unfold wrap. zdm. }
  intros Hms. split; [apply Hr; lia|]. rewrite !Hr by lia.
  replace ((ms + 64000) * 2 ^ 18 + 500) with (ms * 2 ^ 18 + 500 + 2 ^ 24 * 1000) by lia.
  rewrite Z.div_add by lia. rewrite <- (Z.mul_1_l (2 ^ 24)) at 1. by rewrite Z.mod_add by lia.
Qed.
End Time.
