(* ===== verification/Settings.v ===== *)
(** * Settings: the configuration of the process

    common/settings.cc and Utils::File::CheckFile (common/file.cc).  The state is
    the [Env] of Logger.v, which holds [Settings::configuration].  The command
    line reaches SetConfiguration through getopt_long_only: its results, one per
    call until it returns -1, are the argument of the model.  The file system is
    the class [FileApi]. *)
From S2P Require Import Prelude Text Logger StunPacket Utils.

(** stat(2) and access(2) with R_OK: the text of the error, or st_mode. *)
Class FileApi := {
  stat_ : list Z → list Z + Z;
  access_ : list Z → option (list Z)
}.

(** What one call of getopt_long_only leaves: its result, [optarg] ([None] is
    null) and [optopt]. *)
Record Opt := mkOpt { opt_c : Z; optarg : option (list Z); optopt : Z }.

Module Settings.
Section Settings.
Context `{FileApi}.

Definition site (f : string) : Site := mkSite "Logger" f 0.

(** ** Utils::File *)

Definition S_ISREG (mode : Z) : bool := Z.land mode 0xF000 =? 0x8000.

Definition CheckFile (file : list Z) : M unit :=
  match stat_ file with
  | inl why =>
      MS_THROW_ERROR (site "CheckFile") (str "cannot read file '" ++ file ++ str "': " ++ why)
  | inr st_mode =>
      if negb (S_ISREG st_mode) then
        MS_THROW_ERROR (site "CheckFile") (str "'" ++ file ++ str "' is not a regular file")
      else
        match access_ file with
        | Some why =>
            MS_THROW_ERROR (site "CheckFile") (str "cannot read file '" ++ file ++ str "': " ++ why)
        | None => mret ()
        end
  end.

(** ** Tables *)

Definition string2LogLevel : list (list Z * LogLevel) :=
  [(str "debug", LOG_DEBUG); (str "warn", LOG_WARN); (str "error", LOG_ERROR); (str "none", LOG_NONE)].

Definition logLevel2String (l : LogLevel) : list Z :=
  match l with
  | LOG_DEBUG => str "debug" | LOG_WARN => str "warn"
  | LOG_ERROR => str "error" | LOG_NONE => str "none"
  end.

(** [std::map::find] *)
Fixpoint find (k : list Z) (m : list (list Z * LogLevel)) : option LogLevel :=
  match m with
  | [] => None
  | (k', v) :: rest => if bool_decide (k = k') then Some v else find k rest
  end.

(** ** Setters of the configuration's fields *)
Definition with_logLevel (l : LogLevel) (c : Configuration) : Configuration :=
  mkConfiguration l (logTags c) (rtcMinPort c) (rtcMaxPort c) (dtlsCertificateFile c) (dtlsPrivateKeyFile c).
Definition with_logTags (t : LogTags) (c : Configuration) : Configuration :=
  mkConfiguration (logLevel c) t (rtcMinPort c) (rtcMaxPort c) (dtlsCertificateFile c) (dtlsPrivateKeyFile c).
Definition with_rtcMinPort (p : Z) (c : Configuration) : Configuration :=
  mkConfiguration (logLevel c) (logTags c) p (rtcMaxPort c) (dtlsCertificateFile c) (dtlsPrivateKeyFile c).
Definition with_rtcMaxPort (p : Z) (c : Configuration) : Configuration :=
  mkConfiguration (logLevel c) (logTags c) (rtcMinPort c) p (dtlsCertificateFile c) (dtlsPrivateKeyFile c).
Definition with_certificate (f : list Z) (c : Configuration) : Configuration :=
  mkConfiguration (logLevel c) (logTags c) (rtcMinPort c) (rtcMaxPort c) f (dtlsPrivateKeyFile c).
Definition with_privateKey (f : list Z) (c : Configuration) : Configuration :=
  mkConfiguration (logLevel c) (logTags c) (rtcMinPort c) (rtcMaxPort c) (dtlsCertificateFile c) f.

Definition configure (f : Configuration → Configuration) : M unit :=
  modify (λ e, set_configuration (f (configuration e)) e).

(** ** Operations *)

Definition SetLogLevel (level : list Z) : M unit :=
  let level := Strings.ToLowerCase level in
  match find level string2LogLevel with
  | None =>
      MS_THROW_TYPE_ERROR (site "SetLogLevel") (str "invalid value '" ++ level ++ str "' for logLevel")
  | Some l => configure (with_logLevel l)
  end.

Definition tag_is (tag : list Z) (s : string) : bool := bool_decide (tag = str s).

Definition set_tag (l : LogTags) (tag : list Z) : LogTags :=
  let 'mkLogTags i ic d r sr rc rx b sc si sv st m := l in
  if tag_is tag "info" then mkLogTags true ic d r sr rc rx b sc si sv st m
  else if tag_is tag "ice" then mkLogTags i true d r sr rc rx b sc si sv st m
  else if tag_is tag "dtls" then mkLogTags i ic true r sr rc rx b sc si sv st m
  else if tag_is tag "rtp" then mkLogTags i ic d true sr rc rx b sc si sv st m
  else if tag_is tag "srtp" then mkLogTags i ic d r true rc rx b sc si sv st m
  else if tag_is tag "rtcp" then mkLogTags i ic d r sr true rx b sc si sv st m
  else if tag_is tag "rtx" then mkLogTags i ic d r sr rc true b sc si sv st m
  else if tag_is tag "bwe" then mkLogTags i ic d r sr rc rx true sc si sv st m
  else if tag_is tag "score" then mkLogTags i ic d r sr rc rx b true si sv st m
  else if tag_is tag "simulcast" then mkLogTags i ic d r sr rc rx b sc true sv st m
  else if tag_is tag "svc" then mkLogTags i ic d r sr rc rx b sc si true st m
  else if tag_is tag "sctp" then mkLogTags i ic d r sr rc rx b sc si sv true m
  else if tag_is tag "message" then mkLogTags i ic d r sr rc rx b sc si sv st true
  else l.

Definition SetLogTags (tags : list (list Z)) : M unit :=
  configure (with_logTags (foldl set_tag newLogTags tags)).

Definition empty (s : list Z) : bool := match s with [] => true | _ => false end.

(** [try { CheckFile(file); } catch (const MediaSoupError& error) { throw ... }] *)
Definition check_configured_file (prefix file : list Z) : M unit :=
  catch_MediaSoupError (CheckFile file)
    (λ error, MS_THROW_TYPE_ERROR (site "SetDtlsCertificateAndPrivateKeyFiles") (prefix ++ what error)).

Definition SetDtlsCertificateAndPrivateKeyFiles : M unit :=
  c ← gets configuration;
  let here := site "SetDtlsCertificateAndPrivateKeyFiles" in
  if negb (empty (dtlsCertificateFile c)) && empty (dtlsPrivateKeyFile c) then
    MS_THROW_TYPE_ERROR here (str "missing dtlsPrivateKeyFile")
  else if empty (dtlsCertificateFile c) && negb (empty (dtlsPrivateKeyFile c)) then
    MS_THROW_TYPE_ERROR here (str "missing dtlsCertificateFile")
  else if empty (dtlsCertificateFile c) && empty (dtlsPrivateKeyFile c) then mret ()
  else
    _ ← check_configured_file (str "dtlsCertificateFile: ") (dtlsCertificateFile c);
    check_configured_file (str "dtlsPrivateKeyFile: ") (dtlsPrivateKeyFile c).

(** [try { port = static_cast<uint16_t>(std::stoi(optarg)); } catch ...]: the
    exceptions of std::stoi describe themselves as "stoi". *)
Definition stoi_throws (s : list Z) : M Z :=
  match stoi s with Some v => mret v | None => throw (StdException (str "stoi")) end.

Definition set_port (with_port : Z → Configuration → Configuration) (s : list Z) : M unit :=
  catch_any
    (v ← stoi_throws s; configure (with_port (u16 v)))
    (λ error, MS_THROW_TYPE_ERROR (site "SetConfiguration") (what error)).

(** The body of the loop over the options; [tags] is the local [logTags]. *)
Definition process_option (o : Opt) (tags : list (list Z)) : M (list (list Z)) :=
  match optarg o with
  | None => undefined NullDeref      (* printf's %s of a null pointer *)
  | Some arg =>
      let here := site "SetConfiguration" in
      if opt_c o =? 108 (* l *) then _ ← SetLogLevel arg; mret tags
      else if opt_c o =? 116 (* t *) then mret (tags ++ [arg])
      else if opt_c o =? 109 (* m *) then _ ← set_port with_rtcMinPort arg; mret tags
      else if opt_c o =? 77 (* M *) then _ ← set_port with_rtcMaxPort arg; mret tags
      else if opt_c o =? 99 (* c *) then _ ← configure (with_certificate arg); mret tags
      else if opt_c o =? 112 (* p *) then _ ← configure (with_privateKey arg); mret tags
      else if opt_c o =? 63 (* ? *) then
        if isprint (optopt o)
        then MS_THROW_TYPE_ERROR here (str "invalid option '-" ++ [optopt o] ++ str "'")
        else MS_THROW_TYPE_ERROR here (str "unknown long option given as argument")
      else if opt_c o =? 58 (* : *) then
        MS_THROW_TYPE_ERROR here (str "option '" ++ [optopt o] ++ str "' requires an argument")
      else MS_THROW_TYPE_ERROR here (str "'default' should never happen")
  end.

Fixpoint process_options (opts : list Opt) (tags : list (list Z)) : M (list (list Z)) :=
  match opts with
  | [] => mret tags
  | o :: rest => tags ← process_option o tags; process_options rest tags
  end.

Definition SetConfiguration (opts : list Opt) : M unit :=
  tags ← process_options opts [];
  _ ← (match tags with [] => mret () | _ => SetLogTags tags end);
  c ← gets configuration;
  if rtcMaxPort c <? rtcMinPort c then
    MS_THROW_TYPE_ERROR (site "SetConfiguration") (str "rtcMaxPort cannot be less than rtcMinPort")
  else SetDtlsCertificateAndPrivateKeyFiles.

(** ** PrintConfiguration *)

Definition tag_names (l : LogTags) : list (list Z) :=
  (if t_info l then [str "info"] else []) ++
  (if t_ice l then [str "ice"] else []) ++
  (if t_dtls l then [str "dtls"] else []) ++
  (if t_rtp l then [str "rtp"] else []) ++
  (if t_srtp l then [str "srtp"] else []) ++
  (if t_rtcp l then [str "rtcp"] else []) ++
  (if t_rtx l then [str "rtx"] else []) ++
  (if t_bwe l then [str "bwe"] else []) ++
  (if t_score l then [str "score"] else []) ++
  (if t_simulcast l then [str "simulcast"] else []) ++
  (if t_svc l then [str "svc"] else []) ++
  (if t_sctp l then [str "sctp"] else []) ++
  (if t_message l then [str "message"] else []).

(** Everything but the last followed by a comma, then the last. *)
Definition tag_stream (names : list (list Z)) : list Z :=
  match last names with
  | None => []
  | Some l => concat ((λ n, n ++ str ",") <$> take (length names - 1) names) ++ l
  end.

Definition PrintConfiguration : M unit :=
  c ← gets configuration;
  let debug := MS_DEBUG_TAG info (site "PrintConfiguration") in
  _ ← debug (str "<configuration>");
  _ ← debug (str "  logLevel            : " ++ logLevel2String (logLevel c));
  _ ← debug (str "  logTags             : " ++ tag_stream (tag_names (logTags c)));
  _ ← debug (str "  rtcMinPort          : " ++ fmt_u (rtcMinPort c));
  _ ← debug (str "  rtcMaxPort          : " ++ fmt_u (rtcMaxPort c));
  _ ← (if negb (empty (dtlsCertificateFile c)) then
         _ ← debug (str "  dtlsCertificateFile : " ++ dtlsCertificateFile c);
         debug (str "  dtlsPrivateKeyFile  : " ++ dtlsPrivateKeyFile c)
       else mret ());
  debug (str "</configuration>").

End Settings.
End Settings.
