(* ===== verification/SettingsProofs.v ===== *)
(** * Proofs about Settings

    The specification reads the list of options as a whole: which are
    acceptable ([opt_good]), and the configuration they describe ([configured]:
    the last value given for each field, the tags named).  SetConfiguration
    processes them one by one with exceptions; the theorems relate the two. *)
From S2P Require Import Prelude Text Logger StunPacket Utils Settings.

Module SettingsProofs.
Import Settings.

(** ** Specification *)

Definition level_of (arg : list Z) : option LogLevel :=
  find (Strings.ToLowerCase arg) string2LogLevel.

(** The arguments of the options with code [ch], in order. *)
Definition given (ch : Z) (opts : list Opt) : list (list Z) :=
  omap (λ o, if opt_c o =? ch then optarg o else None) opts.

Definition arg_good (ch : Z) (arg : list Z) : bool :=
  if ch =? 108 then bool_decide (is_Some (level_of arg))
  else if (ch =? 109) || (ch =? 77) then bool_decide (is_Some (stoi arg))
  else (ch =? 116) || (ch =? 99) || (ch =? 112).

Definition opt_good (o : Opt) : bool :=
  match optarg o with Some arg => arg_good (opt_c o) arg | None => false end.

Definition last_or {A} (d : A) (l : list A) : A := default d (last l).

(** The fields other than the tags: the last value given counts. *)
Definition values (opts : list Opt) (c : Configuration) : Configuration :=
  mkConfiguration
    (last_or (logLevel c) (omap level_of (given 108 opts)))
    (logTags c)
    (last_or (rtcMinPort c) (u16 <$> omap stoi (given 109 opts)))
    (last_or (rtcMaxPort c) (u16 <$> omap stoi (given 77 opts)))
    (last_or (dtlsCertificateFile c) (given 99 opts))
    (last_or (dtlsPrivateKeyFile c) (given 112 opts)).

Definition tag_name (t : Tag) : list Z :=
  match t with
  | info => str "info" | ice => str "ice" | dtls => str "dtls" | rtp => str "rtp"
  | srtp => str "srtp" | rtcp => str "rtcp" | rtx => str "rtx" | bwe => str "bwe"
  | score => str "score" | simulcast => str "simulcast" | svc => str "svc"
  | sctp => str "sctp" | message => str "message"
  end.

Definition all_tags : list Tag :=
  [info; ice; dtls; rtp; srtp; rtcp; rtx; bwe; score; simulcast; svc; sctp; message].

(** The tags as a set: a tag is on exactly when it is named. *)
Definition tags_are (names : list (list Z)) (l : LogTags) : Prop :=
  ∀ t, tag_of t l = bool_decide (tag_name t ∈ names).

Definition configured (opts : list Opt) (c c' : Configuration) : Prop :=
  with_logTags (logTags c) c' = values opts c ∧
  match given 116 opts with [] => logTags c' = logTags c | names => tags_are names (logTags c') end.

Definition ports_ok (c : Configuration) : Prop := fits 16 (rtcMinPort c) ∧ fits 16 (rtcMaxPort c).

Section Files.
Context `{FileApi}.

Definition readable (file : list Z) : bool :=
  match stat_ file with
  | inr mode => S_ISREG mode && match access_ file with None => true | Some _ => false end
  | inl _ => false
  end.

Definition files_ok (c : Configuration) : bool :=
  if empty (dtlsCertificateFile c) then empty (dtlsPrivateKeyFile c)
  else negb (empty (dtlsPrivateKeyFile c)) &&
    readable (dtlsCertificateFile c) && readable (dtlsPrivateKeyFile c).

(** The options can be accepted when the configuration is [c]. *)
Definition acceptable (opts : list Opt) (c : Configuration) : Prop :=
  Forall (λ o, opt_good o = true) opts ∧
  rtcMinPort (values opts c) ≤ rtcMaxPort (values opts c) ∧
  files_ok (values opts c) = true.

(** ** Tags *)

Lemma tag_name_inj t1 t2 : tag_name t1 = tag_name t2 → t1 = t2.
Proof. by destruct t1, t2. Qed.

Lemma set_tag_spec l name t :
  tag_of t (set_tag l name) = tag_of t l || bool_decide (tag_name t = name).
Proof.
  destruct l. unfold set_tag, tag_is.
  repeat case_bool_decide; subst; destruct t; simpl; rewrite ?orb_false_r, ?orb_true_r;
    try done; naive_solver.
Qed.

Lemma foldl_set_tag l names t :
  tag_of t (foldl set_tag l names) = tag_of t l || bool_decide (tag_name t ∈ names).
Proof.
  revert l. induction names as [|n names IH]; intros l; cbn [foldl].
  - rewrite bool_decide_eq_false_2 by apply not_elem_of_nil. by rewrite orb_false_r.
  - rewrite IH, set_tag_spec, <- orb_assoc. f_equal.
    rewrite (bool_decide_ext (tag_name t ∈ n :: names) (tag_name t = n ∨ tag_name t ∈ names))
      by apply elem_of_cons.
    by rewrite bool_decide_or.
Qed.

Lemma tags_are_set names : tags_are names (foldl set_tag newLogTags names).
Proof. intros t. rewrite foldl_set_tag. by destruct t. Qed.

Lemma LogTags_ext l1 l2 : (∀ t, tag_of t l1 = tag_of t l2) → l1 = l2.
Proof.
  intros E. destruct l1, l2.
  pose proof (E info); pose proof (E ice); pose proof (E dtls); pose proof (E rtp);
  pose proof (E srtp); pose proof (E rtcp); pose proof (E rtx); pose proof (E bwe);
  pose proof (E score); pose proof (E simulcast); pose proof (E svc); pose proof (E sctp);
  pose proof (E message). simpl in *. by subst.
Qed.

(** ** Single operations *)

(** The postcondition of an operation that either changes the configuration
    by [f] or throws a MediaSoupTypeError and changes nothing. *)
Definition sets_or_throws {A} (ok : bool) (f : Configuration → Configuration) (a : A) (e : Env)
    (e' : Env) (r : exn + A) : Prop :=
  logging e' ∧
  if ok then r = inr a ∧ configuration e' = f (configuration e)
  else configuration e' = configuration e ∧ ∃ w, r = inl (MediaSoupTypeError w).

Lemma throws_type_error {A} s desc e f (a : A) :
  logging e → wpm (MS_THROW_TYPE_ERROR s desc) e (sets_or_throws false f a e).
Proof.
  intros He. eapply wpm_mono; [by apply MS_THROW_TYPE_ERROR_throws|].
  intros e' r (-> & [? _] & ?). split; [done|]. eauto.
Qed.

Lemma configure_sets f e : logging e → wpm (configure f) e (sets_or_throws true f () e).
Proof. intros [??]. by split. Qed.

Lemma wpm_then {A B} (m : M A) ok f a (b : B) e :
  wpm m e (sets_or_throws ok f a e) → wpm (_ ← m; mret b) e (sets_or_throws ok f b e).
Proof.
  intros Hm. apply wpm_bind. eapply wpm_mono; [exact Hm|].
  intros e' r [Hl Hr]. destruct ok.
  - destruct Hr as [-> ?]. by apply wpm_ret; split.
  - destruct Hr as [? [w ->]]. split; [done|]. eauto.
Qed.

Lemma SetLogLevel_spec level e :
  logging e →
  wpm (SetLogLevel level) e
    (sets_or_throws (bool_decide (is_Some (level_of level)))
       (λ c, with_logLevel (default (logLevel c) (level_of level)) c) () e).
Proof.
  intros He. unfold SetLogLevel. fold (level_of level). destruct (level_of level) as [l|] eqn:E.
  - by apply configure_sets.
  - by apply throws_type_error.
Qed.

Lemma set_port_spec (with_port : Z → Configuration → Configuration) arg e :
  logging e →
  wpm (set_port with_port arg) e
    (sets_or_throws (bool_decide (is_Some (stoi arg)))
       (λ c, match stoi arg with Some v => with_port (u16 v) c | None => c end) () e).
Proof.
  intros He. unfold set_port, catch_any, stoi_throws.
  destruct (stoi arg) as [v|].
  - by apply configure_sets.
  - exact (throws_type_error _ _ _ _ _ He).
Qed.

Lemma CheckFile_spec file e :
  logging e →
  wpm (CheckFile file) e (λ e' r, only_logged e e' ∧ logging e' ∧
    if readable file then r = inr () else ∃ w, r = inl (MediaSoupError w)).
Proof.
  intros He. unfold CheckFile, readable.
  assert (∀ desc, wpm (MS_THROW_ERROR (A:=unit) (site "CheckFile") desc) e
    (λ e' r, only_logged e e' ∧ logging e' ∧ ∃ w, r = inl (MediaSoupError w))) as Ht.
  { intros desc. eapply wpm_mono; [by apply MS_THROW_ERROR_throws|].
    intros e' r (-> & ? & ?). eauto. }
  destruct (stat_ file) as [why|mode]; [apply Ht|].
  destruct (S_ISREG mode); [|apply Ht]. destruct (access_ file); [apply Ht|].
  by apply wpm_ret.
Qed.

Lemma check_configured_file_spec prefix file e :
  logging e →
  wpm (check_configured_file prefix file) e (sets_or_throws (readable file) id () e).
Proof.
  intros He. pose proof (CheckFile_spec file e He) as Hc.
  unfold check_configured_file, catch_MediaSoupError, wpm in *.
  apply wp_Ok in Hc as ([e' r] & -> & [Hcfg _] & Hl & Hr). cbn [mbind res_bind].
  destruct (readable file).
  - subst r. by split.
  - destruct Hr as [w ->]. eapply wpm_mono; [apply (throws_type_error _ _ e' id ()); done|].
    intros e'' r [Hl' [Hc Hw]]. split; [done|]. split; [congruence|done].
Qed.

Lemma SetDtls_spec e :
  logging e →
  wpm SetDtlsCertificateAndPrivateKeyFiles e
    (sets_or_throws (files_ok (configuration e)) id () e).
Proof.
  intros He. unfold SetDtlsCertificateAndPrivateKeyFiles. apply wpm_bind. unfold wpm at 1, gets. cbn [wp].
  unfold files_ok.
  destruct (empty (dtlsCertificateFile (configuration e))),
    (empty (dtlsPrivateKeyFile (configuration e))); cbn [negb andb];
    try (by apply throws_type_error); [by split|].
  apply wpm_bind. eapply wpm_mono; [by apply check_configured_file_spec|].
  intros e' r [Hl Hr]. destruct (readable (dtlsCertificateFile _)); cbn [andb].
  - destruct Hr as [-> Hc]. eapply wpm_mono; [by apply check_configured_file_spec|].
    intros e'' r'. unfold sets_or_throws. by rewrite Hc.
  - destruct Hr as [Hc [w ->]]. split; [done|]. eauto.
Qed.

(** ** The options *)

Lemma sets_or_throws_ext {A} m ok f g (a b : A) e :
  (ok = true → f (configuration e) = g (configuration e) ∧ a = b) →
  wpm m e (sets_or_throws ok f a e) → wpm m e (sets_or_throws ok g b e).
Proof.
  intros Hfg Hm. eapply wpm_mono; [exact Hm|]. intros e' r [Hl Hr]. split; [done|].
  destruct ok; [|done]. destruct (Hfg eq_refl) as [<- <-]. done.
Qed.

Lemma process_option_spec o arg tags e :
  logging e → optarg o = Some arg →
  wpm (process_option o tags) e
    (sets_or_throws (opt_good o) (values [o]) (tags ++ given 116 [o]) e).
Proof.
  intros He Ho. destruct o as [ch oa oo]. simpl in Ho. subst oa.
  unfold process_option, opt_good, arg_good. cbn [optarg opt_c].
  repeat match goal with
  | |- context [?x =? ?y] => destruct (Z.eqb_spec x y); [subst|]; cbn [orb]
  end; try (by (case_match; apply throws_type_error));
    try lia; try (by apply throws_type_error).
  - eapply sets_or_throws_ext; [|eapply wpm_then; by apply SetLogLevel_spec].
    intros [l El]%bool_decide_eq_true. split; [|by rewrite app_nil_r].
    unfold values. simpl. rewrite El. by destruct (configuration e).
  - apply wpm_ret. split; [done|]. split; [done|]. by destruct (configuration e).
  - eapply sets_or_throws_ext; [|eapply wpm_then; by apply set_port_spec].
    intros [v Ev]%bool_decide_eq_true. split; [|by rewrite app_nil_r].
    unfold values. simpl. rewrite Ev. by destruct (configuration e).
  - eapply sets_or_throws_ext; [|eapply wpm_then; by apply set_port_spec].
    intros [v Ev]%bool_decide_eq_true. split; [|by rewrite app_nil_r].
    unfold values. simpl. rewrite Ev. by destruct (configuration e).
  - eapply sets_or_throws_ext; [|eapply wpm_then; by apply configure_sets].
    intros _. split; [by destruct (configuration e)|by rewrite app_nil_r].
  - eapply sets_or_throws_ext; [|eapply wpm_then; by apply configure_sets].
    intros _. split; [by destruct (configuration e)|by rewrite app_nil_r].
Qed.

Lemma given_cons ch o opts : given ch (o :: opts) = given ch [o] ++ given ch opts.
Proof. unfold given. simpl. by destruct (opt_c o =? ch), (optarg o). Qed.

Lemma last_or_app {A} (d : A) l1 l2 : last_or d (l1 ++ l2) = last_or (last_or d l1) l2.
Proof. unfold last_or. rewrite last_app. by destruct (last l2). Qed.

Lemma values_cons o opts c : values (o :: opts) c = values opts (values [o] c).
Proof.
  unfold values. cbn [logLevel logTags rtcMinPort rtcMaxPort dtlsCertificateFile dtlsPrivateKeyFile].
  rewrite !(given_cons _ o opts), !omap_app, !fmap_app, !last_or_app. done.
Qed.

Lemma last_or_fits (d : Z) (l : list Z) : fits 16 d → fits 16 (last_or d (u16 <$> l)).
Proof.
  intros Hd. unfold last_or. rewrite fmap_last. destruct (last l); [|done].
  by apply wrap_bound.
Qed.

Lemma values_ports opts c : ports_ok c → ports_ok (values opts c).
Proof. intros [??]. by split; apply last_or_fits. Qed.

(** What the options leave, whether they are accepted or not. *)
Definition processed (good : bool) (opts : list Opt) (tags : list (list Z)) (e e' : Env)
    (r : exn + list (list Z)) : Prop :=
  logging e' ∧
  (ports_ok (configuration e) → ports_ok (configuration e')) ∧
  if good then r = inr (tags ++ given 116 opts) ∧ configuration e' = values opts (configuration e)
  else ∃ w, r = inl (MediaSoupTypeError w).

Lemma values_nil c : values [] c = c.
Proof. by destruct c. Qed.

Lemma process_options_spec opts tags e :
  logging e → Forall (λ o, is_Some (optarg o)) opts →
  wpm (process_options opts tags) e (processed (forallb opt_good opts) opts tags e).
Proof.
  intros He Ho. revert tags e He. induction Ho as [|o opts [arg Harg] Ho IH]; intros tags e He.
  { apply wpm_ret. split; [done|]. split; [done|]. cbn [forallb]. by rewrite app_nil_r, values_nil. }
  simpl process_options. apply wpm_bind.
  eapply wpm_mono; [by eapply process_option_spec|].
  intros e1 r [Hl Hr]. simpl forallb. destruct (opt_good o) eqn:Hg; cbn [andb].
  - destruct Hr as [-> Hc]. eapply wpm_mono; [by apply IH|].
    intros e2 r [Hl2 [Hp2 Hr2]]. split_and!; [done| |].
    + intros Hp. apply Hp2. rewrite Hc. by apply values_ports.
    + destruct (forallb opt_good opts); [|done]. destruct Hr2 as [-> ->].
      by rewrite Hc, <- values_cons, (given_cons _ o opts), app_assoc.
  - destruct Hr as [Hc [w ->]]. split_and!; [done|by rewrite Hc|eauto].
Qed.

(** ** SetConfiguration *)

Definition accepted (opts : list Opt) (c : Configuration) : bool :=
  forallb opt_good opts &&
  (rtcMinPort (values opts c) <=? rtcMaxPort (values opts c)) && files_ok (values opts c).

Lemma accepted_acceptable opts c : accepted opts c = true ↔ acceptable opts c.
Proof.
  unfold accepted, acceptable. rewrite !andb_true_iff, Z.leb_le, forallb_forall, Forall_forall.
  setoid_rewrite list_elem_of_In. tauto.
Qed.

(** What SetConfiguration leaves: the settings of an accepted command line, or a
    MediaSoupTypeError. *)
Definition set_or_thrown (opts : list Opt) (e e' : Env) (r : exn + unit) : Prop :=
  logging e' ∧
  (ports_ok (configuration e) → ports_ok (configuration e')) ∧
  if accepted opts (configuration e)
  then r = inr () ∧ configured opts (configuration e) (configuration e')
  else ∃ w, r = inl (MediaSoupTypeError w).

(** The post-configuration part, after options that were all good. *)
Lemma post_configuration_spec opts e0 e1 :
  logging e1 → configuration e1 = values opts (configuration e0) →
  forallb opt_good opts = true →
  wpm (_ ← (match given 116 opts with [] => mret () | _ => SetLogTags (given 116 opts) end);
       c ← gets configuration;
       if rtcMaxPort c <? rtcMinPort c then
         MS_THROW_TYPE_ERROR (site "SetConfiguration")
           (str "rtcMaxPort cannot be less than rtcMinPort")
       else SetDtlsCertificateAndPrivateKeyFiles) e1 (set_or_thrown opts e0).
Proof.
  intros Hl Hc Hg. unfold set_or_thrown, accepted. rewrite Hg. cbn [andb].
  set (m := match given 116 opts with [] => mret () | _ => SetLogTags (given 116 opts) end : M unit).
  assert (wpm m e1 (λ e2 r, r = inr () ∧ logging e2 ∧
    ∃ t, configuration e2 = with_logTags t (values opts (configuration e0)) ∧
      match given 116 opts with
      | [] => t = logTags (configuration e0)
      | names => tags_are names t
      end)) as Hm.
  { unfold m. destruct (given 116 opts) as [|n names] eqn:E.
    - apply wpm_ret. split_and!; [done|done|]. exists (logTags (configuration e0)).
      by rewrite Hc; split; [destruct (configuration e0)|].
    - unfold SetLogTags, configure, modify. split_and!; [done|by destruct Hl|].
      eexists. split; [simpl; by rewrite Hc|]. apply tags_are_set. }
  apply wpm_bind. eapply wpm_mono; [exact Hm|]. clear m Hm.
  intros e2 r (-> & Hl2 & t & Hc2 & Ht). apply wpm_bind. unfold wpm at 1, gets. cbn [wp].
  assert (ports_ok (configuration e0) → ports_ok (configuration e2)) as Hp.
  { intros Hp. rewrite Hc2. by apply (values_ports opts). }
  assert (configured opts (configuration e0) (configuration e2)) as Hcfg.
  { rewrite Hc2. split; [done|]. simpl. by destruct (given 116 opts). }
  replace (rtcMaxPort (configuration e2)) with (rtcMaxPort (values opts (configuration e0)))
    by by rewrite Hc2.
  replace (rtcMinPort (configuration e2)) with (rtcMinPort (values opts (configuration e0)))
    by by rewrite Hc2.
  rewrite Z.leb_antisym. destruct (_ <? _); cbn [negb andb].
  - eapply wpm_mono; [by apply MS_THROW_TYPE_ERROR_throws|].
    intros e3 r (-> & [Hc3 _] & Hl3). rewrite Hc3. eauto.
  - eapply wpm_mono; [by apply SetDtls_spec|]. intros e3 r [Hl3 Hr3].
    assert (files_ok (configuration e2) = files_ok (values opts (configuration e0))) as Hf
      by by rewrite Hc2.
    rewrite Hf in Hr3. destruct (files_ok _).
    + destruct Hr3 as [-> ->]. done.
    + destruct Hr3 as [Hc3 Hw]. by rewrite Hc3.
Qed.

Lemma SetConfiguration_spec opts e :
  logging e → Forall (λ o, is_Some (optarg o)) opts →
  wpm (SetConfiguration opts) e (set_or_thrown opts e).
Proof.
  intros He Ho. unfold SetConfiguration. apply wpm_bind.
  eapply wpm_mono; [by apply process_options_spec|].
  intros e1 r [Hl [Hp Hr]]. destruct (forallb opt_good opts) eqn:Hg.
  - destruct Hr as [-> Hc]. by apply post_configuration_spec.
  - destruct Hr as [w ->]. unfold set_or_thrown, accepted. rewrite Hg. simpl. eauto.
Qed.



(** An option without a value (getopt leaves optarg null for those and for
    every unknown option) is not rejected: its report formats the null pointer. *)
Lemma null_argument_undefined opts o rest e :
  logging e → Forall (λ o, is_Some (optarg o)) opts → forallb opt_good opts = true →
  optarg o = None → SetConfiguration (opts ++ o :: rest) e = UB NullDeref.
Proof.
  intros He Hs Hg Ho. unfold SetConfiguration, mbind, M_bind.
  enough (∀ tags, process_options (opts ++ o :: rest) tags e = UB NullDeref) as -> by done.
  revert e He Hg. induction Hs as [|o' opts [arg Harg] Hs IH]; intros e He Hg tags; simpl.
  - unfold mbind, M_bind, process_option. by rewrite Ho.
  - simpl in Hg. apply andb_true_iff in Hg as [Hg' Hg].
    pose proof (process_option_spec o' arg tags e He Harg) as Hp. unfold wpm in Hp.
    apply wp_Ok in Hp as ([e1 r] & E & Hl & Hr). rewrite Hg' in Hr. destruct Hr as [-> _].
    unfold mbind at 1, M_bind. rewrite E. simpl. by apply IH.
Qed.

(** ** PrintConfiguration and back *)

Definition shown (c : Configuration) : list (list Z) :=
  [str "<configuration>";
   str "  logLevel            : " ++ logLevel2String (logLevel c);
   str "  logTags             : " ++ tag_stream (tag_names (logTags c));
   str "  rtcMinPort          : " ++ fmt_u (rtcMinPort c);
   str "  rtcMaxPort          : " ++ fmt_u (rtcMaxPort c)] ++
  (if empty (dtlsCertificateFile c) then []
   else [str "  dtlsCertificateFile : " ++ dtlsCertificateFile c;
         str "  dtlsPrivateKeyFile  : " ++ dtlsPrivateKeyFile c]) ++
  [str "</configuration>"].

Definition entry_of (desc : list Z) : list Z * Z :=
  log_entry (log_text "D" (site "PrintConfiguration") desc).

Definition entries (on : bool) (descs : list (list Z)) : list (list Z * Z) :=
  if on then entry_of <$> descs else [].

(** A run of log lines, composed one by one: [lines descs] holds after them. *)
Definition logged (c : Configuration) (before : list (list Z * Z)) (descs : list (list Z)) (e : Env) :
    Prop :=
  logging e ∧ configuration e = c ∧ sent e = before ++ entries (MS_HAS_DEBUG_TAG info c) descs.

Lemma debug_line c before desc descs e :
  logged c before descs e →
  wpm (MS_DEBUG_TAG info (site "PrintConfiguration") desc) e
    (λ e' r, r = inr () ∧ logged c before (descs ++ [desc]) e').
Proof.
  intros (Hl & Hc & Hs). eapply wpm_mono; [by apply when_logs|].
  intros e' r (-> & [Hc' _] & Hl' & Hs'). split; [done|]. split; [done|]. split; [congruence|].
  rewrite Hs', Hs, Hc, <- app_assoc. f_equal. unfold entries, MS_HAS_DEBUG_TAG.
  destruct (level_debug c && MS_TAG_ENABLED info c); [|done]. by rewrite fmap_app.
Qed.

Lemma debug_then {A} c before desc descs (m : M A) e Q :
  logged c before descs e →
  (∀ e', logged c before (descs ++ [desc]) e' → wpm m e' Q) →
  wpm (_ ← MS_DEBUG_TAG info (site "PrintConfiguration") desc; m) e Q.
Proof.
  intros Hl Hm. apply wpm_bind. eapply wpm_mono; [by apply debug_line|].
  intros e' r [-> Hl']. by apply Hm.
Qed.

Lemma PrintConfiguration_spec e :
  logging e →
  wpm PrintConfiguration e (λ e' r, r = inr () ∧ configuration e' = configuration e ∧
    sent e' = sent e ++ entries (MS_HAS_DEBUG_TAG info (configuration e)) (shown (configuration e))).
Proof.
  intros He. unfold PrintConfiguration. apply wpm_bind. unfold wpm at 1, gets. cbn [wp].
  assert (logged (configuration e) (sent e) [] e) as Hl.
  { split; [done|]. split; [done|]. unfold entries.
    destruct (MS_HAS_DEBUG_TAG info _); simpl; by rewrite app_nil_r. }
  generalize dependent (sent e). generalize dependent (configuration e).
  intros c before Hl. clear He.
  do 5 (eapply debug_then; [eassumption|]; clear dependent e; intros e Hl). unfold shown.
  destruct (empty (dtlsCertificateFile c)) eqn:Hempty; cbn [negb].
  - apply wpm_bind, wpm_ret. eapply wpm_mono; [by apply debug_line|].
    by intros e' r (-> & _ & -> & ->).
  - apply wpm_bind. eapply debug_then; [eassumption|]. clear dependent e. intros e Hl.
    eapply wpm_mono; [by apply debug_line|]. clear dependent e. intros e r [-> Hl].
    eapply wpm_mono; [by apply debug_line|]. by intros e' r (-> & _ & -> & ->).
Qed.

Lemma elem_of_if {A} (x y : A) (b : bool) : x ∈ (if b then [y] else []) ↔ b = true ∧ x = y.
Proof. destruct b; rewrite ?list_elem_of_singleton, ?elem_of_nil; naive_solver. Qed.

Lemma elem_of_tag_names l t : tag_name t ∈ tag_names l ↔ tag_of t l = true.
Proof.
  unfold tag_names. rewrite !elem_of_app, !elem_of_if. split.
  - intros Hin. destruct t; repeat destruct Hin as [Hin|Hin]; destruct Hin as [Hb E];
      first [exact Hb|discriminate E].
  - intros Hb. destruct t; cbn [tag_of] in Hb; rewrite Hb;
      repeat first [by left|right]; done.
Qed.

Definition opt (ch : Z) (arg : list Z) : Opt := mkOpt ch (Some arg) 0.

(** The printed values as options. *)
Definition options_of (c : Configuration) : list Opt :=
  [opt 108 (logLevel2String (logLevel c)); opt 109 (fmt_u (rtcMinPort c));
   opt 77 (fmt_u (rtcMaxPort c))] ++
  (if empty (dtlsCertificateFile c) then []
   else [opt 99 (dtlsCertificateFile c); opt 112 (dtlsPrivateKeyFile c)]) ++
  (opt 116 <$> tag_names (logTags c)).

Lemma given_app ch l1 l2 : given ch (l1 ++ l2) = given ch l1 ++ given ch l2.
Proof. apply omap_app. Qed.

Lemma given_opts ch ch' args : given ch (opt ch' <$> args) = if ch' =? ch then args else [].
Proof.
  induction args as [|a args IH]; [by destruct (ch' =? ch)|].
  rewrite fmap_cons, given_cons, IH. unfold given, opt. simpl. by destruct (ch' =? ch).
Qed.

Lemma level_of_printed l : level_of (logLevel2String l) = Some l.
Proof. by destruct l. Qed.

Definition printable (c : Configuration) : Prop :=
  ports_ok c ∧ rtcMinPort c ≤ rtcMaxPort c ∧ files_ok c = true.

Lemma given_options_of c :
  given 108 (options_of c) = [logLevel2String (logLevel c)] ∧
  given 109 (options_of c) = [fmt_u (rtcMinPort c)] ∧
  given 77 (options_of c) = [fmt_u (rtcMaxPort c)] ∧
  given 99 (options_of c) = (if empty (dtlsCertificateFile c) then [] else [dtlsCertificateFile c]) ∧
  given 112 (options_of c) = (if empty (dtlsCertificateFile c) then [] else [dtlsPrivateKeyFile c]) ∧
  given 116 (options_of c) = tag_names (logTags c).
Proof.
  unfold options_of. rewrite !given_app, !given_opts. simpl.
  destruct (empty (dtlsCertificateFile c)); by split_and!.
Qed.

Lemma stoi_port p : fits 16 p → stoi (fmt_u p) = Some p.
Proof. unfold fits. intros. apply stoi_fmt_u. lia. Qed.

Lemma values_options_of c :
  printable c → values (options_of c) newConfiguration = with_logTags newLogTags c.
Proof.
  intros ([H1 H2] & _ & Hf). unfold values.
  destruct (given_options_of c) as (-> & -> & -> & -> & -> & _). simpl.
  rewrite level_of_printed, !stoi_port by done. unfold last_or. simpl.
  rewrite !wrap_small by done. unfold with_logTags. revert Hf. unfold files_ok.
  destruct (dtlsCertificateFile c), (dtlsPrivateKeyFile c); done.
Qed.

Lemma options_of_good c : printable c → Forall (λ o, opt_good o = true) (options_of c).
Proof.
  intros ([H1 H2] & _ & _). unfold options_of. rewrite !Forall_app. split_and!.
  - repeat constructor; unfold opt_good, arg_good; simpl; apply bool_decide_eq_true.
    + rewrite level_of_printed. eauto.
    + rewrite stoi_port by done. eauto.
    + rewrite stoi_port by done. eauto.
  - destruct (empty _); by repeat constructor.
  - by apply Forall_fmap, Forall_true.
Qed.

Lemma configured_options_of c c' :
  printable c → configured (options_of c) newConfiguration c' → c' = c.
Proof.
  intros Hp [Hv Ht]. rewrite values_options_of in Hv by done.
  destruct (given_options_of c) as (_ & _ & _ & _ & _ & Hg). rewrite Hg in Ht.
  assert (logTags c' = logTags c) as Htags.
  { apply LogTags_ext. intros t. pose proof (elem_of_tag_names (logTags c) t) as He.
    destruct (tag_names (logTags c)) as [|n names].
    - rewrite Ht. destruct (tag_of t (logTags c)); [|by destruct t].
      destruct He as [_ He]. by apply elem_of_nil in He.
    - rewrite Ht. apply eq_bool_prop_intro. rewrite bool_decide_spec, Is_true_true.
      exact He. }
  destruct c, c'. unfold with_logTags in Hv. simpl in *. by simplify_eq.
Qed.

(** A configuration can be printed and given back.  With debug logging and the
    info tag PrintConfiguration sends exactly the lines of [shown] (nothing
    otherwise), and the printed level, tags, ports and files as command line
    options make SetConfiguration turn the default configuration into the printed
    one. *)
Lemma print_configuration_roundtrip e e0 :
  logging e → printable (configuration e) →
  logging e0 → configuration e0 = newConfiguration →
  wpm PrintConfiguration e (λ e' r, r = inr () ∧ configuration e' = configuration e ∧
    sent e' = sent e ++ entries (MS_HAS_DEBUG_TAG info (configuration e)) (shown (configuration e))) ∧
  wpm (SetConfiguration (options_of (configuration e))) e0
    (λ e' r, r = inr () ∧ configuration e' = configuration e).
Proof.
  intros He Hp He0 Hc0. split; [by apply PrintConfiguration_spec|].
  assert (acceptable (options_of (configuration e)) newConfiguration) as Hacc.
  { split_and!; [by apply options_of_good|..]; rewrite values_options_of by done; apply Hp. }
  apply accepted_acceptable in Hacc. rewrite <- Hc0 in Hacc.
  eapply wpm_mono; [apply SetConfiguration_spec; [done|]|].
  - eapply Forall_impl; [by apply options_of_good|]. intros o. unfold opt_good.
    destruct (optarg o); [eauto|done].
  - intros e' r [_ [_ Hr]]. rewrite Hacc in Hr. destruct Hr as [-> Hr]. split; [done|].
    rewrite Hc0 in Hr. by apply configured_options_of.
Qed.
End Files.

(** ** Witnesses *)

(** A file system where only "cert" and "key" can be read. *)
#[local] Instance toy_files : FileApi := {|
  stat_ f := if bool_decide (f ∈ [str "cert"; str "key"]) then inr 0x81A4
             else inl (str "No such file or directory");
  access_ f := None
|}.

Definition some_options : list Opt :=
  [opt 108 (str "DEBUG"); opt 109 (str "40000"); opt 77 (str " +40100"); opt 116 (str "ice");
   opt 116 (str "info"); opt 99 (str "cert"); opt 112 (str "key")].

Lemma some_options_given : Forall (λ o, is_Some (optarg o)) some_options.
Proof. repeat constructor; eauto. Qed.

Lemma logging_ports : ports_ok (configuration logging_env).
Proof. by repeat split. Qed.



Definition some_configuration : Configuration :=
  mkConfiguration LOG_DEBUG (set_tag newLogTags (str "info")) 40000 40100 (str "cert") (str "key").
Definition some_env : Env := set_configuration some_configuration logging_env.

Lemma print_configuration_roundtrip_witness :
  printable some_configuration ∧
  wpm (SetConfiguration (options_of some_configuration)) logging_env
    (λ e' r, r = inr () ∧ configuration e' = some_configuration).
Proof.
  assert (printable some_configuration) as Hp
    by (split_and!; [by repeat split|vm_compute; congruence|reflexivity]).
  split; [exact Hp|].
  apply (print_configuration_roundtrip some_env logging_env);
    [exact logging_env_ok|exact Hp|exact logging_env_ok|reflexivity].
Defined.
End SettingsProofs.
