(* ===== verification/StunParse.v ===== *)
(** RTC::StunPacket::Parse is memory safe and total on every datagram below
    64 KiB, and what it accepts is well formed; above that size the 16-bit
    position arithmetic makes it loop. *)
From S2P Require Import Prelude ByteOps Crypto StunPacket.

Module StunParse.
Import Byte Crypto Stun Stun.Attribute.

(** ** Well-formed packets *)

(** What holds of every packet [Parse] returns. *)
Record wf_received (data : list Z) (p : StunPacket) : Prop := {
  wf_data : data_ p = Some data;
  wf_size : size_ p = zlen data;
  wf_min : 20 ≤ zlen data;
  wf_tid_len : length (transactionId p) = 12%nat;
  wf_tid : bytes_ok (transactionId p);
  wf_username : bytes_ok (username p);
  wf_username_len : zlen (username p) ≤ zlen data;
  wf_priority : fits 32 (priority p);
  wf_controlling : fits 64 (iceControlling p);
  wf_controlled : fits 64 (iceControlled p);
  wf_error : fits 16 (errorCode p);
  wf_xor : xorMappedAddress p = None;
  wf_password : password p = [];
}.

(** The loop invariant at position [pos]: the packet is well formed, the flags
    mirror its fields, and the recorded positions lie in the part already read. *)
Record wf_state (data : list Z) (pos : Z) (st : ParseState) : Prop := {
  ws_packet : wf_received data (ps_packet st);
  ws_mi : ps_hasMessageIntegrity st = HasMessageIntegrity (ps_packet st);
  ws_mi_pos m : messageIntegrity (ps_packet st) = Some m → 24 ≤ m ∧ m + 20 ≤ pos;
  ws_fp : ps_hasFingerprint st = hasFingerprint (ps_packet st);
  ws_fp_pos : ps_hasFingerprint st = true →
    20 ≤ ps_fingerprintAttrPos st ∧ ps_fingerprintAttrPos st + 8 ≤ pos;
  ws_fp_last m : ps_hasFingerprint st = true → messageIntegrity (ps_packet st) = Some m →
    m + 20 ≤ ps_fingerprintAttrPos st;
}.

Lemma wf_state_mono data pos pos' st : wf_state data pos st → pos ≤ pos' → wf_state data pos' st.
Proof.
  intros [Hp Hm Hmp Hf Hfp Hl] Hle. split; try done.
  - intros m Hm'. specialize (Hmp m Hm'). lia.
  - intros Hf'. specialize (Hfp Hf'). lia.
Qed.

(** Field updates keep [wf_received]. *)
Ltac solve_wf := intros Hwf; destruct Hwf; split; cbn; done.

Lemma wf_SetUsername data u p :
  bytes_ok u → zlen u ≤ zlen data → wf_received data p → wf_received data (SetUsername u p).
Proof. intros ??. solve_wf. Qed.
Lemma wf_SetPriority data x p : fits 32 x → wf_received data p → wf_received data (SetPriority x p).
Proof. intros ?. solve_wf. Qed.
Lemma wf_SetIceControlling data x p :
  fits 64 x → wf_received data p → wf_received data (SetIceControlling x p).
Proof. intros ?. solve_wf. Qed.
Lemma wf_SetIceControlled data x p :
  fits 64 x → wf_received data p → wf_received data (SetIceControlled x p).
Proof. intros ?. solve_wf. Qed.
Lemma wf_SetUseCandidate data p : wf_received data p → wf_received data (SetUseCandidate p).
Proof. solve_wf. Qed.
Lemma wf_SetErrorCode data x p : fits 16 x → wf_received data p → wf_received data (SetErrorCode x p).
Proof. intros ?. solve_wf. Qed.
Lemma wf_SetMessageIntegrity data o p :
  wf_received data p → wf_received data (SetMessageIntegrity o p).
Proof. solve_wf. Qed.
Lemma wf_SetFingerprint data p : wf_received data p → wf_received data (SetFingerprint p).
Proof. solve_wf. Qed.
#[export] Hint Resolve wf_SetUsername wf_SetPriority wf_SetIceControlling wf_SetIceControlled
  wf_SetUseCandidate wf_SetErrorCode wf_SetMessageIntegrity wf_SetFingerprint : cpp.

(** An update that touches neither of the two pointers nor the flags. *)
Lemma wf_upd data pos st f :
  wf_state data pos st → (∀ p, wf_received data p → wf_received data (f p)) →
  (∀ p, messageIntegrity (f p) = messageIntegrity p) →
  (∀ p, hasFingerprint (f p) = hasFingerprint p) →
  wf_state data pos (upd_packet f st).
Proof.
  intros [Hp Hm Hmp Hf Hfp Hl] Hwf Hmi Hfi. split; cbn; rewrite ?Hmi, ?Hfi; auto.
  by rewrite Hm; unfold HasMessageIntegrity; rewrite Hmi.
Qed.

(** ** One attribute *)
Lemma parse_attr_wp data pos attrType attrLength st :
  bytes_ok data → 20 ≤ pos → fits 16 attrLength → pos + 4 + attrLength ≤ zlen data →
  wf_state data pos st → ps_hasFingerprint st = false →
  wp (parse_attr data pos attrType attrLength st)
    (λ r, ∀ st', r = Some st' → wf_state data (pos + 4 + attrLength) st').
Proof.
  intros Hb Hp [Hl0 Hl1] Hin Hst Hnf. apply (wf_state_mono _ _ (pos + 4 + attrLength)) in Hst as Hst'; [|lia].
  unfold parse_attr. repeat case_match; cbn [wp]; try (intros ? [=]; by subst).
  - apply wp_bind, wp_rd_range; try (done || lia). intros u _ Hu Hul st' [= <-].
    apply wf_upd; auto with cpp. intros. apply wf_SetUsername; try done. lia.
  - apply wp_bind, wp_Get4Bytes; try (done || lia). intros v _ Hv st' [= <-].
    apply wf_upd; auto with cpp.
  - apply wp_bind, wp_Get8Bytes; try (done || lia). intros v _ Hv st' [= <-].
    apply wf_upd; auto with cpp.
  - apply wp_bind, wp_Get8Bytes; try (done || lia). intros v _ Hv st' [= <-].
    apply wf_upd; auto with cpp.
  - intros st' [= <-]. apply wf_upd; auto with cpp.
  - intros st' [= <-]. destruct Hst' as [Hp' Hm Hmp Hf Hfp Hl]. split; cbn; auto with cpp.
    + intros m [= <-]. lia.
    + congruence.
  - apply wp_bind, wp_Get4Bytes; try (done || lia). intros v _ Hv st' [= <-].
    destruct Hst as [Hp' Hm Hmp Hf Hfp Hl]. split; cbn; auto with cpp.
    + intros m Hm'. specialize (Hmp m Hm'). lia.
    + lia.
    + intros m _ Hm'. specialize (Hmp m Hm'). lia.
  - apply wp_bind, wp_rd; try (done || lia). intros c _ Hc.
    apply wp_bind, wp_rd; try (done || lia). intros n _ Hn st' [= <-].
    apply wf_upd; auto with cpp. intros. apply wf_SetErrorCode; [|done].
    by apply wrap_bound.
Qed.

(** The next position: rounded up, still inside, and strictly later. *)
Lemma next_pos pos attrLength len :
  0 ≤ pos → 0 ≤ attrLength → pos + 4 + attrLength ≤ len → len < 65536 → len mod 4 = 0 →
  let pos' := PadTo4Bytes16 (u16 (pos + 4 + attrLength)) in
  pos + 4 + attrLength ≤ pos' ≤ len ∧ pos' mod 4 = 0 ∧ pos' < pos + 4 + attrLength + 4.
Proof.
  intros ????? pos'. subst pos'. rewrite wrap_small by (unfold fits; lia).
  rewrite PadTo4Bytes16_spec by zdm. zdm.
Qed.

(** ** The loop *)
Lemma parse_attrs_wp fuel data pos st :
  bytes_ok data → zlen data < 65536 → zlen data mod 4 = 0 →
  20 ≤ pos ≤ zlen data → zlen data - pos < 4 * Z.of_nat fuel →
  wf_state data pos st →
  wp (parse_attrs fuel data (zlen data) pos st)
    (λ r, ∀ pos' st', r = Some (pos', st') →
       wf_state data pos' st' ∧ pos' ≤ zlen data ∧ zlen data < pos' + 4).
Proof.
  intros Hb Hlt H4. revert pos st.
  induction fuel as [|fuel IH]; intros pos st Hpos Hfuel Hst; [lia|].
  cbn [parse_attrs]. destruct (Z.leb_spec (pos + 4) (zlen data)).
  2: { cbn. intros pos' st' [= <- <-]. split_and!; (done || lia). }
  apply wp_bind, wp_Get2Bytes; try (done || lia). intros attrType _ Ht.
  apply wp_bind, wp_Get2Bytes; try (done || lia). intros attrLength _ Hl.
  destruct (Z.ltb_spec (zlen data) (pos + 4 + attrLength)); [done|].
  destruct (ps_hasFingerprint st) eqn:Hf; [done|].
  destruct (ps_hasMessageIntegrity st && negb (attrType =? FINGERPRINT)); [done|].
  apply wp_bind. eapply wp_mono; [apply parse_attr_wp; try (done || lia)|].
  intros [st'|] Hst'; [|done].
  destruct (next_pos pos attrLength (zlen data)) as (?&?&?); try (apply Hl || lia).
  apply IH; [unfold fits in *; lia..|].
  eapply wf_state_mono; [by apply Hst'|]. lia.
Qed.

(** ** The whole parser *)
Lemma IsStun_wp data :
  bytes_ok data → wp (IsStun data (zlen data)) (λ b, b = true → 20 ≤ zlen data).
Proof.
  intros Hb. unfold IsStun, byte_is, res_andb.
  destruct (Z.leb_spec 20 (zlen data)); [|done].
  assert (∀ i, 0 ≤ i < 20 → ∃ x, data.[i] = Ok x) as Hrd by (intros; apply rd_in; lia).
  destruct (Hrd 0 ltac:(lia)) as [x0 ->], (Hrd 4 ltac:(lia)) as [x4 ->],
    (Hrd 5 ltac:(lia)) as [x5 ->], (Hrd 6 ltac:(lia)) as [x6 ->],
    (Hrd 7 ltac:(lia)) as [x7 ->].
  cbn. repeat (case_match; cbn); done.
Qed.

Lemma parse_finish_wp data pos st :
  bytes_ok data → wf_state data pos st → pos ≤ zlen data →
  wp (parse_finish data (zlen data) pos st) (λ r, ∀ p, r = Some p → p = ps_packet st ∧ pos = zlen data).
Proof.
  intros Hb Hst Hp. unfold parse_finish.
  destruct (Z.eqb_spec pos (zlen data)); [|done]. cbn [negb].
  destruct (ps_hasFingerprint st) eqn:Hf; [|by intros p [= <-]].
  pose proof (ws_fp_pos _ _ _ Hst Hf).
  rewrite GetCRC32_correct by (done || lia). cbn. case_match; [done|]. by intros p [= <-].
Qed.

(** Everything known of an accepted packet. *)
Record accepted (data : list Z) (p : StunPacket) : Prop := {
  acc_wf : wf_received data p;
  acc_mod : zlen data mod 4 = 0;
  acc_length : Get2Bytes data 2 = Ok (zlen data - 20);
  acc_mi m : messageIntegrity p = Some m → 24 ≤ m ∧ m + 20 ≤ zlen data;
  acc_mi_fp m : hasFingerprint p = true → messageIntegrity p = Some m → m + 28 ≤ zlen data;
}.

Lemma Parse_wp data :
  bytes_ok data → zlen data < 65536 →
  wp (Parse data (zlen data)) (λ r, ∀ p, r = Some p → accepted data p).
Proof.
  intros Hb Hlt. unfold Parse, ParseFuel. apply wp_bind.
  eapply wp_mono; [by apply IsStun_wp|]. intros [] Hmin; [|done].
  specialize (Hmin eq_refl). cbn [negb].
  apply wp_bind, wp_Get2Bytes; try (done || lia). intros msgType _ Ht.
  apply wp_bind, wp_Get2Bytes; try (done || lia). intros msgLength Hml Hl.
  destruct (Z.eqb_spec msgLength (zlen data - 20)) as [->|]; [|done].
  rewrite (land_ones' _ 2) by done.
  destruct (Z.eqb_spec ((zlen data - 20) mod 2 ^ 2) 0) as [Hm|]; [|done]. cbn [orb negb].
  apply wp_bind, wp_rd; try (done || lia). intros b0 _ Hb0.
  apply wp_bind, wp_rd; try (done || lia). intros b1 _ Hb1.
  apply wp_bind, wp_rd_range; try (done || lia). intros tid _ Htid Htl.
  assert (zlen data mod 4 = 0) as H4 by (change (2 ^ 2) with 4 in Hm; zdm).
  apply wp_bind. eapply wp_mono.
  - apply parse_attrs_wp; try (done || lia).
    { unfold parse_fuel. zdm. }
    split; cbn; try done. split; cbn; try done. all: unfold zlen in *; cbn; lia.
  - intros [[pos st]|] Hr; [|done]. destruct (Hr pos st eq_refl) as (Hst & Hp & _).
    eapply wp_mono; [by apply parse_finish_wp|].
    intros [p|] Hfin; [|done]. intros ? [= <-].
    destruct (Hfin p eq_refl) as [-> ->].
    split; try done; [apply Hst| |].
    + intros m Hm'. apply (ws_mi_pos _ _ _ Hst m Hm').
    + intros m Hf Hm'. rewrite <- (ws_fp _ _ _ Hst) in Hf.
      pose proof (ws_fp_last _ _ _ Hst m Hf Hm'). pose proof (ws_fp_pos _ _ _ Hst Hf). lia.
Qed.

(** C17: on every byte sequence shorter than 64 KiB, Parse terminates without
    reading outside the datagram, and a packet it returns points at the whole
    datagram, whose length field and size agree, with the MESSAGE-INTEGRITY
    value inside the data and in front of a FINGERPRINT if there is one. *)
Theorem Parse_total data :
  bytes_ok data → zlen data < 65536 →
  ∃ r, Parse data (zlen data) = Ok r ∧ ∀ p, r = Some p → accepted data p.
Proof. intros Hb Hlt. by apply wp_Ok, Parse_wp. Qed.

(** A 28 byte Binding request with an empty USERNAME and one unknown attribute. *)
Definition sample_request : list Z :=
  [0; 1; 0; 8; 0x21; 0x12; 0xA4; 0x42; 1; 2; 3; 4; 5; 6; 7; 8; 9; 10; 11; 12;
   0; 6; 0; 0; 0x80; 0x22; 0; 0].

Lemma Parse_total_witness :
  ∃ r, Parse sample_request 28 = Ok r ∧ ∀ p, r = Some p → accepted sample_request p.
Proof.
  apply (Parse_total sample_request); [|by vm_compute].
  apply (bool_decide_unpack _). by vm_compute.
Defined.

(** ** Above 64 KiB *)

(** A 65552 byte datagram: a Binding request whose first attribute is unknown
    and 65512 bytes long. *)
Definition looping_head : list Z :=
  [0; 1; 0xFF; 0xFC; 0x21; 0x12; 0xA4; 0x42; 0; 0; 0; 0; 0; 0; 0; 0; 0; 0; 0; 0;
   0x80; 0x22; 0xFF; 0xE8].
Definition looping_packet : list Z := looping_head ++ replicate (Z.to_nat 65528) 0.

Lemma looping_len : zlen looping_packet = 65552.
Proof.
  unfold looping_packet, zlen. rewrite length_app, length_replicate.
  change (length looping_head) with 24%nat. lia.
Qed.

Lemma looping_rd i : 0 ≤ i < 24 → looping_packet.[i] = looping_head.[i].
Proof. intros Hi. unfold looping_packet. apply rd_app_l. unfold zlen. simpl. lia. Qed.

Lemma looping_Get2 i : 0 ≤ i ≤ 22 → Get2Bytes looping_packet i = Get2Bytes looping_head i.
Proof. intros Hi. unfold Get2Bytes. by rewrite !looping_rd by lia. Qed.

(** Once at position 0 the loop rereads the header as an attribute that ends
    at 65536, that is at position 0 again. *)
Lemma looping_at_0 fuel st :
  ps_hasFingerprint st = false → ps_hasMessageIntegrity st = false →
  parse_attrs fuel looping_packet 65552 0 st = OutOfFuel.
Proof.
  intros Hf Hm. revert st Hf Hm. induction fuel as [|fuel IH]; intros st Hf Hm; [done|].
  cbn [parse_attrs]. rewrite !looping_Get2 by lia.
  change (Get2Bytes looping_head 0) with (Ok 1).
  change (Get2Bytes looping_head (0 + 2)) with (Ok 65532).
  cbn [mbind res_bind]. rewrite Hf, Hm. simpl. by apply IH.
Qed.

(** C38: the sixteen bit position arithmetic of Parse does not terminate on
    every input: this datagram of 65552 bytes keeps it looping for ever, that
    is, no number of iterations is enough. *)
Theorem Parse_diverges fuel : ParseFuel fuel looping_packet (zlen looping_packet) = OutOfFuel.
Proof.
  rewrite looping_len. unfold ParseFuel, IsStun, byte_is.
  rewrite !looping_rd, !looping_Get2 by lia. rewrite rd_range_in by (rewrite ?looping_len; lia).
  simpl. destruct fuel as [|fuel]; [done|].
  cbn [parse_attrs]. rewrite !looping_Get2 by lia.
  change (Get2Bytes looping_head 20) with (Ok 0x8022).
  change (Get2Bytes looping_head (20 + 2)) with (Ok 65512).
  cbn [mbind res_bind ps_hasFingerprint ps_hasMessageIntegrity].
  change (PadTo4Bytes16 (u16 (20 + 4 + 65512))) with 0. simpl.
  by rewrite looping_at_0.
Qed.

End StunParse.
