(* ===== verification/StunAuth.v ===== *)
(** RTC::StunPacket::CheckAuthentication on the packets Parse accepts: it never
    faults, leaves the received buffer as it was, and decides exactly the
    USERNAME and MESSAGE-INTEGRITY conditions of its contract. *)
From S2P Require Import Prelude ByteOps Crypto StunPacket StunParse.

Module StunAuth.
Import Byte Crypto Stun StunParse.

(** ** The contract *)
Section spec.
Context `{HmacSha1}.

(** The text MESSAGE-INTEGRITY covers: everything in front of the attribute,
    with the length field not counting a FINGERPRINT. *)
Definition integrity_text (data : list Z) (fp : bool) (m : Z) : list Z :=
  if fp then take 2 data ++ to_be 2 (zlen data - 28) ++ take (Z.to_nat (m - 8)) (drop 4 data)
  else take (Z.to_nat (m - 4)) data.

(** The twenty bytes of the attribute. *)
Definition integrity_value (data : list Z) (m : Z) : list Z :=
  take 20 (drop (Z.to_nat m) data).

(** USERNAME is our fragment, a colon, and anything. *)
Definition names_us (user fragment : list Z) : Prop :=
  ∃ rest, user = fragment ++ [58] ++ rest.

Definition authentic (data : list Z) (p : StunPacket) (pw : list Z) (m : Z) : Prop :=
  integrity_value data m = hmac_sha1 pw (integrity_text data (hasFingerprint p) m).

(** When CheckAuthentication answers OK. *)
Definition authorized (data : list Z) (p : StunPacket) (fragment pw : list Z) : Prop :=
  (klass p = REQUEST ∨ klass p = INDICATION) ∧ names_us (username p) fragment ∧
  ∃ m, messageIntegrity p = Some m ∧ authentic data p pw m.
End spec.

(** ** Lemmas *)
Lemma username_matches_spec u f : username_matches u f = true ↔ names_us u f.
Proof.
  unfold username_matches, names_us.
  rewrite negb_true_iff, !orb_false_iff, !negb_false_iff, !bool_decide_eq_true.
  rewrite Z.leb_gt. split.
  - intros [[Hl Hc] Ht]. exists (drop (S (length f)) u).
    rewrite <- (take_drop (length f) u), Ht at 1. f_equal.
    by apply drop_S.
  - intros [rest ->]. rewrite !zlen_app. split; [split|].
    + pose proof (zlen_nonneg rest). change (zlen [58]) with 1. lia.
    + by rewrite lookup_app_r, Nat.sub_diag by lia.
    + by rewrite take_app_length.
Qed.

Lemma take_app_ge' {A} (l k : list A) n :
  (length l ≤ n)%nat → take n (l ++ k) = l ++ take (n - length l) k.
Proof. intros. by rewrite take_app, take_ge. Qed.

(** The three parts of an accepted datagram around its length field. *)
Lemma accepted_split data p :
  bytes_ok data → accepted data p →
  ∃ a b c d post, data = [a; b] ++ [c; d] ++ post ∧ to_be 2 (zlen data - 20) = [c; d].
Proof.
  intros Hb Hacc. pose proof (wf_min _ _ (acc_wf _ _ Hacc)).
  destruct (split_at data 2 2) as (pre & mid & post & Hd & Hp & Hm); [lia..|].
  assert (length pre = 2%nat) by (unfold zlen in Hp; lia).
  explode pre. explode mid. exists x, x0, x1, x2, post. split; [done|].
  pose proof (acc_length _ _ Hacc) as Hl. rewrite Hd in Hl at 1.
  rewrite Hd in Hb. apply Forall_app in Hb as [_ [Hb _]%Forall_app].
  change 2 with (zlen [x; x0]) in Hl.
  rewrite Get2Bytes_at in Hl by done. injection Hl as <-.
  by apply (to_be_of_be [x1; x2]).
Qed.

Lemma rd_range_patched a b x post m :
  length x = 2%nat → 24 ≤ m → m + 20 ≤ zlen ([a; b] ++ x ++ post) →
  rd_range ([a; b] ++ x ++ post) 0 (m - 4)
  = Ok ([a; b] ++ x ++ take (Z.to_nat (m - 8)) post) ∧
  rd_range ([a; b] ++ x ++ post) m 20 = Ok (take 20 (drop (Z.to_nat (m - 4)) post)).
Proof.
  intros Hx Hm Hl. rewrite !rd_range_in by lia. explode x. split; f_equal.
  - change (Z.to_nat 0) with 0%nat. rewrite drop_0.
    replace (Z.to_nat (m - 4)) with (4 + Z.to_nat (m - 8))%nat by lia. done.
  - replace (Z.to_nat m) with (4 + Z.to_nat (m - 4))%nat by lia. done.
Qed.

(** The contract's text and value in the same terms. *)
Lemma integrity_parts a b x post m fp :
  length x = 2%nat → 24 ≤ m →
  integrity_text ([a; b] ++ x ++ post) fp m
  = [a; b] ++ (if fp then to_be 2 (zlen ([a; b] ++ x ++ post) - 28) else x)
      ++ take (Z.to_nat (m - 8)) post ∧
  integrity_value ([a; b] ++ x ++ post) m = take 20 (drop (Z.to_nat (m - 4)) post).
Proof.
  intros Hx Hm. unfold integrity_text, integrity_value. explode x.
  replace (Z.to_nat m) with (4 + Z.to_nat (m - 4))%nat by lia. split; [|done].
  destruct fp; [done|].
  by replace (Z.to_nat (m - 4)) with (4 + Z.to_nat (m - 8))%nat by lia.
Qed.

(** Writing the length field of a datagram. *)
Lemma Set2Bytes_field a b x post v :
  length x = 2%nat → Set2Bytes ([a; b] ++ x ++ post) 2 v = Ok ([a; b] ++ to_be 2 v ++ post).
Proof. apply (Set2Bytes_at [a; b]). Qed.

Section proofs.
Context `{HmacSha1}.

Lemma SetData_id p d : data_ p = Some d → SetData (Some d) p = p.
Proof. destruct p. cbn. by intros ->. Qed.

Lemma check_integrity_spec data p pw m :
  bytes_ok data → zlen data < 65536 → accepted data p → messageIntegrity p = Some m →
  ∃ r, check_integrity p pw = Ok (p, r) ∧ (r = OK ∨ r = UNAUTHORIZED) ∧
    (r = OK ↔ authentic data p pw m).
Proof.
  intros Hb Hlt Hacc Hm. unfold check_integrity.
  rewrite (wf_data _ _ (acc_wf _ _ Hacc)), Hm, (wf_size _ _ (acc_wf _ _ Hacc)).
  pose proof (wf_min _ _ (acc_wf _ _ Hacc)). pose proof (acc_mi _ _ Hacc m Hm) as [Hm1 Hm2].
  pose proof (acc_mi_fp _ _ Hacc m) as Hm3.
  destruct (accepted_split data p Hb Hacc) as (a & b & c & d & post & Hd & Hl).
  unfold authentic.
  destruct (integrity_parts a b [c; d] post m (hasFingerprint p)) as [Ht Hv]; [done..|].
  rewrite <- Hd in Ht, Hv. rewrite Ht, Hv. clear Ht Hv.
  destruct (hasFingerprint p) eqn:Hf.
  - specialize (Hm3 eq_refl Hm).
    rewrite (wrap_small 16 (zlen data - 20 - 8)), (wrap_small 16 (zlen data - 20))
      by (unfold fits; lia).
    replace (zlen data - 20 - 8) with (zlen data - 28) by lia. set (n := zlen data) in *.
    assert (Set2Bytes data 2 (n - 28) = Ok ([a; b] ++ to_be 2 (n - 28) ++ post)) as ->
      by (rewrite Hd; by apply (Set2Bytes_field a b [c; d])).
    cbn [mbind res_bind].
    assert (m + 20 ≤ zlen ([a; b] ++ to_be 2 (n - 28) ++ post)).
    { subst n. rewrite Hd in Hm2. rewrite !zlen_app in *. rewrite zlen_to_be. done. }
    destruct (rd_range_patched a b (to_be 2 (n - 28)) post m) as [-> ->]; [done..|].
    cbn [mbind res_bind]. rewrite Set2Bytes_field, Hl by done. cbn [mbind res_bind].
    rewrite <- Hd, SetData_id by apply Hacc. eexists. split; [done|]. case_decide; split; intuition done.
  - cbn [mbind res_bind]. rewrite Hd in Hm2.
    destruct (rd_range_patched a b [c; d] post m) as [Hr1 Hr2]; [done..|].
    rewrite <- Hd in Hr1, Hr2. rewrite Hr1, Hr2.
    cbn [mbind res_bind]. rewrite SetData_id by apply Hacc. eexists. split; [done|]. case_decide; split; intuition done.
Qed.

Lemma CheckAuthentication_spec data p fragment pw :
  bytes_ok data → zlen data < 65536 → accepted data p →
  ∃ r, CheckAuthentication p fragment pw = Ok (p, r) ∧
    (r = OK ↔ authorized data p fragment pw) ∧
    (r = BAD_REQUEST ↔
       klass p = SUCCESS_RESPONSE ∨ klass p = ERROR_RESPONSE ∨
       messageIntegrity p = None ∨ username p = []).
Proof.
  intros Hb Hlt Hacc. unfold CheckAuthentication, authorized, HasMessageIntegrity.
  destruct (messageIntegrity p) as [m|] eqn:Hm.
  2: { exists BAD_REQUEST. destruct (klass p); cbn; (split; [done|]); naive_solver. }
  rewrite bool_decide_true by done. cbn [negb orb].
  assert (∀ u, names_us u fragment → u ≠ []) as Hne.
  { intros u [rest ->] E. apply (f_equal length) in E. rewrite !length_app in E. simpl in E. lia. }
  destruct (check_integrity_spec data p pw m Hb Hlt Hacc Hm) as (r & Hr & Hr1 & Hr2).
  pose proof (username_matches_spec (username p) fragment) as Hu.
  destruct (klass p) eqn:Hk; try (exists BAD_REQUEST; split; [done|]; naive_solver);
    (case_bool_decide; [exists BAD_REQUEST; split; [done|]; naive_solver|]);
    (destruct (username_matches (username p) fragment);
     cbn [negb]; [exists r|exists UNAUTHORIZED]; (split; [done|]); naive_solver).
Qed.
End proofs.

(** C18: on a packet that Parse accepted, CheckAuthentication never faults,
    hands back the packet with its buffer restored, answers OK exactly when it
    is a request or indication whose USERNAME is our fragment and a colon and
    whose MESSAGE-INTEGRITY is the keyed digest of the text in front of it
    (with the length field not counting the FINGERPRINT), and BAD_REQUEST
    exactly for responses and for packets without either attribute. *)
Theorem CheckAuthentication_correct `{HmacSha1} data p fragment pw :
  bytes_ok data → zlen data < 65536 → Parse data (zlen data) = Ok (Some p) →
  ∃ r, CheckAuthentication p fragment pw = Ok (p, r) ∧
    (r = OK ↔ authorized data p fragment pw) ∧
    (r = BAD_REQUEST ↔
       klass p = SUCCESS_RESPONSE ∨ klass p = ERROR_RESPONSE ∨
       messageIntegrity p = None ∨ username p = []).
Proof.
  intros Hb Hlt Hp. apply CheckAuthentication_spec; [done..|].
  pose proof (Parse_wp data Hb Hlt) as Hw. rewrite Hp in Hw. by apply Hw.
Qed.

(** A request with USERNAME "ab:c", MESSAGE-INTEGRITY and FINGERPRINT, built by
    the serializer under the digest of the witnesses. *)
Definition sample_signed : list Z :=
  match @Serialize toy_hmac (SetPassword (str "pw") (SetPriority 7 (SetUsername (str "ab:c")
          (newStunPacket REQUEST BINDING (seqZ 1 12) None 0)))) (replicate 100 0) with
  | Ok p => match data_ p with Some d => take (Z.to_nat (size_ p)) d | None => [] end
  | _ => []
  end.

Definition sample_packet : StunPacket :=
  match Parse sample_signed (zlen sample_signed) with
  | Ok (Some p) => p
  | _ => newStunPacket REQUEST 0 [] None 0
  end.

Lemma CheckAuthentication_correct_witness :
  (∃ r, @CheckAuthentication toy_hmac sample_packet (str "ab") (str "pw") = Ok (sample_packet, r) ∧
    (r = OK ↔ @authorized toy_hmac sample_signed sample_packet (str "ab") (str "pw")) ∧
    (r = BAD_REQUEST ↔
       klass sample_packet = SUCCESS_RESPONSE ∨ klass sample_packet = ERROR_RESPONSE ∨
       messageIntegrity sample_packet = None ∨ username sample_packet = [])) ∧
  @CheckAuthentication toy_hmac sample_packet (str "ab") (str "pw") = Ok (sample_packet, OK) ∧
  @CheckAuthentication toy_hmac sample_packet (str "ab") (str "pv") = Ok (sample_packet, UNAUTHORIZED).
Proof.
  split; [|split; vm_compute; reflexivity].
  apply (@CheckAuthentication_correct toy_hmac sample_signed sample_packet (str "ab") (str "pw")).
  - apply (bool_decide_unpack _). by vm_compute.
  - by vm_compute.
  - by vm_compute.
Defined.
End StunAuth.
