(* ===== verification/StunSerialize.v ===== *)
(** RTC::StunPacket::Serialize writes the STUN message format: a header, the
    attributes as type-length-value blocks, MESSAGE-INTEGRITY over what is in
    front of it, and FINGERPRINT. *)
From S2P Require Import Prelude ByteOps Crypto StunPacket.

Module StunSerialize.
Import Byte Crypto Stun Stun.Attribute.

(** ** The message format *)

(** A type-length-value block with its padding. *)
Definition tlv (t : Z) (v pad : list Z) : list Z := to_be 2 t ++ to_be 2 (zlen v) ++ v ++ pad.

Definition xor_list (l m : list Z) : list Z := zip_with Z.lxor l m.

Definition xor_value (tid : list Z) (a : sockaddr) : list Z :=
  match a with
  | AF_INET a =>
      [0; 1] ++ xor_list (sin_port a) (take 2 magicCookie) ++ xor_list (s_addr a) magicCookie
  | AF_INET6 port addr =>
      [0; 2] ++ xor_list port (take 2 magicCookie) ++ xor_list addr (magicCookie ++ tid)
  | AF_OTHER _ => []
  end.

Definition header (p : StunPacket) (n : Z) : list Z :=
  to_be 2 (type_field (class_to_Z (klass p)) (method p)) ++ to_be 2 n ++ magicCookie
    ++ transactionId p.

(** The attributes, as (type, value, padding), that a packet carries in front
    of MESSAGE-INTEGRITY; [pad] pads USERNAME. *)
Abbreviation attr := (Z * list Z * list Z)%type (only parsing).
Definition enc_attr (a : attr) : list Z := tlv a.1.1 a.1.2 a.2.
Definition enc_attrs (l : list attr) : list Z := concat (enc_attr <$> l).

Definition username_attrs (p : StunPacket) (pad : list Z) : list attr :=
  if decide (username p = []) then [] else [(USERNAME, username p, pad)].

Definition rest_attrs (p : StunPacket) : list attr :=
  (if priority p =? 0 then [] else [(PRIORITY, to_be 4 (priority p), [])]) ++
  (if iceControlling p =? 0 then [] else [(ICE_CONTROLLING, to_be 8 (iceControlling p), [])]) ++
  (if iceControlled p =? 0 then [] else [(ICE_CONTROLLED, to_be 8 (iceControlled p), [])]) ++
  (if hasUseCandidate p then [(USE_CANDIDATE, [], [])] else []) ++
  (match addXorMappedAddress p with
   | Some (a, _) => [(XOR_MAPPED_ADDRESS, xor_value (transactionId p) a, [])]
   | None => []
   end) ++
  (if addErrorCode p
   then [(ERROR_CODE, [0; 0; errorCode p / 100; errorCode p mod 100], [])] else []).

Definition attrs_of (p : StunPacket) (pad : list Z) : list attr :=
  username_attrs p pad ++ rest_attrs p.

Section wire.
Context `{HmacSha1}.

Definition integrity_attrs (p : StunPacket) (pad : list Z) : list attr :=
  if addMessageIntegrity p then
    [(MESSAGE_INTEGRITY,
      hmac_sha1 (password p)
        (header p (serialized_size p - 28) ++ enc_attrs (attrs_of p pad)), [])]
  else [].

(** Everything in front of FINGERPRINT, and the whole message. *)
Definition wire_body (p : StunPacket) (pad : list Z) : list Z :=
  header p (serialized_size p - 20) ++ enc_attrs (attrs_of p pad ++ integrity_attrs p pad).

Definition wire (p : StunPacket) (pad : list Z) : list Z :=
  wire_body p pad ++
  enc_attr (FINGERPRINT, to_be 4 (Z.lxor (crc32 (wire_body p pad)) 0x5354554e), []).
End wire.

(** What the callers of Serialize provide. *)
Definition wf_addr (a : sockaddr) : Prop :=
  match a with
  | AF_INET a => length (sin_port a) = 2%nat ∧ bytes_ok (sin_port a) ∧
                 length (s_addr a) = 4%nat ∧ bytes_ok (s_addr a)
  | AF_INET6 port addr => length port = 2%nat ∧ bytes_ok port ∧
                          length addr = 16%nat ∧ bytes_ok addr
  | AF_OTHER _ => True
  end.

Record wf_outgoing (p : StunPacket) : Prop := {
  wo_tid_len : length (transactionId p) = 12%nat;
  wo_tid : bytes_ok (transactionId p);
  wo_username : bytes_ok (username p);
  wo_username_len : zlen (username p) ≤ 512;
  wo_priority : fits 32 (priority p);
  wo_controlling : fits 64 (iceControlling p);
  wo_controlled : fits 64 (iceControlled p);
  wo_addr a : xorMappedAddress p = Some a → wf_addr a;
  wo_error : 0 ≤ errorCode p < 25600;
}.

(** ** Appending writers *)

(** [f] fills the block that follows [pre] with [l] and advances past it. *)
Definition appends (f : list Z * Z → res (list Z * Z)) (l : list Z) : Prop :=
  ∀ pre old post, length old = length l →
    f (pre ++ old ++ post, zlen pre) = Ok (pre ++ l ++ post, zlen pre + zlen l).

Lemma appends_skip f : (∀ bp, f bp = Ok bp) → appends f [].
Proof.
  intros Hf pre old post Ho%length_zero_iff_nil. rewrite Hf, Ho, zlen_nil.
  do 2 f_equal. lia.
Qed.

Lemma appends_seq f g l1 l2 :
  appends f l1 → appends g l2 → appends (λ bp, bp ← f bp; g bp) (l1 ++ l2).
Proof.
  intros Hf Hg pre old post Ho. rewrite length_app in Ho.
  rewrite <- (take_drop (length l1) old), <- (app_assoc (take _ _)).
  rewrite Hf by (rewrite length_take; lia). cbn [mbind res_bind].
  rewrite (app_assoc pre), <- (zlen_app pre l1).
  rewrite Hg by (rewrite length_drop; lia).
  rewrite !zlen_app, <- !app_assoc. do 2 f_equal. lia.
Qed.

Lemma appends_write f (W : list Z → Z → res (list Z)) l n :
  framed W → (∀ b i, f (b, i) = (b' ← W b i; Ok (b', i + n))) →
  (∀ old, length old = length l → W old 0 = Ok l) → n = zlen l → appends f l.
Proof.
  intros HW Hf Hl -> pre old post Ho. rewrite Hf.
  by rewrite (framed_at0 _ _ _ _ l HW) by auto.
Qed.

(** Two consecutive header fields of an attribute. *)
Lemma framed_attr t n W :
  framed W → framed (λ b i, b ← Set2Bytes b i t; b ← Set2Bytes b (i + 2) n; W b (i + 4)).
Proof.
  intros HW. apply framed_seq; [apply framed_Set2Bytes|].
  apply framed_seq; [apply (framed_shift (λ b i, Set2Bytes b i n)); [lia|apply framed_Set2Bytes]|].
  by apply framed_shift.
Qed.

(** Filling a block: type, length, and a value written by [W]. *)
Lemma attr_block t n W v old :
  framed W → n = zlen v → (∀ o, length o = length v → W o 0 = Ok v) →
  length old = length (tlv t v []) →
  (b ← Set2Bytes old 0 t; b ← Set2Bytes b (0 + 2) n; W b (0 + 4)) = Ok (tlv t v []).
Proof.
  intros HW -> Hv Ho. unfold tlv in *. rewrite app_nil_r, !length_app, !length_to_be in *.
  rewrite <- (take_drop 2 old), <- (take_drop 2 (drop 2 old)).
  set (o1 := take 2 old). set (o2 := take 2 (drop 2 old)). set (o3 := drop 2 (drop 2 old)).
  assert (length o1 = 2%nat) by (subst o1; rewrite length_take; lia).
  assert (length o2 = 2%nat) by (subst o2; rewrite length_take, length_drop; lia).
  assert (length o3 = length v) by (subst o3; rewrite !length_drop; lia).
  change (o1 ++ o2 ++ o3) with ([] ++ o1 ++ o2 ++ o3).
  change 0 with (zlen (@nil Z)) at 1. rewrite Set2Bytes_at by done. cbn [mbind res_bind app].
  change (0 + 2) with (zlen (to_be 2 t)). rewrite Set2Bytes_at by done. cbn [mbind res_bind].
  pose proof (framed_at0 W (to_be 2 t ++ to_be 2 (zlen v)) o3 [] v HW) as Hw.
  rewrite !app_nil_r, <- !app_assoc in Hw. apply Hw. auto.
Qed.

Lemma Set4Bytes_block v o : length o = 4%nat → Set4Bytes o 0 v = Ok (to_be 4 v).
Proof.
  intros Ho. rewrite <- (app_nil_r o). change (o ++ []) with ([] ++ o ++ []).
  change 0 with (zlen (@nil Z)). rewrite Set4Bytes_at by done. by rewrite app_nil_r.
Qed.

Lemma Set8Bytes_block v o : length o = 8%nat → Set8Bytes o 0 v = Ok (to_be 8 v).
Proof.
  intros Ho. rewrite <- (app_nil_r o). change (o ++ []) with ([] ++ o ++ []).
  change 0 with (zlen (@nil Z)). rewrite Set8Bytes_at by done. by rewrite app_nil_r.
Qed.

Lemma memcpy_block src o : length o = length src → memcpy o 0 src = Ok src.
Proof.
  intros Ho. rewrite <- (app_nil_r o). change (o ++ []) with ([] ++ o ++ []).
  by rewrite memcpy_app, app_nil_r by done.
Qed.

Lemma enc_attrs_nil : enc_attrs [] = [].
Proof. done. Qed.
Lemma enc_attrs_one t v pad : enc_attrs [(t, v, pad)] = tlv t v pad.
Proof. unfold enc_attrs, enc_attr. simpl. by rewrite app_nil_r. Qed.
Lemma enc_attrs_app l k : enc_attrs (l ++ k) = enc_attrs l ++ enc_attrs k.
Proof. unfold enc_attrs. by rewrite fmap_app, concat_app. Qed.

Lemma zlen_tlv t v pad : zlen (tlv t v pad) = 4 + zlen v + zlen pad.
Proof. unfold tlv. rewrite !zlen_app, !zlen_to_be. lia. Qed.

(** An attribute writer of the shape all the fixed-size ones have. *)
Lemma appends_attr f t n W v :
  framed W → n = zlen v → (∀ o, length o = length v → W o 0 = Ok v) →
  (∀ b i, f (b, i) = (b' ← (b ← Set2Bytes b i t; b ← Set2Bytes b (i + 2) n; W b (i + 4));
                      Ok (b', i + (4 + n)))) →
  appends f (enc_attrs [(t, v, [])]).
Proof.
  intros HW Hn Hv Hf. rewrite enc_attrs_one.
  eapply appends_write; [by apply (framed_attr t n W)|exact Hf| |].
  - intros old Ho. by apply attr_block.
  - rewrite zlen_tlv, zlen_nil. lia.
Qed.

(** Both sides run the same steps. *)
Ltac bind_eq :=
  repeat (match goal with |- ?m ≫= _ = _ => destruct m end;
          cbn [mbind res_bind]; try reflexivity).

(** ** The attribute writers of the code *)
Lemma ser_priority_appends p :
  appends (ser_priority p)
    (enc_attrs (if priority p =? 0 then [] else [(PRIORITY, to_be 4 (priority p), [])])).
Proof.
  destruct (priority p =? 0) eqn:E.
  - apply appends_skip. intros [b i]. unfold ser_priority. by rewrite E.
  - apply (appends_attr _ _ 4 (λ b i, Set4Bytes b i (priority p)));
      [apply framed_Set4Bytes|done|intros; by apply Set4Bytes_block|].
    intros b i. unfold ser_priority. rewrite E. bind_eq.
Qed.

Lemma ser_iceControlling_appends p :
  appends (ser_iceControlling p)
    (enc_attrs (if iceControlling p =? 0 then []
                else [(ICE_CONTROLLING, to_be 8 (iceControlling p), [])])).
Proof.
  destruct (iceControlling p =? 0) eqn:E.
  - apply appends_skip. intros [b i]. unfold ser_iceControlling. by rewrite E.
  - apply (appends_attr _ _ 8 (λ b i, Set8Bytes b i (iceControlling p)));
      [apply framed_Set8Bytes|done|intros; by apply Set8Bytes_block|].
    intros b i. unfold ser_iceControlling. rewrite E. bind_eq.
Qed.

Lemma ser_iceControlled_appends p :
  appends (ser_iceControlled p)
    (enc_attrs (if iceControlled p =? 0 then []
                else [(ICE_CONTROLLED, to_be 8 (iceControlled p), [])])).
Proof.
  destruct (iceControlled p =? 0) eqn:E.
  - apply appends_skip. intros [b i]. unfold ser_iceControlled. by rewrite E.
  - apply (appends_attr _ _ 8 (λ b i, Set8Bytes b i (iceControlled p)));
      [apply framed_Set8Bytes|done|intros; by apply Set8Bytes_block|].
    intros b i. unfold ser_iceControlled. rewrite E. bind_eq.
Qed.

Lemma framed_Ok : framed (λ b i, Ok b).
Proof. intros pre l post k l' _ [= ->]. done. Qed.

Lemma ser_useCandidate_appends p :
  appends (ser_useCandidate p)
    (enc_attrs (if hasUseCandidate p then [(USE_CANDIDATE, [], [])] else [])).
Proof.
  destruct (hasUseCandidate p) eqn:E.
  - apply (appends_attr _ _ 0 (λ b i, Ok b)); [apply framed_Ok|done| |].
    { by intros o ->%length_zero_iff_nil. }
    intros b i. unfold ser_useCandidate. rewrite E. bind_eq.
  - apply appends_skip. intros [b i]. unfold ser_useCandidate. by rewrite E.
Qed.

(** The error code as class and number: the eight bit arithmetic of the code
    yields the quotient and the remainder by 100. *)
Lemma error_code_bytes e :
  0 ≤ e < 25600 → u8 (e / 100) = e / 100 ∧ u8 (u8 e - u8 (e / 100) * 100) = e mod 100.
Proof.
  intros He. assert (u8 (e / 100) = e / 100) as Hc by (apply wrap_small; unfold fits; zdm).
  rewrite Hc. split; [done|]. unfold wrap. rewrite Zminus_mod_idemp_l.
  change (2 ^ 8) with 256. zdm.
Qed.

Lemma framed_errorCode cls num :
  framed (λ b i, b ← Set2Bytes b i 0; b ← Set1Byte b (i + 2) cls; Set1Byte b (i + 3) num).
Proof.
  apply framed_seq; [apply framed_Set2Bytes|].
  apply framed_seq; [by apply (framed_wr_shift (u8 cls) 2)|].
  by apply (framed_wr_shift (u8 num) 3).
Qed.

Lemma ser_errorCode_appends p :
  0 ≤ errorCode p < 25600 →
  appends (ser_errorCode p)
    (enc_attrs (if addErrorCode p
       then [(ERROR_CODE, [0; 0; errorCode p / 100; errorCode p mod 100], [])] else [])).
Proof.
  intros He. destruct (addErrorCode p) eqn:E.
  2: { apply appends_skip. intros [b i]. unfold ser_errorCode. by rewrite E. }
  destruct (error_code_bytes _ He) as [Hc Hn].
  apply (appends_attr _ _ 4 (λ b i, b ← Set2Bytes b i 0;
    b ← Set1Byte b (i + 2) (errorCode p / 100); Set1Byte b (i + 3) (errorCode p mod 100)));
    [apply framed_errorCode|done| |].
  - intros o Ho. explode o. unfold Set2Bytes, Set1Byte. cbn -[Z.div Z.modulo wrap].
    rewrite Hc, (wrap_small 8 (errorCode p mod 100)) by (unfold fits; zdm). done.
  - intros b i. unfold ser_errorCode. rewrite E. cbv zeta. rewrite Hn, Hc.
    replace (i + 4 + 2) with (i + 6) by lia. replace (i + 4 + 3) with (i + 7) by lia.
    bind_eq.
Qed.

(** Exclusive or in place. *)
Lemma framed_xor_at mask : framed (λ b i, xor_at b i mask).
Proof.
  induction mask as [|x mask IH]; [apply framed_Ok|].
  intros pre l post k l' Hk Ho. cbn [xor_at] in *.
  apply bind_Ok in Ho as (b & Hb & (l1 & Hw & Hx)%bind_Ok).
  rewrite (rd_frame pre l post k b) by done. cbn [mbind res_bind].
  rewrite (framed_wr (Z.lxor b x) pre l post k l1) by done. cbn [mbind res_bind].
  rewrite <- Z.add_assoc. apply IH; [lia|done].
Qed.

Lemma xor_at_block l mask :
  length l = length mask → xor_at l 0 mask = Ok (xor_list l mask).
Proof.
  revert l. induction mask as [|x mask IH]; intros [|b l] Hl; try done.
  cbn [xor_at]. rewrite rd_cons_0. cbn [mbind res_bind].
  change (b :: l) with ([] ++ b :: l) at 1. rewrite wr_app by done. cbn [mbind res_bind app].
  pose proof (framed_xor_at mask [Z.lxor b x] l [] 0 (xor_list l mask)) as Hf.
  rewrite !app_nil_r in Hf. change (zlen [Z.lxor b x] + 0) with (0 + 1) in Hf.
  apply Hf; [lia|]. apply IH. simpl in Hl. lia.
Qed.

(** [memcpy] of a field, then exclusive or of the copy. *)
Lemma memcpy_xor_at pre old post src mask j :
  j = zlen pre → length old = length src → length mask = length src →
  (b ← memcpy (pre ++ old ++ post) j src; xor_at b j mask)
  = Ok (pre ++ xor_list src mask ++ post).
Proof.
  intros -> Ho Hm. rewrite memcpy_app by done. cbn [mbind res_bind].
  apply (framed_at0 (λ b i, xor_at b i mask)); [apply framed_xor_at|].
  by apply xor_at_block.
Qed.

Definition write_v4 (a : sockaddr_in) (b : list Z) (i : Z) : res (list Z) :=
  b ← wr b i 0; b ← wr b (i + 1) 0x01;
  b ← (b ← memcpy b (i + 2) (sin_port a); xor_at b (i + 2) (take 2 magicCookie));
  b ← memcpy b (i + 4) (s_addr a); xor_at b (i + 4) magicCookie.

Definition write_v6 (tid port addr : list Z) (b : list Z) (i : Z) : res (list Z) :=
  b ← wr b i 0; b ← wr b (i + 1) 0x02;
  b ← (b ← memcpy b (i + 2) port; xor_at b (i + 2) (take 2 magicCookie));
  b ← memcpy b (i + 4) addr; b ← xor_at b (i + 4) magicCookie; xor_at b (i + 8) tid.

Lemma framed_copy_xor src mask j :
  0 ≤ j → framed (λ b i, b ← memcpy b (i + j) src; xor_at b (i + j) mask).
Proof.
  intros Hj. apply framed_seq.
  - apply (framed_shift (λ b i, memcpy b i src)); [done|apply framed_memcpy].
  - apply (framed_shift (λ b i, xor_at b i mask)); [done|apply framed_xor_at].
Qed.

Lemma framed_write_v4 a : framed (write_v4 a).
Proof.
  unfold write_v4. apply framed_seq; [apply framed_wr|].
  apply framed_seq; [by apply framed_wr_shift|].
  apply framed_seq; by apply framed_copy_xor.
Qed.

Lemma framed_write_v6 tid port addr : framed (write_v6 tid port addr).
Proof.
  unfold write_v6. apply framed_seq; [apply framed_wr|].
  apply framed_seq; [by apply framed_wr_shift|].
  apply framed_seq; [by apply framed_copy_xor|].
  apply framed_seq; [apply (framed_shift (λ b i, memcpy b i addr)); [done|apply framed_memcpy]|].
  apply framed_seq; apply (framed_shift (λ b i, xor_at b i _)); (done || apply framed_xor_at).
Qed.

Lemma write_v4_block tid a o :
  wf_addr (AF_INET a) → length o = length (xor_value tid (AF_INET a)) →
  write_v4 a o 0 = Ok (xor_value tid (AF_INET a)).
Proof.
  destruct a as [port addr]. intros (Hp & _ & Ha & _) Ho. cbn in Hp, Ha.
  explode port. explode addr. cbn in Ho. explode o. reflexivity.
Qed.

Lemma write_v6_block tid port addr o :
  wf_addr (AF_INET6 port addr) → length tid = 12%nat →
  length o = length (xor_value tid (AF_INET6 port addr)) →
  write_v6 tid port addr o 0 = Ok (xor_value tid (AF_INET6 port addr)).
Proof.
  intros (Hp & _ & Ha & _) Ht Ho.
  explode port. explode addr. explode tid. cbn in Ho. explode o. reflexivity.
Qed.

Lemma ser_xorMappedAddress_appends p :
  wf_outgoing p →
  appends (ser_xorMappedAddress p)
    (enc_attrs (match addXorMappedAddress p with
       | Some (a, _) => [(XOR_MAPPED_ADDRESS, xor_value (transactionId p) a, [])]
       | None => [] end)).
Proof.
  intros Hp. destruct (addXorMappedAddress p) as [[a n]|] eqn:E.
  2: { apply appends_skip. intros [b i]. unfold ser_xorMappedAddress. by rewrite E. }
  pose proof E as E'. unfold addXorMappedAddress in E'.
  destruct (xorMappedAddress p) as [a'|] eqn:Ha; [|done]. case_match; [|done].
  pose proof (wo_addr p Hp a' Ha) as Hwf. pose proof (wo_tid_len p Hp) as Ht.
  destruct a' as [ai|port addr|]; simplify_eq.
  - pose proof Hwf as (Hl1 & _ & Hl2 & _).
    apply (appends_attr _ _ 8 (write_v4 ai)); [apply framed_write_v4| | |].
    + unfold zlen, xor_value, xor_list. by rewrite !length_app, !length_zip_with, Hl1, Hl2.
    + intros. by apply write_v4_block.
    + intros b i. unfold ser_xorMappedAddress, write_v4. rewrite E. cbv zeta. bind_eq.
  - pose proof Hwf as (Hl1 & _ & Hl2 & _).
    apply (appends_attr _ _ 20 (write_v6 (transactionId p) port addr)); [apply framed_write_v6| | |].
    + unfold zlen, xor_value, xor_list.
      by rewrite !length_app, !length_zip_with, Hl1, Hl2, length_app, Ht.
    + intros. by apply write_v6_block.
    + intros b i. unfold ser_xorMappedAddress, write_v6. rewrite E. cbv zeta. bind_eq.
Qed.

(** ** USERNAME keeps what the buffer held as padding *)
Definition pad_len (p : StunPacket) : nat :=
  if decide (username p = []) then 0%nat
  else Z.to_nat (4 * ((zlen (username p) + 3) / 4) - zlen (username p)).

Definition kept_pad (p : StunPacket) (old : list Z) : list Z :=
  take (pad_len p) (drop (4 + length (username p)) old).

Lemma usernamePaddedLen_spec p :
  wf_outgoing p → usernamePaddedLen p = zlen (username p) + Z.of_nat (pad_len p) ∧
    (usernamePaddedLen p =? 0) = bool_decide (username p = []).
Proof.
  intros Hp. pose proof (wo_username_len p Hp). pose proof (zlen_nonneg (username p)).
  unfold usernamePaddedLen, pad_len. case_decide as E.
  - rewrite E. by rewrite bool_decide_true.
  - rewrite bool_decide_false by done. destruct (username p) as [|c u]; [done|].
    rewrite zlen_cons in *. pose proof (zlen_nonneg u).
    rewrite wrap_small by (unfold fits; lia). rewrite PadTo4Bytes16_spec by lia.
    split; [zdm|]. apply Z.eqb_neq. zdm.
Qed.

(** The length of the block does not depend on what the padding holds. *)
Lemma length_username_attrs p pad :
  length pad = pad_len p →
  zlen (enc_attrs (username_attrs p pad))
  = if decide (username p = []) then 0 else 4 + zlen (username p) + Z.of_nat (pad_len p).
Proof.
  intros Hl. unfold username_attrs. case_decide; [done|].
  rewrite enc_attrs_one, zlen_tlv. unfold zlen. by rewrite Hl.
Qed.

Lemma ser_username_at p pre old post :
  wf_outgoing p →
  zlen old = zlen (enc_attrs (username_attrs p (replicate (pad_len p) 0))) →
  length (kept_pad p old) = pad_len p ∧
  ser_username p (pre ++ old ++ post, zlen pre)
  = Ok (pre ++ enc_attrs (username_attrs p (kept_pad p old)) ++ post, zlen pre + zlen old).
Proof.
  intros Hp. destruct (usernamePaddedLen_spec p Hp) as [Hl Hz].
  rewrite length_username_attrs by apply length_replicate.
  unfold ser_username, username_attrs. rewrite Hz, Hl. unfold kept_pad. case_decide as E.
  { rewrite bool_decide_true by done. unfold pad_len. rewrite decide_True by done.
    intros Ho. assert (old = []) as -> by (apply length_zero_iff_nil; unfold zlen in Ho; lia).
    rewrite zlen_nil. split; [done|]. do 2 f_equal. lia. }
  rewrite bool_decide_false, !enc_attrs_one by done. intros Hzl.
  set (u := username p) in *. unfold zlen in Hzl.
  set (pad := take _ _). set (o := take (4 + length u) old).
  assert (length pad = pad_len p) as Hpad
    by (subst pad; rewrite length_take, length_drop; lia).
  assert (old = o ++ pad) as Hold.
  { subst o pad. rewrite (take_ge (drop _ _)) by (rewrite length_drop; lia). by rewrite take_drop. }
  assert (length o = length (tlv USERNAME u [])) as Ho.
  { subst o. rewrite length_take. unfold tlv. rewrite !length_app, !length_to_be.
    change (length (@nil Z)) with 0%nat. lia. }
  split; [done|]. rewrite Hold, <- (app_assoc o).
  pose proof (framed_at0 _ pre o (pad ++ post) (tlv USERNAME u [])
    (framed_attr USERNAME (zlen u) _ (framed_memcpy u))) as Hf. cbv beta in Hf.
  rewrite wrap_small by (pose proof (wo_username_len p Hp : zlen u ≤ 512); unfold fits, zlen in *; lia).
  assert (tlv USERNAME u pad ++ post = tlv USERNAME u [] ++ pad ++ post) as ->
    by (unfold tlv; by rewrite app_nil_r, <- !app_assoc).
  transitivity (b' ← (b ← Set2Bytes (pre ++ o ++ pad ++ post) (zlen pre) USERNAME;
                      b ← Set2Bytes b (zlen pre + 2) (zlen u); memcpy b (zlen pre + 4) u);
                Ok (b', zlen pre + (4 + (zlen u + Z.of_nat (pad_len p)))));
    [bind_eq|].
  rewrite Hf.
  - cbn [mbind res_bind]. do 2 f_equal. rewrite <- Hold. unfold zlen. lia.
  - apply (attr_block USERNAME (zlen u) (λ b i, memcpy b i u));
      [apply framed_memcpy|done|intros; by apply memcpy_block|done].
Qed.

Lemma ser_rest_appends p :
  wf_outgoing p →
  appends (λ bp, bp ← ser_priority p bp; bp ← ser_iceControlling p bp;
                 bp ← ser_iceControlled p bp; bp ← ser_useCandidate p bp;
                 bp ← ser_xorMappedAddress p bp; ser_errorCode p bp)
    (enc_attrs (rest_attrs p)).
Proof.
  intros Hp. unfold rest_attrs. rewrite !enc_attrs_app.
  repeat (apply appends_seq;
    [first [apply ser_priority_appends | apply ser_iceControlling_appends
           | apply ser_iceControlled_appends | apply ser_useCandidate_appends
           | by apply ser_xorMappedAddress_appends]|]).
  by apply ser_errorCode_appends, wo_error.
Qed.

(** The size of the attributes in front of MESSAGE-INTEGRITY. *)
Definition attrs_size (p : StunPacket) : Z :=
  zlen (enc_attrs (attrs_of p (replicate (pad_len p) 0))).

Lemma zlen_attrs_of p pad :
  length pad = pad_len p → zlen (enc_attrs (attrs_of p pad)) = attrs_size p.
Proof.
  intros Hl. unfold attrs_size, attrs_of. rewrite !enc_attrs_app, !zlen_app.
  by rewrite !length_username_attrs by (done || apply length_replicate).
Qed.

Lemma ser_attributes_at p pre old post :
  wf_outgoing p → zlen old = attrs_size p →
  ∃ pad, (bytes_ok old → bytes_ok pad) ∧ length pad = pad_len p ∧
    ser_attributes p (pre ++ old ++ post, zlen pre)
    = Ok (pre ++ enc_attrs (attrs_of p pad) ++ post, zlen pre + attrs_size p).
Proof.
  intros Hp Ho. unfold attrs_size, attrs_of in *. rewrite enc_attrs_app, zlen_app in *.
  set (k := length (enc_attrs (username_attrs p (replicate (pad_len p) 0)))).
  rewrite <- (take_drop k old), <- (app_assoc (take k old)).
  assert (zlen (take k old) = zlen (enc_attrs (username_attrs p (replicate (pad_len p) 0)))) as Hk
    by (unfold zlen in *; rewrite length_take; lia).
  destruct (ser_username_at p pre (take k old) (drop k old ++ post) Hp Hk) as [Hl Hs].
  exists (kept_pad p (take k old)). split; [|split; [done|]].
  { intros Hb. rewrite take_drop in Hb. by apply Forall_take, Forall_drop, Forall_take. }
  unfold ser_attributes. rewrite Hs. cbn [mbind res_bind].
  rewrite Hk.
  rewrite !enc_attrs_app.
  assert (zlen (enc_attrs (username_attrs p (replicate (pad_len p) 0)))
          = zlen (enc_attrs (username_attrs p (kept_pad p (take k old))))) as ->.
  { by rewrite !length_username_attrs by (done || apply length_replicate). }
  rewrite <- zlen_app, app_assoc. rewrite (ser_rest_appends p Hp).
  - rewrite zlen_app, <- !app_assoc. do 2 f_equal. lia.
  - rewrite length_drop. unfold zlen in *. lia.
Qed.

(** ** Sizes *)
Lemma zlen_xor_value tid a n p :
  wf_outgoing p → tid = transactionId p → addXorMappedAddress p = Some (a, n) →
  zlen (xor_value tid a) = n.
Proof.
  intros Hp -> E. unfold addXorMappedAddress in E.
  destruct (xorMappedAddress p) as [a'|] eqn:Ha; [|done]. case_match; [|done].
  pose proof (wo_addr p Hp a' Ha) as Hwf. pose proof (wo_tid_len p Hp) as Ht.
  destruct a' as [[port addr]|port addr|]; simplify_eq; destruct Hwf as (Hl1 & _ & Hl2 & _);
    unfold zlen, xor_value, xor_list; simpl in Hl1, Hl2; cbn [sin_port s_addr];
    rewrite !length_app, !length_zip_with;
    [by rewrite Hl1, Hl2|by rewrite Hl1, Hl2, length_app, Ht].
Qed.

Lemma zlen_enc_if (b : bool) t v :
  zlen (enc_attrs (if b then [] else [(t, v, [])])) = if b then 0 else 4 + zlen v.
Proof. destruct b; [done|]. rewrite enc_attrs_one, zlen_tlv, zlen_nil. lia. Qed.

Lemma zlen_enc_if' (b : bool) t v :
  zlen (enc_attrs (if b then [(t, v, [])] else [])) = if b then 4 + zlen v else 0.
Proof. destruct b; [|done]. rewrite enc_attrs_one, zlen_tlv, zlen_nil. lia. Qed.

Lemma attrs_size_spec p :
  wf_outgoing p →
  serialized_size p = 20 + attrs_size p + (if addMessageIntegrity p then 24 else 0) + 8.
Proof.
  intros Hp. unfold serialized_size, attrs_size, attrs_of, rest_attrs.
  destruct (usernamePaddedLen_spec p Hp) as [-> _].
  rewrite !enc_attrs_app, !zlen_app, length_username_attrs by apply length_replicate.
  assert (zlen (enc_attrs match addXorMappedAddress p with
    | Some (a, _) => [(XOR_MAPPED_ADDRESS, xor_value (transactionId p) a, [])]
    | None => [] end) = match addXorMappedAddress p with Some (_, n) => 4 + n | None => 0 end) as ->.
  { destruct (addXorMappedAddress p) as [[a n]|] eqn:E; [|done].
    rewrite enc_attrs_one, zlen_tlv, (zlen_xor_value _ _ n p), zlen_nil by done. lia. }
  rewrite !zlen_enc_if, zlen_enc_if', zlen_enc_if', !zlen_to_be.
  change (zlen (@nil Z)) with 0.
  change (zlen [_; _; _; _]) with 4.
  repeat case_match; lia.
Qed.

Lemma serialized_size_bound p :
  wf_outgoing p → 28 ≤ serialized_size p < 1024 ∧ serialized_size p mod 4 = 0.
Proof.
  intros Hp. unfold serialized_size.
  pose proof (usernamePaddedLen_spec p Hp) as [Hu _]. pose proof (wo_username_len p Hp).
  assert (∀ a n, addXorMappedAddress p = Some (a, n) → n = 8 ∨ n = 20) as Hx.
  { intros a n. unfold addXorMappedAddress. repeat case_match; naive_solver. }
  assert (0 ≤ usernamePaddedLen p ≤ 515 ∧ usernamePaddedLen p mod 4 = 0) as [Hb Hm].
  { rewrite Hu. unfold pad_len. pose proof (zlen_nonneg (username p)). case_decide as E.
    - rewrite E. done.
    - rewrite Z2Nat.id by zdm.
      replace (zlen (username p) + (4 * ((zlen (username p) + 3) / 4) - zlen (username p)))
        with (((zlen (username p) + 3) / 4) * 4) by lia.
      rewrite Z.mod_mul by lia. split; [zdm|done]. }
  destruct (addXorMappedAddress p) as [[a n]|]; [destruct (Hx a n eq_refl) as [-> | ->]|];
    repeat case_match; (split; [lia|zdm]).
Qed.

(** ** Header, MESSAGE-INTEGRITY and FINGERPRINT *)
Lemma zlen_header p n : wf_outgoing p → zlen (header p n) = 20.
Proof.
  intros Hp. unfold header, zlen. rewrite !length_app, !length_to_be, (wo_tid_len p Hp). done.
Qed.

Lemma ser_header_at p size old post :
  wf_outgoing p → fits 16 (size - 20) → fits 16 size → length old = 20%nat →
  ser_header p size (old ++ post) = Ok (header p (size - 20) ++ post).
Proof.
  intros Hp Hs Hs' Ho. pose proof (wo_tid_len p Hp) as Ht.
  unfold ser_header, header. rewrite (wrap_small 16 size), wrap_small by done.
  set (t := type_field _ _). set (tid := transactionId p) in *. clearbody t tid.
  rewrite <- (take_drop 2 old), <- (take_drop 2 (drop 2 old)),
    <- (take_drop 4 (drop 2 (drop 2 old))), <- !app_assoc.
  set (o1 := take 2 old). set (o2 := take 2 (drop 2 old)).
  set (o3 := take 4 _). set (o4 := drop 4 _).
  assert (length o1 = 2%nat) by (subst o1; rewrite length_take; lia).
  assert (length o2 = 2%nat) by (subst o2; rewrite length_take, length_drop; lia).
  assert (length o3 = 4%nat) by (subst o3; rewrite length_take, !length_drop; lia).
  assert (length o4 = 12%nat) by (subst o4; rewrite !length_drop; lia).
  change (o1 ++ ?x) with ([] ++ o1 ++ x). change 0 with (zlen (@nil Z)) at 1.
  rewrite Set2Bytes_at by done. cbn [mbind res_bind app].
  rewrite (Set2Bytes_at (to_be 2 t) o2 _ _ : _ → Set2Bytes _ 2 _ = _) by done.
  cbn [mbind res_bind].
  rewrite (app_assoc (to_be 2 t)). rewrite memcpy_app by done. cbn [mbind res_bind].
  rewrite (app_assoc (to_be 2 t ++ _)). rewrite memcpy_app; [|done|lia].
  by rewrite <- !app_assoc.
Qed.

(** The length field can be replaced behind the type. *)
Lemma set_length_at p n m post :
  fits 16 m → Set2Bytes (header p n ++ post) 2 m = Ok (header p m ++ post).
Proof.
  intros Hm. unfold header. rewrite <- !app_assoc.
  by apply (Set2Bytes_at (to_be 2 _)).
Qed.

(** A type-length-value block written behind [pre]. *)
Lemma attr_at t n W v pre old post i :
  framed W → n = zlen v → (∀ o, length o = length v → W o 0 = Ok v) →
  length old = length (tlv t v []) → i = zlen pre →
  (b ← Set2Bytes (pre ++ old ++ post) i t; b ← Set2Bytes b (i + 2) n; W b (i + 4))
  = Ok (pre ++ tlv t v [] ++ post).
Proof.
  intros HW Hn Hv Ho ->. pose proof (framed_at0 _ pre old post (tlv t v [])
    (framed_attr t n W HW)) as Hf. cbv beta in Hf. by rewrite Hf by (by apply attr_block).
Qed.

Lemma crc32_xor_fits l : bytes_ok l → fits 32 (Z.lxor (crc32 l) 0x5354554e).
Proof.
  intros Hl. apply lxor_bound; [lia|by apply crc32_fits|done].
Qed.

Lemma ser_fingerprint_at pre old post :
  bytes_ok (pre ++ old ++ post) → length old = 8%nat →
  ser_fingerprint (pre ++ old ++ post, zlen pre)
  = Ok (pre ++ enc_attr (FINGERPRINT, to_be 4 (Z.lxor (crc32 pre) 0x5354554e), []) ++ post,
        zlen pre + 8).
Proof.
  intros Hb Ho. unfold ser_fingerprint. pose proof (zlen_nonneg pre).
  rewrite GetCRC32_correct; [|done|rewrite !zlen_app; pose proof (zlen_nonneg (old ++ post));
    rewrite zlen_app in *; lia].
  cbn [mbind res_bind]. replace (Z.to_nat (zlen pre)) with (length pre) by (unfold zlen; lia).
  rewrite take_app_length. set (v := Z.lxor _ _).
  transitivity (b' ← (b ← Set2Bytes (pre ++ old ++ post) (zlen pre) FINGERPRINT;
                      b ← Set2Bytes b (zlen pre + 2) 4; Set4Bytes b (zlen pre + 4) v);
                Ok (b', zlen pre + (4 + 4))); [bind_eq|].
  rewrite (attr_at FINGERPRINT 4 (λ b i, Set4Bytes b i v) (to_be 4 v)); try done;
    [apply framed_Set4Bytes|intros; by apply Set4Bytes_block].
Qed.

(** Everything that is written is a byte. *)
Definition attr_bytes (a : attr) : Prop := bytes_ok a.1.2 ∧ bytes_ok a.2.

Lemma enc_attrs_bytes l : Forall attr_bytes l → bytes_ok (enc_attrs l).
Proof.
  induction 1 as [|[[t v] pad] l [Hv Hp] _ IH]; [constructor|].
  change (enc_attrs (?a :: l)) with (enc_attrs ([a] ++ l)). rewrite enc_attrs_app, enc_attrs_one.
  unfold tlv. repeat apply Forall_app_2; auto with cpp.
Qed.

Lemma header_bytes p n : wf_outgoing p → bytes_ok (header p n).
Proof.
  intros Hp. unfold header. repeat apply Forall_app_2; auto with cpp; [|by apply wo_tid].
  by repeat constructor.
Qed.

Lemma xor_list_bytes l m : bytes_ok l → bytes_ok m → bytes_ok (xor_list l m).
Proof.
  intros Hl. revert m. induction Hl; intros m Hm; [constructor|].
  destruct Hm; constructor; [by apply is_byte_lxor|auto].
Qed.

Lemma xor_value_bytes tid a : bytes_ok tid → wf_addr a → bytes_ok (xor_value tid a).
Proof.
  intros Ht. destruct a as [a|port addr|]; [intros (_ & Hp & _ & Ha)..|by intros _];
    simpl; repeat constructor; try done; apply Forall_app_2; apply xor_list_bytes; try done;
    by repeat constructor.
Qed.

Lemma attrs_of_bytes p pad : wf_outgoing p → bytes_ok pad → Forall attr_bytes (attrs_of p pad).
Proof.
  intros Hp Hpad. unfold attrs_of, username_attrs, rest_attrs. pose proof (wo_error p Hp).
  assert (∀ a n, addXorMappedAddress p = Some (a, n) → xorMappedAddress p = Some a).
  { unfold addXorMappedAddress. intros a n. repeat case_match; naive_solver. }
  repeat apply Forall_app_2; repeat case_match; repeat constructor; simpl;
    auto using to_be_bytes, wo_username with cpp; try (unfold is_byte; zdm).
  eapply xor_value_bytes; eauto using wo_tid, wo_addr.
Qed.

Section serialize.
Context `{HmacSha1}.

Lemma ser_messageIntegrity_at p body old post :
  wf_outgoing p →
  length old = (if addMessageIntegrity p then 24 else 0)%nat →
  let computed := hmac_sha1 (password p) (header p (serialized_size p - 28) ++ body) in
  let pre := header p (serialized_size p - 20) ++ body in
  ser_messageIntegrity p (serialized_size p) (pre ++ old ++ post, zlen pre)
  = Ok (if addMessageIntegrity p
        then (pre ++ enc_attrs [(MESSAGE_INTEGRITY, computed, [])] ++ post, zlen pre + 24,
              Some (zlen pre + 4))
        else (pre ++ post, zlen pre, None)).
Proof.
  intros Hp Ho computed pre. unfold ser_messageIntegrity.
  destruct (serialized_size_bound p Hp) as [Hs _].
  destruct (addMessageIntegrity p).
  2: { by apply length_zero_iff_nil in Ho as ->. }
  rewrite !wrap_small by (unfold fits; lia). subst pre. rewrite <- (app_assoc (header _ _)).
  rewrite set_length_at by (unfold fits; lia). cbn [mbind res_bind].
  rewrite zlen_app, (zlen_header p _ Hp). replace (serialized_size p - 20 - 8)
    with (serialized_size p - 28) by lia.
  rewrite (app_assoc (header _ _)).
  set (q := header p (serialized_size p - 28) ++ body) in *.
  assert (zlen q = 20 + zlen body) as Hq by (subst q; by rewrite zlen_app, zlen_header).
  rewrite (rd_range_app [] q _ _ _ : _ → _ → rd_range (q ++ _) _ _ = _) by done.
  cbn [mbind res_bind]. fold computed.
  transitivity (b' ← (b ← Set2Bytes (q ++ old ++ post) (20 + zlen body) MESSAGE_INTEGRITY;
                      b ← Set2Bytes b (20 + zlen body + 2) 20; memcpy b (20 + zlen body + 4) computed);
                b ← Set2Bytes b' 2 (serialized_size p - 20);
                Ok (b, 20 + zlen body + (4 + 20), Some (20 + zlen body + 4))); [bind_eq|].
  assert (length computed = 20%nat) as Hc by apply hmac_sha1_len.
  rewrite (attr_at MESSAGE_INTEGRITY 20 (λ b i, memcpy b i computed) computed).
  - cbn [mbind res_bind]. subst q. rewrite <- !app_assoc.
    rewrite set_length_at by (unfold fits; lia). rewrite enc_attrs_one. done.
  - apply framed_memcpy.
  - unfold zlen. by rewrite Hc.
  - intros. by apply memcpy_block.
  - rewrite Ho. unfold tlv. by rewrite !length_app, !length_to_be, Hc.
  - done.
Qed.

Lemma integrity_attrs_bytes p pad : Forall attr_bytes (integrity_attrs p pad).
Proof.
  unfold integrity_attrs. case_match; repeat constructor; apply hmac_sha1_bytes.
Qed.

Lemma wire_body_bytes p pad : wf_outgoing p → bytes_ok pad → bytes_ok (wire_body p pad).
Proof.
  intros. apply Forall_app_2; [by apply header_bytes|].
  apply enc_attrs_bytes, Forall_app_2; [by apply attrs_of_bytes|apply integrity_attrs_bytes].
Qed.

Lemma zlen_wire_body p pad :
  wf_outgoing p → length pad = pad_len p → zlen (wire_body p pad) = serialized_size p - 8.
Proof.
  intros Hp Hl. unfold wire_body. rewrite zlen_app, zlen_header, enc_attrs_app, zlen_app by done.
  rewrite zlen_attrs_of, (attrs_size_spec p Hp) by done. unfold integrity_attrs. case_match.
  - rewrite enc_attrs_one, zlen_tlv. unfold zlen. rewrite hmac_sha1_len. simpl. lia.
  - rewrite enc_attrs_nil, zlen_nil. lia.
Qed.

Lemma zlen_wire p pad :
  wf_outgoing p → length pad = pad_len p → zlen (wire p pad) = serialized_size p.
Proof.
  intros Hp Hl. unfold wire, enc_attr. rewrite zlen_app, zlen_wire_body by done. cbn [fst snd].
  rewrite zlen_tlv, zlen_to_be, zlen_nil. lia.
Qed.

(** The packet after Serialize: it points into the buffer it was written to. *)
Definition serialized (p : StunPacket) (pad rest : list Z) : StunPacket :=
  SetFingerprint (SetMessageIntegrity
    (if addMessageIntegrity p then Some (24 + attrs_size p) else None)
    (SetSize (serialized_size p) (SetData (Some (wire p pad ++ rest)) p))).

Lemma Serialize_at p o1 o2 o3 o4 rest :
  wf_outgoing p → bytes_ok o2 → bytes_ok o4 → bytes_ok rest →
  length o1 = 20%nat → zlen o2 = attrs_size p →
  length o3 = (if addMessageIntegrity p then 24 else 0)%nat → length o4 = 8%nat →
  ∃ pad, length pad = pad_len p ∧ bytes_ok pad ∧
    Serialize p (o1 ++ o2 ++ o3 ++ o4 ++ rest) = Ok (serialized p pad rest).
Proof.
  intros Hp Hb2 Hb4 Hbr H1 H2 H3 H4. destruct (serialized_size_bound p Hp) as [Hs _].
  pose proof (attrs_size_spec p Hp) as Hsz.
  destruct (ser_attributes_at p (header p (serialized_size p - 20)) o2 (o3 ++ o4 ++ rest) Hp H2)
    as (pad & Hpb & Hpl & Hattr).
  specialize (Hpb Hb2). exists pad. split; [done|]. split; [done|].
  unfold Serialize. rewrite ser_header_at by (done || unfold fits; lia). cbn [mbind res_bind].
  rewrite zlen_header in Hattr by done. rewrite Hattr. cbn [mbind res_bind].
  rewrite (app_assoc (header _ _)).
  pose proof (zlen_attrs_of p pad Hpl) as Hal. rewrite <- Hal.
  set (body := enc_attrs (attrs_of p pad)) in *.
  replace (20 + zlen body) with (zlen (header p (serialized_size p - 20) ++ body))
    by (by rewrite zlen_app, zlen_header).
  rewrite ser_messageIntegrity_at by done. cbv zeta. cbn [mbind res_bind].
  pose proof (wire_body_bytes p pad Hp Hpb) as Hwb. pose proof (zlen_wire_body p pad Hp Hpl) as Hwl.
  unfold serialized, wire. set (q := wire_body p pad) in *.
  assert (q = (header p (serialized_size p - 20) ++ body) ++ enc_attrs (integrity_attrs p pad)) as Hq
    by (subst q; unfold wire_body; by rewrite enc_attrs_app, app_assoc).
  set (mi := if addMessageIntegrity p then Some (24 + attrs_size p) else None).
  transitivity ('(b, pos) ← ser_fingerprint (q ++ o4 ++ rest, zlen q);
    ms_assert (pos =? serialized_size p) "pos != this->size";;
    Ok (SetFingerprint (SetMessageIntegrity mi (SetSize (serialized_size p) (SetData (Some b) p))))).
  - rewrite Hwl, Hq. unfold integrity_attrs. subst mi. fold body. rewrite zlen_app, zlen_header by done.
    destruct (addMessageIntegrity p).
    + replace (20 + zlen body + 24) with (serialized_size p - 8) by lia.
      replace (20 + zlen body + 4) with (24 + attrs_size p) by lia. by rewrite <- !app_assoc.
    + replace (20 + zlen body) with (serialized_size p - 8) by lia.
      by rewrite enc_attrs_nil, app_nil_r.
  - rewrite ser_fingerprint_at by (rewrite ?Forall_app; done). cbn [mbind res_bind]. rewrite Hwl.
    replace (serialized_size p - 8 + 8) with (serialized_size p) by lia. rewrite Z.eqb_refl.
    cbn [ms_assert mbind res_bind]. by rewrite <- (app_assoc q).
Qed.

Lemma Serialize_spec p buffer :
  wf_outgoing p → bytes_ok buffer → serialized_size p ≤ zlen buffer →
  ∃ pad, length pad = pad_len p ∧ bytes_ok pad ∧
    Serialize p buffer = Ok (serialized p pad (drop (Z.to_nat (serialized_size p)) buffer)).
Proof.
  intros Hp Hb Hlen. pose proof (attrs_size_spec p Hp) as Hsz.
  assert (0 ≤ attrs_size p) by apply zlen_nonneg. unfold zlen in Hlen.
  set (M := (if addMessageIntegrity p then 24 else 0)%nat).
  assert (Z.to_nat (serialized_size p) = 20 + (Z.to_nat (attrs_size p) + (M + 8)))%nat as Hn
    by (subst M; rewrite Hsz; destruct (addMessageIntegrity p); lia).
  destruct (split_len 20 buffer) as (o1 & b1 & -> & H1); [lia|].
  rewrite length_app in Hlen.
  destruct (split_len (Z.to_nat (attrs_size p)) b1) as (o2 & b2 & -> & H2); [lia|].
  rewrite length_app in Hlen.
  destruct (split_len M b2) as (o3 & b3 & -> & H3); [lia|].
  rewrite length_app in Hlen.
  destruct (split_len 8 b3) as (o4 & rest & -> & H4); [lia|].
  rewrite !Forall_app in Hb. destruct Hb as (_ & Hb2 & _ & Hb4 & Hbr).
  replace (drop _ _) with rest.
  - apply Serialize_at; try done. unfold zlen. lia.
  - rewrite Hn. rewrite <- !drop_drop, <- H1, drop_app_length, <- H2, drop_app_length.
    by rewrite <- H3, drop_app_length, <- H4, drop_app_length.
Qed.
End serialize.

(** C20: Serialize of a packet into a large enough buffer neither faults nor
    trips its assertion; it writes exactly the message of the format (header,
    attributes in order, MESSAGE-INTEGRITY over the text in front of it with
    the length that leaves FINGERPRINT out, FINGERPRINT over everything in
    front of it), leaves the rest of the buffer alone and points the packet at
    the result.  The bytes that pad USERNAME are whatever the buffer held. *)
Theorem Serialize_writes_message `{HmacSha1} p buffer :
  wf_outgoing p → bytes_ok buffer → serialized_size p ≤ zlen buffer →
  ∃ pad, length pad = pad_len p ∧ bytes_ok pad ∧ zlen (wire p pad) = serialized_size p ∧
    Serialize p buffer = Ok (serialized p pad (drop (Z.to_nat (serialized_size p)) buffer)).
Proof.
  intros Hp Hb Hs. destruct (Serialize_spec p buffer Hp Hb Hs) as (pad & Hl & Hpb & HS).
  exists pad. auto using zlen_wire.
Qed.

(** A success response with every attribute a server sends. *)
Definition sample_addr : sockaddr_in := mkSockaddrIn [0x1F; 0x90] [192; 168; 1; 7].
Definition sample_response : StunPacket :=
  SetPassword (str "pw") (SetXorMappedAddress (AF_INET sample_addr) (SetUsername (str "abcde:f")
    (newStunPacket SUCCESS_RESPONSE BINDING (seqZ 1 12) None 0))).

Lemma sample_response_wf : wf_outgoing sample_response.
Proof.
  split; try done.
  - apply (bool_decide_unpack _). by vm_compute.
  - apply (bool_decide_unpack _). by vm_compute.
  - intros a [= <-]. split; [done|]. split; [|split; [done|]];
      apply (bool_decide_unpack _); by vm_compute.
Qed.

Lemma Serialize_writes_message_witness :
  ∃ pad, length pad = pad_len sample_response ∧ bytes_ok pad ∧
    zlen (@wire toy_hmac sample_response pad) = serialized_size sample_response ∧
    @Serialize toy_hmac sample_response (replicate 100 0xEE)
    = Ok (@serialized toy_hmac sample_response pad
            (drop (Z.to_nat (serialized_size sample_response)) (replicate 100 0xEE))).
Proof.
  apply (@Serialize_writes_message toy_hmac sample_response (replicate 100 0xEE) sample_response_wf).
  - apply (bool_decide_unpack _). by vm_compute.
  - by vm_compute.
Defined.
End StunSerialize.
