(* ===== verification/StunRoundtrip.v ===== *)
(** RTC::StunPacket::Parse decodes the message format that Serialize writes:
    on a well-formed message it computes the fold of the attribute meanings
    over the attribute list, and Parse after Serialize gives the packet back. *)
From S2P Require Import Prelude ByteOps Crypto StunPacket StunParse StunAuth StunSerialize.

Module StunRoundtrip.
Import Byte Crypto Stun Stun.Attribute StunSerialize.

(** ** What an attribute list means *)

(** The effect of one attribute at offset [pos]; [None] discards the message. *)
Definition apply_attr (pos : Z) (a : attr) (st : ParseState) : option ParseState :=
  let '(t, v, _) := a in
  if t =? USERNAME then Some (upd_packet (SetUsername v) st)
  else if t =? PRIORITY then
    if negb (zlen v =? 4) then None else Some (upd_packet (SetPriority (of_be v)) st)
  else if t =? ICE_CONTROLLING then
    if negb (zlen v =? 8) then None else Some (upd_packet (SetIceControlling (of_be v)) st)
  else if t =? ICE_CONTROLLED then
    if negb (zlen v =? 8) then None else Some (upd_packet (SetIceControlled (of_be v)) st)
  else if t =? USE_CANDIDATE then
    if negb (zlen v =? 0) then None else Some (upd_packet SetUseCandidate st)
  else if t =? MESSAGE_INTEGRITY then
    if negb (zlen v =? 20) then None
    else Some (mkParseState (SetMessageIntegrity (Some (pos + 4)) (ps_packet st)) true
                 (ps_hasFingerprint st) (ps_fingerprintAttrPos st) (ps_fingerprint st))
  else if t =? FINGERPRINT then
    if negb (zlen v =? 4) then None
    else Some (mkParseState (SetFingerprint (ps_packet st)) (ps_hasMessageIntegrity st)
                 true pos (of_be v))
  else if t =? ERROR_CODE then
    match v with
    | _ :: _ :: c :: n :: _ => Some (upd_packet (SetErrorCode (u16 (c * 100 + n))) st)
    | _ => None
    end
  else Some st.

(** Nothing follows FINGERPRINT, and only FINGERPRINT follows
    MESSAGE-INTEGRITY. *)
Definition allowed (t : Z) (st : ParseState) : bool :=
  negb (ps_hasFingerprint st) && negb (ps_hasMessageIntegrity st && negb (t =? FINGERPRINT)).

Fixpoint run_attrs (pos : Z) (l : list attr) (st : ParseState) : option (Z * ParseState) :=
  match l with
  | [] => Some (pos, st)
  | a :: l =>
      if allowed a.1.1 st
      then st ← apply_attr pos a st; run_attrs (pos + zlen (enc_attr a)) l st
      else None
  end.

(** ** The loop of Parse computes it *)
Record wf_attr (a : attr) : Prop := {
  wa_type : fits 16 a.1.1;
  wa_value : bytes_ok a.1.2;
  wa_len : zlen a.1.2 < 65536;
  wa_pad : bytes_ok a.2;
  wa_pad_len : zlen a.2 < 4;
  wa_align : (zlen a.1.2 + zlen a.2) mod 4 = 0;
}.

Lemma zlen_enc_attr a : zlen (enc_attr a) = 4 + zlen a.1.2 + zlen a.2.
Proof. apply zlen_tlv. Qed.

Lemma enc_attrs_cons a l : enc_attrs (a :: l) = enc_attr a ++ enc_attrs l.
Proof. done. Qed.

Lemma be2_field v : fits 16 v → of_be (to_be 2 v) = v.
Proof. intros. by apply to_be_small. Qed.

(** The fields of a block behind [pre]. *)
Lemma block_type pre t v pad post :
  fits 16 t → Get2Bytes (pre ++ tlv t v pad ++ post) (zlen pre) = Ok t.
Proof.
  intros Ht. unfold tlv. rewrite <- !app_assoc.
  rewrite Get2Bytes_at by auto with cpp. by rewrite be2_field.
Qed.

Lemma block_length pre t v pad post :
  zlen v < 65536 → Get2Bytes (pre ++ tlv t v pad ++ post) (zlen pre + 2) = Ok (zlen v).
Proof.
  intros Hv. unfold tlv. rewrite <- !app_assoc, (app_assoc pre).
  replace (zlen pre + 2) with (zlen (pre ++ to_be 2 t)) by (rewrite zlen_app, zlen_to_be; lia).
  rewrite Get2Bytes_at by auto with cpp.
  rewrite be2_field; [done|]. pose proof (zlen_nonneg v). unfold fits. lia.
Qed.

Lemma block_split pre t v pad post :
  pre ++ tlv t v pad ++ post = (pre ++ to_be 2 t ++ to_be 2 (zlen v)) ++ v ++ pad ++ post.
Proof. unfold tlv. by rewrite <- !app_assoc. Qed.

Lemma block_pos pre t (v : list Z) : zlen (pre ++ to_be 2 t ++ to_be 2 (zlen v)) = zlen pre + 4.
Proof. rewrite !zlen_app, !zlen_to_be. lia. Qed.

Lemma parse_attr_apply pre a post st :
  wf_attr a →
  parse_attr (pre ++ enc_attr a ++ post) (zlen pre) a.1.1 (zlen a.1.2) st
  = Ok (apply_attr (zlen pre) a st).
Proof.
  destruct a as [[t v] pad]. intros [Ht Hv Hl Hp Hpl Ha]. cbn [fst snd] in *.
  unfold enc_attr, parse_attr, apply_attr. cbn [fst snd]. rewrite block_split.
  rewrite <- (block_pos pre t v). set (q := pre ++ to_be 2 t ++ to_be 2 (zlen v)).
  destruct (t =? USERNAME). { by rewrite rd_range_app by done. }
  destruct (t =? PRIORITY).
  { destruct (Z.eqb_spec (zlen v) 4) as [E|]; [|done]. unfold zlen in E.
    cbn [negb]. by rewrite Get4Bytes_at by (done || lia). }
  destruct (t =? ICE_CONTROLLING).
  { destruct (Z.eqb_spec (zlen v) 8) as [E|]; [|done]. unfold zlen in E.
    cbn [negb]. by rewrite Get8Bytes_at by (done || lia). }
  destruct (t =? ICE_CONTROLLED).
  { destruct (Z.eqb_spec (zlen v) 8) as [E|]; [|done]. unfold zlen in E.
    cbn [negb]. by rewrite Get8Bytes_at by (done || lia). }
  destruct (t =? USE_CANDIDATE). { by destruct (zlen v =? 0). }
  destruct (t =? MESSAGE_INTEGRITY). { by destruct (zlen v =? 20). }
  destruct (t =? FINGERPRINT).
  { destruct (Z.eqb_spec (zlen v) 4) as [E|]; [|done]. unfold zlen in E.
    cbn [negb]. by rewrite Get4Bytes_at by (done || lia). }
  destruct (t =? ERROR_CODE); [|done].
  destruct (Z.ltb_spec (zlen v) 4) as [Hlt|Hge].
  { destruct v as [|? [|? [|? [|? v]]]]; try done. unfold zlen in Hlt. simpl in Hlt. lia. }
  destruct v as [|x0 [|x1 [|c [|n v]]]]; try (by vm_compute in Hge).
  unfold Get1Byte. rewrite !rd_app_r by lia. done.
Qed.

Lemma padded_pos pos n pad len :
  0 ≤ pos → pos mod 4 = 0 → (n + pad) mod 4 = 0 → 0 ≤ n → 0 ≤ pad < 4 → len < 65536 →
  pos + 4 + n + pad ≤ len →
  PadTo4Bytes16 (u16 (pos + 4 + n)) = pos + (4 + n + pad).
Proof.
  intros. rewrite wrap_small by (unfold fits; lia). rewrite PadTo4Bytes16_spec by zdm. zdm.
Qed.

Lemma parse_attrs_run l : ∀ fuel pre st,
  Forall wf_attr l → (length l < fuel)%nat → zlen pre mod 4 = 0 →
  zlen (pre ++ enc_attrs l) < 65536 →
  parse_attrs fuel (pre ++ enc_attrs l) (zlen (pre ++ enc_attrs l)) (zlen pre) st
  = Ok (run_attrs (zlen pre) l st).
Proof.
  induction l as [|a l IH]; intros fuel pre st Hwf Hf Hal Hlt.
  { destruct fuel; [simpl in Hf; lia|]. cbn [parse_attrs run_attrs].
    rewrite enc_attrs_nil, app_nil_r. destruct (Z.leb_spec (zlen pre + 4) (zlen pre)); [lia|done]. }
  apply Forall_cons in Hwf as [Ha Hwf]. destruct fuel as [|fuel]; [simpl in Hf; lia|].
  cbn [parse_attrs run_attrs]. rewrite enc_attrs_cons in *. pose proof (zlen_enc_attr a) as Hz.
  destruct Ha as [Ht Hv Hl Hp Hpl Hali] eqn:Ea. clear Ea.
  pose proof (zlen_nonneg pre). pose proof (zlen_nonneg a.1.2). pose proof (zlen_nonneg a.2).
  pose proof (zlen_nonneg (enc_attrs l)).
  set (data := pre ++ enc_attr a ++ enc_attrs l) in *.
  assert (zlen data = zlen pre + zlen (enc_attr a) + zlen (enc_attrs l)) as Hd
    by (subst data; rewrite !zlen_app; lia).
  destruct (Z.leb_spec (zlen pre + 4) (zlen data)); [|lia].
  rewrite (block_type pre _ _ _ (enc_attrs l) Ht : Get2Bytes data _ = _). cbn [mbind res_bind].
  rewrite (block_length pre a.1.1 _ a.2 (enc_attrs l) Hl : Get2Bytes data _ = _). cbn [mbind res_bind].
  destruct (Z.ltb_spec (zlen data) (zlen pre + 4 + zlen a.1.2)); [lia|].
  unfold allowed. destruct (ps_hasFingerprint st); [done|]. cbn [negb andb].
  destruct (ps_hasMessageIntegrity st && negb (a.1.1 =? FINGERPRINT)); [done|]. cbn [negb].
  rewrite (parse_attr_apply pre a (enc_attrs l) st Ha : parse_attr data _ _ _ _ = _).
  cbn [mbind res_bind]. destruct (apply_attr (zlen pre) a st) as [st'|]; [|done].
  cbn [mbind option_bind]. rewrite (padded_pos _ _ (zlen a.2) (zlen data)) by (done || lia).
  rewrite Hz, <- Hz, <- zlen_app.
  subst data. rewrite app_assoc in *. apply IH; [done|simpl in Hf; lia| |done].
  rewrite zlen_app, Hz. zdm.
Qed.

(** ** Whole messages *)
Definition message (t : Z) (tid : list Z) (l : list attr) : list Z :=
  to_be 2 t ++ to_be 2 (zlen (enc_attrs l)) ++ magicCookie ++ tid ++ enc_attrs l.

Lemma enc_attrs_align l : Forall wf_attr l →
  zlen (enc_attrs l) mod 4 = 0 ∧ 4 * zlen l ≤ zlen (enc_attrs l).
Proof.
  induction 1 as [|a l Ha _ [IH IH']]; [done|].
  rewrite enc_attrs_cons, zlen_app, zlen_enc_attr, zlen_cons. destruct Ha.
  pose proof (zlen_nonneg a.1.2). pose proof (zlen_nonneg a.2). split; [zdm|lia].
Qed.

(** What Parse answers, from the attribute list. *)
Definition decode (t : Z) (tid : list Z) (l : list attr) : res (option StunPacket) :=
  let data := message t tid l in
  let st := mkParseState (newStunPacket (class_of_Z (type_class (t / 256) (t mod 256)))
              (type_method t) tid (Some data) (zlen data)) false false 0 0 in
  match run_attrs 20 l st with
  | None => Ok None
  | Some (pos, st) => parse_finish data (zlen data) pos st
  end.

Lemma to_be_2 t : fits 16 t → to_be 2 t = [t / 256; t mod 256].
Proof. unfold fits. intros. simpl. rewrite (Z.mod_small (t / 256)) by zdm. done. Qed.

Lemma IsStun_message t tid l n :
  0 ≤ t < 768 → length tid = 12%nat →
  IsStun (to_be 2 t ++ to_be 2 n ++ magicCookie ++ tid ++ enc_attrs l)
    (zlen (to_be 2 t ++ to_be 2 n ++ magicCookie ++ tid ++ enc_attrs l)) = Ok true.
Proof.
  intros Ht Hl. unfold IsStun. rewrite !zlen_app, !zlen_to_be. unfold zlen at 2. rewrite Hl.
  change (zlen magicCookie) with 4. pose proof (zlen_nonneg (enc_attrs l)).
  destruct (Z.leb_spec 20 (Z.of_nat 2 + (Z.of_nat 2 + (4 + (Z.of_nat 12 + zlen (enc_attrs l)))))); [|lia].
  rewrite to_be_2 by (unfold fits; lia). unfold magicCookie. simpl.
  destruct (Z.ltb_spec (t / 256) 3); [done|zdm].
Qed.

Lemma Parse_message t tid l :
  0 ≤ t < 768 → length tid = 12%nat → Forall wf_attr l → zlen (enc_attrs l) < 65516 →
  Parse (message t tid l) (zlen (message t tid l)) = decode t tid l.
Proof.
  intros Ht Hl Hwf Hlt. pose proof (enc_attrs_align l Hwf) as [Hal Hlen].
  pose proof (zlen_nonneg (enc_attrs l)).
  unfold Parse, ParseFuel, decode, message. rewrite IsStun_message by done.
  cbn [mbind res_bind negb]. set (n := zlen (enc_attrs l)) in *.
  set (hd := to_be 2 t ++ to_be 2 n ++ magicCookie ++ tid).
  assert (zlen hd = 20) as Hhd
    by (subst hd; unfold zlen; by rewrite !length_app, !length_to_be, Hl).
  assert (to_be 2 t ++ to_be 2 n ++ magicCookie ++ tid ++ enc_attrs l = hd ++ enc_attrs l) as Hd
    by (subst hd; by rewrite <- !app_assoc).
  assert (zlen (hd ++ enc_attrs l) = 20 + n) as Hz by (rewrite zlen_app; lia).
  pose proof (Get2Bytes_at [] (to_be 2 t) (to_be 2 n ++ magicCookie ++ tid ++ enc_attrs l)) as Hg0.
  pose proof (Get2Bytes_at (to_be 2 t) (to_be 2 n) (magicCookie ++ tid ++ enc_attrs l)) as Hg2.
  cbn [app] in Hg0. change (zlen (@nil Z)) with 0 in Hg0. change (zlen (to_be 2 t)) with 2 in Hg2.
  rewrite Hg0, Hg2 by auto with cpp. cbn [mbind res_bind].
  rewrite !be2_field by (unfold fits; lia). rewrite Hd, Hz.
  rewrite (land_ones' n 2) by done. change (2 ^ 2) with 4. rewrite Hal.
  destruct (Z.eqb_spec n (20 + n - 20)); [|lia]. cbn [negb orb].
  replace ((hd ++ enc_attrs l).[0]) with (Ok (t / 256))
    by (subst hd; by rewrite (to_be_2 t) by (unfold fits; lia)).
  replace ((hd ++ enc_attrs l).[1]) with (Ok (t mod 256))
    by (subst hd; by rewrite (to_be_2 t) by (unfold fits; lia)).
  assert (rd_range (hd ++ enc_attrs l) 8 12 = Ok tid) as ->.
  { rewrite <- Hd, (app_assoc (to_be 2 n)), (app_assoc (to_be 2 t)).
    apply rd_range_app; [by rewrite !zlen_app, !zlen_to_be|unfold zlen; by rewrite Hl]. }
  cbn [mbind res_bind]. rewrite <- Hz, <- Hhd, parse_attrs_run.
  - cbn [mbind res_bind]. done.
  - done.
  - unfold parse_fuel, zlen in *. zdm.
  - by rewrite Hhd.
  - lia.
Qed.

(** ** Running the attributes of a serialized packet *)
Lemma run_attrs_app pos l k st :
  run_attrs pos (l ++ k) st = ('(pos, st) ← run_attrs pos l st; run_attrs pos k st).
Proof.
  revert pos st. induction l as [|a l IH]; intros pos st; [done|]. cbn [app run_attrs].
  destruct (allowed a.1.1 st); [|done]. destruct (apply_attr pos a st); [|done]. apply IH.
Qed.

(** No MESSAGE-INTEGRITY or FINGERPRINT seen yet. *)
Definition plain (P : StunPacket) : ParseState := mkParseState P false false 0 0.

Definition runs (l : list attr) (P P' : StunPacket) : Prop :=
  ∀ pos, run_attrs pos l (plain P) = Some (pos + zlen (enc_attrs l), plain P').

Lemma runs_nil P : runs [] P P.
Proof. intros pos. cbn. do 2 f_equal. unfold enc_attrs. cbn. change (zlen (@nil Z)) with 0. lia. Qed.

Lemma runs_one a P P' :
  (∀ pos, apply_attr pos a (plain P) = Some (plain P')) → runs [a] P P'.
Proof.
  intros Ha pos. cbn [run_attrs]. change (allowed _ _) with true. rewrite Ha. cbn.
  unfold enc_attrs. cbn. rewrite app_nil_r. done.
Qed.

Lemma runs_app l k P1 P2 P3 : runs l P1 P2 → runs k P2 P3 → runs (l ++ k) P1 P3.
Proof.
  intros Hl Hk pos. rewrite run_attrs_app, Hl. cbn [mbind option_bind]. rewrite Hk.
  rewrite enc_attrs_app, zlen_app. do 2 f_equal. lia.
Qed.

Lemma runs_if (b : bool) l k P P' :
  (b = true → runs l P P') → (b = false → runs k P P') → runs (if b then l else k) P P'.
Proof. destruct b; auto. Qed.

(** The packet of the other side, field by field. *)
Definition received (p : StunPacket) (data : list Z) : StunPacket :=
  mkStunPacket (klass p) (method p) (transactionId p) (Some data) (serialized_size p)
    (username p) (priority p) (iceControlling p) (iceControlled p) (hasUseCandidate p)
    (if addMessageIntegrity p then Some (24 + attrs_size p) else None) true None
    (if addErrorCode p then errorCode p else 0) [].

(** The same before MESSAGE-INTEGRITY and FINGERPRINT. *)
Definition received0 (p : StunPacket) (data : list Z) : StunPacket :=
  mkStunPacket (klass p) (method p) (transactionId p) (Some data) (serialized_size p)
    (username p) (priority p) (iceControlling p) (iceControlled p) (hasUseCandidate p)
    None false None (if addErrorCode p then errorCode p else 0) [].

Lemma runs_attrs_of p pad data :
  wf_outgoing p →
  runs (attrs_of p pad)
    (newStunPacket (klass p) (method p) (transactionId p) (Some data) (serialized_size p))
    (received0 p data).
Proof.
  intros Hp. pose proof (wo_error p Hp) as He. unfold attrs_of, username_attrs, rest_attrs.
  set (P0 := newStunPacket _ _ _ _ _).
  set (P1 := SetUsername (username p) P0). set (P2 := SetPriority (priority p) P1).
  set (P3 := SetIceControlling (iceControlling p) P2).
  set (P4 := SetIceControlled (iceControlled p) P3).
  set (P5 := if hasUseCandidate p then SetUseCandidate P4 else P4).
  assert (runs (if decide (username p = []) then [] else [(USERNAME, username p, pad)]) P0 P1).
  { case_decide as E; [|by apply runs_one]. subst P1. rewrite E. apply runs_nil. }
  apply (runs_app _ _ _ P1); [done|]. apply (runs_app _ _ _ P2).
  { apply runs_if; [intros E%Z.eqb_eq; subst P2; rewrite E; apply runs_nil|intros _].
    apply runs_one. intros pos. cbn -[of_be to_be].
    by rewrite to_be_small by apply (wo_priority p Hp). }
  apply (runs_app _ _ _ P3).
  { apply runs_if; [intros E%Z.eqb_eq; subst P3; rewrite E; apply runs_nil|intros _].
    apply runs_one. intros pos. cbn -[of_be to_be].
    by rewrite to_be_small by apply (wo_controlling p Hp). }
  apply (runs_app _ _ _ P4).
  { apply runs_if; [intros E%Z.eqb_eq; subst P4; rewrite E; apply runs_nil|intros _].
    apply runs_one. intros pos. cbn -[of_be to_be].
    by rewrite to_be_small by apply (wo_controlled p Hp). }
  apply (runs_app _ _ _ P5).
  { subst P5. apply runs_if; intros ->; [by apply runs_one|apply runs_nil]. }
  apply (runs_app _ _ _ P5).
  { destruct (addXorMappedAddress p) as [[a n]|]; [by apply runs_one|apply runs_nil]. }
  apply runs_if; intros E.
  - apply runs_one. intros pos. cbn -[Z.mul Z.div Z.modulo wrap]. unfold upd_packet, plain. cbn.
    unfold received0. rewrite E. rewrite wrap_small by (unfold fits; zdm).
    replace (errorCode p / 100 * 100 + errorCode p mod 100) with (errorCode p) by zdm.
    subst P5. by destruct (hasUseCandidate p).
  - unfold received0. rewrite E. subst P5. destruct (hasUseCandidate p); apply runs_nil.
Qed.

(** The message type carries class and method back. *)
Definition type_roundtrips (k : Class_) (m : Z) : bool :=
  let t := type_field (class_to_Z k) m in
  (0 <=? t) && (t <? 768) && (type_method t =? m) &&
  bool_decide (class_of_Z (type_class (t / 256) (t mod 256)) = k).

Lemma type_field_roundtrip k m :
  0 ≤ m < 128 →
  let t := type_field (class_to_Z k) m in
  0 ≤ t < 768 ∧ type_method t = m ∧ class_of_Z (type_class (t / 256) (t mod 256)) = k.
Proof.
  intros Hm.
  assert (forallb (λ n, type_roundtrips k (Z.of_nat n)) (seq 0 128) = true) as Hall
    by (by destruct k; vm_compute).
  rewrite forallb_forall in Hall. specialize (Hall (Z.to_nat m)).
  rewrite in_seq, Z2Nat.id in Hall by lia. specialize (Hall ltac:(lia)).
  unfold type_roundtrips in Hall.
  rewrite !andb_true_iff, Z.leb_le, Z.ltb_lt, Z.eqb_eq, bool_decide_eq_true in Hall. cbv zeta. tauto.
Qed.

Section roundtrip.
Context `{HmacSha1}.

Definition all_attrs (p : StunPacket) (pad : list Z) : list attr :=
  (attrs_of p pad ++ integrity_attrs p pad) ++
  [(FINGERPRINT, to_be 4 (Z.lxor (crc32 (wire_body p pad)) 0x5354554e), [])].

Lemma wire_message p pad :
  wf_outgoing p → length pad = pad_len p →
  wire p pad = message (type_field (class_to_Z (klass p)) (method p)) (transactionId p)
                 (all_attrs p pad).
Proof.
  intros Hp Hl. pose proof (zlen_wire_body p pad Hp Hl) as Hz.
  assert (zlen (enc_attrs (all_attrs p pad)) = serialized_size p - 20) as Hn.
  { unfold all_attrs. rewrite enc_attrs_app, enc_attrs_one, zlen_app, zlen_tlv, zlen_to_be, zlen_nil.
    unfold wire_body in Hz. rewrite zlen_app, zlen_header in Hz by done. lia. }
  unfold message. rewrite Hn. unfold wire, wire_body, header, all_attrs.
  rewrite (enc_attrs_app (_ ++ _)), enc_attrs_one. by rewrite <- !app_assoc.
Qed.

Lemma wf_attr_aligned t v : fits 16 t → bytes_ok v → zlen v < 65536 → zlen v mod 4 = 0 →
  wf_attr (t, v, []).
Proof.
  intros. split; cbn [fst snd]; try done. change (zlen (@nil Z)) with 0. by rewrite Z.add_0_r.
Qed.

Definition aligned (a : attr) : Prop :=
  a.2 = [] ∧ fits 16 a.1.1 ∧ zlen a.1.2 < 65536 ∧ zlen a.1.2 mod 4 = 0.

Lemma rest_attrs_aligned p : wf_outgoing p → Forall aligned (rest_attrs p).
Proof.
  intros Hp. unfold rest_attrs.
  repeat apply Forall_app_2; try (case_match; by repeat constructor).
  destruct (addXorMappedAddress p) as [[a n]|] eqn:E; [|constructor].
  apply Forall_singleton. split; [done|]. split; [done|]. cbn [fst snd].
  rewrite (zlen_xor_value _ _ n p) by done. unfold addXorMappedAddress in E.
  by repeat case_match; simplify_eq.
Qed.

Lemma all_attrs_wf p pad :
  wf_outgoing p → length pad = pad_len p → bytes_ok pad → Forall wf_attr (all_attrs p pad).
Proof.
  intros Hp Hl Hb. pose proof (attrs_of_bytes p pad Hp Hb) as Hab.
  unfold all_attrs. apply Forall_app_2; [apply Forall_app_2; [apply Forall_app_2|]|].
  - unfold username_attrs. case_decide as E; [constructor|].
    apply Forall_singleton. pose proof (wo_username_len p Hp).
    pose proof (zlen_nonneg (username p)).
    assert (zlen pad = 4 * ((zlen (username p) + 3) / 4) - zlen (username p)) as Hpad.
    { unfold zlen at 1. rewrite Hl. unfold pad_len. rewrite decide_False by done. zdm. }
    split; cbn [fst snd]; try done; [by apply wo_username|lia|zdm|].
    rewrite Hpad. replace (zlen (username p) + _)
      with (((zlen (username p) + 3) / 4) * 4) by lia. by apply Z.mod_mul.
  - apply Forall_app in Hab as [_ Hab]. pose proof (rest_attrs_aligned p Hp) as Hal.
    pose proof (conj Hab Hal) as Hall. rewrite <- Forall_and in Hall.
    eapply Forall_impl; [exact Hall|]. intros [[t v] k] [[Hv _] (Hk & ? & ? & ?)]. cbn [fst snd] in *. subst k.
    by apply wf_attr_aligned.
  - unfold integrity_attrs. case_match; constructor; [|constructor].
    apply wf_attr_aligned; [done|apply hmac_sha1_bytes|..]; unfold zlen; by rewrite hmac_sha1_len.
  - apply Forall_singleton, wf_attr_aligned; [done|apply to_be_bytes|..];
      by rewrite zlen_to_be.
Qed.

Lemma run_integrity pos mac P :
  length mac = 20%nat →
  run_attrs pos [(MESSAGE_INTEGRITY, mac, [])] (plain P)
  = Some (pos + 24, mkParseState (SetMessageIntegrity (Some (pos + 4)) P) true false 0 0).
Proof.
  intros Hm. assert (zlen mac = 20) as Hz by (unfold zlen; by rewrite Hm).
  cbn [run_attrs]. rewrite zlen_enc_attr. unfold apply_attr. cbn [fst snd]. by rewrite Hz.
Qed.

Lemma run_fingerprint pos v P mi :
  fits 32 v →
  run_attrs pos [(FINGERPRINT, to_be 4 v, [])] (mkParseState P mi false 0 0)
  = Some (pos + 8, mkParseState (SetFingerprint P) mi true pos v).
Proof.
  intros Hv. cbn [run_attrs]. rewrite zlen_enc_attr. unfold apply_attr. cbn [fst snd].
  rewrite zlen_to_be, to_be_small by done. unfold allowed. cbn [ps_hasFingerprint ps_hasMessageIntegrity].
  by destruct mi.
Qed.

Lemma run_all_attrs p pad data :
  wf_outgoing p → length pad = pad_len p → bytes_ok pad →
  run_attrs 20 (all_attrs p pad)
    (plain (newStunPacket (klass p) (method p) (transactionId p) (Some data) (serialized_size p)))
  = Some (serialized_size p,
      mkParseState (received p data) (addMessageIntegrity p) true (serialized_size p - 8)
        (Z.lxor (crc32 (wire_body p pad)) 0x5354554e)).
Proof.
  intros Hp Hl Hb. unfold all_attrs. rewrite run_attrs_app, run_attrs_app, (runs_attrs_of p pad data Hp).
  cbn [mbind option_bind]. rewrite zlen_attrs_of by done. pose proof (attrs_size_spec p Hp) as Hs.
  pose proof (crc32_xor_fits _ (wire_body_bytes p pad Hp Hb)) as Hfp.
  set (fp := Z.lxor _ _) in *. clearbody fp.
  unfold integrity_attrs, received. destruct (addMessageIntegrity p).
  - rewrite run_integrity by apply hmac_sha1_len. cbn [mbind option_bind].
    rewrite run_fingerprint by done. replace (20 + attrs_size p + 24) with (serialized_size p - 8) by lia.
    replace (20 + attrs_size p + 4) with (24 + attrs_size p) by lia.
    by replace (serialized_size p - 8 + 8) with (serialized_size p) by lia.
  - change (run_attrs ?x [] ?st) with (Some (x, st)). cbn [mbind option_bind]. unfold plain.
    rewrite run_fingerprint by done. replace (20 + attrs_size p) with (serialized_size p - 8) by lia.
    by replace (serialized_size p - 8 + 8) with (serialized_size p) by lia.
Qed.

Lemma wire_bytes p pad : wf_outgoing p → bytes_ok pad → bytes_ok (wire p pad).
Proof.
  intros. apply Forall_app_2; [by apply wire_body_bytes|].
  unfold enc_attr. rewrite <- enc_attrs_one. apply enc_attrs_bytes.
  constructor; [|constructor]. split; [apply to_be_bytes|constructor].
Qed.

Lemma Parse_wire p pad :
  wf_outgoing p → 0 ≤ method p < 128 → length pad = pad_len p → bytes_ok pad →
  Parse (wire p pad) (serialized_size p) = Ok (Some (received p (wire p pad))).
Proof.
  intros Hp Hm Hl Hb. pose proof (zlen_wire p pad Hp Hl) as Hz.
  pose proof (type_field_roundtrip (klass p) (method p) Hm) as (Ht & Hmeth & Hcls).
  pose proof (all_attrs_wf p pad Hp Hl Hb) as Hwf.
  destruct (serialized_size_bound p Hp) as [Hs _].
  rewrite <- Hz at 1. rewrite (wire_message p pad Hp Hl).
  assert (zlen (enc_attrs (all_attrs p pad)) < 65516) as Hlt.
  { rewrite (wire_message p pad Hp Hl) in Hz. unfold message in Hz. rewrite !zlen_app in Hz.
    pose proof (zlen_nonneg (transactionId p)). rewrite !zlen_to_be in Hz.
    pose proof (zlen_nonneg magicCookie). lia. }
  rewrite Parse_message by (done || by apply wo_tid_len). unfold decode.
  rewrite <- (wire_message p pad Hp Hl), Hz, Hmeth, Hcls.
  fold (plain (newStunPacket (klass p) (method p) (transactionId p) (Some (wire p pad))
    (serialized_size p))). rewrite run_all_attrs by done.
  unfold parse_finish. rewrite Z.eqb_refl. cbn [negb ps_hasFingerprint ps_fingerprintAttrPos].
  rewrite GetCRC32_correct; [|by apply wire_bytes|lia].
  replace (take _ (wire p pad)) with (wire_body p pad).
  - cbn [mbind res_bind ps_fingerprint]. by rewrite Z.eqb_refl.
  - rewrite <- (zlen_wire_body p pad Hp Hl). unfold zlen, wire. by rewrite Nat2Z.id, take_app_length.
Qed.

(** ** The digest the receiver recomputes *)
Lemma wire_authentic p pad :
  wf_outgoing p → length pad = pad_len p → addMessageIntegrity p = true →
  StunAuth.authentic (wire p pad) (received p (wire p pad)) (password p) (24 + attrs_size p).
Proof.
  intros Hp Hl Hm. pose proof (zlen_wire p pad Hp Hl) as Hz.
  pose proof (zlen_attrs_of p pad Hl) as Ha. assert (0 ≤ attrs_size p) by apply zlen_nonneg.
  set (t := to_be 2 (type_field (class_to_Z (klass p)) (method p))).
  set (mid := magicCookie ++ transactionId p ++ enc_attrs (attrs_of p pad)).
  set (mac := hmac_sha1 (password p) (t ++ to_be 2 (serialized_size p - 28) ++ mid)).
  assert (length mac = 20%nat) as Hmac by apply hmac_sha1_len.
  assert (length mid = Z.to_nat (16 + attrs_size p)) as Hmid.
  { subst mid. rewrite !length_app, (wo_tid_len p Hp). unfold zlen in *. simpl. lia. }
  assert (∃ fp, wire p pad = (t ++ to_be 2 (serialized_size p - 20)) ++
            mid ++ to_be 2 MESSAGE_INTEGRITY ++ to_be 2 20 ++ mac ++ fp) as [fp Hw].
  { eexists. unfold wire, wire_body at 1, integrity_attrs, header.
    rewrite Hm, enc_attrs_app, enc_attrs_one. unfold tlv. rewrite <- !app_assoc.
    change (zlen (hmac_sha1 _ _)) with (zlen mac). unfold zlen at 1. rewrite Hmac.
    subst t mid mac. by rewrite <- !app_assoc. }
  unfold StunAuth.authentic, StunAuth.integrity_value, StunAuth.integrity_text.
  cbn [received hasFingerprint]. rewrite Hz, Hw.
  transitivity mac.
  - replace (Z.to_nat (24 + attrs_size p)) with (4 + (length mid + 4))%nat by lia.
    rewrite <- !drop_drop. change (drop 4 ((t ++ to_be 2 ?n) ++ ?x)) with x.
    rewrite drop_app_length. change (drop 4 _) with (mac ++ fp). rewrite <- Hmac. apply take_app_length.
  - change (drop 4 ((t ++ to_be 2 ?n) ++ ?x)) with x.
    change (take 2 ((t ++ to_be 2 ?n) ++ ?x)) with t.
    replace (Z.to_nat (24 + attrs_size p - 8)) with (length mid) by lia.
    by rewrite take_app_length.
Qed.
End roundtrip.

(** C19: on a message of the format, with any list of well-formed attributes and
    any transaction id, Parse computes the meaning of the attribute list: each
    attribute in turn, nothing but FINGERPRINT behind MESSAGE-INTEGRITY, nothing
    behind FINGERPRINT, sizes checked, and the FINGERPRINT compared at the end. *)
Theorem Parse_decodes t tid l :
  0 ≤ t < 768 → length tid = 12%nat → Forall wf_attr l → zlen (enc_attrs l) < 65516 →
  Parse (message t tid l) (zlen (message t tid l)) = decode t tid l.
Proof. apply Parse_message. Qed.

Definition sample_attrs : list attr :=
  [(USERNAME, str "ab:c", []); (PRIORITY, to_be 4 5, []); (USE_CANDIDATE, [], [])].

Lemma sample_attrs_wf : Forall wf_attr sample_attrs.
Proof.
  repeat constructor; try done; apply (bool_decide_unpack _); by vm_compute.
Qed.

Lemma Parse_decodes_witness :
  Parse (message 1 (seqZ 1 12) sample_attrs) (zlen (message 1 (seqZ 1 12) sample_attrs))
  = decode 1 (seqZ 1 12) sample_attrs ∧
  ∃ p, decode 1 (seqZ 1 12) sample_attrs = Ok (Some p) ∧
    klass p = REQUEST ∧ username p = str "ab:c" ∧ priority p = 5 ∧ hasUseCandidate p = true.
Proof.
  split.
  - apply (Parse_decodes 1 (seqZ 1 12) sample_attrs); [lia|done|apply sample_attrs_wf|by vm_compute].
  - eexists. split; [vm_compute; reflexivity|by vm_compute].
Defined.

(** C15: what Serialize writes, Parse reads back: class, method, transaction id,
    USERNAME, PRIORITY, ICE roles, USE-CANDIDATE and ERROR-CODE return
    unchanged, the FINGERPRINT is accepted, and MESSAGE-INTEGRITY is present
    exactly when it was added. *)
Theorem Parse_Serialize `{HmacSha1} p buffer :
  wf_outgoing p → 0 ≤ method p < 128 → bytes_ok buffer → serialized_size p ≤ zlen buffer →
  ∃ p' data, Serialize p buffer = Ok p' ∧ data_ p' = Some data ∧
    let sent := take (Z.to_nat (serialized_size p)) data in
    Parse sent (serialized_size p) = Ok (Some (received p sent)).
Proof.
  intros Hp Hm Hb Hs. destruct (Serialize_spec p buffer Hp Hb Hs) as (pad & Hl & Hpb & ->).
  do 2 eexists. split; [done|]. split; [done|]. cbv zeta.
  rewrite take_app_le, take_ge by (pose proof (zlen_wire p pad Hp Hl); unfold zlen in *; lia).
  by apply Parse_wire.
Qed.

Lemma Parse_Serialize_witness :
  ∃ p' data, @Serialize toy_hmac sample_response (replicate 100 0xEE) = Ok p' ∧
    data_ p' = Some data ∧
    let sent := take (Z.to_nat (serialized_size sample_response)) data in
    Parse sent (serialized_size sample_response) = Ok (Some (received sample_response sent)).
Proof.
  apply (@Parse_Serialize toy_hmac sample_response (replicate 100 0xEE)).
  - apply sample_response_wf.
  - by vm_compute.
  - apply (bool_decide_unpack _). by vm_compute.
  - by vm_compute.
Defined.

(** C16: a request or indication that names the receiver and is serialized
    with the receiver's password passes its CheckAuthentication: the digest the
    sender puts on the wire is the one the receiver recomputes. *)
Theorem Serialize_authenticates `{HmacSha1} p buffer fragment rest :
  wf_outgoing p → 0 ≤ method p < 128 → bytes_ok buffer → serialized_size p ≤ zlen buffer →
  klass p = REQUEST ∨ klass p = INDICATION → username p = fragment ++ [58] ++ rest →
  password p ≠ [] →
  ∃ p' data q, Serialize p buffer = Ok p' ∧ data_ p' = Some data ∧
    Parse (take (Z.to_nat (serialized_size p)) data) (serialized_size p) = Ok (Some q) ∧
    CheckAuthentication q fragment (password p) = Ok (q, OK).
Proof.
  intros Hp Hm Hb Hs Hk Hu Hpw. destruct (Serialize_spec p buffer Hp Hb Hs) as (pad & Hl & Hpb & ->).
  exists (serialized p pad (drop (Z.to_nat (serialized_size p)) buffer)).
  eexists. exists (received p (wire p pad)). split; [done|]. split; [done|].
  pose proof (zlen_wire p pad Hp Hl) as Hz. destruct (serialized_size_bound p Hp) as [Hsb _].
  rewrite take_app_le, take_ge by (unfold zlen in *; lia).
  pose proof (Parse_wire p pad Hp Hm Hl Hpb) as HP. split; [done|].
  assert (zlen (wire p pad) < 65536) as Hlt by lia.
  pose proof (StunParse.Parse_wp (wire p pad)) as Hacc. rewrite Hz in Hacc.
  specialize (Hacc (wire_bytes p pad Hp Hpb) ltac:(lia)). rewrite HP in Hacc.
  specialize (Hacc _ eq_refl).
  destruct (StunAuth.CheckAuthentication_spec _ _ fragment (password p)
    (wire_bytes p pad Hp Hpb) Hlt Hacc) as (r & -> & Hok & _).
  assert (r = OK) as ->; [|done]. apply Hok.
  assert (addMessageIntegrity p = true) as HM.
  { unfold addMessageIntegrity. rewrite !bool_decide_false; [done|done|].
    by destruct Hk as [-> | ->]. }
  split; [done|]. split; [by exists rest|]. exists (24 + attrs_size p). split.
  - unfold received. cbn [messageIntegrity]. by rewrite HM.
  - by apply wire_authentic.
Qed.

Definition sample_outgoing : StunPacket :=
  SetPassword (str "pw") (SetPriority 7 (SetUsername (str "ab:cd")
    (newStunPacket REQUEST BINDING (seqZ 1 12) None 0))).

Lemma Serialize_authenticates_witness :
  ∃ p' data q, @Serialize toy_hmac sample_outgoing (replicate 100 0xEE) = Ok p' ∧
    data_ p' = Some data ∧
    Parse (take (Z.to_nat (serialized_size sample_outgoing)) data) (serialized_size sample_outgoing)
    = Ok (Some q) ∧
    @CheckAuthentication toy_hmac q (str "ab") (str "pw") = Ok (q, OK).
Proof.
  apply (@Serialize_authenticates toy_hmac sample_outgoing (replicate 100 0xEE) (str "ab") (str "cd")).
  - split; try done; apply (bool_decide_unpack _); by vm_compute.
  - by vm_compute.
  - apply (bool_decide_unpack _). by vm_compute.
  - by vm_compute.
  - by left.
  - done.
  - done.
Defined.
End StunRoundtrip.
