(* ===== verification/IceServer.v ===== *)
(** RTC::IceServer (src/rtc/ice_server.h, src/rtc/ice_server.cc): the server
    side of ICE-lite.  It answers Binding requests, checks their credentials
    (the current ones, or the previous ones while a restart is under way) and
    completes with the tuple of the first authenticated request. *)
From S2P Require Import Prelude ByteOps Crypto StunPacket StunParse StunAuth StunSerialize StunRoundtrip.

Module Ice.
Import Crypto Stun.

(** ** State *)
Inductive IceState := NEW | CONNECTED | COMPLETED | DISCONNECTED.

#[export] Instance IceState_eq_dec : EqDecision IceState.
Proof. solve_decision. Defined.

(** [listener] says whether the pointer is set. *)
Record IceServer := mkIceServer {
  listener : bool;
  usernameFragment : list Z;
  ice_password : list Z;
  oldUsernameFragment : list Z;
  oldPassword : list Z;
  state : IceState;
  selectedTuple : option sockaddr_in;
}.

Definition newIceServer (listener : bool) (usernameFragment password : list Z) : IceServer :=
  mkIceServer listener usernameFragment password [] [] NEW None.

Definition SetUsernameFragment (u : list Z) (s : IceServer) : IceServer :=
  mkIceServer s.(listener) u s.(ice_password) s.(usernameFragment) s.(oldPassword)
    s.(state) s.(selectedTuple).

Definition SetIcePassword (w : list Z) (s : IceServer) : IceServer :=
  mkIceServer s.(listener) s.(usernameFragment) w s.(oldUsernameFragment) s.(ice_password)
    s.(state) s.(selectedTuple).

(** [oldUsernameFragment.clear(); oldPassword.clear()]. *)
Definition ClearOld (s : IceServer) : IceServer :=
  mkIceServer s.(listener) s.(usernameFragment) s.(ice_password) [] [] s.(state) s.(selectedTuple).

Definition SetState (st : IceState) (s : IceServer) : IceServer :=
  mkIceServer s.(listener) s.(usernameFragment) s.(ice_password) s.(oldUsernameFragment)
    s.(oldPassword) st s.(selectedTuple).

(** The listener callbacks the server makes. *)
Inductive Event :=
| SendStunPacket (packet : StunPacket) (tuple : sockaddr_in)
| SelectedTuple (tuple : sockaddr_in).

Definition StunSerializeBufferSize : Z := 65536.

(** ** Operations *)
Section ops.
Context `{HmacSha1}.

(** [response->Serialize(StunSerializeBuffer)] and the callback. *)
Definition send (s : IceServer) (buffer : list Z) (response : StunPacket) (tuple : sockaddr_in) :
    res (list Z * list Event) :=
  response ← Serialize response buffer;
  match response.(data_), s.(listener) with
  | Some buffer, true => Ok (buffer, [SendStunPacket response tuple])
  | _, _ => UB NullDeref
  end.

Definition HandleTuple (s : IceServer) (tuple : sockaddr_in) : IceServer * list Event :=
  if decide (s.(state) = COMPLETED) then (s, [])
  else (SetState COMPLETED s, if s.(listener) then [SelectedTuple tuple] else []).

(** The nested switch over CheckAuthentication: the error to reply with, if any. *)
Definition authenticate (s : IceServer) (packet : StunPacket) :
    res (StunPacket * IceServer * option Z) :=
  '(packet, a) ← CheckAuthentication packet s.(usernameFragment) s.(ice_password);
  match a with
  | OK => Ok (packet, if decide (s.(oldPassword) = []) then s else ClearOld s, None)
  | UNAUTHORIZED =>
      if decide (s.(oldUsernameFragment) = []) then Ok (packet, s, Some 401)
      else if decide (s.(oldPassword) = []) then Ok (packet, s, Some 401)
      else
        '(packet, a) ← CheckAuthentication packet s.(oldUsernameFragment) s.(oldPassword);
        match a with
        | OK => Ok (packet, s, None)
        | _ => Ok (packet, s, Some 401)
        end
  | BAD_REQUEST => Ok (packet, s, Some 400)
  end.

Definition reply_error (s : IceServer) (buffer : list Z) (packet : StunPacket)
    (tuple : sockaddr_in) (code : Z) : res (IceServer * list Z * StunPacket * list Event) :=
  response ← CreateErrorResponse packet code;
  '(buffer, evs) ← send s buffer response tuple;
  Ok (s, buffer, packet, evs).

Definition process_request (s : IceServer) (buffer : list Z) (packet : StunPacket)
    (tuple : sockaddr_in) : res (IceServer * list Z * StunPacket * list Event) :=
  if negb (HasMessageIntegrity packet) || (packet.(priority) =? 0)
     || bool_decide (packet.(username) = [])
  then reply_error s buffer packet tuple 400
  else
    '(packet, s, err) ← authenticate s packet;
    match err with
    | Some code => reply_error s buffer packet tuple code
    | None =>
        response ← CreateSuccessResponse packet;
        let response := SetXorMappedAddress (AF_INET tuple) response in
        let response := Authenticate response
          (if decide (s.(oldPassword) = []) then s.(ice_password) else s.(oldPassword)) in
        '(buffer, evs) ← send s buffer response tuple;
        let '(s, evs') := HandleTuple s tuple in
        Ok (s, buffer, packet, evs ++ evs')
    end.

Definition ProcessStunPacket (s : IceServer) (buffer : list Z) (packet : StunPacket)
    (tuple : sockaddr_in) : res (IceServer * list Z * StunPacket * list Event) :=
  if negb (packet.(method) =? BINDING) then
    if decide (packet.(klass) = REQUEST) then reply_error s buffer packet tuple 400
    else Ok (s, buffer, packet, [])
  else if negb packet.(hasFingerprint) && negb (bool_decide (packet.(klass) = INDICATION)) then
    if decide (packet.(klass) = REQUEST) then reply_error s buffer packet tuple 400
    else Ok (s, buffer, packet, [])
  else
    match packet.(klass) with
    | REQUEST => process_request s buffer packet tuple
    | INDICATION | SUCCESS_RESPONSE | ERROR_RESPONSE => Ok (s, buffer, packet, [])
    end.
End ops.

(** ** The contract *)
Import StunParse StunAuth StunSerialize StunRoundtrip.

Inductive answer := Nothing | ErrorReply (code : Z) | SuccessReply (pw : list Z).

(** A request with everything the ICE profile requires. *)
Definition complete (p : StunPacket) : Prop :=
  method p = BINDING ∧ hasFingerprint p = true ∧ messageIntegrity p ≠ None ∧
  priority p ≠ 0 ∧ username p ≠ [].

Definition error_response (p : StunPacket) (code : Z) : StunPacket :=
  SetErrorCode code (newStunPacket ERROR_RESPONSE (method p) (transactionId p) None 0).

Definition success_response (p : StunPacket) (tuple : sockaddr_in) (pw : list Z) : StunPacket :=
  Stun.SetPassword pw (SetXorMappedAddress (AF_INET tuple)
    (newStunPacket SUCCESS_RESPONSE (method p) (transactionId p) None 0)).

(** The bytes a packet to be sent stands for. *)
Definition datagram (p : StunPacket) : option (list Z) :=
  data ← data_ p;
  match rd_range data 0 (size_ p) with Ok bytes => Some bytes | _ => None end.

Section contract.
Context `{HmacSha1}.

Definition current_ok (s : IceServer) (data : list Z) (p : StunPacket) : Prop :=
  authorized data p (usernameFragment s) (ice_password s).

Definition old_ok (s : IceServer) (data : list Z) (p : StunPacket) : Prop :=
  oldUsernameFragment s ≠ [] ∧ oldPassword s ≠ [] ∧
  authorized data p (oldUsernameFragment s) (oldPassword s).

(** What the server owes to a packet, and its state afterwards. *)
Inductive judge (s : IceServer) (data : list Z) (p : StunPacket) : answer → IceServer → Prop :=
| judge_ignore : klass p ≠ REQUEST → judge s data p Nothing s
| judge_bad : klass p = REQUEST → ¬ complete p → judge s data p (ErrorReply 400) s
| judge_wrong : klass p = REQUEST → complete p → ¬ current_ok s data p → ¬ old_ok s data p →
    judge s data p (ErrorReply 401) s
| judge_new : klass p = REQUEST → complete p → current_ok s data p →
    judge s data p (SuccessReply (ice_password s))
      (SetState COMPLETED (if decide (oldPassword s = []) then s else ClearOld s))
| judge_old : klass p = REQUEST → complete p → ¬ current_ok s data p → old_ok s data p →
    judge s data p (SuccessReply (oldPassword s)) (SetState COMPLETED s).

(** The callbacks that carry out an answer. *)
Definition carries_out (s : IceServer) (p : StunPacket) (tuple : sockaddr_in)
    (a : answer) (evs : list Event) : Prop :=
  match a with
  | Nothing => evs = []
  | ErrorReply code => ∃ r, evs = [SendStunPacket r tuple] ∧
      datagram r = Some (wire (error_response p code) [])
  | SuccessReply pw => ∃ r,
      evs = SendStunPacket r tuple ::
            (if decide (state s = COMPLETED) then [] else [SelectedTuple tuple]) ∧
      datagram r = Some (wire (success_response p tuple pw) [])
  end.

(** ** Lemmas *)
Definition buffer_ok (b : list Z) : Prop := bytes_ok b ∧ zlen b = StunSerializeBufferSize.
Definition tuple_ok (t : sockaddr_in) : Prop := wf_addr (AF_INET t).

Lemma pad_len_empty p : username p = [] → pad_len p = 0%nat.
Proof. intros E. unfold pad_len. by rewrite decide_True. Qed.

Lemma send_spec s buffer r tuple :
  listener s = true → buffer_ok buffer → wf_outgoing r → username r = [] →
  ∃ buffer' r', send s buffer r tuple = Ok (buffer', [SendStunPacket r' tuple]) ∧
    buffer_ok buffer' ∧ datagram r' = Some (wire r []).
Proof.
  intros Hlis [Hb Hlen] Hr Hu. destruct (serialized_size_bound r Hr) as [Hs _].
  assert (serialized_size r ≤ zlen buffer) as Hle by (rewrite Hlen; unfold StunSerializeBufferSize; lia).
  destruct (Serialize_spec r buffer Hr Hb Hle) as (pad & Hl & Hpb & HS).
  pose proof (zlen_wire r pad Hr Hl) as Hz. rewrite (pad_len_empty r Hu) in Hl.
  apply length_zero_iff_nil in Hl as ->.
  exists (wire r [] ++ drop (Z.to_nat (serialized_size r)) buffer),
    (serialized r [] (drop (Z.to_nat (serialized_size r)) buffer)).
  split; [|split; [split|]].
  - unfold send. rewrite HS, Hlis. done.
  - apply Forall_app_2; [by apply wire_bytes|by apply Forall_drop].
  - rewrite zlen_app, Hz. unfold zlen in *. rewrite length_drop. lia.
  - unfold datagram, serialized. cbn [size_ data_ SetFingerprint SetMessageIntegrity SetSize SetData mbind option_bind].
    pose proof (rd_range_app [] (wire r []) (drop (Z.to_nat (serialized_size r)) buffer) 0 (serialized_size r))
      as Hrd. cbn [app] in Hrd. by rewrite Hrd.
Qed.

Lemma error_response_wf data p code :
  wf_received data p → 0 ≤ code < 25600 → wf_outgoing (error_response p code).
Proof. intros [] ?. by split. Qed.

Lemma success_response_wf data p tuple pw :
  wf_received data p → tuple_ok tuple → wf_outgoing (success_response p tuple pw).
Proof. intros [] ?. split; try done. by intros a [= <-]. Qed.

Lemma reply_error_spec s buffer data p tuple code :
  listener s = true → buffer_ok buffer → wf_received data p → klass p = REQUEST →
  0 ≤ code < 25600 →
  ∃ buffer' evs, reply_error s buffer p tuple code = Ok (s, buffer', p, evs) ∧
    buffer_ok buffer' ∧ carries_out s p tuple (ErrorReply code) evs.
Proof.
  intros Hlis Hb Hwf Hk Hc.
  destruct (send_spec s buffer (error_response p code) tuple) as (b' & r' & HS & Hb' & Hd);
    eauto using error_response_wf.
  exists b', [SendStunPacket r' tuple]. split; [|split; [done|by exists r']].
  unfold reply_error, CreateErrorResponse. rewrite bool_decide_true by done.
  cbn [ms_assert mbind res_bind]. fold (error_response p code). by rewrite HS.
Qed.

(** The switch decides between the two credential pairs. *)
Lemma authenticate_spec s data p :
  bytes_ok data → zlen data < 65536 → accepted data p →
  klass p = REQUEST → messageIntegrity p ≠ None → username p ≠ [] →
  ∃ s' err, authenticate s p = Ok (p, s', err) ∧
    ((current_ok s data p ∧ err = None ∧
        s' = if decide (oldPassword s = []) then s else ClearOld s) ∨
     (¬ current_ok s data p ∧ old_ok s data p ∧ err = None ∧ s' = s) ∨
     (¬ current_ok s data p ∧ ¬ old_ok s data p ∧ err = Some 401 ∧ s' = s)).
Proof.
  intros Hb Hlt Hacc Hk Hmi Hu. unfold authenticate, current_ok, old_ok.
  destruct (CheckAuthentication_spec data p (usernameFragment s) (ice_password s) Hb Hlt Hacc)
    as (r & -> & Hok & Hbad). cbn [mbind res_bind].
  assert (r ≠ BAD_REQUEST) as Hnb.
  { rewrite Hbad, Hk. intros [?|[?|[?|?]]]; done. }
  destruct r; [eexists _, _; split; [done|naive_solver]| |done].
  destruct (decide (oldUsernameFragment s = [])); [eexists _, _; split; [done|naive_solver]|].
  destruct (decide (oldPassword s = [])); [eexists _, _; split; [done|naive_solver]|].
  destruct (CheckAuthentication_spec data p (oldUsernameFragment s) (oldPassword s) Hb Hlt Hacc)
    as (r & -> & Hok' & Hbad'). cbn [mbind res_bind].
  destruct r; eexists _, _; (split; [done|naive_solver]).
Qed.

Lemma SetState_id s : state s = COMPLETED → SetState COMPLETED s = s.
Proof. destruct s. cbn. by intros ->. Qed.

Lemma success_spec s buffer data p tuple pw :
  listener s = true → buffer_ok buffer → tuple_ok tuple → wf_received data p → klass p = REQUEST →
  ∃ buffer' r',
    (response ← CreateSuccessResponse p;
     send s buffer (Authenticate (SetXorMappedAddress (AF_INET tuple) response) pw) tuple)
    = Ok (buffer', [SendStunPacket r' tuple]) ∧
    buffer_ok buffer' ∧ datagram r' = Some (wire (success_response p tuple pw) []).
Proof.
  intros Hlis Hb Ht Hwf Hk.
  destruct (send_spec s buffer (success_response p tuple pw) tuple) as (b' & r' & HS & Hb' & Hd);
    eauto using success_response_wf.
  exists b', r'. split; [|done]. unfold CreateSuccessResponse. by rewrite bool_decide_true.
Qed.

Lemma process_request_spec s buffer data p tuple :
  bytes_ok data → zlen data < 65536 → accepted data p →
  listener s = true → buffer_ok buffer → tuple_ok tuple →
  klass p = REQUEST → method p = BINDING → hasFingerprint p = true →
  ∃ a s' buffer' evs, process_request s buffer p tuple = Ok (s', buffer', p, evs) ∧
    judge s data p a s' ∧ carries_out s p tuple a evs ∧ buffer_ok buffer'.
Proof.
  intros Hb Hlt Hacc Hlis Hbuf Ht Hk Hm Hf. pose proof (acc_wf _ _ Hacc) as Hwf.
  unfold process_request. destruct (negb (HasMessageIntegrity p) || _ || _) eqn:Hreq.
  { destruct (reply_error_spec s buffer data p tuple 400) as (b' & evs & HE & Hb' & Hc);
      [done..|lia|].
    exists (ErrorReply 400), s, b', evs. split; [done|]. split; [|done].
    apply judge_bad; [done|]. intros (_ & _ & Hmi & Hp & Hu). revert Hreq.
    unfold HasMessageIntegrity. rewrite !orb_true_iff, negb_true_iff, bool_decide_eq_false,
      Z.eqb_eq, bool_decide_eq_true, <- eq_None_not_Some. naive_solver. }
  revert Hreq. unfold HasMessageIntegrity. rewrite !orb_false_iff, negb_false_iff,
    bool_decide_eq_true, Z.eqb_neq, bool_decide_eq_false, <- not_eq_None_Some.
  intros [[Hmi Hp] Hu].
  assert (complete p) as Hcomp by done.
  destruct (authenticate_spec s data p) as (s1 & err & -> & Hcases); try done.
  cbn [mbind res_bind].
  assert (listener s1 = true) as Hl1 by (naive_solver (case_decide; done)).
  destruct err as [code|].
  { destruct (reply_error_spec s1 buffer data p tuple code) as (b' & evs & HE & Hb' & Hc);
      [done..|naive_solver lia|].
    exists (ErrorReply code), s1, b', evs. split; [done|]. split; [|done].
    destruct Hcases as [(_ & ? & _)|[(_ & _ & ? & _)|(? & ? & [= ->] & ->)]]; try done.
    by apply judge_wrong. }
  set (pw := if decide (oldPassword s1 = []) then ice_password s1 else oldPassword s1).
  destruct (success_spec s1 buffer data p tuple pw) as (b' & r' & HS & Hb' & Hd); [done..|].
  exists (SuccessReply pw), (SetState COMPLETED s1), b',
    (SendStunPacket r' tuple :: (if decide (state s = COMPLETED) then [] else [SelectedTuple tuple])).
  assert (state s1 = state s) as Hst by (naive_solver (case_decide; done)).
  split; [|split; [|split; [by exists r'|done]]].
  - destruct (CreateSuccessResponse p) as [resp| | | |]; cbn [mbind res_bind] in HS |- *; try done.
    rewrite HS. cbn [mbind res_bind]. unfold HandleTuple. rewrite Hl1, Hst.
    destruct (decide (state s = COMPLETED)) as [E|E]; cbn; [|done].
    rewrite (SetState_id s1) by congruence. done.
  - destruct Hcases as [(? & _ & ->)|[(? & (? & ? & ?) & _ & ->)|(_ & _ & ? & _)]]; [| |done].
    + replace pw with (ice_password s); [by apply judge_new|]. subst pw.
      by destruct (decide (oldPassword s = [])) as [E|E]; [rewrite decide_True|].
    + subst pw. rewrite decide_False by done. by apply judge_old.
Qed.

Lemma ProcessStunPacket_spec s buffer data p tuple :
  bytes_ok data → zlen data < 65536 → accepted data p →
  listener s = true → buffer_ok buffer → tuple_ok tuple →
  ∃ a s' buffer' evs, ProcessStunPacket s buffer p tuple = Ok (s', buffer', p, evs) ∧
    judge s data p a s' ∧ carries_out s p tuple a evs ∧ buffer_ok buffer'.
Proof.
  intros Hb Hlt Hacc Hlis Hbuf Ht. pose proof (acc_wf _ _ Hacc) as Hwf.
  assert (klass p = REQUEST → ¬ complete p →
    ∃ a s' buffer' evs, reply_error s buffer p tuple 400 = Ok (s', buffer', p, evs) ∧
      judge s data p a s' ∧ carries_out s p tuple a evs ∧ buffer_ok buffer') as Herr.
  { intros Hk Hc. destruct (reply_error_spec s buffer data p tuple 400) as (b' & evs & HE & Hb' & He);
      [done..|lia|].
    exists (ErrorReply 400), s, b', evs. split; [done|]. split; [by apply judge_bad|done]. }
  assert (klass p ≠ REQUEST →
    ∃ a s' buffer' evs, @Ok (IceServer * list Z * StunPacket * list Event) (s, buffer, p, [])
      = Ok (s', buffer', p, evs) ∧
      judge s data p a s' ∧ carries_out s p tuple a evs ∧ buffer_ok buffer') as Hign.
  { intros Hk. exists Nothing, s, buffer, []. split; [done|]. split; [by apply judge_ignore|done]. }
  unfold ProcessStunPacket.
  destruct (Z.eqb_spec (method p) BINDING) as [Hm|Hm]; cbn [negb].
  2: { case_decide; [apply Herr; [done|]|by apply Hign]. unfold complete. naive_solver. }
  destruct (negb (hasFingerprint p) && _) eqn:Hf.
  { apply andb_true_iff in Hf as [Hf%negb_true_iff _].
    case_decide; [apply Herr; [done|]|by apply Hign]. unfold complete. naive_solver congruence. }
  destruct (klass p) eqn:Hk; try (by apply Hign).
  apply process_request_spec; try done.
  rewrite bool_decide_false, andb_true_r in Hf by done. by apply negb_false_iff.
Qed.

Lemma Parse_accepted data p :
  bytes_ok data → zlen data < 65536 → Parse data (zlen data) = Ok (Some p) → accepted data p.
Proof. intros Hb Hlt Hp. pose proof (Parse_wp data Hb Hlt) as Hw. rewrite Hp in Hw. by apply Hw. Qed.

(** ** Runs *)
Inductive ice_step : IceServer → list Event → IceServer → Prop :=
| step_packet s s' data p tuple buffer buffer' p' evs :
    bytes_ok data → zlen data < 65536 → Parse data (zlen data) = Ok (Some p) →
    buffer_ok buffer → tuple_ok tuple →
    ProcessStunPacket s buffer p tuple = Ok (s', buffer', p', evs) → ice_step s evs s'
| step_fragment s u : ice_step s [] (SetUsernameFragment u s)
| step_password s w : ice_step s [] (SetIcePassword w s).

Inductive ice_run (s0 : IceServer) : list Event → IceServer → Prop :=
| run_nil : ice_run s0 [] s0
| run_snoc evs s evs' s' : ice_run s0 evs s → ice_step s evs' s' → ice_run s0 (evs ++ evs') s'.

Lemma run_one s evs s' : ice_step s evs s' → ice_run s evs s'.
Proof. intros Hs. apply (run_snoc s [] s evs s'); [constructor|done]. Qed.

Definition selection (e : Event) : option sockaddr_in :=
  match e with SelectedTuple t => Some t | SendStunPacket _ _ => None end.
Definition selections (evs : list Event) : list sockaddr_in := omap selection evs.

Lemma selections_app l k : selections (l ++ k) = selections l ++ selections k.
Proof. apply omap_app. Qed.

Record run_inv (evs : list Event) (s : IceServer) : Prop := {
  ri_listener : listener s = true;
  ri_state : (state s = NEW ∧ selections evs = []) ∨
             (state s = COMPLETED ∧ length (selections evs) = 1%nat);
  ri_selected : selectedTuple s = None;
}.

Lemma judge_state s data p a s' :
  judge s data p a s' → listener s' = listener s ∧ selectedTuple s' = selectedTuple s ∧
    state s' = match a with SuccessReply _ => COMPLETED | _ => state s end.
Proof. destruct 1; try done. by case_decide. Qed.

Lemma judge_fragment s data p a s' : judge s data p a s' → usernameFragment s' = usernameFragment s.
Proof. destruct 1; try done. by case_decide. Qed.

Lemma carries_out_selections s p tuple a evs :
  carries_out s p tuple a evs →
  selections evs = match a with
    | SuccessReply _ => if decide (state s = COMPLETED) then [] else [tuple]
    | _ => [] end.
Proof.
  destruct a; cbn; [by intros ->|by intros (r & -> & _)|]. intros (r & -> & _). by case_decide.
Qed.

Lemma ice_step_inv evs s evs' s' : run_inv evs s → ice_step s evs' s' → run_inv (evs ++ evs') s'.
Proof.
  intros [Hl Hst Hsel] Hstep. destruct Hstep as [s s' data p tuple buffer buffer' p' evs' Hb Hlt HP Hbuf Ht HS|s u|s w];
    [|rewrite app_nil_r; by split..].
  destruct (ProcessStunPacket_spec s buffer data p tuple) as (a & s1 & b1 & ev1 & HE & Hj & Hc & _);
    eauto using Parse_accepted. rewrite HE in HS. simplify_eq.
  apply judge_state in Hj as (Hl' & Hsel' & Hst'). apply carries_out_selections in Hc.
  split; [congruence| |congruence]. rewrite selections_app, Hc, Hst'.
  destruct a; rewrite ?app_nil_r; try done. right. split; [done|].
  destruct Hst as [[-> ->]|[-> Hlen]]; cbn; [done|by rewrite app_nil_r].
Qed.

Lemma ice_run_inv u w evs s : ice_run (newIceServer true u w) evs s → run_inv evs s.
Proof.
  induction 1 as [|evs s evs' s' _ IH Hs]; [split; cbn; auto|]. by eapply ice_step_inv.
Qed.
End contract.

(** ** Properties *)

(** C14: for every packet Parse returns, ProcessStunPacket runs without fault or
    assertion failure, answers exactly as the contract says (silence for
    anything but a request, 400 for an incomplete request, 401 for wrong
    credentials, a success response under the credentials that authenticated
    the request), emits the datagram the format prescribes, and leaves state,
    received packet and serialization buffer fit for the next packet. *)
Theorem ProcessStunPacket_correct `{HmacSha1} s buffer data p tuple :
  bytes_ok data → zlen data < 65536 → Parse data (zlen data) = Ok (Some p) →
  listener s = true → buffer_ok buffer → tuple_ok tuple →
  ∃ a s' buffer' evs, ProcessStunPacket s buffer p tuple = Ok (s', buffer', p, evs) ∧
    judge s data p a s' ∧ carries_out s p tuple a evs ∧ buffer_ok buffer'.
Proof. intros. eapply ProcessStunPacket_spec; eauto using Parse_accepted. Qed.

Definition sample_server : IceServer := newIceServer true (str "ab") (str "pw").
Definition zero_buffer : list Z := replicate 65536 0.

Lemma zero_buffer_ok : buffer_ok zero_buffer.
Proof.
  split; [apply Forall_replicate; done|]. unfold zlen, zero_buffer. by rewrite length_replicate.
Qed.

Lemma sample_tuple_ok : tuple_ok sample_addr.
Proof. split; [done|]. split; [|split; [done|]]; apply (bool_decide_unpack _); by vm_compute. Qed.

Lemma sample_signed_bytes : bytes_ok sample_signed.
Proof. apply (bool_decide_unpack _). by vm_compute. Qed.

Lemma ProcessStunPacket_correct_witness :
  ∃ a s' buffer' evs,
    @ProcessStunPacket toy_hmac sample_server zero_buffer sample_packet sample_addr
      = Ok (s', buffer', sample_packet, evs) ∧
    @judge toy_hmac sample_server sample_signed sample_packet a s' ∧
    @carries_out toy_hmac sample_server sample_packet sample_addr a evs ∧ buffer_ok buffer'.
Proof.
  apply (@ProcessStunPacket_correct toy_hmac sample_server zero_buffer sample_signed sample_packet
           sample_addr).
  - apply sample_signed_bytes.
  - by vm_compute.
  - by vm_compute.
  - done.
  - apply zero_buffer_ok.
  - apply sample_tuple_ok.
Defined.

(** A packet that is authentic under neither credential pair changes
    nothing: the server state is the same object, no tuple is selected, and the
    only thing that can leave is an error response without integrity. *)
Lemma unauthorized_changes_nothing `{HmacSha1} s buffer data p tuple s' buffer' p' evs :
  bytes_ok data → zlen data < 65536 → Parse data (zlen data) = Ok (Some p) →
  listener s = true → buffer_ok buffer → tuple_ok tuple →
  ¬ current_ok s data p → ¬ old_ok s data p →
  ProcessStunPacket s buffer p tuple = Ok (s', buffer', p', evs) →
  s' = s ∧ selections evs = [] ∧
  ∀ r t, SendStunPacket r t ∈ evs → klass p = REQUEST ∧ t = tuple ∧
    ∃ code, datagram r = Some (wire (error_response p code) []).
Proof.
  intros Hb Hlt HP Hl Hbuf Ht Hnc Hno HS.
  destruct (ProcessStunPacket_spec s buffer data p tuple) as (a & s1 & b1 & ev1 & HE & Hj & Hc & _);
    eauto using Parse_accepted. rewrite HE in HS. simplify_eq.
  pose proof (carries_out_selections _ _ _ _ _ Hc) as Hsel.
  destruct Hj; try done; (split; [done|]); (split; [done|]); cbn in Hc.
  - subst. by intros r t ?%elem_of_nil.
  - destruct Hc as (r & -> & Hd). intros r' t [= -> ->]%list_elem_of_singleton.
    split; [done|]. split; [done|]. exists 400. exact Hd.
  - destruct Hc as (r & -> & Hd). intros r' t [= -> ->]%list_elem_of_singleton.
    split; [done|]. split; [done|]. exists 401. exact Hd.
Qed.

Definition wrong_server : IceServer := newIceServer true (str "ab") (str "pv").
Definition run_result {A} (r : res A) (d : A) : A := match r with Ok a => a | _ => d end.
Definition wrong_result :=
  run_result (@ProcessStunPacket toy_hmac wrong_server zero_buffer sample_packet sample_addr)
    (wrong_server, [], sample_packet, []).

(** The sample packet is processed by any server, and the outcome evaluates. *)
Lemma sample_processed s r :
  listener s = true →
  r = run_result (@ProcessStunPacket toy_hmac s zero_buffer sample_packet sample_addr)
        (s, [], sample_packet, []) →
  @ProcessStunPacket toy_hmac s zero_buffer sample_packet sample_addr
  = Ok (r.1.1.1, r.1.1.2, r.1.2, r.2).
Proof.
  intros Hl ->. destruct (@ProcessStunPacket_spec toy_hmac s zero_buffer sample_signed sample_packet
    sample_addr) as (a & s' & b' & evs & -> & _); [..|done]; auto using sample_signed_bytes,
    zero_buffer_ok, sample_tuple_ok.
  - by vm_compute.
  - apply Parse_accepted; [apply sample_signed_bytes|by vm_compute..].
Qed.

Lemma wrong_not_current : ¬ @current_ok toy_hmac wrong_server sample_signed sample_packet.
Proof.
  intros (_ & _ & m & Hm & Ha).
  assert (messageIntegrity sample_packet = Some 40) as Hm' by (vm_compute; reflexivity).
  rewrite Hm' in Hm. injection Hm as <-. unfold authentic in Ha. apply (bool_decide_pack _) in Ha. revert Ha.
  by vm_compute.
Qed.

Lemma wrong_not_old : ¬ @old_ok toy_hmac wrong_server sample_signed sample_packet.
Proof. intros [Ho _]. by apply Ho. Qed.

Lemma unauthorized_changes_nothing_witness :
  wrong_result.1.1.1 = wrong_server ∧ selections wrong_result.2 = [] ∧
  ∀ r t, SendStunPacket r t ∈ wrong_result.2 → klass sample_packet = REQUEST ∧ t = sample_addr ∧
    ∃ code, datagram r = Some (@wire toy_hmac (error_response sample_packet code) []).
Proof.
  apply (@unauthorized_changes_nothing toy_hmac wrong_server zero_buffer sample_signed sample_packet
           sample_addr wrong_result.1.1.1 wrong_result.1.1.2 wrong_result.1.2 wrong_result.2).
  - apply sample_signed_bytes.
  - by vm_compute.
  - by vm_compute.
  - done.
  - apply zero_buffer_ok.
  - apply sample_tuple_ok.
  - apply wrong_not_current.
  - apply wrong_not_old.
  - by apply sample_processed.
Defined.

(** Over any sequence of received packets and credential changes, the server
    goes from NEW to COMPLETED at most once and selects a tuple exactly then;
    the [selectedTuple] field that GetSelectedTuple returns is never set. *)
Lemma selected_once `{HmacSha1} u w evs s :
  ice_run (newIceServer true u w) evs s →
  (length (selections evs) ≤ 1)%nat ∧
  (state s = COMPLETED ↔ selections evs ≠ []) ∧ (state s = NEW ↔ selections evs = []) ∧
  selectedTuple s = None.
Proof.
  intros Hr. destruct (ice_run_inv _ _ _ _ Hr) as [_ [[-> ->]|[-> Hl]] ->].
  - split; [cbn; lia|naive_solver].
  - destruct (selections evs) as [|t [|]]; done.
Qed.

Definition sample_result :=
  run_result (@ProcessStunPacket toy_hmac sample_server zero_buffer sample_packet sample_addr)
    (sample_server, [], sample_packet, []).

Lemma sample_run : @ice_run toy_hmac sample_server sample_result.2 sample_result.1.1.1.
Proof.
  apply run_one.
  apply (@step_packet toy_hmac _ _ sample_signed sample_packet sample_addr zero_buffer
           sample_result.1.1.2 sample_result.1.2).
  - apply sample_signed_bytes.
  - by vm_compute.
  - by vm_compute.
  - apply zero_buffer_ok.
  - apply sample_tuple_ok.
  - by apply sample_processed.
Qed.

Lemma selected_once_witness :
  state sample_result.1.1.1 = COMPLETED ∧ selections sample_result.2 = [sample_addr] ∧
  (length (selections sample_result.2) ≤ 1)%nat ∧ selectedTuple sample_result.1.1.1 = None.
Proof.
  pose proof (@selected_once toy_hmac (str "ab") (str "pw") sample_result.2 sample_result.1.1.1
                sample_run) as (Hl & _ & _ & Hs).
  split; [by vm_compute|]. split; [by vm_compute|]. by split.
Defined.

(** ** What the peer makes of a success response *)
Definition unxor_v4 (v : list Z) : sockaddr_in :=
  mkSockaddrIn (xor_list (take 2 (drop 2 v)) (take 2 magicCookie))
    (xor_list (take 4 (drop 4 v)) magicCookie).

Lemma unxor_xor tid t : tuple_ok t → unxor_v4 (xor_value tid (AF_INET t)) = t.
Proof.
  destruct t as [port addr]. intros (Hp & _ & Ha & _). cbn [sin_port s_addr] in *.
  unfold unxor_v4. cbn [xor_value sin_port s_addr].
  destruct port as [|p1 [|p2 [|]]]; try done. destruct addr as [|a1 [|a2 [|a3 [|a4 [|]]]]]; try done.
  cbn -[Z.lxor]. by rewrite !lxor_cancel.
Qed.


End Ice.
