(* ===== verification/Srtp.v ===== *)
(** RTC::SrtpSession (src/rtc/srtp_session.h, srtp_session.cc): policy selection,
    the encrypt buffer, and the length that is handed to libsrtp through a
    pointer cast.  libsrtp is a parameter. *)
From S2P Require Import Prelude ByteOps.

Module Srtp.

Inductive CryptoSuite :=
| SUITE_NONE | AES_CM_128_HMAC_SHA1_80 | AES_CM_128_HMAC_SHA1_32
| AEAD_AES_256_GCM | AEAD_AES_128_GCM.
Inductive SessionType := INBOUND | OUTBOUND.

#[export] Instance CryptoSuite_eq_dec : EqDecision CryptoSuite.
Proof. solve_decision. Defined.

(** The policy setters the code calls. *)
Inductive policy_setter :=
| srtp_crypto_policy_set_aes_cm_128_hmac_sha1_80
| srtp_crypto_policy_set_aes_cm_128_hmac_sha1_32
| srtp_crypto_policy_set_aes_gcm_256_16_auth
| srtp_crypto_policy_set_aes_gcm_128_16_auth.

(** [srtp_policy_t], the fields the code sets. *)
Record srtp_policy := mkPolicy {
  policy_rtp : policy_setter;
  policy_rtcp : policy_setter;
  policy_ssrc_type : SessionType;
  policy_ssrc_value : Z;
  policy_key : list Z;
  policy_allow_repeat_tx : Z;
  policy_window_size : Z;
}.

(** libsrtp: a session handle with its state; protect and unprotect work in
    place on a buffer and the int that holds the packet length. *)
Class LibSrtp := {
  srtp_t : Type;
  srtp_cipher_key_len : policy_setter → Z;
  srtp_create : srtp_policy → Z * srtp_t;
  srtp_protect : srtp_t → list Z → Z → Z * srtp_t * list Z * Z;
  srtp_unprotect : srtp_t → list Z → Z → Z * srtp_t * list Z * Z;
  srtp_protect_rtcp : srtp_t → list Z → Z → Z * srtp_t * list Z * Z;
  srtp_unprotect_rtcp : srtp_t → list Z → Z → Z * srtp_t * list Z * Z;
  srtp_remove_stream : srtp_t → Z → Z * srtp_t;
  srtp_dealloc : srtp_t → Z;
}.

Definition SRTP_MAX_TRAILER_LEN : Z := 144.
Definition kEncryptBufferSize : Z := 65536.
Definition srtp_err_status_ok : Z := 0.

Definition IsError (code : Z) : bool := negb (code =? srtp_err_status_ok).

(** [errors.at(code)] for the twenty-five known codes. *)
Definition errors_size : Z := 25.
Definition GetErrorString (code : Z) : res unit :=
  if (0 <=? code) && (code <? errors_size) then Ok () else Throw "out_of_range".

Section session.
Context `{LibSrtp}.

Record SrtpSession := mkSession {
  session : option srtp_t;
  is_init : bool;
  encrypt_buffer_ : list Z;
}.

Definition rtp_setter (s : CryptoSuite) : res policy_setter :=
  match s with
  | AES_CM_128_HMAC_SHA1_80 => Ok srtp_crypto_policy_set_aes_cm_128_hmac_sha1_80
  | AES_CM_128_HMAC_SHA1_32 => Ok srtp_crypto_policy_set_aes_cm_128_hmac_sha1_32
  | AEAD_AES_256_GCM => Ok srtp_crypto_policy_set_aes_gcm_256_16_auth
  | AEAD_AES_128_GCM => Ok srtp_crypto_policy_set_aes_gcm_128_16_auth
  | SUITE_NONE => Aborted "unknown SRTP crypto suite"
  end.

Definition rtcp_setter (s : CryptoSuite) : res policy_setter :=
  match s with
  | AES_CM_128_HMAC_SHA1_80 | AES_CM_128_HMAC_SHA1_32 =>
      Ok srtp_crypto_policy_set_aes_cm_128_hmac_sha1_80
  | AEAD_AES_256_GCM => Ok srtp_crypto_policy_set_aes_gcm_256_16_auth
  | AEAD_AES_128_GCM => Ok srtp_crypto_policy_set_aes_gcm_128_16_auth
  | SUITE_NONE => Aborted "unknown SRTP crypto suite"
  end.

(** The constructor; [buffer] is the uninitialised array of new[]. *)
Definition newSrtpSession (buffer : list Z) (type : SessionType) (cryptoSuite : CryptoSuite)
    (key : list Z) (keyLen : Z) : res SrtpSession :=
  rtp ← rtp_setter cryptoSuite;
  rtcp ← rtcp_setter cryptoSuite;
  ms_assert (keyLen =? srtp_cipher_key_len rtp)
    "given keyLen does not match policy.rtp.cipher_keyLen";;
  let policy := mkPolicy rtp rtcp type 0 key 1 1024 in
  let '(err, s) := srtp_create policy in
  if IsError err then GetErrorString err;; Throw "srtp_create() failed"
  else Ok (mkSession (Some s) true buffer).

(** The destructor. *)
Definition destroySrtpSession (s : SrtpSession) : res unit :=
  match s.(session) with
  | Some h => if IsError (srtp_dealloc h) then Aborted "srtp_dealloc() failed" else Ok ()
  | None => Ok ()
  end.

(** [reinterpret_cast<int*>(len)]: libsrtp reads and writes the low half of the
    size_t, as an int. *)
Definition as_int (len : Z) : Z :=
  let lo := u32 len in if lo <? 2 ^ 31 then lo else lo - 2 ^ 32.
Definition store_int (len : Z) (n : Z) : Z := Z.shiftr len 32 * 2 ^ 32 + u32 n.

(** How a result is handed back: the caller's buffer is untouched, or [*data]
    points at the encrypt buffer. *)
Inductive out := Unchanged | FromEncryptBuffer.

Definition encrypt (protect : srtp_t → list Z → Z → Z * srtp_t * list Z * Z)
    (s : SrtpSession) (data : list Z) (len : Z) : res (SrtpSession * bool * out * Z) :=
  if kEncryptBufferSize <? u64 (len + SRTP_MAX_TRAILER_LEN) then Ok (s, false, Unchanged, len)
  else
    copy ← rd_range data 0 len;
    buf ← memcpy s.(encrypt_buffer_) 0 copy;
    match s.(session) with
    | None => UB NullDeref
    | Some h =>
        let '(err, h, buf, n) := protect h buf (as_int len) in
        let s := mkSession (Some h) s.(is_init) buf in
        let len := store_int len n in
        if IsError err then GetErrorString err;; Ok (s, false, Unchanged, len)
        else Ok (s, true, FromEncryptBuffer, len)
    end.

Definition EncryptRtp (s : SrtpSession) (data : list Z) (len : Z) :
    res (SrtpSession * bool * out * Z) :=
  if negb s.(is_init) then Ok (s, false, Unchanged, len)
  else encrypt srtp_protect s data len.

Definition EncryptRtcp (s : SrtpSession) (data : list Z) (len : Z) :
    res (SrtpSession * bool * out * Z) :=
  encrypt srtp_protect_rtcp s data len.

(** In place on the caller's buffer. *)
Definition decrypt (unprotect : srtp_t → list Z → Z → Z * srtp_t * list Z * Z)
    (s : SrtpSession) (data : list Z) (len : Z) : res (SrtpSession * bool * list Z * Z) :=
  match s.(session) with
  | None => UB NullDeref
  | Some h =>
      let '(err, h, data, n) := unprotect h data (as_int len) in
      let s := mkSession (Some h) s.(is_init) s.(encrypt_buffer_) in
      let len := store_int len n in
      if IsError err then GetErrorString err;; Ok (s, false, data, len)
      else Ok (s, true, data, len)
  end.

Definition DecryptSrtp := decrypt srtp_unprotect.
Definition DecryptSrtcp := decrypt srtp_unprotect_rtcp.

(** htonl on a little-endian machine: the bytes in the other order. *)
Definition htonl (x : Z) : Z := of_be (rev (to_be 4 x)).

(** The status is not looked at. *)
Definition RemoveStream (s : SrtpSession) (ssrc : Z) : res SrtpSession :=
  match s.(session) with
  | None => UB NullDeref
  | Some h => Ok (mkSession (Some (srtp_remove_stream h (htonl ssrc)).2) s.(is_init) s.(encrypt_buffer_))
  end.
End session.

(** ** What libsrtp documents *)

(** The behaviour of protect and unprotect: known status codes; the buffer keeps
    its size; on success protect of [n] bytes adds at most the trailer, and may
    use the room for it behind the packet, and unprotect does not grow the packet.
    On an error the length is an undefined int. *)
Definition protects {T} (protect : T → list Z → Z → Z * T * list Z * Z) (trailer : Z) : Prop :=
  ∀ h buf n, 0 ≤ n → n + trailer ≤ zlen buf →
    let '(err, _, buf', n') := protect h buf n in
    0 ≤ err < errors_size ∧ length buf' = length buf ∧ (err = srtp_err_status_ok → n ≤ n' ≤ n + trailer).

Definition unprotects {T} (unprotect : T → list Z → Z → Z * T * list Z * Z) : Prop :=
  ∀ h buf n, 0 ≤ n ≤ zlen buf →
    let '(err, _, buf', n') := unprotect h buf n in
    0 ≤ err < errors_size ∧ length buf' = length buf ∧ (err = srtp_err_status_ok → 0 ≤ n' ≤ n).

(** SRTCP has an index of four bytes in its trailer. *)
Definition SRTP_MAX_SRTCP_TRAILER_LEN : Z := SRTP_MAX_TRAILER_LEN + 4.

Class LibSrtpSpec `{LibSrtp} := {
  key_len_cm80 : srtp_cipher_key_len srtp_crypto_policy_set_aes_cm_128_hmac_sha1_80 = 30;
  key_len_cm32 : srtp_cipher_key_len srtp_crypto_policy_set_aes_cm_128_hmac_sha1_32 = 30;
  key_len_gcm256 : srtp_cipher_key_len srtp_crypto_policy_set_aes_gcm_256_16_auth = 44;
  key_len_gcm128 : srtp_cipher_key_len srtp_crypto_policy_set_aes_gcm_128_16_auth = 28;
  create_status p : 0 ≤ (srtp_create p).1 < errors_size;
  protect_spec : protects srtp_protect SRTP_MAX_TRAILER_LEN;
  protect_rtcp_spec : protects srtp_protect_rtcp SRTP_MAX_SRTCP_TRAILER_LEN;
  unprotect_spec : unprotects srtp_unprotect;
  unprotect_rtcp_spec : unprotects srtp_unprotect_rtcp;
}.

Section proofs.
Context `{LibSrtpSpec}.

(** ** The length behind the cast *)
Lemma as_int_small len : 0 ≤ len < 2 ^ 31 → as_int len = len.
Proof.
  intros Hl. unfold as_int. rewrite wrap_small by (unfold fits; lia).
  by destruct (Z.ltb_spec len (2 ^ 31)); [|lia].
Qed.

Lemma store_int_small len n : 0 ≤ len < 2 ^ 31 → 0 ≤ n < 2 ^ 31 → store_int len n = n.
Proof.
  intros Hl Hn. unfold store_int. rewrite shiftr_div, Z.div_small by lia.
  rewrite wrap_small by (unfold fits; lia). lia.
Qed.

Lemma IsError_false err : IsError err = false → err = srtp_err_status_ok.
Proof. unfold IsError. rewrite negb_false_iff. apply Z.eqb_eq. Qed.

Lemma GetErrorString_known err : 0 ≤ err < errors_size → GetErrorString err = Ok ().
Proof.
  intros He. unfold GetErrorString. destruct (Z.leb_spec 0 err), (Z.ltb_spec err errors_size); done || lia.
Qed.

Definition wf_session (s : SrtpSession) : Prop :=
  is_init s = true ∧ is_Some (session s) ∧ zlen (encrypt_buffer_ s) = kEncryptBufferSize.

(** What encrypting comes to: the buffer with a length, or a refusal. *)
Definition encrypted (s : SrtpSession) (data : list Z) (r : res (SrtpSession * bool * out * Z)) : Prop :=
  ∃ s' ok o len', r = Ok (s', ok, o, len') ∧ wf_session s' ∧
    (ok = true → o = FromEncryptBuffer ∧ zlen data ≤ len' ≤ kEncryptBufferSize) ∧
    (ok = false → o = Unchanged) ∧
    (kEncryptBufferSize < zlen data + SRTP_MAX_TRAILER_LEN → ok = false ∧ s' = s ∧ len' = zlen data).

(** The bound that is checked is [SRTP_MAX_TRAILER_LEN]; the room the library may
    use is [trailer]. *)
Lemma encrypt_spec protect trailer s data :
  protects protect trailer → 0 ≤ trailer ≤ SRTP_MAX_SRTCP_TRAILER_LEN → wf_session s → zlen data < 2 ^ 63 →
  zlen data + trailer ≤ kEncryptBufferSize ∨ kEncryptBufferSize < zlen data + SRTP_MAX_TRAILER_LEN →
  encrypted s data (encrypt protect s data (zlen data)).
Proof using All.
  intros Hprot Ht (Hi & [h Hh] & Hb) Hl Hroom. unfold encrypt. rewrite Hh. pose proof (zlen_nonneg data).
  unfold encrypted, kEncryptBufferSize, SRTP_MAX_SRTCP_TRAILER_LEN, SRTP_MAX_TRAILER_LEN in *.
  rewrite wrap_small by (unfold fits; lia).
  destruct (Z.ltb_spec 65536 (zlen data + 144)) as [Hbig|Hfit].
  { eexists _, _, _, _. split; [done|]. split; [by split; [|split; [eexists|]]|]. done. }
  rewrite rd_range_in by lia. cbn [mbind res_bind]. change (Z.to_nat 0) with 0%nat.
  rewrite drop_0, take_ge by (unfold zlen; lia).
  destruct (split_len (length data) (encrypt_buffer_ s)) as (o & rest & Ho & Hol); [unfold zlen, kEncryptBufferSize in *; lia|].
  rewrite Ho. rewrite (memcpy_app [] o rest data 0 : _ → _ → memcpy (o ++ rest) 0 data = _) by done.
  cbn [mbind res_bind app]. rewrite as_int_small by lia.
  assert (zlen (data ++ rest) = 65536) as Hz by (rewrite Ho in Hb; rewrite zlen_app in *; unfold zlen in *; lia).
  pose proof (Hprot h (data ++ rest) (zlen data)) as Hp.
  destruct (protect h (data ++ rest) (zlen data)) as [[[err h'] buf'] n'].
  destruct Hp as (He & Hbl & Hn); [lia..|].
  assert (zlen buf' = 65536) as Hz' by (unfold zlen in *; lia).
  destruct (IsError err) eqn:Herr.
  - rewrite GetErrorString_known by done. cbn [mbind res_bind].
    eexists _, _, _, _. split; [done|]. split; [by split; [|split; [eexists|]]|]. split; [done|]. split; [done|lia].
  - apply IsError_false in Herr. specialize (Hn Herr). rewrite store_int_small by lia.
    eexists _, _, _, _. split; [done|]. split; [by split; [|split; [eexists|]]|]. split; [|split; [done|lia]].
    intros _. split; [done|lia].
Qed.

Lemma EncryptRtp_spec s data :
  wf_session s → zlen data < 2 ^ 63 → encrypted s data (EncryptRtp s data (zlen data)).
Proof using All.
  intros Hs Hl. unfold EncryptRtp. rewrite (proj1 Hs). cbn [negb].
  eapply encrypt_spec; [apply protect_spec|unfold SRTP_MAX_SRTCP_TRAILER_LEN, SRTP_MAX_TRAILER_LEN; lia|done|done|lia].
Qed.

(** RTCP packets within four bytes of the bound pass the check although the
    library may need more room than the buffer has. *)
Lemma EncryptRtcp_spec s data :
  wf_session s → zlen data < 2 ^ 63 →
  zlen data + SRTP_MAX_SRTCP_TRAILER_LEN ≤ kEncryptBufferSize ∨ kEncryptBufferSize < zlen data + SRTP_MAX_TRAILER_LEN →
  encrypted s data (EncryptRtcp s data (zlen data)).
Proof using All.
  intros Hs Hl Hroom. eapply encrypt_spec;
    [apply protect_rtcp_spec|unfold SRTP_MAX_SRTCP_TRAILER_LEN, SRTP_MAX_TRAILER_LEN; lia|done..].
Qed.

(** In-place decryption of a packet; the length is meaningful on success. *)
Lemma decrypt_spec unprotect s data :
  unprotects unprotect → wf_session s → zlen data < 2 ^ 31 →
  ∃ s' ok data' len', decrypt unprotect s data (zlen data) = Ok (s', ok, data', len') ∧ wf_session s' ∧
    length data' = length data ∧ (ok = true → 0 ≤ len' ≤ zlen data).
Proof using All.
  intros Hun (Hi & [h Hh] & Hb) Hl. unfold decrypt. rewrite Hh.
  pose proof (zlen_nonneg data). rewrite as_int_small by lia.
  pose proof (Hun h data (zlen data)) as Hp.
  destruct (unprotect h data (zlen data)) as [[[err h'] data'] n'].
  destruct Hp as (He & Hbl & Hn); [lia|].
  destruct (IsError err) eqn:Herr.
  - rewrite GetErrorString_known by done. cbn [mbind res_bind].
    eexists _, _, _, _. split; [done|]. split; [by split; [|split; [eexists|]]|]. done.
  - apply IsError_false in Herr. specialize (Hn Herr). rewrite store_int_small by lia.
    eexists _, _, _, _. split; [done|]. split; [by split; [|split; [eexists|]]|]. done.
Qed.

Lemma DecryptSrtp_spec s data :
  wf_session s → zlen data < 2 ^ 31 →
  ∃ s' ok data' len', DecryptSrtp s data (zlen data) = Ok (s', ok, data', len') ∧ wf_session s' ∧
    length data' = length data ∧ (ok = true → 0 ≤ len' ≤ zlen data).
Proof using All. apply decrypt_spec, unprotect_spec. Qed.

Lemma DecryptSrtcp_spec s data :
  wf_session s → zlen data < 2 ^ 31 →
  ∃ s' ok data' len', DecryptSrtcp s data (zlen data) = Ok (s', ok, data', len') ∧ wf_session s' ∧
    length data' = length data ∧ (ok = true → 0 ≤ len' ≤ zlen data).
Proof using All. apply decrypt_spec, unprotect_rtcp_spec. Qed.

(** A session survives the removal of a stream; twice swapped, an SSRC is itself. *)
Lemma RemoveStream_spec s ssrc : wf_session s → ∃ s', RemoveStream s ssrc = Ok s' ∧ wf_session s'.
Proof. intros (Hi & [h Hh] & Hb). unfold RemoveStream. rewrite Hh. eexists. split; [done|]. by split; [|split; [eexists|]]. Qed.

Lemma htonl_involutive x : fits 32 x → htonl (htonl x) = x.
Proof. unfold fits, htonl, of_be. intros Hx. cbn. zdm. Qed.

Lemma newSrtpSession_ok buffer type suite key :
  suite ≠ SUITE_NONE →
  zlen key = match suite with AEAD_AES_256_GCM => 44 | AEAD_AES_128_GCM => 28 | _ => 30 end →
  ∃ policy, policy_key policy = key ∧ policy_ssrc_type policy = type ∧
    newSrtpSession buffer type suite key (zlen key) =
    (let '(err, s) := srtp_create policy in
     if IsError err then GetErrorString err;; Throw "srtp_create() failed"
     else Ok (mkSession (Some s) true buffer)).
Proof using All.
  intros Hs Hk. unfold newSrtpSession.
  destruct suite; try done; cbn [rtp_setter rtcp_setter mbind res_bind];
    rewrite ?key_len_cm80, ?key_len_cm32, ?key_len_gcm256, ?key_len_gcm128, Hk;
    (eexists; split; [|split; [|reflexivity]]); done.
Qed.
End proofs.

(** C31: EncryptRtp of any packet on a created session never writes outside the
    64 KiB encrypt buffer: a packet that would not fit with its trailer is
    refused and nothing changes; otherwise the result is the buffer with a
    length between the packet's and the buffer's size, and the int that libsrtp
    sees through the cast is the length. *)
Theorem EncryptRtp_safe `{LibSrtpSpec} s data :
  wf_session s → zlen data < 2 ^ 63 →
  ∃ s' ok o len', EncryptRtp s data (zlen data) = Ok (s', ok, o, len') ∧ wf_session s' ∧
    (ok = true → o = FromEncryptBuffer ∧ zlen data ≤ len' ≤ kEncryptBufferSize) ∧
    (ok = false → o = Unchanged) ∧
    (kEncryptBufferSize < zlen data + SRTP_MAX_TRAILER_LEN → ok = false ∧ s' = s ∧ len' = zlen data).
Proof. apply EncryptRtp_spec. Qed.

(** A libsrtp for the witnesses: ten trailer bytes, kept in the buffer. *)
Definition toy_protect (h : unit) (buf : list Z) (n : Z) : Z * unit * list Z * Z :=
  (0, h, take (Z.to_nat n) buf ++ replicate 10 0xAA ++ drop (Z.to_nat n + 10) buf, n + 10).
Definition toy_unprotect (h : unit) (buf : list Z) (n : Z) : Z * unit * list Z * Z :=
  if n <? 10 then (7, h, buf, n) else (0, h, buf, n - 10).

Definition toy_srtp : LibSrtp := {|
  srtp_t := unit;
  srtp_cipher_key_len s := match s with
    | srtp_crypto_policy_set_aes_gcm_256_16_auth => 44
    | srtp_crypto_policy_set_aes_gcm_128_16_auth => 28
    | _ => 30 end;
  srtp_create _ := (0, ());
  srtp_protect := toy_protect; srtp_unprotect := toy_unprotect;
  srtp_protect_rtcp := toy_protect; srtp_unprotect_rtcp := toy_unprotect;
  srtp_remove_stream h _ := (0, h);
  srtp_dealloc _ := 0 |}.

Lemma toy_protects trailer : 10 ≤ trailer → protects toy_protect trailer.
Proof.
  intros Ht h buf n Hn Hb. unfold toy_protect, zlen in *. split; [done|]. split; [|lia].
  rewrite !length_app, length_take, length_drop, length_replicate. lia.
Qed.

Lemma toy_unprotects : unprotects toy_unprotect.
Proof.
  intros h buf n Hn. unfold toy_unprotect. destruct (Z.ltb_spec n 10); (split; [done|]); split; done || lia.
Qed.

Lemma toy_srtp_spec : @LibSrtpSpec toy_srtp.
Proof.
  split; try done.
  - by apply toy_protects.
  - by apply toy_protects.
  - apply toy_unprotects.
  - apply toy_unprotects.
Qed.

Definition toy_session : @SrtpSession toy_srtp := @mkSession toy_srtp (Some ()) true (replicate 65536 0).

Lemma toy_session_wf : @wf_session toy_srtp toy_session.
Proof.
  split; [done|]. split; [by exists ()|]. unfold zlen, toy_session. cbn [encrypt_buffer_].
  by rewrite length_replicate.
Qed.

Lemma EncryptRtp_safe_witness :
  ∃ s' ok o len', @EncryptRtp toy_srtp toy_session [1; 2; 3] 3 = Ok (s', ok, o, len') ∧
    @wf_session toy_srtp s' ∧
    (ok = true → o = FromEncryptBuffer ∧ 3 ≤ len' ≤ kEncryptBufferSize) ∧
    (ok = false → o = Unchanged) ∧
    (kEncryptBufferSize < 3 + SRTP_MAX_TRAILER_LEN → ok = false ∧ s' = toy_session ∧ len' = 3).
Proof.
  apply (@EncryptRtp_safe toy_srtp toy_srtp_spec toy_session [1; 2; 3] toy_session_wf). by vm_compute.
Defined.
End Srtp.
