(* ===== verification/Dtls.v ===== *)
(** RTC::DtlsTransport (src/rtc/dtls_transport.h, dtls_transport.cc): the DTLS
    state machine around OpenSSL.  OpenSSL is a parameter; its calls return the
    arguments of the info callbacks they make.  The operations run in a state
    and error monad over the object, which also records the listener
    callbacks. *)
From S2P Require Import Prelude ByteOps Srtp.

Module Dtls.
Import Srtp.

(** ** Types *)
Inductive DtlsState := NEW | CONNECTING | CONNECTED | FAILED | CLOSED.
Inductive Role := ROLE_NONE | AUTO | CLIENT | SERVER.
Inductive FingerprintAlgorithm := ALG_NONE | SHA1 | SHA224 | SHA256 | SHA384 | SHA512.

#[export] Instance DtlsState_eq_dec : EqDecision DtlsState.
Proof. solve_decision. Defined.
#[export] Instance Role_eq_dec : EqDecision Role.
Proof. solve_decision. Defined.
#[export] Instance FingerprintAlgorithm_eq_dec : EqDecision FingerprintAlgorithm.
Proof. solve_decision. Defined.

Record Fingerprint := mkFingerprint { algorithm : FingerprintAlgorithm; value : list Z }.

Definition string2Role : list (string * Role) :=
  [("auto", AUTO); ("client", CLIENT); ("server", SERVER)].
Definition string2FingerprintAlgorithm : list (string * FingerprintAlgorithm) :=
  [("sha-1", SHA1); ("sha-224", SHA224); ("sha-256", SHA256); ("sha-384", SHA384);
   ("sha-512", SHA512)].
Definition fingerprintAlgorithm2String : list (FingerprintAlgorithm * string) :=
  [(SHA1, "sha-1"); (SHA224, "sha-224"); (SHA256, "sha-256"); (SHA384, "sha-384");
   (SHA512, "sha-512")].
Definition srtpCryptoSuites : list (CryptoSuite * string) :=
  [(AEAD_AES_256_GCM, "SRTP_AEAD_AES_256_GCM"); (AEAD_AES_128_GCM, "SRTP_AEAD_AES_128_GCM");
   (AES_CM_128_HMAC_SHA1_80, "SRTP_AES128_CM_SHA1_80");
   (AES_CM_128_HMAC_SHA1_32, "SRTP_AES128_CM_SHA1_32")].

(** [map::find]. *)
Fixpoint find_key {K V} `{EqDecision K} (k : K) (m : list (K * V)) : option V :=
  match m with
  | [] => None
  | (k', v) :: m => if decide (k = k') then Some v else find_key k m
  end.

Definition StringToRole (role : string) : Role := default ROLE_NONE (find_key role string2Role).
Definition GetFingerprintAlgorithm (s : string) : FingerprintAlgorithm :=
  default ALG_NONE (find_key s string2FingerprintAlgorithm).
(** Dereferences the iterator without a test. *)
Definition GetFingerprintAlgorithmString (a : FingerprintAlgorithm) : res string :=
  match find_key a fingerprintAlgorithm2String with Some s => Ok s | None => UB NullDeref end.

Definition IsDtls (data : list Z) (len : Z) : res bool :=
  Ok (13 <=? len) &&& (b ← data.[0]; Ok ((19 <? b) && (b <? 64))).

(** The timer callback given to OpenSSL, in microseconds. *)
Definition onSslDtlsTimer (timerUs : Z) : Z :=
  if timerUs =? 0 then 100000
  else if 4000000 <=? timerUs then 4000000
  else u32 (2 * timerUs).

(** ** OpenSSL

    [ssl_t] is the SSL object with its two memory BIOs.  A call that can make
    info callbacks returns the list of their (where, ret) arguments. *)
Definition info := (Z * Z)%type.

Class OpenSSL := {
  ssl_t : Type;
  BIO_write : ssl_t → list Z → ssl_t * Z;
  BIO_eof : ssl_t → bool;
  BIO_get_mem_data : ssl_t → list Z;
  BIO_reset : ssl_t → ssl_t;
  SSL_set_connect_state : ssl_t → ssl_t;
  SSL_set_accept_state : ssl_t → ssl_t;
  SSL_do_handshake : ssl_t → ssl_t * list info;
  SSL_read : ssl_t → ssl_t * Z * list Z * list info;
  SSL_write : ssl_t → list Z → ssl_t * Z * list info;
  SSL_shutdown : ssl_t → ssl_t * list info;
  SSL_clear : ssl_t → ssl_t * list info;
  SSL_get_error : ssl_t → Z → Z;
  SSL_get_shutdown : ssl_t → Z;
  DTLSv1_get_timeout : ssl_t → option (Z * Z);
  DTLSv1_handle_timeout : ssl_t → ssl_t * list info;
  SSL_get_selected_srtp_profile : ssl_t → option string;
  SSL_export_keying_material : ssl_t → Z → Z * list Z;
}.

Definition SSL_ERROR_NONE : Z := 0.
Definition SSL_ERROR_SSL : Z := 1.
Definition SSL_ERROR_SYSCALL : Z := 5.
Definition SSL_RECEIVED_SHUTDOWN : Z := 2.
Definition SSL_CB_LOOP : Z := 0x01.
Definition SSL_CB_EXIT : Z := 0x02.
Definition SSL_CB_ALERT : Z := 0x4000.
Definition SSL_CB_HANDSHAKE_START : Z := 0x10.
Definition SSL_CB_HANDSHAKE_DONE : Z := 0x20.

(** The listener callbacks. *)
Inductive Event :=
| Connecting
| Connected (suite : CryptoSuite) (localKey remoteKey : list Z)
| Failed
| Closed
| SendData (data : list Z)
| ApplicationData (data : list Z).

Section transport.
Context `{OpenSSL}.

Record DtlsTransport := mkDtls {
  ssl : ssl_t;
  state : DtlsState;
  localRole : Role;
  remoteFingerprint : Fingerprint;
  handshakeDone : bool;
  handshakeDoneNow : bool;
  log : list Event;
}.

Definition newDtlsTransport (ssl : ssl_t) : DtlsTransport :=
  mkDtls ssl NEW ROLE_NONE (mkFingerprint ALG_NONE []) false false [].

(** ** The monad *)
Definition M (A : Type) : Type := DtlsTransport → res (A * DtlsTransport).

#[export] Instance M_ret : MRet M := λ A a d, Ok (a, d).
#[export] Instance M_bind : MBind M := λ A B f m d, '(a, d) ← m d; f a d.

Definition get : M DtlsTransport := λ d, Ok (d, d).
Definition modify (f : DtlsTransport → DtlsTransport) : M unit := λ d, Ok ((), f d).
Definition assert_ (c : bool) (msg : string) : M unit :=
  λ d, if c then Ok ((), d) else Aborted msg.
Definition abort_ {A} (msg : string) : M A := λ d, Aborted msg.
Definition lift {A} (r : res A) : M A := λ d, a ← r; Ok (a, d).

Definition set_ssl (s : ssl_t) (d : DtlsTransport) : DtlsTransport :=
  mkDtls s d.(state) d.(localRole) d.(remoteFingerprint) d.(handshakeDone) d.(handshakeDoneNow) d.(log).
Definition set_state (s : DtlsState) (d : DtlsTransport) : DtlsTransport :=
  mkDtls d.(ssl) s d.(localRole) d.(remoteFingerprint) d.(handshakeDone) d.(handshakeDoneNow) d.(log).
Definition set_role (r : Role) (d : DtlsTransport) : DtlsTransport :=
  mkDtls d.(ssl) d.(state) r d.(remoteFingerprint) d.(handshakeDone) d.(handshakeDoneNow) d.(log).
Definition set_fingerprint (f : Fingerprint) (d : DtlsTransport) : DtlsTransport :=
  mkDtls d.(ssl) d.(state) d.(localRole) f d.(handshakeDone) d.(handshakeDoneNow) d.(log).
Definition set_done (b : bool) (d : DtlsTransport) : DtlsTransport :=
  mkDtls d.(ssl) d.(state) d.(localRole) d.(remoteFingerprint) b d.(handshakeDoneNow) d.(log).
Definition set_doneNow (b : bool) (d : DtlsTransport) : DtlsTransport :=
  mkDtls d.(ssl) d.(state) d.(localRole) d.(remoteFingerprint) d.(handshakeDone) b d.(log).
Definition add_log (e : Event) (d : DtlsTransport) : DtlsTransport :=
  mkDtls d.(ssl) d.(state) d.(localRole) d.(remoteFingerprint) d.(handshakeDone) d.(handshakeDoneNow)
    (d.(log) ++ [e]).

Definition notify (e : Event) : M unit := modify (add_log e).

(** ** Operations *)
Definition IsRunning (d : DtlsTransport) : bool :=
  match d.(state) with CONNECTING | CONNECTED => true | NEW | FAILED | CLOSED => false end.

(** The info callback: only the end of a handshake leaves a mark. *)
Definition OnSslInfo (d : DtlsTransport) (i : info) : DtlsTransport :=
  let '(where_, ret) := i in
  if negb (Z.land where_ SSL_CB_LOOP =? 0) then d
  else if negb (Z.land where_ SSL_CB_ALERT =? 0) then d
  else if negb (Z.land where_ SSL_CB_EXIT =? 0) then d
  else if negb (Z.land where_ SSL_CB_HANDSHAKE_START =? 0) then d
  else if negb (Z.land where_ SSL_CB_HANDSHAKE_DONE =? 0) then set_doneNow true d
  else d.

(** A call into OpenSSL: the object afterwards, and the callbacks on the way. *)
Definition ssl_call (f : ssl_t → ssl_t * list info) : M unit :=
  modify (λ d, let '(s, infos) := f d.(ssl) in foldl OnSslInfo (set_ssl s d) infos).

Definition Reset : M unit :=
  d ← get;
  if negb (IsRunning d) then mret ()
  else
    ssl_call SSL_shutdown;;
    modify (set_role ROLE_NONE);;
    modify (set_state NEW);;
    modify (set_done false);;
    modify (set_doneNow false);;
    ssl_call SSL_clear.

Definition SendPendingOutgoingDtlsData : M unit :=
  d ← get;
  if BIO_eof d.(ssl) then mret ()
  else
    let data := BIO_get_mem_data d.(ssl) in
    if zlen data <=? 0 then mret ()
    else
      notify (SendData data);;
      modify (λ d, set_ssl (BIO_reset d.(ssl)) d).

Definition SetTimeout : M bool :=
  d ← get;
  assert_ (bool_decide (d.(state) = CONNECTING) || bool_decide (d.(state) = CONNECTED))
    "invalid DTLS state";;
  match DTLSv1_get_timeout d.(ssl) with
  | None => mret true
  | Some (tv_sec, tv_usec) =>
      let timeoutMs := u64 (tv_sec * 1000 + Z.quot tv_usec 1000) in
      if timeoutMs =? 0 then mret true
      else if timeoutMs <? 30000 then mret true
      else
        Reset;;
        modify (set_state FAILED);;
        notify Failed;;
        mret false
  end.

(** The loop keeps the last entry that matches. *)
Definition GetNegotiatedSrtpCryptoSuite : M CryptoSuite :=
  d ← get;
  match SSL_get_selected_srtp_profile d.(ssl) with
  | None => mret SUITE_NONE
  | Some name =>
      let suite := foldl (λ acc e, if decide (name = e.2) then e.1 else acc) SUITE_NONE srtpCryptoSuites in
      assert_ (negb (bool_decide (suite = SUITE_NONE)))
        "chosen SRTP crypto suite is not an available one";;
      mret suite
  end.

(** Key, salt and master length of a suite. *)
Definition key_lengths (s : CryptoSuite) : res (Z * Z * Z) :=
  match s with
  | AES_CM_128_HMAC_SHA1_80 | AES_CM_128_HMAC_SHA1_32 => Ok (16, 14, 16 + 14)
  | AEAD_AES_256_GCM => Ok (32, 12, 32 + 12)
  | AEAD_AES_128_GCM => Ok (16, 12, 16 + 12)
  | SUITE_NONE => Aborted "unknown SRTP crypto suite"
  end.

(** Offsets of local key, local salt, remote key and remote salt in the
    exported material. *)
Definition key_offsets (role : Role) (keyLen saltLen : Z) : res (Z * Z * Z * Z) :=
  match role with
  | SERVER =>
      let remoteKey := 0 in
      let localKey := remoteKey + keyLen in
      let remoteSalt := localKey + keyLen in
      let localSalt := remoteSalt + saltLen in
      Ok (localKey, localSalt, remoteKey, remoteSalt)
  | CLIENT =>
      let localKey := 0 in
      let remoteKey := localKey + keyLen in
      let localSalt := remoteKey + keyLen in
      let remoteSalt := localSalt + saltLen in
      Ok (localKey, localSalt, remoteKey, remoteSalt)
  | ROLE_NONE | AUTO => Aborted "no DTLS role set"
  end.

(** A master key: key and salt copied one behind the other. *)
Definition master_key (material : list Z) (key salt keyLen saltLen : Z) : res (list Z) :=
  k ← rd_range material key keyLen;
  s ← rd_range material salt saltLen;
  Ok (k ++ s).

Definition export_failed : string := "SSL_export_keying_material() failed".

(** The material buffer is read whatever non-zero status the export returned. *)
Definition ExtractSrtpKeys (suite : CryptoSuite) : M unit :=
  '(keyLen, saltLen, masterLen) ← lift (key_lengths suite);
  d ← get;
  let '(ret, material) := SSL_export_keying_material d.(ssl) (masterLen * 2) in
  assert_ (negb (ret =? 0)) export_failed;;
  '(localKey, localSalt, remoteKey, remoteSalt) ← lift (key_offsets d.(localRole) keyLen saltLen);
  local ← lift (master_key material localKey localSalt keyLen saltLen);
  remote ← lift (master_key material remoteKey remoteSalt keyLen saltLen);
  modify (set_state CONNECTED);;
  notify (Connected suite local remote).

Definition ProcessHandshake : M bool :=
  d ← get;
  assert_ d.(handshakeDone) "handshake not done yet";;
  suite ← GetNegotiatedSrtpCryptoSuite;
  if negb (bool_decide (suite = SUITE_NONE)) then ExtractSrtpKeys suite;; mret true
  else
    Reset;;
    modify (set_state FAILED);;
    notify Failed;;
    mret false.

Definition CheckStatus (returnCode : Z) : M bool :=
  d ← get;
  let wasHandshakeDone := d.(handshakeDone) in
  let err := SSL_get_error d.(ssl) returnCode in
  if d.(handshakeDoneNow) then
    modify (set_doneNow false);;
    modify (set_done true);;
    if negb wasHandshakeDone then ProcessHandshake else mret true
  else if negb (Z.land (SSL_get_shutdown d.(ssl)) SSL_RECEIVED_SHUTDOWN =? 0)
          || (err =? SSL_ERROR_SSL) || (err =? SSL_ERROR_SYSCALL) then
    if decide (d.(state) = CONNECTED) then
      Reset;; modify (set_state CLOSED);; notify Closed;; mret false
    else
      Reset;; modify (set_state FAILED);; notify Failed;; mret false
  else mret true.

Definition Run (role : Role) : M unit :=
  assert_ (bool_decide (role = CLIENT) || bool_decide (role = SERVER))
    "local DTLS role must be 'client' or 'server'";;
  d ← get;
  let previousLocalRole := d.(localRole) in
  if decide (role = previousLocalRole) then mret ()
  else
    (if bool_decide (previousLocalRole = CLIENT) || bool_decide (previousLocalRole = SERVER)
     then Reset else mret ());;
    modify (set_role role);;
    modify (set_state CONNECTING);;
    notify Connecting;;
    match role with
    | CLIENT =>
        modify (λ d, set_ssl (SSL_set_connect_state d.(ssl)) d);;
        ssl_call SSL_do_handshake;;
        SendPendingOutgoingDtlsData;;
        SetTimeout;; mret ()
    | SERVER =>
        modify (λ d, set_ssl (SSL_set_accept_state d.(ssl)) d);;
        ssl_call SSL_do_handshake
    | ROLE_NONE | AUTO => abort_ "invalid local DTLS role"
    end.

Definition SetRemoteFingerprint (f : Fingerprint) : M bool :=
  assert_ (negb (bool_decide (algorithm f = ALG_NONE))) "no fingerprint algorithm provided";;
  modify (set_fingerprint f);;
  d ← get;
  if d.(handshakeDone) && negb (bool_decide (d.(state) = CONNECTED)) then ProcessHandshake
  else mret true.

Definition ProcessDtlsData (data : list Z) : M unit :=
  d ← get;
  if negb (IsRunning d) then mret ()
  else
    modify (λ d, set_ssl (BIO_write d.(ssl) data).1 d);;
    d ← get;
    let '(s, read, buffer, infos) := SSL_read d.(ssl) in
    ssl_call (λ _, (s, infos));;
    SendPendingOutgoingDtlsData;;
    ok ← CheckStatus read;
    if negb ok then mret ()
    else
      ok ← SetTimeout;
      if negb ok then mret ()
      else if 0 <? read then
        d ← get;
        if negb d.(handshakeDone) then mret ()
        else notify (ApplicationData (take (Z.to_nat read) buffer))
      else mret ().

Definition SendApplicationData (data : list Z) (len : Z) : M unit :=
  d ← get;
  if negb (bool_decide (d.(state) = CONNECTED)) then mret ()
  else if len =? 0 then mret ()
  else
    bytes ← lift (rd_range data 0 len);
    let '(s, written, infos) := SSL_write d.(ssl) bytes in
    ssl_call (λ _, (s, infos));;
    ok ← (if written <? 0 then CheckStatus written else mret true);
    if negb ok then mret () else SendPendingOutgoingDtlsData.

Definition OnTimer : M unit :=
  d ← get;
  if d.(handshakeDone) then mret ()
  else
    ssl_call DTLSv1_handle_timeout;;
    SendPendingOutgoingDtlsData;;
    SetTimeout;; mret ().

(** The destructor: a close alert if the connection is up. *)
Definition destroy : M unit :=
  d ← get;
  if IsRunning d then ssl_call SSL_shutdown;; SendPendingOutgoingDtlsData else mret ().
End transport.

(** ** Construction

    The three allocations of the constructor, with what its error path frees. *)
Inductive resource := R_ssl | R_from | R_to.

#[export] Instance resource_eq_dec : EqDecision resource.
Proof. solve_decision. Defined.

Definition free (r : resource) (freed : list resource) : res (list resource) :=
  if decide (r ∈ freed) then UB DoubleFree else Ok (r :: freed).

Definition free_if (b : bool) (r : resource) (freed : list resource) : res (list resource) :=
  if b then free r freed else Ok freed.

(** The [error:] label, with the pointers that are set. *)
Definition construct_error (ssl from to : bool) (freed : list resource) : res unit :=
  freed ← free_if from R_from freed;
  freed ← free_if to R_to freed;
  freed ← free_if ssl R_ssl freed;
  Throw "DtlsTransport instance creation failed".

Definition construct (SSL_new BIO_new_from BIO_new_to : bool) : res unit :=
  if negb SSL_new then construct_error false false false []
  else if negb BIO_new_from then
    freed ← free R_ssl [];
    construct_error true false false freed
  else if negb BIO_new_to then
    freed ← free R_from [];
    freed ← free R_ssl freed;
    construct_error true true false freed
  else Ok ().
End Dtls.
