(* ===== verification/Diagnostics.v ===== *)
(** * What the components report about themselves

    The Dump methods of RTC::StunPacket (src/rtc/stun_packet.cc) and
    RTC::DtlsTransport, the OpenSSL error macro (src/rtc/dtls_transport.cc),
    SrtpSession::OnSrtpEvent (src/rtc/srtp_session.cc), RtpPacket::ToString
    (src/rtp/rtp_packet.cc) and the empty functions of src/common/ip.cc that one
    of them calls.  logger.h defines MS_CLASS again, so every line names the class
    Logger. *)
From S2P Require Import Prelude Text Logger ByteOps Crypto StunPacket StunParse Rtp Srtp Dtls.

Module Diagnostics.

Definition site (f : string) : Site := mkSite "Logger" f 0.

(** A step of the program that does not log. *)
Definition lift {A} (r : res A) : M A := λ e, a ← r; Ok (e, inr a).

(** [s.c_str()] *)
Definition c_string (s : list Z) : list Z := c_str (s ++ [0]).

(** ** src/common/ip.cc

    All bodies are empty: the references keep what they held ([None] is a
    variable that was never written), and GetFamily ends without a return. *)
Definition GetFamily (ip : list Z) : res Z := UB NoReturn.
Definition GetAddressInfo (addr : Stun.sockaddr) (family : option Z) (ip : list Z) (port : option Z) :
    option Z * list Z * option Z := (family, ip, port).
Definition NormalizeIp (ip : list Z) : list Z := ip.

(** The value of a local variable. *)
Definition read_local (x : option Z) : res Z := match x with Some v => Ok v | None => UB Uninit end.

(** ** RTC::StunPacket::Dump *)
Section StunPacket.
Import Stun.

(** [for (...) std::snprintf(text + (i * 2), 3, "%.2x", bytes[i])] *)
Fixpoint print_hex (rounds : nat) (i : Z) (bytes : list Z) (off : Z) (text : list Z) : res (list Z) :=
  match rounds with
  | O => Ok text
  | S r =>
      b ← bytes.[off + i];
      '(text, _) ← snprintf text (i * 2) 3 (fmt_x 2 b);
      print_hex r (i + 1) bytes off text
  end.

Definition class_name (c : Class_) : string :=
  match c with
  | REQUEST => "Request"
  | INDICATION => "Indication"
  | SUCCESS_RESPONSE => "SuccessResponse"
  | ERROR_RESPONSE => "ErrorResponse"
  end.

Definition line (desc : list Z) : M unit := MS_DUMP (site "Dump") desc.
Definition line_if (b : bool) (desc : list Z) : M unit := if b then line desc else mret ().

(** [tid] and [mi] are the static arrays before the call. *)
Definition StunPacket_Dump (tid mi : list Z) (p : StunPacket) : M unit :=
  _ ← line (str "<StunPacket>");
  _ ← (if p.(method) =? BINDING then line (str "  Binding " ++ str (class_name p.(klass)))
       else line (str "  " ++ str (class_name p.(klass)) ++ str " with unknown method "
                  ++ fmt_sharp_x 3 (u16 p.(method))));
  _ ← line (str "  size: " ++ fmt_u p.(size_) ++ str " bytes");
  tid ← lift (print_hex 12 0 p.(transactionId) 0 tid);
  _ ← line (str "  transactionId: " ++ c_str tid);
  _ ← line_if (negb (p.(errorCode) =? 0)) (str "  errorCode: " ++ fmt_u p.(errorCode));
  _ ← line_if (negb (bool_decide (p.(username) = []))) (str "  username: " ++ c_string p.(username));
  _ ← line_if (negb (p.(priority) =? 0)) (str "  priority: " ++ fmt_u p.(priority));
  _ ← line_if (negb (p.(iceControlling) =? 0)) (str "  iceControlling: " ++ fmt_u p.(iceControlling));
  _ ← line_if (negb (p.(iceControlled) =? 0)) (str "  iceControlled: " ++ fmt_u p.(iceControlled));
  _ ← line_if p.(hasUseCandidate) (str "  useCandidate");
  _ ← (match p.(xorMappedAddress) with
       | Some a =>
           let '(family, ip, port) := GetAddressInfo a None [] None in
           port ← lift (read_local port);
           line (str "  xorMappedAddress: " ++ c_string ip ++ str " : " ++ fmt_u port)
       | None => mret ()
       end);
  _ ← (match p.(messageIntegrity) with
       | Some off =>
           data ← lift (match p.(data_) with Some d => Ok d | None => UB NullDeref end);
           mi ← lift (print_hex 20 0 data off mi);
           line (str "  messageIntegrity: " ++ c_str mi)
       | None => mret ()
       end);
  _ ← line_if p.(hasFingerprint) (str "  has fingerprint");
  line (str "</StunPacket>").
End StunPacket.

(** ** RTC::DtlsTransport::Dump *)
Definition state_name (s : Dtls.DtlsState) : string :=
  match s with
  | Dtls.CONNECTING => "connecting"
  | Dtls.CONNECTED => "connected"
  | Dtls.FAILED => "failed"
  | Dtls.CLOSED => "closed"
  | Dtls.NEW => "new"
  end.
Definition role_name (r : Dtls.Role) : string :=
  match r with
  | Dtls.AUTO => "auto"
  | Dtls.SERVER => "server"
  | Dtls.CLIENT => "client"
  | Dtls.ROLE_NONE => "none "
  end.

Definition DtlsTransport_Dump `{Dtls.OpenSSL} (t : Dtls.DtlsTransport) : M unit :=
  _ ← line (str "<DtlsTransport>");
  _ ← line (str "  state           : " ++ str (state_name (Dtls.state t)));
  _ ← line (str "  role            : " ++ str (role_name (Dtls.localRole t)));
  _ ← line (str "  handshake done: : " ++ str (if Dtls.handshakeDone t then "yes" else "no"));
  line (str "</DtlsTransport>").

(** ** LOG_OPENSSL_ERROR

    OpenSSL's error queue is a list of codes, none of them zero; [text] is
    ERR_error_string. *)
Fixpoint log_errors (f : string) (desc : list Z) (text : Z → list Z) (queue : list Z) : M unit :=
  match queue with
  | [] => mret ()
  | err :: queue =>
      _ ← MS_ERROR (site f) (str "OpenSSL error [desc:'" ++ desc ++ str "', error:'" ++ text err ++ str "']");
      log_errors f desc text queue
  end.

(** The queue is empty afterwards. *)
Definition LOG_OPENSSL_ERROR (f : string) (desc : list Z) (text : Z → list Z) (queue : list Z) : M (list Z) :=
  match queue with
  | [] => _ ← MS_ERROR (site f) (str "OpenSSL error [desc:'" ++ desc ++ str "']"); mret []
  | _ => _ ← log_errors f desc text queue; mret []
  end.

(** ** SrtpSession::OnSrtpEvent *)
Inductive srtp_event :=
| event_ssrc_collision | event_key_soft_limit | event_key_hard_limit | event_packet_index_limit.

Definition OnSrtpEvent (event : srtp_event) : M unit :=
  match event with
  | event_ssrc_collision => MS_WARN_TAG srtp (site "OnSrtpEvent") (str "SSRC collision occurred")
  | event_key_soft_limit =>
      MS_WARN_TAG srtp (site "OnSrtpEvent")
        (str "stream reached the soft key usage limit and will expire soon")
  | event_key_hard_limit =>
      MS_WARN_TAG srtp (site "OnSrtpEvent") (str "stream reached the hard key usage limit and has expired")
  | event_packet_index_limit =>
      MS_WARN_TAG srtp (site "OnSrtpEvent") (str "stream reached the hard packet limit (2^48 packets)")
  end.

(** ** RtpPacket::ToString

    [payload_type] goes through std::to_string, [marker] prints as 0 or 1;
    [padding_size_] is a uint8_t, which a stream prints as a character. *)
Definition ToString (p : Rtp.RtpPacket) : list Z :=
  str "{payload_type=" ++ fmt_u (Rtp.payload_type_ p) ++
  str "marker=" ++ (if Rtp.marker_ p then str "1" else str "0") ++
  str ", sequence_number=" ++ fmt_u (Rtp.sequence_number_ p) ++
  str ", padding_size=" ++ [Rtp.padding_size_ p] ++
  str ", timestamp=" ++ fmt_u (Rtp.timestamp_ p) ++
  str ", ssrc=" ++ fmt_u (Rtp.ssrc_ p) ++
  str ", payload_offset=" ++ fmt_u (Rtp.payload_offset_ p) ++
  str ", payload_size=" ++ fmt_u (Rtp.payload_size_ p) ++
  str ", total_size=" ++ fmt_u (Rtp.packet_size p) ++ str "}".

(** ** Proofs *)

Definition dump_entry (desc : list Z) : list Z * Z := log_entry (log_text "X" (site "Dump") desc).

(** After a run of lines. *)
Definition dumped (before : list (list Z * Z)) (descs : list (list Z)) (e : Env) : Prop :=
  logging e ∧ sent e = before ++ (dump_entry <$> descs).

Lemma dumped_start e : logging e → dumped (sent e) [] e.
Proof. intros He. split; [done|]. simpl. by rewrite app_nil_r. Qed.

Lemma line_dumps before descs desc e :
  dumped before descs e →
  wpm (line desc) e (λ e' r, r = inr () ∧ dumped before (descs ++ [desc]) e').
Proof.
  intros [Hl Hs]. eapply wpm_mono; [by apply to_channel_logs|].
  intros e' r (-> & _ & Hl' & Hs'). split; [done|]. split; [done|].
  by rewrite Hs', Hs, fmap_app, <- app_assoc.
Qed.

Definition when_true (b : bool) (desc : list Z) : list (list Z) := if b then [desc] else [].

Lemma line_if_dumps before descs b desc e :
  dumped before descs e →
  wpm (line_if b desc) e (λ e' r, r = inr () ∧ dumped before (descs ++ when_true b desc) e').
Proof.
  intros Hd. destruct b; [by apply line_dumps|]. apply wpm_ret. split; [done|]. by rewrite app_nil_r.
Qed.

(** Composition: a step that adds [new], then the rest. *)
Lemma dumps_then {A} before descs new (m : M unit) (k : M A) e Q :
  wpm m e (λ e' r, r = inr () ∧ dumped before (descs ++ new) e') →
  (∀ e', dumped before (descs ++ new) e' → wpm k e' Q) →
  wpm (_ ← m; k) e Q.
Proof. intros Hm Hk. apply wpm_bind. eapply wpm_mono; [done|]. intros e' r [-> Hd]. by apply Hk. Qed.

Lemma lift_then {A B} (r : res A) (a : A) (k : A → M B) e Q :
  r = Ok a → wpm (k a) e Q → wpm (x ← lift r; k x) e Q.
Proof. intros -> Hk. by apply wpm_bind. Qed.

(** *** Hexadecimal text *)
Definition hex_text (bs : list Z) : list Z := concat (fmt_x 2 <$> bs).

Fixpoint read_hex_text (l : list Z) : list Z :=
  match l with
  | h :: c :: rest => read_x [h; c] :: read_hex_text rest
  | _ => []
  end.

Lemma fmt_x_two b : is_byte b → ∃ h c, fmt_x 2 b = [h; c].
Proof.
  intros Hb. pose proof (length_fmt_x 1 b ltac:(unfold is_byte in Hb; simpl; lia)) as Hl.
  destruct (fmt_x 2 b) as [|h [|c [|??]]]; try done. by exists h, c.
Qed.

Lemma read_hex_text_inverse bs : bytes_ok bs → read_hex_text (hex_text bs) = bs.
Proof.
  induction 1 as [|b bs Hb _ IH]; [done|].
  change (hex_text (b :: bs)) with (fmt_x 2 b ++ hex_text bs).
  destruct (fmt_x_two b Hb) as (h & c & E). rewrite E. cbn [app read_hex_text]. rewrite IH.
  f_equal. rewrite <- E. apply read_fmt_x. unfold is_byte in Hb. lia.
Qed.

Lemma hex_text_app l1 l2 : hex_text (l1 ++ l2) = hex_text l1 ++ hex_text l2.
Proof. unfold hex_text. by rewrite fmap_app, concat_app. Qed.

Lemma zlen_hex_text bs : bytes_ok bs → zlen (hex_text bs) = 2 * zlen bs.
Proof.
  induction 1 as [|b bs Hb _ IH]; [done|].
  change (hex_text (b :: bs)) with (fmt_x 2 b ++ hex_text bs).
  destruct (fmt_x_two b Hb) as (h & c & ->). autorewrite with zlen. rewrite IH. lia.
Qed.

Lemma hex_text_nonzero bs : bytes_ok bs → Forall (λ c, c ≠ 0) (hex_text bs).
Proof.
  induction 1 as [|b bs Hb _ IH]; [constructor|].
  change (hex_text (b :: bs)) with (fmt_x 2 b ++ hex_text bs). apply Forall_app_2; [|done].
  apply fmt_x_nonzero. unfold is_byte in Hb. lia.
Qed.

(** The loop, [done] bytes into it: three characters fit at every step when the
    array has 2n + 1. *)
Lemma print_hex_loop bs front post off done rest :
  bytes_ok done → bytes_ok bs → zlen front = off + zlen done → 2 * zlen bs < zlen rest →
  ∃ rest', print_hex (length bs) (zlen done) (front ++ bs ++ post) off (hex_text done ++ rest)
           = Ok (hex_text (done ++ bs) ++ rest') ∧ (bs = [] ∨ head rest' = Some 0).
Proof.
  intros Hd Hbs. revert front done rest Hd. induction Hbs as [|b bs Hb Hbs IH]; intros front done rest Hd Hf Hr.
  { exists rest. simpl. rewrite app_nil_r. auto. }
  cbn [print_hex length]. rewrite <- Hf. rewrite Byte.rd_pre0. cbn [app]. rewrite rd_cons_0. cbn [mbind res_bind].
  destruct (fmt_x_two b Hb) as (h & c & E).
  autorewrite with zlen in Hr. pose proof (zlen_nonneg bs). pose proof (zlen_nonneg done).
  assert (snprintf (hex_text done ++ rest) (zlen done * 2) 3 (fmt_x 2 b)
          = Ok (hex_text (done ++ [b]) ++ 0 :: drop 3 rest, 2)) as ->.
  { unfold snprintf. rewrite E. simpl (3 <=? 0). cbv iota. change (take (Z.to_nat (3 - 1)) [h; c]) with [h; c].
    pose proof (zlen_hex_text done Hd) as Hz.
    rewrite memcpy_at by (autorewrite with zlen; simpl; lia). cbn [mbind res_bind]. f_equal. f_equal.
    assert (Z.to_nat (zlen done * 2) = length (hex_text done)) as -> by (unfold zlen in *; lia).
    rewrite take_app_length, drop_app_add. rewrite hex_text_app, <- !app_assoc. f_equal.
    change (hex_text [b]) with (fmt_x 2 b ++ []). by rewrite E. }
  cbn [mbind res_bind].
  destruct (IH (front ++ [b]) (done ++ [b]) (0 :: drop 3 rest)) as (rest' & Er & Hh).
  - apply Forall_app_2; [done|by constructor].
  - autorewrite with zlen. lia.
  - unfold zlen in *. simpl. rewrite length_drop. lia.
  - replace (zlen (done ++ [b])) with (zlen done + 1) in Er by (autorewrite with zlen; lia).
    rewrite <- !app_assoc in Er. exists rest'. split; [exact Er|]. right.
    destruct Hh as [->|]; [|done]. cbn [length print_hex app] in Er.
    injection Er as Er. apply app_inv_head in Er. by subst rest'.
Qed.

Lemma print_hex_text n front bs post text :
  bytes_ok bs → length bs = n → n ≠ 0%nat → 2 * zlen bs < zlen text →
  ∃ text', print_hex n 0 (front ++ bs ++ post) (zlen front) text = Ok text' ∧ c_str text' = hex_text bs.
Proof.
  intros Hb Hl Hn Ht.
  destruct (print_hex_loop bs front post (zlen front) [] text) as (r & E & Hh);
    [constructor|done|simpl; autorewrite with zlen; lia|done|].
  rewrite Hl in E. exists (hex_text bs ++ r). split; [exact E|].
  destruct Hh as [->|Hh]; [done|]. destruct r as [|z r]; [done|]. injection Hh as ->.
  by apply c_str_app, hex_text_nonzero.
Qed.

(** *** What a received packet's Dump says *)
Section Dumps.
Import Stun.

(** The bytes of MESSAGE-INTEGRITY. *)
Definition integrity_bytes (data : list Z) (p : StunPacket) : option (list Z) :=
  (λ off, take 20 (drop (Z.to_nat off) data)) <$> p.(messageIntegrity).

Definition method_line (p : StunPacket) : list Z :=
  if p.(method) =? BINDING then str "  Binding " ++ str (class_name p.(klass))
  else str "  " ++ str (class_name p.(klass)) ++ str " with unknown method " ++ fmt_sharp_x 3 (u16 p.(method)).

Definition stun_lines (data : list Z) (p : StunPacket) : list (list Z) :=
  [str "<StunPacket>"; method_line p; str "  size: " ++ fmt_u (zlen data) ++ str " bytes";
   str "  transactionId: " ++ hex_text p.(transactionId)] ++
  when_true (negb (p.(errorCode) =? 0)) (str "  errorCode: " ++ fmt_u p.(errorCode)) ++
  when_true (negb (bool_decide (p.(username) = []))) (str "  username: " ++ c_string p.(username)) ++
  when_true (negb (p.(priority) =? 0)) (str "  priority: " ++ fmt_u p.(priority)) ++
  when_true (negb (p.(iceControlling) =? 0)) (str "  iceControlling: " ++ fmt_u p.(iceControlling)) ++
  when_true (negb (p.(iceControlled) =? 0)) (str "  iceControlled: " ++ fmt_u p.(iceControlled)) ++
  when_true p.(hasUseCandidate) (str "  useCandidate") ++
  from_option (λ bs, [str "  messageIntegrity: " ++ hex_text bs]) [] (integrity_bytes data p) ++
  when_true p.(hasFingerprint) (str "  has fingerprint") ++
  [str "</StunPacket>"].

Lemma print_hex_range n data off text :
  bytes_ok data → 0 ≤ off → off + Z.of_nat n ≤ zlen data → n ≠ 0%nat → 2 * Z.of_nat n < zlen text →
  ∃ text', print_hex n 0 data off text = Ok text' ∧
    c_str text' = hex_text (take n (drop (Z.to_nat off) data)).
Proof.
  intros Hb Ho Hl Hn Ht. set (bs := take n (drop (Z.to_nat off) data)).
  assert (length bs = n) as Hbs by (unfold bs, zlen in *; rewrite length_take, length_drop; lia).
  destruct (print_hex_text n (take (Z.to_nat off) data) bs (drop n (drop (Z.to_nat off) data)) text)
    as (text' & E & Hc); [by apply Forall_take, Forall_drop|done|done|unfold zlen in *; lia|].
  exists text'. split; [|done]. unfold bs in E. rewrite !take_drop in E.
  rewrite <- E. f_equal. unfold zlen. rewrite length_take. unfold zlen in *. lia.
Qed.

Lemma messageIntegrity_dumps before descs data p mi e :
  StunParse.accepted data p → bytes_ok data → zlen mi = 41 → dumped before descs e →
  wpm (match p.(messageIntegrity) with
       | Some off =>
           data ← lift (match p.(data_) with Some d => Ok d | None => UB NullDeref end);
           mi ← lift (print_hex 20 0 data off mi);
           line (str "  messageIntegrity: " ++ c_str mi)
       | None => mret ()
       end) e
    (λ e' r, r = inr () ∧ dumped before (descs ++
       from_option (λ bs, [str "  messageIntegrity: " ++ hex_text bs]) [] (integrity_bytes data p)) e').
Proof.
  intros Hacc Hb Hm Hd. pose proof (StunParse.acc_mi data p Hacc) as Hmi.
  pose proof (StunParse.wf_data data p (StunParse.acc_wf data p Hacc)) as Hdata.
  unfold integrity_bytes. destruct (messageIntegrity p) as [off|].
  - specialize (Hmi off eq_refl).
    destruct (print_hex_range 20 data off mi) as (t & E & Hc); [done|lia..|].
    eapply lift_then; [by rewrite Hdata|]. eapply lift_then; [exact E|]. rewrite Hc. by apply line_dumps.
  - apply wpm_ret. split; [done|]. simpl. by rewrite app_nil_r.
Qed.

(** Dump of a received packet sends these lines, and nothing faults: both static
    arrays hold their text exactly. *)
Lemma StunPacket_Dump_sends data p tid mi e :
  StunParse.accepted data p → bytes_ok data → zlen tid = 25 → zlen mi = 41 → logging e →
  wpm (StunPacket_Dump tid mi p) e (λ e' r, r = inr () ∧ logging e' ∧
    sent e' = sent e ++ (dump_entry <$> stun_lines data p)).
Proof.
  intros Hacc Hb Ht Hm He%dumped_start. pose proof (StunParse.acc_wf data p Hacc) as Hwf.
  unfold StunPacket_Dump.
  eapply dumps_then; [by apply line_dumps|]. clear He. intros e1 He.
  eapply (dumps_then _ _ [method_line p]).
  { unfold method_line. destruct (method p =? BINDING); by apply line_dumps. }
  clear He. intros e2 He. eapply dumps_then; [by apply line_dumps|]. clear He. intros e3 He.
  destruct (print_hex_text 12 [] (transactionId p) [] tid) as (t & E & Hc);
    [apply Hwf|apply Hwf|done|unfold zlen; rewrite (StunParse.wf_tid_len _ _ Hwf); unfold zlen in Ht; lia|].
  rewrite app_nil_r in E. eapply lift_then; [exact E|].
  eapply dumps_then; [by apply line_dumps|]. clear He. intros e4 He.
  do 6 (eapply dumps_then; [by apply line_if_dumps|]; clear He; intros ? He).
  rewrite (StunParse.wf_xor _ _ Hwf). eapply (dumps_then _ _ []).
  { apply wpm_ret. split; [done|]. by rewrite app_nil_r. }
  rewrite app_nil_r. clear He. intros e5 He.
  eapply dumps_then; [by apply messageIntegrity_dumps|]. clear He. intros e6 He.
  eapply dumps_then; [by apply line_if_dumps|]. clear He. intros e7 He.
  eapply wpm_mono; [by apply line_dumps|]. intros e8 r (-> & Hl & Hs).
  split; [done|]. split; [done|]. rewrite Hs. f_equal. f_equal.
  unfold stun_lines. rewrite Hc, (StunParse.wf_size _ _ Hwf), <- !app_assoc. reflexivity.
Qed.

(** GetAddressInfo is empty, so the Dump of a packet with a mapped address, as
    the server's own success responses have, prints a port that was never
    written. *)
Lemma response_dump_undefined :
  StunPacket_Dump (replicate 25 0) (replicate 41 0)
    (SetXorMappedAddress (AF_INET (mkSockaddrIn [31; 64] [127; 0; 0; 1]))
       (newStunPacket SUCCESS_RESPONSE BINDING (replicate 12 7) None 0)) logging_env = UB Uninit.
Proof. vm_compute. reflexivity. Qed.
End Dumps.

(** DtlsTransport::Dump shows state, role and flag. *)
Lemma DtlsTransport_Dump_sends `{Dtls.OpenSSL} t e :
  logging e →
  wpm (DtlsTransport_Dump t) e (λ e' r, r = inr () ∧ logging e' ∧
    sent e' = sent e ++ (dump_entry <$>
      [str "<DtlsTransport>"; str "  state           : " ++ str (state_name (Dtls.state t));
       str "  role            : " ++ str (role_name (Dtls.localRole t));
       str "  handshake done: : " ++ str (if Dtls.handshakeDone t then "yes" else "no");
       str "</DtlsTransport>"])).
Proof.
  intros He%dumped_start. unfold DtlsTransport_Dump.
  do 4 (eapply dumps_then; [by apply line_dumps|]; clear He; intros ? He).
  eapply wpm_mono; [by apply line_dumps|]. by intros ? r (-> & Hl & Hs).
Qed.

(** *** The error queue *)
Definition error_lines (on : bool) (f : string) (descs : list (list Z)) : list (list Z * Z) :=
  if on then (λ d, log_entry (log_text "E" (site f) d)) <$> descs else [].

Lemma log_errors_sends f desc text queue e :
  logging e →
  wpm (log_errors f desc text queue) e (λ e' r, r = inr () ∧ logging e' ∧
    configuration e' = configuration e ∧
    sent e' = sent e ++ error_lines (level_ge (configuration e) LOG_ERROR) f
      ((λ err, str "OpenSSL error [desc:'" ++ desc ++ str "', error:'" ++ text err ++ str "']") <$> queue)).
Proof.
  revert e. induction queue as [|err queue IH]; intros e He; cbn [log_errors].
  { apply wpm_ret. split_and!; [done..|]. unfold error_lines. destruct (level_ge _ _); by rewrite app_nil_r. }
  apply wpm_bind. eapply wpm_mono; [by apply when_logs|].
  intros e1 r (-> & [Hc _] & Hl & Hs). eapply wpm_mono; [by apply IH|].
  intros e2 r (-> & Hl2 & Hc2 & Hs2). split; [done|]. split; [done|]. split; [congruence|].
  rewrite Hs2, Hs, Hc, <- app_assoc. f_equal. unfold error_lines. simpl.
  rewrite orb_false_r. by destruct (level_ge (configuration e) LOG_ERROR).
Qed.

(** LOG_OPENSSL_ERROR reports every queued error once, in order, and empties the
    queue; without one it reports the description alone. *)
Lemma LOG_OPENSSL_ERROR_sends f desc text queue e :
  logging e →
  wpm (LOG_OPENSSL_ERROR f desc text queue) e (λ e' r, r = inr [] ∧ logging e' ∧
    sent e' = sent e ++ error_lines (level_ge (configuration e) LOG_ERROR) f
      (match queue with
       | [] => [str "OpenSSL error [desc:'" ++ desc ++ str "']"]
       | _ => (λ err, str "OpenSSL error [desc:'" ++ desc ++ str "', error:'" ++ text err ++ str "']") <$> queue
       end)).
Proof.
  intros He. unfold LOG_OPENSSL_ERROR. destruct queue as [|err queue]; apply wpm_bind.
  - eapply wpm_mono; [by apply when_logs|]. intros e1 r (-> & _ & Hl & Hs). apply wpm_ret.
    split; [done|]. split; [done|]. rewrite Hs. simpl. rewrite orb_false_r. f_equal.
  - eapply wpm_mono; [by apply log_errors_sends|]. intros e1 r (-> & Hl & _ & Hs). by apply wpm_ret.
Qed.

(** A packet without padding prints a NUL, where a C string of the text ends. *)
Lemma ToString_stops p :
  Rtp.padding_size_ p = 0 → 0 ≤ Rtp.payload_type_ p → 0 ≤ Rtp.sequence_number_ p →
  c_str (ToString p) = str "{payload_type=" ++ fmt_u (Rtp.payload_type_ p) ++ str "marker=" ++
    (if Rtp.marker_ p then str "1" else str "0") ++ str ", sequence_number=" ++
    fmt_u (Rtp.sequence_number_ p) ++ str ", padding_size=".
Proof.
  intros Hp Ht Hs.
  assert (∀ v, 0 ≤ v → Forall (λ c, c ≠ 0) (fmt_u v)) as Hu.
  { intros v Hv. eapply Forall_impl; [by apply fmt_u_digits|]. simpl. lia. }
  assert (∀ t, forallb (λ c, negb (c =? 0)) t = true → Forall (λ c, c ≠ 0) t) as Hlit.
  { intros t. rewrite forallb_forall, List.Forall_forall. intros Hc x Hx. specialize (Hc x Hx).
    by destruct (Z.eqb_spec x 0). }
  match goal with |- _ = ?pre => assert (∃ rest, ToString p = pre ++ 0 :: rest) as (rest & ->) end.
  { eexists. unfold ToString. rewrite Hp, <- !app_assoc. reflexivity. }
  apply c_str_app. repeat apply Forall_app_2; try (by apply Hu); try (by apply Hlit).
  by destruct (Rtp.marker_ p); apply Hlit.
Qed.
End Diagnostics.
