(* ===== verification/DtlsProofs.v ===== *)
(** The DTLS transport keeps its invariant: state, role and handshake flag
    agree, the listener sees a legal sequence of callbacks, no assertion of the
    class fails whatever OpenSSL does, and both ends extract the same SRTP
    keys. *)
From S2P Require Import Prelude ByteOps Srtp Dtls.

Module DtlsProofs.
Import Srtp Dtls.

(** ** The callback protocol *)

(** The state a listener can infer; [None] for a callback that must not come. *)
Definition next_state (s : DtlsState) (e : Event) : option DtlsState :=
  match e, s with
  | Connecting, _ => Some CONNECTING
  | Connected _ _ _, CONNECTING => Some CONNECTED
  | Failed, (CONNECTING | CONNECTED) => Some FAILED
  | Closed, CONNECTED => Some CLOSED
  | SendData _, (CONNECTING | CONNECTED) => Some s
  | ApplicationData _, CONNECTED => Some s
  | _, _ => None
  end.

Definition replay (l : list Event) : option DtlsState :=
  foldl (λ s e, s ← s; next_state s e) (Some NEW) l.

Lemma replay_snoc l e : replay (l ++ [e]) = (s ← replay l; next_state s e).
Proof. unfold replay. by rewrite foldl_app. Qed.

(** Keys handed to the listener have the length of their suite. *)
Definition key_len (suite : CryptoSuite) : nat :=
  match suite with AEAD_AES_256_GCM => 32 | _ => 16 end.
Definition salt_len (suite : CryptoSuite) : nat :=
  match suite with AEAD_AES_256_GCM | AEAD_AES_128_GCM => 12 | _ => 14 end.
Definition master_len (suite : CryptoSuite) : Z := Z.of_nat (key_len suite + salt_len suite).

Definition good_event (e : Event) : Prop :=
  match e with
  | Connected suite l r => suite ≠ SUITE_NONE ∧ zlen l = master_len suite ∧ zlen r = master_len suite
  | _ => True
  end.

Section proofs.
Context `{OpenSSL}.

(** What OpenSSL documents: a negotiated profile is one of those offered, and
    the export fills the buffer it is given. *)
Class OpenSSLSpec := {
  selected_offered s name :
    SSL_get_selected_srtp_profile s = Some name → name ∈ srtpCryptoSuites.*2;
  export_len s n : 0 ≤ n → zlen (SSL_export_keying_material s n).2 = n;
}.

(** ** The invariant *)
Record dtls_inv (d : DtlsTransport) : Prop := {
  di_role : match state d with
            | CONNECTING | CONNECTED => localRole d = CLIENT ∨ localRole d = SERVER
            | NEW | FAILED | CLOSED => localRole d = ROLE_NONE
            end;
  di_done : handshakeDone d = bool_decide (state d = CONNECTED);
  di_log : replay (log d) = Some (state d);
  di_keys : Forall good_event (log d);
}.

(** An operation ends well with [Q], or stops because the key export failed. *)
Definition ends {A} (r : res (A * DtlsTransport)) (Q : A → DtlsTransport → Prop) : Prop :=
  match r with
  | Ok (a, d) => Q a d
  | Aborted m => m = export_failed
  | _ => False
  end.

Lemma ends_bind {A B} (m : M A) (f : A → M B) d Q :
  ends (m d) (λ a d', ends (f a d') Q) → ends ((m ≫= f) d) Q.
Proof. unfold mbind, M_bind. destruct (m d) as [[a d']| | | |]; done. Qed.

Lemma ends_mono {A} (r : res (A * DtlsTransport)) (P Q : A → DtlsTransport → Prop) :
  ends r P → (∀ a d, P a d → Q a d) → ends r Q.
Proof. destruct r as [[]| | | |]; naive_solver. Qed.

(** Two objects that differ at most in the SSL object and [handshakeDoneNow]. *)
Record same (d d' : DtlsTransport) : Prop := {
  same_state : state d' = state d;
  same_role : localRole d' = localRole d;
  same_done : handshakeDone d' = handshakeDone d;
  same_log : log d' = log d;
}.

#[local] Instance same_refl : Reflexive same.
Proof. by split. Qed.
#[local] Instance same_trans : Transitive same.
Proof. intros ??? [] []. split; congruence. Qed.

Lemma same_inv d d' : same d d' → dtls_inv d → dtls_inv d'.
Proof. intros [Hs Hr Hd Hl] []. split; rewrite ?Hs, ?Hr, ?Hd, ?Hl; done. Qed.

Lemma OnSslInfo_same d i : same d (OnSslInfo d i).
Proof. destruct i as [w r]. unfold OnSslInfo. repeat case_match; by split. Qed.

Lemma infos_same infos d : same d (foldl OnSslInfo d infos).
Proof.
  revert d. induction infos as [|i infos IH]; intros d; [reflexivity|].
  cbn [foldl]. etransitivity; [apply OnSslInfo_same|apply IH].
Qed.

Lemma ssl_call_ends f d (Q : () → DtlsTransport → Prop) :
  (∀ d', same d d' → Q () d') → ends (ssl_call f d) Q.
Proof.
  intros HQ. unfold ssl_call, modify. cbn. destruct (f (ssl d)) as [s infos]. apply HQ.
  etransitivity; [|apply infos_same]. by split.
Qed.

(** Reset of a running transport forgets role and handshake, silently. *)
Record was_reset (d d' : DtlsTransport) : Prop := {
  wr_state : state d' = NEW;
  wr_role : localRole d' = ROLE_NONE;
  wr_done : handshakeDone d' = false;
  wr_log : log d' = log d;
}.

Lemma Reset_ends d (Q : () → DtlsTransport → Prop) :
  IsRunning d = true → (∀ d', was_reset d d' → Q () d') → ends (Reset d) Q.
Proof.
  intros Hr HQ. unfold Reset. apply ends_bind. cbn [get ends]. rewrite Hr. cbn [negb].
  apply ends_bind, ssl_call_ends. intros d1 [_ _ _ Hl1].
  do 4 (apply ends_bind; cbn [modify ends]).
  apply ssl_call_ends. intros d2 [Hs Hro Hd Hl]. apply HQ. split; rewrite ?Hs, ?Hro, ?Hd, ?Hl; try done.
Qed.

(** Reset, then the final state and its notification. *)
Lemma reset_to_ends d s e (b : bool) (Q : bool → DtlsTransport → Prop) :
  IsRunning d = true → replay (log d) = Some (state d) → Forall good_event (log d) → good_event e →
  next_state (state d) e = Some s → s = FAILED ∨ s = CLOSED → (∀ d', dtls_inv d' → state d' = s → Q b d') →
  ends ((Reset;; modify (set_state s);; notify e;; mret b) d) Q.
Proof.
  intros Hr Hi Hk Hg He Hs HQ. apply ends_bind, Reset_ends; [done|]. intros d1 [Hs1 Hr1 Hd1 Hl1].
  apply ends_bind. cbn [modify ends]. apply ends_bind. cbn [notify modify ends].
  apply HQ; [|done]. split; cbn.
  - by destruct Hs as [-> | ->].
  - rewrite Hd1. by destruct Hs as [-> | ->].
  - rewrite replay_snoc, Hl1, Hi. done.
  - rewrite Hl1. apply Forall_app_2; [done|by apply Forall_singleton].
Qed.

Lemma SendPending_ends d (Q : () → DtlsTransport → Prop) :
  IsRunning d = true → dtls_inv d →
  (∀ d', dtls_inv d' → state d' = state d → handshakeDone d' = handshakeDone d → Q () d') →
  ends (SendPendingOutgoingDtlsData d) Q.
Proof.
  intros Hr Hi HQ. unfold SendPendingOutgoingDtlsData. apply ends_bind. cbn [get ends].
  destruct (BIO_eof (ssl d)); [by apply HQ|]. destruct (zlen _ <=? 0); [by apply HQ|].
  apply ends_bind. cbn [notify modify ends]. apply HQ; [|done..].
  destruct Hi as [Hro Hdn Hlg Hk]. split; cbn; try done.
  - rewrite replay_snoc, Hlg. cbn. unfold IsRunning in Hr. by destruct (state d).
  - apply Forall_app_2; [done|by apply Forall_singleton].
Qed.

Lemma SetTimeout_ends d (Q : bool → DtlsTransport → Prop) :
  IsRunning d = true → dtls_inv d → Q true d →
  (∀ d', dtls_inv d' → Q false d') → ends (SetTimeout d) Q.
Proof.
  intros Hr Hi HT HF. unfold SetTimeout. apply ends_bind. cbn [get ends]. apply ends_bind.
  assert (bool_decide (state d = CONNECTING) || bool_decide (state d = CONNECTED) = true) as ->
    by (unfold IsRunning in Hr; by destruct (state d)).
  cbn [assert_ ends]. destruct (DTLSv1_get_timeout (ssl d)) as [[sec usec]|]; [|done].
  case_match; [done|]. case_match; [done|].
  apply reset_to_ends; try done; [apply Hi..| |by left|auto].
  unfold IsRunning in Hr. by destruct (state d).
Qed.

(** ** Keys *)

(** The four parts of the exported material, in the order of RFC 5764. *)
Definition client_master (m : list Z) (k s : nat) : list Z := take k m ++ take s (drop (k + k) m).
Definition server_master (m : list Z) (k s : nat) : list Z :=
  take k (drop k m) ++ take s (drop (k + k + s) m).

Definition local_master (role : Role) (m : list Z) (suite : CryptoSuite) : list Z :=
  match role with
  | CLIENT => client_master m (key_len suite) (salt_len suite)
  | _ => server_master m (key_len suite) (salt_len suite)
  end.
Definition remote_master (role : Role) (m : list Z) (suite : CryptoSuite) : list Z :=
  match role with
  | CLIENT => server_master m (key_len suite) (salt_len suite)
  | _ => client_master m (key_len suite) (salt_len suite)
  end.

Lemma length_masters m suite :
  zlen m = master_len suite * 2 →
  zlen (client_master m (key_len suite) (salt_len suite)) = master_len suite ∧
  zlen (server_master m (key_len suite) (salt_len suite)) = master_len suite.
Proof.
  unfold zlen, master_len, client_master, server_master. intros Hm.
  rewrite !length_app, !length_take, !length_drop. lia.
Qed.

Definition material (d : DtlsTransport) (suite : CryptoSuite) : list Z :=
  (SSL_export_keying_material (ssl d) (master_len suite * 2)).2.

Lemma key_lengths_spec suite :
  suite ≠ SUITE_NONE →
  key_lengths suite = Ok (Z.of_nat (key_len suite), Z.of_nat (salt_len suite), master_len suite).
Proof. by destruct suite. Qed.

Lemma master_key_at m key salt k s :
  (key + k ≤ length m)%nat → (salt + s ≤ length m)%nat →
  master_key m (Z.of_nat key) (Z.of_nat salt) (Z.of_nat k) (Z.of_nat s)
  = Ok (take k (drop key m) ++ take s (drop salt m)).
Proof.
  intros Hk Hs. unfold master_key. rewrite !rd_range_in by (unfold zlen; lia). cbn [mbind res_bind].
  by rewrite !Nat2Z.id.
Qed.

Lemma master_keys_spec role m suite :
  role = CLIENT ∨ role = SERVER → zlen m = master_len suite * 2 →
  let k := Z.of_nat (key_len suite) in
  let s := Z.of_nat (salt_len suite) in
  ∃ lk ls rk rs, key_offsets role k s = Ok (lk, ls, rk, rs) ∧
    master_key m lk ls k s = Ok (local_master role m suite) ∧
    master_key m rk rs k s = Ok (remote_master role m suite).
Proof.
  intros Hr Hm k s. unfold zlen, master_len in Hm.
  assert (master_key m 0 (0 + k + k) k s = Ok (client_master m (key_len suite) (salt_len suite))) as Hc.
  { replace (0 + k + k) with (Z.of_nat (key_len suite + key_len suite)) by lia.
    subst k s. change 0 with (Z.of_nat 0). rewrite master_key_at by lia. by rewrite drop_0. }
  assert (master_key m (0 + k) (0 + k + k + s) k s = Ok (server_master m (key_len suite) (salt_len suite))) as Hsv.
  { replace (0 + k + k + s) with (Z.of_nat (key_len suite + key_len suite + salt_len suite)) by lia.
    replace (0 + k) with (Z.of_nat (key_len suite)) by lia. subst k s. by rewrite master_key_at by lia. }
  destruct Hr as [-> | ->]; cbn [key_offsets local_master remote_master]; eauto 8.
Qed.

Lemma ExtractSrtpKeys_run `{!OpenSSLSpec} d suite :
  suite ≠ SUITE_NONE → localRole d = CLIENT ∨ localRole d = SERVER →
  ExtractSrtpKeys suite d =
    if (SSL_export_keying_material (ssl d) (master_len suite * 2)).1 =? 0 then Aborted export_failed
    else Ok ((), add_log (Connected suite (local_master (localRole d) (material d suite) suite)
                            (remote_master (localRole d) (material d suite) suite))
                   (set_state CONNECTED d)).
Proof using All.
  intros Hs Hr. unfold material.
  pose proof (export_len (ssl d) (master_len suite * 2) ltac:(unfold master_len; lia)) as Hlen.
  unfold ExtractSrtpKeys, mbind, M_bind, lift, get. rewrite key_lengths_spec by done. cbn [mbind res_bind].
  destruct (SSL_export_keying_material _ _) as [ret m]. cbn [fst snd] in Hlen |- *.
  destruct (master_keys_spec (localRole d) m suite Hr Hlen) as (lk & ls & rk & rs & Ho & Hlo & Hre).
  unfold assert_. destruct (ret =? 0); [done|]. cbn [negb mbind res_bind].
  rewrite Ho. cbn [mbind res_bind]. rewrite Hlo. cbn [mbind res_bind]. rewrite Hre. done.
Qed.

(** ** Handshake and status *)

(** After the handshake flag is set and before the listener is told. *)
Record handshaken (d : DtlsTransport) : Prop := {
  hs_state : state d = CONNECTING;
  hs_role : localRole d = CLIENT ∨ localRole d = SERVER;
  hs_done : handshakeDone d = true;
  hs_log : replay (log d) = Some CONNECTING;
  hs_keys : Forall good_event (log d);
}.

Lemma ProcessHandshake_ends `{!OpenSSLSpec} d (Q : bool → DtlsTransport → Prop) :
  handshaken d →
  (∀ d', dtls_inv d' → state d' = CONNECTED → Q true d') → (∀ d', dtls_inv d' → Q false d') →
  ends (ProcessHandshake d) Q.
Proof using All.
  intros [Hs Hr Hd Hl Hk] HT HF. unfold ProcessHandshake. apply ends_bind. cbn [get ends].
  apply ends_bind. rewrite Hd. cbn [assert_ ends]. apply ends_bind.
  unfold GetNegotiatedSrtpCryptoSuite. apply ends_bind. cbn [get ends].
  assert (∀ s, s = SUITE_NONE → ends ((if negb (bool_decide (s = SUITE_NONE)) then ExtractSrtpKeys s;; mret true
    else Reset;; modify (set_state FAILED);; notify Failed;; mret false) d) Q) as Hnone.
  { intros s ->. rewrite bool_decide_true by done. cbn [negb].
    apply reset_to_ends; [unfold IsRunning; by rewrite Hs|by rewrite Hs|done|done|by rewrite Hs|auto|auto]. }
  destruct (SSL_get_selected_srtp_profile (ssl d)) as [name|] eqn:E; [|by apply Hnone].
  apply selected_offered in E. set (suite := foldl _ _ _).
  assert (suite ≠ SUITE_NONE) as Hne.
  { subst suite. cbn in E. rewrite !elem_of_cons, elem_of_nil in E.
    destruct E as [-> | [-> | [-> | [-> | []]]]]; vm_compute; done. }
  apply ends_bind. rewrite bool_decide_false by done. cbn [negb assert_ ends]. cbn [mret M_ret ends].
  rewrite bool_decide_false by done. cbn [negb]. apply ends_bind. rewrite ExtractSrtpKeys_run by done.
  destruct (_ =? 0); [done|]. cbn [ends]. apply HT; [|done]. split; cbn; [done|by rewrite Hd| |].
  - by rewrite replay_snoc, Hl.
  - apply Forall_app_2; [done|]. apply Forall_singleton. cbn.
    destruct (length_masters (material d suite) suite) as [H1 H2].
    { apply export_len. unfold master_len. lia. }
    by destruct (localRole d).
Qed.

Lemma CheckStatus_ends `{!OpenSSLSpec} d code (Q : bool → DtlsTransport → Prop) :
  IsRunning d = true → dtls_inv d →
  (∀ d', dtls_inv d' → IsRunning d' = true → Q true d') → (∀ d', dtls_inv d' → Q false d') →
  ends (CheckStatus code d) Q.
Proof using All.
  intros Hr Hi HT HF. pose proof Hi as [Hro Hdn Hlg Hk]. unfold CheckStatus. apply ends_bind. cbn [get ends].
  assert (state d = CONNECTING ∨ state d = CONNECTED) as Hst
    by (unfold IsRunning in Hr; destruct (state d); try done; auto).
  destruct (handshakeDoneNow d).
  - apply ends_bind. cbn [modify ends]. apply ends_bind. cbn [modify ends].
    destruct Hst as [Hst|Hst]; rewrite Hdn, Hst in *; cbn.
    + apply ProcessHandshake_ends; [split; cbn; done| |done].
      intros d' Hi' Hs'. apply HT; [done|]. unfold IsRunning. by rewrite Hs'.
    + apply HT; [|unfold IsRunning; cbn; by rewrite Hst]. split; cbn; rewrite ?Hst; done.
  - destruct (negb _ || _ || _); [|by apply HT].
    destruct Hst as [Hst|Hst]; (destruct (decide (state d = CONNECTED)) as [E|E]; [|]); try congruence;
      (apply reset_to_ends; [done|done|done|done|by rewrite Hst|auto|auto]).
Qed.

(** ** The public operations *)
Lemma Run_ends d role :
  dtls_inv d → role = CLIENT ∨ role = SERVER → ends (Run role d) (λ _ d', dtls_inv d').
Proof.
  intros Hi Hrole. pose proof Hi as [Hro Hdn Hlg Hk]. unfold Run. apply ends_bind.
  assert (bool_decide (role = CLIENT) || bool_decide (role = SERVER) = true) as ->
    by (by destruct Hrole as [-> | ->]).
  cbn [assert_ ends]. apply ends_bind. cbn [get ends]. destruct (decide _) as [|Hne]; [done|].
  apply ends_bind.
  apply (ends_mono _ (λ _ d', handshakeDone d' = false ∧ is_Some (replay (log d')) ∧ Forall good_event (log d'))).
  { destruct (IsRunning d) eqn:Hr.
    - assert (bool_decide (localRole d = CLIENT) || bool_decide (localRole d = SERVER) = true) as ->
        by (unfold IsRunning in Hr; destruct (state d); try done; by destruct Hro as [-> | ->]).
      apply Reset_ends; [done|]. intros d' []. rewrite wr_log0. split; [done|]. by split; [eexists|].
    - assert (localRole d = ROLE_NONE ∧ state d ≠ CONNECTED) as [-> Hnc]
        by (unfold IsRunning in Hr; destruct (state d); done).
      cbn. split; [by rewrite Hdn, bool_decide_false|]. by split; [eexists|]. }
  intros [] d1 (Hd1 & [s1 Hl1] & Hk1).
  do 2 (apply ends_bind; cbn [modify ends]). apply ends_bind. cbn [notify modify ends].
  set (d2 := add_log _ _).
  assert (dtls_inv d2 ∧ IsRunning d2 = true) as [Hi2 Hr2].
  { split; [|done]. split; cbn; [done|done| |]; [by rewrite replay_snoc, Hl1|].
    apply Forall_app_2; [done|by apply Forall_singleton]. }
  clearbody d2.
  assert (∀ f, dtls_inv (set_ssl f d2) ∧ IsRunning (set_ssl f d2) = true) as Hset.
  { intros f. split; [|done]. eapply same_inv; [|exact Hi2]. by split. }
  destruct Hrole as [-> | ->]; apply ends_bind; cbn [modify ends];
    match goal with |- context [set_ssl ?f d2] => destruct (Hset f) as [Hi3 Hr3] end.
  - apply ends_bind, ssl_call_ends. intros d4 Hs4.
    assert (dtls_inv d4) as Hi4 by (by eapply same_inv).
    assert (IsRunning d4 = true) as Hr4 by (unfold IsRunning in *; by rewrite (same_state _ _ Hs4)).
    apply ends_bind, SendPending_ends; [done..|]. intros d5 Hi5 Hs5 _.
    assert (IsRunning d5 = true) as Hr5 by (unfold IsRunning in *; by rewrite Hs5).
    apply ends_bind, SetTimeout_ends; done.
  - apply ssl_call_ends. intros d4 Hs4. by eapply same_inv.
Qed.

Lemma ProcessDtlsData_ends `{!OpenSSLSpec} d data :
  dtls_inv d → ends (ProcessDtlsData data d) (λ _ d', dtls_inv d').
Proof using All.
  intros Hi. unfold ProcessDtlsData. apply ends_bind. cbn [get ends].
  destruct (IsRunning d) eqn:Hr; [|done]. cbn [negb]. apply ends_bind. cbn [modify ends].
  apply ends_bind. cbn [get ends]. set (d1 := set_ssl _ d).
  assert (same d d1) as Hs1 by (by split).
  destruct (SSL_read (ssl d1)) as [[[s read] buffer] infos].
  apply ends_bind, ssl_call_ends. intros d2 Hs2.
  assert (same d d2) as Hs by (by etransitivity). apply same_inv in Hs as Hi2; [|done].
  assert (IsRunning d2 = true) as Hr2 by (unfold IsRunning in *; by rewrite (same_state _ _ Hs)).
  apply ends_bind, SendPending_ends; [done..|]. intros d3 Hi3 Hst3 _.
  assert (IsRunning d3 = true) as Hr3 by (unfold IsRunning in *; by rewrite Hst3).
  apply ends_bind, CheckStatus_ends; [done..| |done]. intros d4 Hi4 Hr4. cbn [negb].
  apply ends_bind, SetTimeout_ends; [done..| |done]. cbn [negb].
  case_match; [|done]. apply ends_bind. cbn [get ends].
  destruct (handshakeDone d4) eqn:Hd; [|done]. cbn [negb notify modify ends].
  destruct Hi4 as [Hro Hdn Hlg Hk]. split; cbn; try done.
  - rewrite replay_snoc, Hlg. cbn. rewrite Hd in Hdn. symmetry in Hdn.
    apply bool_decide_eq_true in Hdn. by rewrite Hdn.
  - apply Forall_app_2; [done|by apply Forall_singleton].
Qed.

Lemma SendApplicationData_ends `{!OpenSSLSpec} d data :
  dtls_inv d → ends (SendApplicationData data (zlen data) d) (λ _ d', dtls_inv d').
Proof using All.
  intros Hi. unfold SendApplicationData. apply ends_bind. cbn [get ends].
  destruct (bool_decide (state d = CONNECTED)) eqn:E; [|done]. cbn [negb].
  apply bool_decide_eq_true in E. destruct (zlen data =? 0); [done|].
  pose proof (zlen_nonneg data). apply ends_bind. unfold lift. rewrite rd_range_in by lia. cbn [mbind res_bind ends].
  destruct (SSL_write _ _) as [[s written] infos]. apply ends_bind, ssl_call_ends. intros d2 Hs2.
  apply same_inv in Hs2 as Hi2; [|done].
  assert (IsRunning d2 = true) as Hr2 by (unfold IsRunning; by rewrite (same_state _ _ Hs2), E).
  assert (∀ d', dtls_inv d' → IsRunning d' = true →
    ends ((if negb true then mret () else SendPendingOutgoingDtlsData) d') (λ _ d', dtls_inv d')) as Hsend.
  { intros d' Hi' Hr'. cbn [negb]. apply SendPending_ends; done. }
  apply ends_bind. destruct (written <? 0).
  - apply CheckStatus_ends; auto.
  - cbn [mret M_ret ends]. by apply Hsend.
Qed.

Lemma SetRemoteFingerprint_ends d f :
  dtls_inv d → algorithm f ≠ ALG_NONE → ends (SetRemoteFingerprint f d) (λ _ d', dtls_inv d').
Proof.
  intros Hi Hf. unfold SetRemoteFingerprint. apply ends_bind. rewrite bool_decide_false by done.
  cbn [negb assert_ ends]. apply ends_bind. cbn [modify ends]. apply ends_bind. cbn [get ends].
  cbn [handshakeDone set_fingerprint state]. rewrite (di_done d Hi).
  assert (dtls_inv (set_fingerprint f d)) by (eapply same_inv; [|exact Hi]; by split).
  by destruct (bool_decide (state d = CONNECTED)).
Qed.

Lemma destroy_ends d : dtls_inv d → ends (destroy d) (λ _ d', dtls_inv d').
Proof.
  intros Hi. unfold destroy. apply ends_bind. cbn [get ends]. destruct (IsRunning d) eqn:Hr; [|done].
  apply ends_bind, ssl_call_ends. intros d1 Hs. apply same_inv in Hs as Hi1; [|done].
  apply SendPending_ends; try done. unfold IsRunning in *. by rewrite (same_state _ _ Hs).
Qed.

(** ** Sequences of calls *)
Inductive dtls_op :=
| op_run (role : Role)
| op_data (data : list Z)
| op_send (data : list Z)
| op_fingerprint (f : Fingerprint).

(** What the callers guarantee. *)
Definition wf_op (o : dtls_op) : Prop :=
  match o with
  | op_run role => role = CLIENT ∨ role = SERVER
  | op_fingerprint f => algorithm f ≠ ALG_NONE
  | op_data _ | op_send _ => True
  end.

Definition exec (o : dtls_op) : M unit :=
  match o with
  | op_run role => Run role
  | op_data data => ProcessDtlsData data
  | op_send data => SendApplicationData data (zlen data)
  | op_fingerprint f => SetRemoteFingerprint f;; mret ()
  end.

Fixpoint exec_all (l : list dtls_op) : M unit :=
  match l with [] => mret () | o :: l => exec o;; exec_all l end.

Lemma exec_ends `{!OpenSSLSpec} d o :
  dtls_inv d → wf_op o → ends (exec o d) (λ _ d', dtls_inv d').
Proof using All.
  intros Hi Ho. destruct o; cbn [exec].
  - by apply Run_ends.
  - by apply ProcessDtlsData_ends.
  - by apply SendApplicationData_ends.
  - apply ends_bind. eapply ends_mono; [by apply SetRemoteFingerprint_ends|]. done.
Qed.

Lemma exec_all_ends `{!OpenSSLSpec} l d :
  dtls_inv d → Forall wf_op l → ends (exec_all l d) (λ _ d', dtls_inv d').
Proof using All.
  intros Hi Hl. revert d Hi. induction Hl as [|o l Ho _ IH]; intros d Hi; [done|].
  apply ends_bind. eapply ends_mono; [by apply exec_ends|]. auto.
Qed.

Lemma new_inv s : dtls_inv (newDtlsTransport s).
Proof. by repeat constructor. Qed.

Lemma SendPending_always d :
  ∃ d', SendPendingOutgoingDtlsData d = Ok ((), d') ∧ state d' = state d.
Proof.
  unfold SendPendingOutgoingDtlsData, mbind, M_bind, get. cbn [mbind res_bind].
  destruct (BIO_eof (ssl d)); [by eexists|]. destruct (zlen _ <=? 0); by eexists.
Qed.

(** The timer callback stops the process when the transport is not running:
    it asserts a state it does not check. *)
Lemma OnTimer_not_running_aborts d :
  dtls_inv d → IsRunning d = false → OnTimer d = Aborted "invalid DTLS state".
Proof.
  intros Hi Hr. unfold OnTimer, mbind, M_bind, get. cbn [mbind res_bind].
  assert (state d ≠ CONNECTING ∧ state d ≠ CONNECTED) as [H1 H2]
    by (unfold IsRunning in Hr; by destruct (state d)).
  rewrite (di_done d Hi), bool_decide_false by done. unfold ssl_call, modify.
  destruct (DTLSv1_handle_timeout (ssl d)) as [s infos]. cbn [mbind res_bind].
  set (d1 := foldl OnSslInfo (set_ssl s d) infos).
  assert (state d1 = state d) as Hs1 by apply (infos_same infos (set_ssl s d)).
  destruct (SendPending_always d1) as (d2 & -> & Hs2). cbn [mbind res_bind].
  unfold SetTimeout, mbind, M_bind, get, assert_. cbn [mbind res_bind].
  by rewrite Hs2, Hs1, !bool_decide_false.
Qed.
End proofs.

(** ** Properties *)


(** An OpenSSL for the witnesses: the first read completes the handshake, later
    ones deliver two bytes. *)
Definition toy_ssl : OpenSSL := {|
  ssl_t := nat;
  BIO_write s d := (s, zlen d);
  BIO_eof s := true;
  BIO_get_mem_data s := [];
  BIO_reset s := s;
  SSL_set_connect_state s := s;
  SSL_set_accept_state s := s;
  SSL_do_handshake s := (s, []);
  SSL_read s := (S s, if decide (s = 0%nat) then -1 else 2, [7; 8],
                 if decide (s = 0%nat) then [(SSL_CB_HANDSHAKE_DONE, 1)] else []);
  SSL_write s d := (s, zlen d, []);
  SSL_shutdown s := (s, []);
  SSL_clear s := (0%nat, []);
  SSL_get_error s r := if r <? 0 then 2 else 0;
  SSL_get_shutdown s := 0;
  DTLSv1_get_timeout s := None;
  DTLSv1_handle_timeout s := (s, []);
  SSL_get_selected_srtp_profile s := Some "SRTP_AES128_CM_SHA1_80";
  SSL_export_keying_material s n := (1, seqZ 0 n) |}.

Lemma toy_ssl_spec : @OpenSSLSpec toy_ssl.
Proof.
  split.
  - intros s name [= <-]. apply (bool_decide_unpack _). by vm_compute.
  - intros s n Hn. cbn. unfold zlen. rewrite length_seqZ. lia.
Qed.

Definition toy_ops : list dtls_op := [op_run SERVER; op_data [1]; op_data [2]].


(** C22: when both ends export the same material, the client's local key is the
    server's remote key and the other way round, and each key has exactly the
    length that the SRTP session of the negotiated suite asserts, so creating
    the session never trips its assertion. *)
Theorem srtp_keys_mirror `{OpenSSL} `{!OpenSSLSpec} `{LibSrtp} `{!LibSrtpSpec} c s suite buffer :
  suite ≠ SUITE_NONE → localRole c = CLIENT → localRole s = SERVER →
  SSL_export_keying_material (ssl c) (master_len suite * 2)
  = SSL_export_keying_material (ssl s) (master_len suite * 2) →
  (SSL_export_keying_material (ssl c) (master_len suite * 2)).1 = 1 →
  ∃ c' s' lc rc ls rs,
    ExtractSrtpKeys suite c = Ok ((), c') ∧ log c' = log c ++ [Connected suite lc rc] ∧
    ExtractSrtpKeys suite s = Ok ((), s') ∧ log s' = log s ++ [Connected suite ls rs] ∧
    lc = rs ∧ rc = ls ∧ zlen lc = master_len suite ∧ zlen ls = master_len suite ∧
    newSrtpSession buffer OUTBOUND suite ls (zlen ls)
      ≠ Aborted "given keyLen does not match policy.rtp.cipher_keyLen".
Proof.
  intros Hs Hc Hsv He Hret. do 6 eexists.
  rewrite !ExtractSrtpKeys_run by (rewrite ?Hc, ?Hsv; auto). rewrite <- He, Hret. cbn [Z.eqb].
  split; [done|]. split; [done|]. split; [done|]. split; [done|].
  rewrite Hc, Hsv. unfold material. rewrite <- He. cbn [local_master remote_master].
  pose proof (export_len (ssl c) (master_len suite * 2) ltac:(unfold master_len; lia)) as Hlen.
  destruct (length_masters _ suite Hlen) as [Hl1 Hl2].
  split; [done|]. split; [done|]. split; [done|]. split; [done|].
  destruct (newSrtpSession_ok buffer OUTBOUND suite
    (server_master (SSL_export_keying_material (ssl c) (master_len suite * 2)).2
       (key_len suite) (salt_len suite))) as (policy & _ & _ & ->); [done| |].
  { rewrite Hl2. by destruct suite. }
  destruct (srtp_create policy) as [err h]. destruct (IsError err); [|done].
  unfold GetErrorString. by case_match.
Qed.

Definition toy_client : @DtlsTransport toy_ssl :=
  @mkDtls toy_ssl 1%nat CONNECTING CLIENT (mkFingerprint ALG_NONE []) true false [].
Definition toy_server : @DtlsTransport toy_ssl :=
  @mkDtls toy_ssl 1%nat CONNECTING SERVER (mkFingerprint ALG_NONE []) true false [].

Lemma srtp_keys_mirror_witness :
  ∃ c' s' lc rc ls rs,
    @ExtractSrtpKeys toy_ssl AEAD_AES_128_GCM toy_client = Ok ((), c') ∧
    @log toy_ssl c' = [] ++ [Connected AEAD_AES_128_GCM lc rc] ∧
    @ExtractSrtpKeys toy_ssl AEAD_AES_128_GCM toy_server = Ok ((), s') ∧
    @log toy_ssl s' = [] ++ [Connected AEAD_AES_128_GCM ls rs] ∧
    lc = rs ∧ rc = ls ∧ zlen lc = 28 ∧ zlen ls = 28 ∧
    @newSrtpSession toy_srtp [] OUTBOUND AEAD_AES_128_GCM ls (zlen ls)
      ≠ Aborted "given keyLen does not match policy.rtp.cipher_keyLen".
Proof.
  apply (@srtp_keys_mirror toy_ssl toy_ssl_spec toy_srtp toy_srtp_spec toy_client toy_server
           AEAD_AES_128_GCM []); done.
Defined.

(** The retransmission timer that OpenSSL is given starts at 100 ms and
    doubles; over any number of expiries it stays between 100 ms and 6.4 s and
    settles at 4 s. *)
Lemma dtls_timer_bounded k :
  let t := Nat.iter (S k) onSslDtlsTimer 0 in
  100000 ≤ t ≤ 6400000 ∧ ((7 ≤ k)%nat → t = 4000000).
Proof.
  assert (∀ n, Nat.iter (n + 8) onSslDtlsTimer 0 = 4000000) as Hset.
  { induction n as [|n IH]; [by vm_compute|].
    change (Nat.iter (S n + 8) onSslDtlsTimer 0) with (onSslDtlsTimer (Nat.iter (n + 8) onSslDtlsTimer 0)).
    by rewrite IH. }
  destruct (decide (7 ≤ k)%nat) as [Hk|Hk].
  - assert (S k = (k - 7) + 8)%nat as E by lia. cbv zeta. rewrite E, Hset. lia.
  - assert (k < 7)%nat as Hlt by lia.
    do 7 (destruct k as [|k]; [vm_compute; split; [split; congruence|lia]|]). lia.
Qed.

(** When a BIO cannot be allocated, the constructor frees the SSL object itself
    and again on its error path. *)
Example construct_double_free :
  construct true false true = UB DoubleFree ∧ construct true true false = UB DoubleFree.
Proof. done. Qed.
End DtlsProofs.
