(* ===== verification/DtlsInit.v ===== *)
(** * The class variables of RTC::DtlsTransport

    ClassInit and ClassDestroy of rtc/dtls_transport.cc: the certificate, its
    private key, the SSL context and the fingerprints that every transport shares,
    and CheckRemoteFingerprint.

    OpenSSL objects are counted references.  The model keeps the list of
    references the program holds ([owned]): an allocation adds one, a free needs
    one and takes it away (UB [DoubleFree] otherwise), and passing an object
    to OpenSSL needs it to be held (UB [UseAfterFree] otherwise).  References that
    OpenSSL keeps for itself are not counted.  Which calls fail is arbitrary: the
    results of the calls are an argument of each operation.  Log statements are
    left out; an exception is the text of its MediaSoupError, next to the state
    it leaves behind. *)
From S2P Require Import Prelude Text ByteOps Crypto Srtp Dtls.

Module DtlsInit.
Import Crypto Srtp Dtls.

Abbreviation ptr := Z.

(** ** The objects *)

(** The fields of the certificate that the program sets; the validity is in
    seconds from now. *)
Record X509 := mkX509 {
  x_version : Z;
  x_serial : Z;
  x_notBefore : Z;
  x_notAfter : Z;
  x_pubkey : option ptr;
  x_subject : list (string * list Z);
  x_issuer : list (string * list Z);
  x_signedBy : option ptr
}.

Definition emptyX509 : X509 := mkX509 0 0 0 0 None [] [] None.

(** The settings of the SSL context. *)
Record SslCtx := mkSslCtx {
  ctx_certificate : option ptr;
  ctx_privateKey : option ptr;
  ctx_options : list string;
  ctx_session_cache : bool;
  ctx_read_ahead : bool;
  ctx_verify_depth : Z;
  ctx_verify : list string;
  ctx_ciphers : string;
  ctx_srtp : list Z
}.

Record DtlsClass := mkClass {
  certificate : option ptr;
  privateKey : option ptr;
  sslCtx : option ptr;
  localFingerprints : list Fingerprint;
  seed : Z;                               (* Utils::Crypto::seed *)
  owned : list ptr;
  next : ptr;
  x509s : gmap Z X509;
  contexts : gmap Z SslCtx
}.

Definition initial (seed : Z) : DtlsClass := mkClass None None None [] seed [] 1 ∅ ∅.

Definition set_certificate (p : option ptr) (s : DtlsClass) : DtlsClass :=
  mkClass p (privateKey s) (sslCtx s) (localFingerprints s) (seed s) (owned s) (next s) (x509s s) (contexts s).
Definition set_privateKey (p : option ptr) (s : DtlsClass) : DtlsClass :=
  mkClass (certificate s) p (sslCtx s) (localFingerprints s) (seed s) (owned s) (next s) (x509s s) (contexts s).
Definition set_sslCtx (p : option ptr) (s : DtlsClass) : DtlsClass :=
  mkClass (certificate s) (privateKey s) p (localFingerprints s) (seed s) (owned s) (next s) (x509s s) (contexts s).
Definition set_fingerprints (f : list Fingerprint) (s : DtlsClass) : DtlsClass :=
  mkClass (certificate s) (privateKey s) (sslCtx s) f (seed s) (owned s) (next s) (x509s s) (contexts s).
Definition set_seed (z : Z) (s : DtlsClass) : DtlsClass :=
  mkClass (certificate s) (privateKey s) (sslCtx s) (localFingerprints s) z (owned s) (next s) (x509s s) (contexts s).
Definition set_owned (o : list ptr) (s : DtlsClass) : DtlsClass :=
  mkClass (certificate s) (privateKey s) (sslCtx s) (localFingerprints s) (seed s) o (next s) (x509s s) (contexts s).
Definition set_next (n : ptr) (s : DtlsClass) : DtlsClass :=
  mkClass (certificate s) (privateKey s) (sslCtx s) (localFingerprints s) (seed s) (owned s) n (x509s s) (contexts s).
Definition put_x509 (p : ptr) (x : X509) (s : DtlsClass) : DtlsClass :=
  mkClass (certificate s) (privateKey s) (sslCtx s) (localFingerprints s) (seed s) (owned s) (next s)
    (<[p := x]> (x509s s)) (contexts s).
Definition put_context (p : ptr) (c : SslCtx) (s : DtlsClass) : DtlsClass :=
  mkClass (certificate s) (privateKey s) (sslCtx s) (localFingerprints s) (seed s) (owned s) (next s)
    (x509s s) (<[p := c]> (contexts s)).

(** ** References *)

Definition alloc (s : DtlsClass) : DtlsClass * ptr :=
  (set_next (next s + 1) (set_owned (next s :: owned s) s), next s).

(** A reference that becomes another object's. *)
Definition disown (p : ptr) (s : DtlsClass) : DtlsClass := set_owned (filter (λ q, q ≠ p) (owned s)) s.

Definition free (p : ptr) (s : DtlsClass) : res DtlsClass :=
  if bool_decide (p ∈ owned s) then Ok (disown p s) else UB DoubleFree.

(** [if (p) free(p);] *)
Definition free_if_set (p : option ptr) (s : DtlsClass) : res DtlsClass :=
  match p with Some p => free p s | None => Ok s end.

(** An argument of an OpenSSL call: null, or an object that is held. *)
Definition use (p : option ptr) (s : DtlsClass) : res unit :=
  match p with
  | None => Ok ()
  | Some p => if bool_decide (p ∈ owned s) then Ok () else UB UseAfterFree
  end.

(** An operation leaves a state, and maybe an exception. *)
Definition outcome : Type := res (DtlsClass * option string).

(** ** GenerateCertificateAndPrivateKey *)

Record KeyCalls := mkKeyCalls {
  EC_KEY_new_by_curve_name : bool;
  EC_KEY_generate_key : Z;
  EVP_PKEY_new : bool;
  EVP_PKEY_assign_EC_KEY : Z;
  X509_new : bool;
  X509_set_pubkey : Z;
  X509_get_subject_name : bool;
  X509_set_issuer_name : Z;
  X509_sign : Z
}.

(** The [error:] label. *)
Definition key_error (ecKey : option ptr) (s : DtlsClass) : outcome :=
  s ← free_if_set ecKey s;
  s ← free_if_set (privateKey s) s;
  s ← free_if_set (certificate s) s;
  Ok (s, Some "DTLS certificate and private key generation failed").

(** From [certificate = X509_new()] on. *)
Definition make_certificate (o : KeyCalls) (subject : list Z) (s : DtlsClass) : outcome :=
  if negb (X509_new o) then key_error None (set_certificate None s)
  else
    let '(s, cert) := alloc s in
    let s := set_certificate (Some cert) s in
    '(seed, serial) ← GetRandomUInt (seed s) 1000000 9999999;
    let s := set_seed seed s in
    let x := mkX509 2 serial (-315360000) 315360000 None [] [] None in
    let s := put_x509 cert x s in
    _ ← use (privateKey s) s;
    if X509_set_pubkey o =? 0 then key_error None s
    else
      let x := mkX509 2 serial (-315360000) 315360000 (privateKey s) [] [] None in
      let s := put_x509 cert x s in
      if negb (X509_get_subject_name o) then key_error None s
      else
        let name := [("O", subject); ("CN", subject)] in
        let x := mkX509 2 serial (-315360000) 315360000 (privateKey s) name [] None in
        let s := put_x509 cert x s in
        if X509_set_issuer_name o =? 0 then key_error None s
        else
          let x := mkX509 2 serial (-315360000) 315360000 (privateKey s) name name None in
          let s := put_x509 cert x s in
          if X509_sign o =? 0 then key_error None s
          else
            let x := mkX509 2 serial (-315360000) 315360000 (privateKey s) name name (privateKey s) in
            Ok (put_x509 cert x s, None).

Definition GenerateCertificateAndPrivateKey (o : KeyCalls) (s : DtlsClass) : outcome :=
  '(seed, n) ← GetRandomUInt (seed s) 100000 999999;
  let s := set_seed seed s in
  let subject := str "mihawkxue" ++ fmt_u n in
  if negb (EC_KEY_new_by_curve_name o) then key_error None s
  else
    let '(s, ecKey) := alloc s in
    if EC_KEY_generate_key o =? 0 then key_error (Some ecKey) s
    else if negb (EVP_PKEY_new o) then key_error (Some ecKey) (set_privateKey None s)
    else
      let '(s, pkey) := alloc s in
      let s := set_privateKey (Some pkey) s in
      if EVP_PKEY_assign_EC_KEY o =? 0 then key_error (Some ecKey) s
      else
        (* The EC key belongs to the private key now. *)
        let s := disown ecKey s in
        make_certificate o subject s.

(** ** CreateSslCtx *)

Record CtxCalls := mkCtxCalls {
  SSL_CTX_new : bool;
  SSL_CTX_use_certificate : Z;
  SSL_CTX_use_PrivateKey : Z;
  SSL_CTX_check_private_key : Z;
  SSL_CTX_set_cipher_list : Z;
  SSL_CTX_set_tlsext_use_srtp : Z
}.

(** The loop that joins the names of [srtpCryptoSuites] with colons; [first] is
    [it == begin()]. *)
Fixpoint join_suites (first : bool) (l : list (CryptoSuite * string)) (acc : list Z) : list Z :=
  match l with
  | [] => acc
  | (_, name) :: rest => join_suites false rest ((if first then acc else acc ++ str ":") ++ str name)
  end.

Definition ctx_error (s : DtlsClass) : outcome :=
  s ← (match sslCtx s with
       | Some c => s ← free c s; Ok (set_sslCtx None s)
       | None => Ok s
       end);
  Ok (s, Some "SSL context creation failed").

Definition CreateSslCtx (o : CtxCalls) (s : DtlsClass) : outcome :=
  if negb (SSL_CTX_new o) then ctx_error (set_sslCtx None s)
  else
    let '(s, ctx) := alloc s in
    let s := set_sslCtx (Some ctx) s in
    _ ← use (certificate s) s;
    if SSL_CTX_use_certificate o =? 0 then ctx_error s
    else
      _ ← use (privateKey s) s;
      if SSL_CTX_use_PrivateKey o =? 0 then ctx_error s
      else if SSL_CTX_check_private_key o =? 0 then ctx_error s
      else
        let dtlsSrtpCryptoSuites := join_suites true srtpCryptoSuites [] in
        let settings := mkSslCtx (certificate s) (privateKey s)
          ["CIPHER_SERVER_PREFERENCE"; "NO_TICKET"; "SINGLE_ECDH_USE"; "NO_QUERY_MTU"] false true 4
          ["PEER"; "FAIL_IF_NO_PEER_CERT"]
          "DEFAULT:!NULL:!aNULL:!SHA256:!SHA384:!aECDH:!AESGCM+AES256:!aPSK" dtlsSrtpCryptoSuites in
        if SSL_CTX_set_cipher_list o =? 0 then ctx_error s
        else if negb (SSL_CTX_set_tlsext_use_srtp o =? 0) then ctx_error s
        else Ok (put_context ctx settings s, None).

(** ** GenerateFingerprints *)

Definition EVP_MAX_MD_SIZE : Z := 64.

(** X509_digest: the digest of a certificate, or failure. *)
Class DigestApi := { X509_digest : X509 → FingerprintAlgorithm → option (list Z) }.

(** [sprintf(hexFingerprint + i * 3, "%.2X:", binaryFingerprint[i])] for every byte. *)
Fixpoint print_digest (hex : list Z) (i : Z) (digest : list Z) : res (list Z) :=
  match digest with
  | [] => Ok hex
  | b :: rest => hex ← memcpy hex (i * 3) (fmt_X 2 b ++ str ":" ++ [0]); print_digest hex (i + 1) rest
  end.

(** The hexadecimal text of a digest, in the uninitialised array [stack] of
    3 * EVP_MAX_MD_SIZE + 1 characters. *)
Definition hex_fingerprint (stack digest : list Z) : res (list Z) :=
  hex ← print_digest stack 0 digest;
  hex ← wr hex (u32 (zlen digest * 3 - 1)) 0;
  Ok (c_str hex).

Section Fingerprints.
Context `{DigestApi}.

Definition GenerateFingerprint (stack : list Z) (algorithmString : string) (a : FingerprintAlgorithm)
    (s : DtlsClass) : outcome :=
  match a with
  | ALG_NONE => Ok (s, Some "unknown algorithm")
  | _ =>
      _ ← use (certificate s) s;
      match certificate s ≫= λ c, X509_digest (default emptyX509 (x509s s !! c)) a with
      | None => Ok (s, Some "Fingerprints generation failed")
      | Some digest =>
          value ← hex_fingerprint stack digest;
          let f := mkFingerprint (GetFingerprintAlgorithm algorithmString) value in
          Ok (set_fingerprints (localFingerprints s ++ [f]) s, None)
      end
  end.

(** The loop over the map, in the order of its keys. *)
Fixpoint generate_fingerprints (stack : list Z) (l : list (string * FingerprintAlgorithm)) (s : DtlsClass) :
    outcome :=
  match l with
  | [] => Ok (s, None)
  | (name, a) :: rest =>
      '(s, x) ← GenerateFingerprint stack name a s;
      match x with
      | Some _ => Ok (s, x)
      | None => generate_fingerprints stack rest s
      end
  end.

Definition GenerateFingerprints (stack : list Z) (s : DtlsClass) : outcome :=
  generate_fingerprints stack string2FingerprintAlgorithm s.

(** ** ClassInit and ClassDestroy *)

Definition ClassInit (k : KeyCalls) (c : CtxCalls) (stack : list Z) (s : DtlsClass) : outcome :=
  '(s, x) ← GenerateCertificateAndPrivateKey k s;
  match x with
  | Some _ => Ok (s, x)
  | None =>
      '(s, x) ← CreateSslCtx c s;
      match x with
      | Some _ => Ok (s, x)
      | None => GenerateFingerprints stack s
      end
  end.

(** The pointers are freed and keep their values. *)
Definition ClassDestroy (s : DtlsClass) : res DtlsClass :=
  s ← free_if_set (privateKey s) s;
  s ← free_if_set (certificate s) s;
  free_if_set (sslCtx s) s.

(** ** CheckRemoteFingerprint *)

(** The peer's certificate, and the results of writing it out: PEM_write_bio_X509
    and the contents of the memory BIO. *)
Record PeerCalls := mkPeerCalls {
  SSL_get_peer_certificate : option X509;
  BIO_new : bool;
  PEM_write_bio_X509 : Z;
  BIO_get_mem_ptr : option (list Z)
}.

(** [None] is a null hashFunction's case, the [default] of the switch. *)
Definition hash_known (a : FingerprintAlgorithm) : bool :=
  match a with ALG_NONE => false | _ => true end.

(** The answer, and the new [remoteCert] when it is assigned. *)
Definition CheckRemoteFingerprint (o : PeerCalls) (stack : list Z) (remote : Fingerprint) (s : DtlsClass) :
    res (DtlsClass * bool * option (list Z)) :=
  _ ← ms_assert (negb (bool_decide (algorithm remote = ALG_NONE))) "remote fingerprint not set";
  match SSL_get_peer_certificate o with
  | None => Ok (s, false, None)
  | Some x =>
      let '(s, cert) := alloc s in
      if negb (hash_known (algorithm remote)) then Aborted "unknown algorithm"
      else
        match X509_digest x (algorithm remote) with
        | None => s ← free cert s; Ok (s, false, None)
        | Some digest =>
            hexFingerprint ← hex_fingerprint stack digest;
            if negb (bool_decide (value remote = hexFingerprint)) then
              s ← free cert s; Ok (s, false, None)
            else
              let '(s, bio) := if BIO_new o then let '(s, b) := alloc s in (s, Some b) else (s, None) in
              if negb (PEM_write_bio_X509 o =? 1) then
                s ← free cert s; s ← free_if_set bio s; Ok (s, false, None)
              else
                match BIO_get_mem_ptr o with
                | None | Some [] =>
                    s ← free cert s; s ← free_if_set bio s; Ok (s, false, None)
                | Some mem =>
                    s ← free cert s; s ← free_if_set bio s; Ok (s, true, Some mem)
                end
        end
  end.
End Fingerprints.
End DtlsInit.
