(* ===== verification/DtlsInitProofs.v ===== *)
(** * Proofs about the class variables of RTC::DtlsTransport

    The text of a fingerprint, the decision of CheckRemoteFingerprint, and who
    owns what after ClassInit and ClassDestroy, whatever OpenSSL answers. *)
From S2P Require Import Prelude Text ByteOps Crypto Srtp Dtls DtlsInit.

Module DtlsInitProofs.
Import Crypto Srtp Dtls DtlsInit.

(** The length of a hash in bytes. *)
Definition hash_length (a : FingerprintAlgorithm) : nat :=
  match a with ALG_NONE => 0 | SHA1 => 20 | SHA224 => 28 | SHA256 => 32 | SHA384 => 48 | SHA512 => 64 end.

(** X509_digest fills as many bytes as the hash function has. *)
Class DigestSpec `{DigestApi} := {
  digest_length : ∀ x a d, X509_digest x a = Some d → length d = hash_length a;
  digest_bytes : ∀ x a d, X509_digest x a = Some d → bytes_ok d
}.

(** ** Fingerprint text *)

(** Two digits a byte, colons between. *)
Fixpoint colon_hex (d : list Z) : list Z :=
  match d with
  | [] => []
  | b :: rest => match rest with [] => fmt_X 2 b | _ => fmt_X 2 b ++ str ":" ++ colon_hex rest end
  end.

Fixpoint read_colon_hex (l : list Z) : list Z :=
  match l with
  | a :: b :: rest => read_X [a; b] :: match rest with _ :: rest => read_colon_hex rest | [] => [] end
  | _ => []
  end.

Definition hex_group (b : Z) : list Z := fmt_X 2 b ++ str ":".

Lemma hex_pair b : is_byte b → ∃ x y, fmt_X 2 b = [x; y] ∧ read_X [x; y] = b ∧ x ≠ 0 ∧ y ≠ 0.
Proof.
  unfold is_byte. intros Hb.
  pose proof (length_fmt_X 1 b ltac:(simpl; lia)) as Hl. pose proof (read_fmt_X 2 b ltac:(lia)) as Hr.
  pose proof (fmt_X_is_hex 2 b ltac:(lia)) as Hx.
  destruct (fmt_X 2 b) as [|x [|y [|]]]; try done. exists x, y.
  apply Forall_cons in Hx as [Hx [Hy _]%Forall_cons]. unfold is_hex in *. split_and!; lia || done.
Qed.

Lemma colon_hex_groups b d : concat (hex_group <$> (b :: d)) = colon_hex (b :: d) ++ [58].
Proof.
  revert b. induction d as [|c d IH]; intros b.
  - simpl. by rewrite app_nil_r.
  - rewrite fmap_cons. cbn [concat]. rewrite IH. unfold hex_group. simpl. by rewrite <- !app_assoc.
Qed.

Lemma read_colon_hex_text d : bytes_ok d → read_colon_hex (colon_hex d) = d.
Proof.
  induction 1 as [|b d Hb _ IH]; [done|].
  destruct (hex_pair b Hb) as (x & y & E & Hr & _). simpl. rewrite E.
  destruct d; simpl in *; rewrite Hr; [done|]. by rewrite IH.
Qed.

Lemma colon_hex_nonzero d : bytes_ok d → Forall (λ c, c ≠ 0) (colon_hex d).
Proof.
  induction 1 as [|b d Hb _ IH]; [done|].
  destruct (hex_pair b Hb) as (x & y & E & _ & Hx & Hy). simpl. rewrite E.
  destruct d; repeat constructor; done.
Qed.

Lemma zlen_hex_groups d : bytes_ok d → zlen (concat (hex_group <$> d)) = 3 * zlen d.
Proof.
  induction 1 as [|b d Hb _ IH]; [done|].
  destruct (hex_pair b Hb) as (x & y & E & _). rewrite fmap_cons. cbn [concat].
  unfold hex_group at 1. rewrite E, zlen_app, IH, zlen_cons. change (zlen ([x; y] ++ str ":")) with 3. lia.
Qed.

(** The sprintf calls, one behind the other. *)
Lemma print_digest_spec pre tail i d :
  bytes_ok d → zlen pre = i * 3 → 3 * zlen d < zlen tail →
  ∃ tail', print_digest (pre ++ tail) i d = Ok (pre ++ concat (hex_group <$> d) ++ tail').
Proof.
  intros Hd. revert pre tail i. induction Hd as [|b d Hb Hd IH]; intros pre tail i Hp Ht.
  { by exists tail. }
  destruct (hex_pair b Hb) as (x & y & E & _). rewrite zlen_cons in Ht.
  pose proof (zlen_nonneg d). simpl print_digest. rewrite E.
  destruct tail as [|t1 [|t2 [|t3 [|t4 tail]]]]; autorewrite with zlen in Ht; try lia.
  rewrite (memcpy_app pre [t1; t2; t3; t4] tail [x; y; 58; 0]) by done. cbn [mbind res_bind].
  destruct (IH (pre ++ [x; y; 58]) (0 :: tail) (i + 1)) as [tail' E'].
  - autorewrite with zlen. lia.
  - autorewrite with zlen. lia.
  - rewrite <- app_assoc in E'. exists tail'. etrans; [exact E'|].
    rewrite fmap_cons. cbn [concat]. unfold hex_group at 2. rewrite E. by rewrite <- !app_assoc.
Qed.

Lemma hex_fingerprint_text stack d :
  zlen stack = 3 * EVP_MAX_MD_SIZE + 1 → bytes_ok d → 0 < zlen d ≤ EVP_MAX_MD_SIZE →
  hex_fingerprint stack d = Ok (colon_hex d) ∧ zlen (colon_hex d) = 3 * zlen d - 1.
Proof.
  unfold EVP_MAX_MD_SIZE. intros Hs Hd Hl. unfold hex_fingerprint.
  destruct (print_digest_spec [] stack 0 d Hd) as [tail' E]; [reflexivity|lia|]. simpl in E. rewrite E.
  pose proof (zlen_hex_groups d Hd) as Hz. destruct d as [|b d]; [unfold zlen in Hl; simpl in Hl; lia|].
  rewrite colon_hex_groups in *. rewrite zlen_app, zlen_cons, zlen_nil in Hz.
  split; [|lia]. cbn [mbind res_bind].
  rewrite wrap_small by (unfold fits; lia). rewrite <- app_assoc. simpl ([58] ++ _).
  rewrite wr_app by lia. cbn [mbind res_bind]. f_equal. by apply c_str_app, colon_hex_nonzero.
Qed.

(** The fingerprint text of a digest.  For digests of up to EVP_MAX_MD_SIZE
    bytes the sprintf loop fills exactly the array it is given, never more, and
    the text is two upper case hexadecimal digits a byte with colons between:
    3n - 1 characters, from which the digest can be read back. *)
Lemma fingerprint_roundtrip stack d :
  zlen stack = 3 * EVP_MAX_MD_SIZE + 1 → bytes_ok d → 0 < zlen d ≤ EVP_MAX_MD_SIZE →
  wp (hex_fingerprint stack d) (λ text, zlen text = 3 * zlen d - 1 ∧ read_colon_hex text = d).
Proof.
  intros Hs Hd Hl. destruct (hex_fingerprint_text stack d Hs Hd Hl) as [-> Hz].
  split; [done|by apply read_colon_hex_text].
Qed.

Definition stack_array : list Z := replicate 193 204.

Lemma fingerprint_roundtrip_witness :
  zlen stack_array = 3 * EVP_MAX_MD_SIZE + 1 ∧ bytes_ok [18; 171; 0] ∧
  wp (hex_fingerprint stack_array [18; 171; 0]) (λ text, read_colon_hex text = [18; 171; 0]) ∧
  hex_fingerprint stack_array [18; 171; 0] = Ok (str "12:AB:00").
Proof.
  assert (bytes_ok [18; 171; 0]) as Hb by (repeat constructor; done).
  assert (zlen stack_array = 3 * EVP_MAX_MD_SIZE + 1) as Hs by reflexivity.
  split_and!; [exact Hs|exact Hb| |vm_compute; reflexivity].
  eapply wp_mono; [apply (fingerprint_roundtrip stack_array [18; 171; 0] Hs Hb); vm_compute; split; congruence|].
  by intros text [_ E].
Defined.

(** ** CheckRemoteFingerprint *)

(** Every reference held was allocated before. *)
Definition refs_ok (s : DtlsClass) : Prop := Forall (λ p, p < next s) (owned s).

Lemma refs_fresh s : refs_ok s → next s ∉ owned s.
Proof. intros Hr Hin. eapply Forall_forall in Hr; [|exact Hin]. simpl in Hr. lia. Qed.

Lemma filter_fresh (p : ptr) (l : list ptr) : p ∉ l → filter (λ q, q ≠ p) l = l.
Proof.
  induction l as [|x l IH]; [done|]. rewrite not_elem_of_cons. intros [Hx Hl].
  rewrite filter_cons_True by congruence. by rewrite IH.
Qed.

Lemma free_owned p s : p ∈ owned s → free p s = Ok (disown p s).
Proof. intros Hp. unfold free. by rewrite bool_decide_eq_true_2. Qed.

(** Giving back the two latest allocations leaves what was held before. *)
Lemma release (p : ptr) (bio : option ptr) (base : list ptr) s :
  owned s = option_list bio ++ p :: base → NoDup (owned s) →
  ∃ s', (s ← free p s; free_if_set bio s) = Ok s' ∧ owned s' = base.
Proof.
  intros Ho Hn. rewrite Ho in Hn. rewrite free_owned by (rewrite Ho; set_solver).
  cbn [mbind res_bind]. destruct bio as [b|]; simpl in *.
  - apply NoDup_cons in Hn as [Hb [Hp _]%NoDup_cons].
    assert (owned (disown p s) = b :: base) as Hd.
    { simpl. rewrite Ho, filter_cons_True by set_solver.
      rewrite filter_cons_False by (intros E; by apply E). by rewrite filter_fresh. }
    rewrite free_owned by (rewrite Hd; set_solver). eexists. split; [done|].
    simpl in *. rewrite Hd, filter_cons_False by (intros E; by apply E). apply filter_fresh. set_solver.
  - apply NoDup_cons in Hn as [Hp _]. eexists. split; [done|]. simpl.
    rewrite Ho, filter_cons_False by (intros E; by apply E). by rewrite filter_fresh.
Qed.

Section Spec.
Context `{DigestSpec}.

(** The condition under which the peer is accepted. *)
Definition peer_matches (o : PeerCalls) (remote : Fingerprint) : Prop :=
  ∃ x d c mem, SSL_get_peer_certificate o = Some x ∧ X509_digest x (algorithm remote) = Some d ∧
    value remote = colon_hex d ∧ PEM_write_bio_X509 o = 1 ∧ BIO_get_mem_ptr o = Some (c :: mem).

Lemma known_digest_size a (d : list Z) :
  a ≠ ALG_NONE → length d = hash_length a → 0 < zlen d ≤ EVP_MAX_MD_SIZE.
Proof. unfold zlen, EVP_MAX_MD_SIZE. intros Ha ->. by destruct a. Qed.

Definition checked (o : PeerCalls) (remote : Fingerprint) (s : DtlsClass)
    (r : DtlsClass * bool * option (list Z)) : Prop :=
  let '(s', ok, cert) := r in
  owned s' = owned s ∧ (ok = true ↔ peer_matches o remote) ∧
  cert = (if ok then BIO_get_mem_ptr o else None).

Lemma release_checked o remote s s1 p bio (ok : bool) cert :
  owned s1 = option_list bio ++ p :: owned s → NoDup (owned s1) →
  (ok = true ↔ peer_matches o remote) → cert = (if ok then BIO_get_mem_ptr o else None) →
  wp (s ← free p s1; s ← free_if_set bio s; Ok (s, ok, cert)) (checked o remote s).
Proof.
  intros Ho Hn Hok Hc. destruct (release p bio (owned s) s1 Ho Hn) as (s' & E & Hs').
  unfold mbind, res_bind in *. destruct (free p s1); try done. rewrite E. done.
Qed.

Lemma NoDup_alloc s : NoDup (owned s) → refs_ok s → NoDup (owned (alloc s).1) ∧ refs_ok (alloc s).1.
Proof.
  intros Hn Hr. simpl. split; [constructor; [by apply refs_fresh|done]|].
  unfold refs_ok. simpl. constructor; [lia|]. eapply Forall_impl; [exact Hr|]. simpl. lia.
Qed.

(** After the fingerprint has matched: writing the certificate out. *)
Lemma written_out o remote s s1 p x d :
  owned s1 = p :: owned s → NoDup (owned s1) → refs_ok s1 →
  SSL_get_peer_certificate o = Some x → X509_digest x (algorithm remote) = Some d →
  value remote = colon_hex d →
  wp (let '(s, bio) := if BIO_new o then let '(s, b) := alloc s1 in (s, Some b) else (s1, None) in
      if negb (PEM_write_bio_X509 o =? 1) then
        s ← free p s; s ← free_if_set bio s; Ok (s, false, None)
      else
        match BIO_get_mem_ptr o with
        | None | Some [] => s ← free p s; s ← free_if_set bio s; Ok (s, false, None)
        | Some mem => s ← free p s; s ← free_if_set bio s; Ok (s, true, Some mem)
        end) (checked o remote s).
Proof.
  intros Ho Hn Hr Hx Hd Hv.
  destruct (NoDup_alloc s1 Hn Hr) as [Hn2 _].
  assert (∀ s2 bio, owned s2 = option_list bio ++ p :: owned s → NoDup (owned s2) →
    wp (if negb (PEM_write_bio_X509 o =? 1) then
          s ← free p s2; s ← free_if_set bio s; Ok (s, false, None)
        else
          match BIO_get_mem_ptr o with
          | None | Some [] => s ← free p s2; s ← free_if_set bio s; Ok (s, false, None)
          | Some mem => s ← free p s2; s ← free_if_set bio s; Ok (s, true, Some mem)
          end) (checked o remote s)) as Hb.
  { intros s2 bio Ho2 Hnd. unfold peer_matches.
    destruct (Z.eqb_spec (PEM_write_bio_X509 o) 1) as [Hp|Hp]; cbn [negb].
    - destruct (BIO_get_mem_ptr o) as [[|c mem]|] eqn:Hm; apply release_checked; try done;
        rewrite ?Hm; unfold peer_matches; rewrite ?Hm; naive_solver.
    - apply release_checked; try done. unfold peer_matches. naive_solver. }
  destruct (BIO_new o).
  - apply (Hb (alloc s1).1 (Some (next s1))); [by simpl; rewrite Ho|done].
  - by apply (Hb s1 None).
Qed.

Lemma CheckRemoteFingerprint_spec o stack remote s :
  zlen stack = 3 * EVP_MAX_MD_SIZE + 1 → algorithm remote ≠ ALG_NONE →
  NoDup (owned s) → refs_ok s →
  wp (CheckRemoteFingerprint o stack remote s) (checked o remote s).
Proof using All.
  intros Hst Ha Hn Hr. unfold CheckRemoteFingerprint. rewrite bool_decide_eq_false_2 by done.
  cbn [negb ms_assert mbind res_bind].
  destruct (SSL_get_peer_certificate o) as [x|] eqn:Hx.
  2:{ unfold checked, peer_matches. rewrite Hx. simpl. naive_solver. }
  destruct (NoDup_alloc s Hn Hr) as [Hn1 Hr1].
  replace (hash_known (algorithm remote)) with true by by destruct (algorithm remote).
  set (s1 := (alloc s).1) in *. change (alloc s) with (s1, next s). cbv iota beta. cbn [negb].
  destruct (X509_digest x (algorithm remote)) as [d|] eqn:Hd.
  - destruct (hex_fingerprint_text stack d) as [-> _]; [done|by eapply digest_bytes| |].
    { eapply known_digest_size; [done|by eapply digest_length]. }
    cbn [mbind res_bind]. case_bool_decide as Hv; cbn [negb].
    + by eapply written_out.
    + apply (release_checked o remote s s1 (next s) None); try done.
      unfold peer_matches. naive_solver.
  - apply (release_checked o remote s s1 (next s) None); try done.
    unfold peer_matches. naive_solver.
Qed.

(** C24: CheckRemoteFingerprint accepts the peer exactly when it presented a
    certificate, the certificate's digest printed as text is the fingerprint that
    was signalled, and the certificate could be written out; remoteCert is
    assigned only then.  On every path, error paths included, each reference taken
    is released exactly once. *)
Theorem remote_fingerprint_checked o stack remote s :
  zlen stack = 3 * EVP_MAX_MD_SIZE + 1 → algorithm remote ≠ ALG_NONE →
  NoDup (owned s) → refs_ok s →
  wp (CheckRemoteFingerprint o stack remote s) (λ '(s', ok, remoteCert),
    owned s' = owned s ∧ (ok = true ↔ peer_matches o remote) ∧
    remoteCert = (if ok then BIO_get_mem_ptr o else None)).
Proof using All.
  intros Hst Ha Hn Hr. eapply wp_mono; [by apply CheckRemoteFingerprint_spec|].
  by intros [[s' ok] c].
Qed.
End Spec.

(** ** ClassInit and ClassDestroy *)

(** The EVP_PKEY was allocated. *)
Definition pkey_created (o : KeyCalls) : bool :=
  EC_KEY_new_by_curve_name o && negb (EC_KEY_generate_key o =? 0) && EVP_PKEY_new o.

(** Key generation went through. *)
Definition key_made (o : KeyCalls) : bool :=
  pkey_created o && negb (EVP_PKEY_assign_EC_KEY o =? 0) && X509_new o &&
  negb (X509_set_pubkey o =? 0) && X509_get_subject_name o &&
  negb (X509_set_issuer_name o =? 0) && negb (X509_sign o =? 0).

(** A version 3 certificate for its own key: issuer and subject are the same,
    the key that signed it is the one it certifies, and it is valid for ten years
    in both directions. *)
Definition self_signed (key : ptr) (x : X509) : Prop :=
  x_version x = 2 ∧ 1000000 ≤ x_serial x ≤ 9999999 ∧
  x_notBefore x = - 315360000 ∧ x_notAfter x = 315360000 ∧
  x_pubkey x = Some key ∧ x_signedBy x = Some key ∧ x_issuer x = x_subject x ∧ x_subject x ≠ [].

Definition has_key (s : DtlsClass) : Prop :=
  ∃ key cert x, privateKey s = Some key ∧ certificate s = Some cert ∧ sslCtx s = None ∧
    owned s = [cert; key] ∧ cert ≠ key ∧ refs_ok s ∧ localFingerprints s = [] ∧
    x509s s !! cert = Some x ∧ self_signed key x.

Lemma random_Ok seed mn mx :
  0 ≤ mn ≤ mx → mx < 2 ^ 32 - 1 →
  ∃ seed' v, GetRandomUInt seed mn mx = Ok (seed', v) ∧ mn ≤ v ≤ mx.
Proof.
  intros Hm Hx. pose proof (GetRandomUInt_bounds seed mn mx) as Hb.
  unfold fits in Hb. specialize (Hb ltac:(lia) ltac:(lia)).
  apply wp_Ok in Hb as ([seed' v] & E & _ & Hv & Hlo & _). exists seed', v.
  split; [done|]. split; [apply Hlo; lia|lia].
Qed.

(** The state after a failed attempt to make the certificate: nothing is held, and
    the pointers keep their values. *)
Definition key_failed (key : ptr) (s : DtlsClass) (x : option string) : Prop :=
  x = Some "DTLS certificate and private key generation failed" ∧ owned s = [] ∧
  sslCtx s = None ∧ privateKey s = Some key.

Lemma free_frame p s s' :
  free p s = Ok s' →
  privateKey s' = privateKey s ∧ certificate s' = certificate s ∧ sslCtx s' = sslCtx s.
Proof. unfold free. case_bool_decide; [|done]. by intros [= <-]. Qed.

Lemma key_error_frees key s :
  privateKey s = Some key → sslCtx s = None →
  owned s = option_list (certificate s) ++ [key] → NoDup (owned s) →
  ∃ s' x, key_error None s = Ok (s', x) ∧ key_failed key s' x.
Proof.
  intros Hk Hc Ho Hn. destruct (release key (certificate s) [] s Ho Hn) as (s' & E & Hs').
  apply bind_Ok in E as (s1 & E1 & E2). apply free_frame in E1 as Hf. destruct Hf as (F1 & F2 & F3).
  exists s'. eexists. unfold key_error. cbn [mbind res_bind free_if_set]. rewrite Hk.
  cbn [free_if_set]. rewrite E1. cbn [mbind res_bind]. rewrite F2, E2. split; [done|].
  assert (privateKey s' = privateKey s1 ∧ sslCtx s' = sslCtx s1) as [G1 G2].
  { destruct (certificate s); simpl in E2; [|by simplify_eq].
    apply free_frame in E2. naive_solver. }
  split_and!; [done|done|congruence|congruence].
Qed.

(** Destroying after a failure. *)
Lemma destroy_failed s :
  owned s = [] → sslCtx s = None → (privateKey s = None → certificate s = None) →
  ClassDestroy s = match privateKey s with Some _ => UB DoubleFree | None => Ok s end.
Proof.
  intros Ho Hc Hk. unfold ClassDestroy. destruct (privateKey s) as [k|]; simpl.
  - unfold free. by rewrite Ho.
  - rewrite Hk by done. simpl. by rewrite Hc.
Qed.

(** The same while the EC key is still the program's own. *)
Lemma ec_failed ec s :
  certificate s = None → sslCtx s = None →
  owned s = option_list (privateKey s) ++ [ec] → NoDup (owned s) →
  ∃ s' x, key_error (Some ec) s = Ok (s', x) ∧
    x = Some "DTLS certificate and private key generation failed" ∧ owned s' = [] ∧ sslCtx s' = None ∧
    ClassDestroy s' = match privateKey s with Some _ => UB DoubleFree | None => Ok s' end.
Proof.
  intros Hk Hc Ho Hn. destruct (release ec (privateKey s) [] s Ho Hn) as (s' & E & Hs').
  apply bind_Ok in E as (s1 & E1 & E2). apply free_frame in E1 as Hf. destruct Hf as (F1 & F2 & F3).
  assert (privateKey s' = privateKey s1 ∧ certificate s' = certificate s1 ∧ sslCtx s' = sslCtx s1)
    as (G1 & G2 & G3).
  { destruct (privateKey s); simpl in E2; [|by simplify_eq]. by apply free_frame in E2. }
  exists s'. eexists. unfold key_error. cbn [mbind res_bind free_if_set]. rewrite E1. cbn [mbind res_bind].
  rewrite F1, E2. cbn [mbind res_bind]. rewrite G2, F2, Hk. split; [done|].
  split_and!; [done|done|congruence|]. rewrite destroy_failed by congruence. by rewrite G1, F1.
Qed.

Definition certificate_made (o : KeyCalls) : bool :=
  X509_new o && negb (X509_set_pubkey o =? 0) && X509_get_subject_name o &&
  negb (X509_set_issuer_name o =? 0) && negb (X509_sign o =? 0).

Lemma make_certificate_outcome o subject s key :
  privateKey s = Some key → owned s = [key] → key < next s →
  sslCtx s = None → localFingerprints s = [] →
  ∃ s' x, make_certificate o subject s = Ok (s', x) ∧
    if certificate_made o then x = None ∧ has_key s' else key_failed key s' x.
Proof.
  intros Hk Ho Hn Hc Hf. unfold make_certificate, certificate_made.
  destruct (X509_new o); cbn [negb andb].
  2:{ apply key_error_frees; [done|done|done|]. simpl. rewrite Ho. apply NoDup_singleton. }
  destruct (random_Ok (DtlsInit.seed s) 1000000 9999999) as (seed2 & serial & E2 & Hs); [lia|lia|].
  cbn [alloc set_certificate set_next set_owned DtlsInit.seed]. rewrite E2. cbn [mbind res_bind].
  match goal with |- context [use (privateKey ?t) ?t] =>
    assert (use (privateKey t) t = Ok ()) as Hu end.
  { simpl. rewrite Hk. unfold use. simpl. rewrite Ho. by rewrite bool_decide_eq_true_2 by set_solver. }
  rewrite Hu. cbn [mbind res_bind]. clear Hu.
  assert (NoDup [next s; key]) as Hnd.
  { apply NoDup_cons. split; [|apply NoDup_singleton]. rewrite list_elem_of_singleton. lia. }
  destruct (X509_set_pubkey o =? 0); cbn [negb andb]; [apply key_error_frees; simpl; rewrite ?Ho; done|].
  destruct (X509_get_subject_name o); cbn [negb andb]; [|apply key_error_frees; simpl; rewrite ?Ho; done].
  destruct (X509_set_issuer_name o =? 0); cbn [negb andb]; [apply key_error_frees; simpl; rewrite ?Ho; done|].
  destruct (X509_sign o =? 0); cbn [negb andb]; [apply key_error_frees; simpl; rewrite ?Ho; done|].
  eexists _, _. split; [done|]. split; [done|]. eexists key, (next s), _.
  split_and!; cbn -[fmt_u]; try done; [by rewrite Ho|lia| |apply lookup_insert_eq|].
  - unfold refs_ok. simpl. rewrite Ho. repeat constructor; lia.
  - unfold self_signed. cbn -[fmt_u]. split_and!; done || lia.
Qed.

Lemma key_outcome o z :
  ∃ s x, GenerateCertificateAndPrivateKey o (initial z) = Ok (s, x) ∧
    if key_made o then x = None ∧ has_key s
    else x = Some "DTLS certificate and private key generation failed" ∧ owned s = [] ∧
      sslCtx s = None ∧ ClassDestroy s = if pkey_created o then UB DoubleFree else Ok s.
Proof.
  unfold GenerateCertificateAndPrivateKey.
  destruct (random_Ok z 100000 999999) as (seed1 & n & E1 & _); [lia|lia|].
  cbn [DtlsInit.seed initial]. rewrite E1. cbn [mbind res_bind]. clear E1.
  set (s0 := set_seed seed1 (initial z)).
  assert (owned s0 = [] ∧ next s0 = 1 ∧ privateKey s0 = None ∧ certificate s0 = None ∧ sslCtx s0 = None ∧
    localFingerprints s0 = []) as (Ho & Hn & Hk & Hc & Hx & Hf) by done. clearbody s0.
  unfold key_made, pkey_created. destruct (EC_KEY_new_by_curve_name o); cbn [negb andb].
  2:{ exists s0. eexists. unfold key_error. simpl. rewrite Hk. simpl. rewrite Hc. split; [done|].
      split_and!; try done. rewrite destroy_failed by done. by rewrite Hk. }
  cbn [alloc]. set (s1 := set_next _ _).
  assert (owned s1 = [next s0]) as Ho1 by (simpl; by rewrite Ho).
  destruct (EC_KEY_generate_key o =? 0); cbn [negb andb].
  { destruct (ec_failed (next s0) s1) as (s & x & E);
      [done|done|by simpl; rewrite Hk, Ho|rewrite Ho1; apply NoDup_singleton|].
    simpl in E. rewrite Hk in E. by exists s, x. }
  destruct (EVP_PKEY_new o); cbn [negb andb].
  2:{ apply (ec_failed (next s0) (set_privateKey None s1)); try done.
      simpl. rewrite Ho. apply NoDup_singleton. }
  cbn [alloc]. set (s2 := set_privateKey _ _).
  assert (owned s2 = [next s1; next s0]) as Ho2 by (simpl; by rewrite Ho).
  destruct (EVP_PKEY_assign_EC_KEY o =? 0); cbn [negb andb].
  { apply (ec_failed (next s0) s2); try done. rewrite Ho2. apply NoDup_cons.
    split; [|apply NoDup_singleton]. rewrite list_elem_of_singleton. simpl. lia. }
  destruct (make_certificate_outcome o (str "mihawkxue" ++ fmt_u n) (disown (next s0) s2) (next s1))
    as (s & x & E & Hsx).
  { done. }
  { unfold disown. simpl. rewrite Ho. rewrite filter_cons_True by lia.
    by rewrite filter_cons_False by (intros E; by apply E). }
  { simpl. lia. }
  { done. }
  { done. }
  exists s, x. split; [done|]. unfold certificate_made in Hsx. destruct (_ && _); [done|].
  destruct Hsx as (-> & Hs & Hsc & Hsk). split_and!; [done|done|done|].
  rewrite destroy_failed by (try done; congruence). by rewrite Hsk.
Qed.

(** *** The SSL context *)

Definition context_made (o : CtxCalls) : bool :=
  SSL_CTX_new o && negb (SSL_CTX_use_certificate o =? 0) && negb (SSL_CTX_use_PrivateKey o =? 0) &&
  negb (SSL_CTX_check_private_key o =? 0) && negb (SSL_CTX_set_cipher_list o =? 0) &&
  (SSL_CTX_set_tlsext_use_srtp o =? 0).

(** The context asks the peer for a certificate and offers the four SRTP
    profiles in the order of preference. *)
Definition context_ok (key cert : ptr) (c : SslCtx) : Prop :=
  ctx_certificate c = Some cert ∧ ctx_privateKey c = Some key ∧
  ctx_verify c = ["PEER"; "FAIL_IF_NO_PEER_CERT"] ∧
  ctx_srtp c = str "SRTP_AEAD_AES_256_GCM:SRTP_AEAD_AES_128_GCM:SRTP_AES128_CM_SHA1_80:SRTP_AES128_CM_SHA1_32".

Definition has_context (s : DtlsClass) : Prop :=
  ∃ key cert x ctx c, privateKey s = Some key ∧ certificate s = Some cert ∧ sslCtx s = Some ctx ∧
    owned s = [ctx; cert; key] ∧ NoDup (owned s) ∧ x509s s !! cert = Some x ∧ self_signed key x ∧
    contexts s !! ctx = Some c ∧ context_ok key cert c.

Lemma ctx_error_frees s ctx base :
  sslCtx s = Some ctx → owned s = ctx :: base → ctx ∉ base →
  ctx_error s = Ok (set_sslCtx None (set_owned base s), Some "SSL context creation failed").
Proof.
  intros Hc Ho Hn. unfold ctx_error. rewrite Hc, free_owned by (rewrite Ho; set_solver).
  cbn [mbind res_bind]. unfold disown. rewrite Ho.
  rewrite filter_cons_False by (intros E; by apply E). by rewrite filter_fresh.
Qed.

Lemma use_owned p s : p ∈ owned s → use (Some p) s = Ok ().
Proof. intros Hp. simpl. by rewrite bool_decide_eq_true_2. Qed.

Lemma context_outcome o s :
  has_key s →
  ∃ s' x, CreateSslCtx o s = Ok (s', x) ∧ localFingerprints s' = [] ∧
    if context_made o then x = None ∧ has_context s'
    else x = Some "SSL context creation failed" ∧ has_key s'.
Proof.
  intros (key & cert & x & Hk & Hc & Hx & Ho & Hne & Hr & Hf & Hl & Hs).
  unfold CreateSslCtx, context_made. destruct (SSL_CTX_new o); cbn [negb andb].
  2:{ eexists _, _. split; [done|]. split; [done|]. split; [done|]. exists key, cert, x. by split_and!. }
  set (s1 := set_sslCtx (Some (next s)) (alloc s).1).
  change (alloc s) with ((alloc s).1, next s). cbv iota beta. fold s1.
  assert (owned s1 = [next s; cert; key]) as Ho1 by (simpl; by rewrite Ho).
  pose proof (refs_fresh s Hr) as Hfresh. rewrite Ho in Hfresh.
  assert (∃ s' x, ctx_error s1 = Ok (s', x) ∧ localFingerprints s' = [] ∧
    x = Some "SSL context creation failed" ∧ has_key s') as Herr.
  { rewrite (ctx_error_frees s1 (next s) [cert; key]) by done.
    eexists _, _. split; [done|]. split; [done|]. split; [done|]. exists key, cert, x.
    split_and!; try done. unfold refs_ok in *. simpl. rewrite Ho in Hr.
    eapply Forall_impl; [exact Hr|]. simpl. lia. }
  change (certificate s1) with (certificate s). change (privateKey s1) with (privateKey s).
  rewrite Hc, Hk, !use_owned by (rewrite Ho1; set_solver). cbn [mbind res_bind].
  destruct (SSL_CTX_use_certificate o =? 0); cbn [negb andb]; [exact Herr|].
  destruct (SSL_CTX_use_PrivateKey o =? 0); cbn [negb andb]; [exact Herr|].
  destruct (SSL_CTX_check_private_key o =? 0); cbn [negb andb]; [exact Herr|].
  destruct (SSL_CTX_set_cipher_list o =? 0); cbn [negb andb]; [exact Herr|].
  destruct (SSL_CTX_set_tlsext_use_srtp o =? 0); cbn [negb andb]; [|exact Herr].
  eexists _, _. split; [done|]. split; [done|]. split; [done|].
  exists key, cert, x, (next s). eexists. split_and!; try done; [|apply lookup_insert_eq|].
  - change (NoDup (owned s1)). rewrite Ho1. apply NoDup_cons. split; [done|].
    apply NoDup_cons. split; [set_solver|apply NoDup_singleton].
  - by split_and!.
Qed.

(** *** Destroying *)

Lemma destroy_releases s key cert octx :
  privateKey s = Some key → certificate s = Some cert → sslCtx s = octx →
  owned s = option_list octx ++ [cert; key] → NoDup (owned s) →
  ∃ s', ClassDestroy s = Ok s' ∧ owned s' = [].
Proof.
  intros Hk Hc Hx Ho Hn. unfold ClassDestroy. rewrite Hk. cbn [free_if_set].
  rewrite free_owned by (rewrite Ho; set_solver). cbn [mbind res_bind].
  change (certificate (disown key s)) with (certificate s). rewrite Hc. cbn [free_if_set].
  rewrite Ho in Hn.
  assert (option_list octx ++ [cert; key] = (option_list octx ++ [cert]) ++ [key]) as Heq
    by by rewrite <- app_assoc.
  assert (NoDup (option_list octx ++ [cert]) ∧ key ∉ option_list octx ++ [cert]) as [Hn' Hkey].
  { rewrite Heq, NoDup_app in Hn. set_solver. }
  assert (owned (disown key s) = option_list octx ++ [cert]) as Ho1.
  { unfold disown. simpl. rewrite Ho, Heq, filter_app, filter_fresh by done.
    rewrite filter_cons_False by (intros E; by apply E). by rewrite app_nil_r. }
  set (s1 := disown key s) in *. rewrite free_owned by (rewrite Ho1; set_solver). cbn [mbind res_bind].
  change (sslCtx (disown cert s1)) with (sslCtx s). rewrite Hx.
  assert (owned (disown cert s1) = option_list octx) as Ho2.
  { change (owned (disown cert s1)) with (filter (λ q, q ≠ cert) (owned s1)). rewrite Ho1, filter_app.
    rewrite filter_fresh by (rewrite NoDup_app in Hn'; set_solver).
    rewrite filter_cons_False by (intros E; by apply E). by rewrite app_nil_r. }
  destruct octx as [c|]; cbn [free_if_set option_list] in *; [|by eexists].
  rewrite free_owned by (rewrite Ho2; set_solver). eexists. split; [done|].
  simpl in *. rewrite Ho2. by rewrite filter_cons_False by (intros E; by apply E).
Qed.

Lemma has_context_fingerprints fs s : has_context s → has_context (set_fingerprints fs s).
Proof. by destruct s. Qed.

Lemma has_context_destroy s : has_context s → ∃ s', ClassDestroy s = Ok s' ∧ owned s' = [].
Proof.
  intros (key & cert & x & ctx & c & Hk & Hc & Hx & Ho & Hn & _).
  by apply (destroy_releases s key cert (Some ctx)).
Qed.

Lemma has_key_destroy s : has_key s → ∃ s', ClassDestroy s = Ok s' ∧ owned s' = [].
Proof.
  intros (key & cert & x & Hk & Hc & Hx & Ho & Hne & _).
  apply (destroy_releases s key cert None); [done|done|done|done|].
  rewrite Ho. apply NoDup_cons. split; [|apply NoDup_singleton]. by rewrite list_elem_of_singleton.
Qed.

(** *** The fingerprints *)

Section Lifecycle.
Context `{DigestSpec}.

(** The fingerprints printed for the algorithms of a list. *)
Definition fingerprints_for (x : X509) (l : list (string * FingerprintAlgorithm)) (fs : list Fingerprint) :
    Prop :=
  Forall2 (λ na f, algorithm f = GetFingerprintAlgorithm na.1 ∧
    ∃ d, X509_digest x na.2 = Some d ∧ value f = colon_hex d) l fs.

Lemma GenerateFingerprint_outcome stack name a s cert x :
  zlen stack = 3 * EVP_MAX_MD_SIZE + 1 → a ≠ ALG_NONE →
  certificate s = Some cert → cert ∈ owned s → x509s s !! cert = Some x →
  GenerateFingerprint stack name a s =
    match X509_digest x a with
    | None => Ok (s, Some "Fingerprints generation failed")
    | Some d =>
        Ok (set_fingerprints (localFingerprints s ++
              [mkFingerprint (GetFingerprintAlgorithm name) (colon_hex d)]) s, None)
    end.
Proof using All.
  intros Hst Ha Hc Ho Hx.
  assert (GenerateFingerprint stack name a s =
    match X509_digest x a with
    | None => Ok (s, Some "Fingerprints generation failed")
    | Some d =>
        value ← hex_fingerprint stack d;
        Ok (set_fingerprints (localFingerprints s ++
              [mkFingerprint (GetFingerprintAlgorithm name) value]) s, None)
    end) as ->.
  { unfold GenerateFingerprint. rewrite Hc, use_owned by done. simpl. rewrite Hx. by destruct a. }
  destruct (X509_digest x a) as [d|] eqn:Hd; [|done].
  destruct (hex_fingerprint_text stack d) as [-> _]; [done|by eapply digest_bytes| |done].
  eapply known_digest_size; [done|by eapply digest_length].
Qed.

Lemma generate_fingerprints_outcome stack l s cert x :
  zlen stack = 3 * EVP_MAX_MD_SIZE + 1 → Forall (λ na, na.2 ≠ ALG_NONE) l →
  certificate s = Some cert → cert ∈ owned s → x509s s !! cert = Some x →
  ∃ fs ex, generate_fingerprints stack l s = Ok (set_fingerprints (localFingerprints s ++ fs) s, ex) ∧
    (ex = None → fingerprints_for x l fs) ∧
    (Forall (λ na, is_Some (X509_digest x na.2)) l → ex = None).
Proof using All.
  intros Hst Hl. revert s. induction Hl as [|[name a] l Ha Hl IH]; intros s Hc Ho Hx.
  { exists [], None. simpl. rewrite app_nil_r. split_and!; [by destruct s|by constructor|done]. }
  simpl generate_fingerprints. rewrite (GenerateFingerprint_outcome _ _ _ _ cert x) by done.
  destruct (X509_digest x a) as [d|] eqn:Hd; cbn [mbind res_bind].
  2:{ exists [], (Some "Fingerprints generation failed"). rewrite app_nil_r.
      split_and!; [by destruct s|done|]. intros [[? Hs] _]%Forall_cons. simpl in Hs. congruence. }
  set (f := mkFingerprint _ _).
  destruct (IH (set_fingerprints (localFingerprints s ++ [f]) s)) as (fs & ex & E & H1 & H2); [done..|].
  exists (f :: fs), ex. split_and!.
  - rewrite E. simpl. by rewrite <- app_assoc.
  - intros Hex. constructor; [|by apply H1]. split; [done|]. by exists d.
  - intros [_ Hrest]%Forall_cons. by apply H2.
Qed.

(** ** The whole life *)

(** What every transport relies on. *)
Definition ready (s : DtlsClass) : Prop :=
  has_context s ∧
  ∃ x, fingerprints_for x string2FingerprintAlgorithm (localFingerprints s) ∧
    ∃ cert key, certificate s = Some cert ∧ x509s s !! cert = Some x ∧ self_signed key x.

(** Every way through ClassInit. *)
Lemma class_lifecycle_spec k c stack z :
  zlen stack = 3 * EVP_MAX_MD_SIZE + 1 →
  ∃ s ex, ClassInit k c stack (initial z) = Ok (s, ex) ∧
    (ex = None → ready s) ∧
    (key_made k = true → context_made c = true →
       (∀ x a, a ≠ ALG_NONE → is_Some (X509_digest x a)) → ex = None) ∧
    if key_made k then ∃ s', ClassDestroy s = Ok s' ∧ owned s' = []
    else ex ≠ None ∧ owned s = [] ∧ ClassDestroy s = if pkey_created k then UB DoubleFree else Ok s.
Proof using All.
  intros Hst. unfold ClassInit.
  destruct (key_outcome k z) as (s1 & x1 & E1 & Hk). rewrite E1. cbn [mbind res_bind].
  destruct (key_made k).
  2:{ destruct Hk as (-> & Ho & _ & Hd). exists s1. eexists. by split_and!. }
  destruct Hk as [-> Hk]. destruct (context_outcome c s1 Hk) as (s2 & x2 & E2 & Hf & Hc).
  rewrite E2. cbn [mbind res_bind]. destruct (context_made c).
  2:{ destruct Hc as [-> Hc]. exists s2. eexists. split_and!; [done..|]. by apply has_key_destroy. }
  destruct Hc as [-> Hhc].
  pose proof Hhc as (key & cert & x & ctx & cx & Hpk & Hce & Hsc & Ho & Hnd & Hx & Hself & Hctx).
  destruct (generate_fingerprints_outcome stack string2FingerprintAlgorithm s2 cert x)
    as (fs & ex & E3 & Hfs & Hall); [done|by repeat constructor|done|rewrite Ho; set_solver|done|].
  exists (set_fingerprints (localFingerprints s2 ++ fs) s2), ex. rewrite Hf in *. split_and!.
  - exact E3.
  - intros Hex. split; [by apply has_context_fingerprints|]. exists x. split; [by apply Hfs|].
    by exists cert, key.
  - intros _ _ Hd. apply Hall. repeat constructor; by apply Hd.
  - by apply has_context_destroy, has_context_fingerprints.
Qed.

End Lifecycle.

(** ** Witnesses *)

(** Digests of the right length, different for different serial numbers. *)
#[local] Instance toy_digest : DigestApi := {|
  X509_digest x a := Some (replicate (hash_length a) (x_serial x mod 256))
|}.

#[local] Instance toy_digest_spec : DigestSpec.
Proof.
  split; simpl; intros x a d [= <-]; [apply length_replicate|].
  apply Forall_replicate, is_byte_mod.
Qed.

Definition peer_certificate : X509 := mkX509 2 18 0 0 None [] [] None.
Definition peer_calls : PeerCalls := mkPeerCalls (Some peer_certificate) true 1 (Some (str "PEM")).
Definition announced : Fingerprint :=
  mkFingerprint SHA1 (str "12:12:12:12:12:12:12:12:12:12:12:12:12:12:12:12:12:12:12:12").

Lemma remote_fingerprint_checked_witness :
  zlen stack_array = 3 * EVP_MAX_MD_SIZE + 1 ∧ algorithm announced ≠ ALG_NONE ∧
  wp (CheckRemoteFingerprint peer_calls stack_array announced (initial 7))
    (λ '(s', ok, remoteCert), owned s' = [] ∧ ok = true ∧ remoteCert = Some (str "PEM")).
Proof.
  split_and!; [reflexivity|discriminate|].
  eapply wp_mono; [apply (remote_fingerprint_checked peer_calls stack_array announced (initial 7));
    [reflexivity|discriminate|constructor|constructor]|].
  intros [[s' ok] cert] (Ho & Hok & Hc).
  assert (ok = true) as ->.
  { apply Hok. exists peer_certificate, (replicate 20 18), 80, [69; 77]. split_and!; reflexivity. }
  split_and!; [exact Ho|reflexivity|exact Hc].
Defined.

Definition all_keys : KeyCalls := mkKeyCalls true 1 true 1 true 1 true 1 1.
Definition all_contexts : CtxCalls := mkCtxCalls true 1 1 1 1 0.

End DtlsInitProofs.
