(* ===== verification/WebRtc.v ===== *)
(** WebRtcTransport (src/rtc/webrtc_transport.h, webrtc_transport.cc): the
    demultiplexer that owns an ICE server, a DTLS transport and an SRTP session,
    and is the listener of the first two. *)
From S2P Require Import Prelude ByteOps ByteIO Crypto StunPacket StunParse StunAuth StunSerialize StunRoundtrip IceServer Srtp Dtls DtlsProofs Rtp.

Module WebRtc.
Import Crypto Stun Srtp.

(** What leaves the transport: packets given to the network with the address
    they are for ([None] while that object is uninitialised), and RTP given to
    the channel. *)
Inductive Out :=
| Sent (data : list Z) (to : option sockaddr_in)
| ToRtpChannel (data : list Z).

Section transport.
Context `{HmacSha1} `{Dtls.OpenSSL} `{LibSrtp}.

(** [transport_] and [rtp_channel_] say whether the pointers are set;
    [remote_socket_address_] is [None] while uninitialised; [stun_buffer] is the
    static serialization buffer of ice_server.cc. *)
Record WebRtcTransport := mkTransport {
  ice_server_ : Ice.IceServer;
  dtls_transport_ : Dtls.DtlsTransport;
  srtp_session_ : option SrtpSession;
  transport_ : bool;
  rtp_channel_ : bool;
  is_ready_ : bool;
  ip_ : list Z;
  port_ : Z;
  remote_socket_address_ : option sockaddr_in;
  stun_buffer : list Z;
}.

Definition set_ice (i : Ice.IceServer) (b : list Z) (t : WebRtcTransport) : WebRtcTransport :=
  mkTransport i t.(dtls_transport_) t.(srtp_session_) t.(transport_) t.(rtp_channel_) t.(is_ready_)
    t.(ip_) t.(port_) t.(remote_socket_address_) b.
Definition set_dtls (d : Dtls.DtlsTransport) (t : WebRtcTransport) : WebRtcTransport :=
  mkTransport t.(ice_server_) d t.(srtp_session_) t.(transport_) t.(rtp_channel_) t.(is_ready_)
    t.(ip_) t.(port_) t.(remote_socket_address_) t.(stun_buffer).
Definition set_srtp (s : option SrtpSession) (ready : bool) (t : WebRtcTransport) : WebRtcTransport :=
  mkTransport t.(ice_server_) t.(dtls_transport_) s t.(transport_) t.(rtp_channel_) ready
    t.(ip_) t.(port_) t.(remote_socket_address_) t.(stun_buffer).
Definition set_remote (a : sockaddr_in) (t : WebRtcTransport) : WebRtcTransport :=
  mkTransport t.(ice_server_) t.(dtls_transport_) t.(srtp_session_) t.(transport_) t.(rtp_channel_)
    t.(is_ready_) t.(ip_) t.(port_) (Some a) t.(stun_buffer).
Definition SetNetworkTransport (b : bool) (t : WebRtcTransport) : WebRtcTransport :=
  mkTransport t.(ice_server_) t.(dtls_transport_) t.(srtp_session_) b t.(rtp_channel_) t.(is_ready_)
    t.(ip_) t.(port_) t.(remote_socket_address_) t.(stun_buffer).
Definition SetRTPChannel (b : bool) (t : WebRtcTransport) : WebRtcTransport :=
  mkTransport t.(ice_server_) t.(dtls_transport_) t.(srtp_session_) t.(transport_) b t.(is_ready_)
    t.(ip_) t.(port_) t.(remote_socket_address_) t.(stun_buffer).

(** The constructor, given the SSL object of the DTLS transport and the static
    serialization buffer.  [seed] and [chars] are the state of the random
    strings; C++ leaves the order of the two calls open. *)
Definition newWebRtcTransport (seed : Z) (chars : list Z) (ssl : Dtls.ssl_t) (buffer : list Z)
    (ip : list Z) (port : Z) : res (Z * list Z * WebRtcTransport) :=
  '(seed, chars, fragment) ← GetRandomString seed chars 4;
  '(seed, chars, password) ← GetRandomString seed chars 24;
  Ok (seed, chars, mkTransport (Ice.newIceServer true fragment password) (Dtls.newDtlsTransport ssl) None
    false false false ip port None buffer).

Definition SendPacket (t : WebRtcTransport) (data : list Z) (to : option sockaddr_in) : list Out :=
  if t.(transport_) then [Sent data to] else [].

(** The reference to [remote_socket_address_] is passed on whether or not it
    has been set. *)
Definition SendToRemote (t : WebRtcTransport) (data : list Z) : list Out :=
  SendPacket t data t.(remote_socket_address_).

(** ** The DTLS listener *)
Definition on_dtls_event (fresh : list Z) (t : WebRtcTransport) (e : Dtls.Event) :
    res (WebRtcTransport * list Out) :=
  match e with
  | Dtls.Connected suite localKey _ =>
      s ← newSrtpSession fresh OUTBOUND suite localKey (zlen localKey);
      Ok (set_srtp (Some s) true t, [])
  | Dtls.SendData data => Ok (t, SendToRemote t data)
  | Dtls.Connecting | Dtls.Failed | Dtls.Closed | Dtls.ApplicationData _ => Ok (t, [])
  end.

Fixpoint on_dtls_events (fresh : list Z) (t : WebRtcTransport) (es : list Dtls.Event) :
    res (WebRtcTransport * list Out) :=
  match es with
  | [] => Ok (t, [])
  | e :: es =>
      '(t, o1) ← on_dtls_event fresh t e;
      '(t, o2) ← on_dtls_events fresh t es;
      Ok (t, o1 ++ o2)
  end.

(** A call of the DTLS transport with the callbacks it makes, which are the
    events it adds to its log. *)
Definition call_dtls (fresh : list Z) (op : Dtls.M unit) (t : WebRtcTransport) :
    res (WebRtcTransport * list Out) :=
  let before := length (Dtls.log t.(dtls_transport_)) in
  '(_, d) ← op t.(dtls_transport_);
  on_dtls_events fresh (set_dtls d t) (drop before (Dtls.log d)).

(** ** The ICE listener *)
Definition OnIceServerSendStunPacket (t : WebRtcTransport) (packet : StunPacket) (tuple : sockaddr_in) :
    res (list Out) :=
  match packet.(data_) with
  | Some data => bytes ← rd_range data 0 packet.(size_); Ok (SendPacket t bytes (Some tuple))
  | None => UB NullDeref
  end.

Definition OnIceServerSelectedTuple (fresh : list Z) (t : WebRtcTransport) (tuple : sockaddr_in) :
    res (WebRtcTransport * list Out) :=
  call_dtls fresh (Dtls.Run Dtls.SERVER) (set_remote tuple t).

Definition on_ice_event (fresh : list Z) (t : WebRtcTransport) (e : Ice.Event) :
    res (WebRtcTransport * list Out) :=
  match e with
  | Ice.SendStunPacket packet tuple =>
      out ← OnIceServerSendStunPacket t packet tuple; Ok (t, out)
  | Ice.SelectedTuple tuple => OnIceServerSelectedTuple fresh t tuple
  end.

Fixpoint on_ice_events (fresh : list Z) (t : WebRtcTransport) (es : list Ice.Event) :
    res (WebRtcTransport * list Out) :=
  match es with
  | [] => Ok (t, [])
  | e :: es =>
      '(t, o1) ← on_ice_event fresh t e;
      '(t, o2) ← on_ice_events fresh t es;
      Ok (t, o1 ++ o2)
  end.

(** ** Input *)
Definition on_stun (fresh : list Z) (t : WebRtcTransport) (buf : list Z) (len : Z)
    (remote_address : sockaddr_in) : res (WebRtcTransport * list Out) :=
  packet ← Stun.Parse buf len;
  match packet with
  | None => Ok (t, [])
  | Some packet =>
      '(ice, buffer, _, evs) ←
        Ice.ProcessStunPacket t.(ice_server_) t.(stun_buffer) packet remote_address;
      on_ice_events fresh (set_ice ice buffer t) evs
  end.

Definition on_rtp (t : WebRtcTransport) (buf : list Z) (len : Z) : res (WebRtcTransport * list Out) :=
  if t.(rtp_channel_) then
    match t.(srtp_session_) with
    | None => UB NullDeref
    | Some s =>
        '(s, _, buf, new_len) ← DecryptSrtp s buf len;
        bytes ← rd_range buf 0 new_len;
        Ok (set_srtp (Some s) t.(is_ready_) t, [ToRtpChannel bytes])
    end
  else Ok (t, []).

(** What ProcessDtlsData hands to BIO_write: the length is cast to int, and
    OpenSSL writes nothing for a negative one. *)
Definition dtls_input (buf : list Z) (len : Z) : res (list Z) :=
  if as_int len <? 0 then Ok [] else rd_range buf 0 (as_int len).

Definition OnInputDataPacket (fresh : list Z) (t : WebRtcTransport) (buf : list Z) (len : Z)
    (remote_address : sockaddr_in) : res (WebRtcTransport * list Out) :=
  stun ← IsStun buf len;
  if (stun : bool) then on_stun fresh t buf len remote_address
  else
    dtls ← Dtls.IsDtls buf len;
    if (dtls : bool) then
      data ← dtls_input buf len;
      call_dtls fresh (Dtls.ProcessDtlsData data) t
    else
      rtcp ← Rtp.IsRtcpPacket buf len;
      if (rtcp : bool) then Ok (t, [])
      else
        rtp ← Rtp.IsRtpPacket buf len;
        if (rtp : bool) then on_rtp t buf len else Ok (t, []).

(** ** Output: the result of the encryption is not looked at. *)
Definition EncryptAndSendRtpPacket (t : WebRtcTransport) (data : list Z) (len : Z) :
    res (WebRtcTransport * list Out) :=
  if t.(is_ready_) then
    match t.(srtp_session_) with
    | None => UB NullDeref
    | Some s =>
        '(s, _, o, len) ← EncryptRtp s data len;
        bytes ← rd_range (match o with FromEncryptBuffer => s.(encrypt_buffer_) | Unchanged => data end) 0 len;
        let t := set_srtp (Some s) true t in
        Ok (t, SendToRemote t bytes)
    end
  else
    bytes ← rd_range data 0 len;
    Ok (t, SendToRemote t bytes).

(** The first SHA-256 fingerprint of the certificate. *)
Fixpoint GetSHA256Fingerprint (l : list Dtls.Fingerprint) : list Z :=
  match l with
  | [] => []
  | f :: l => if Dtls.FingerprintAlgorithm_eq_dec (Dtls.algorithm f) Dtls.SHA256 then Dtls.value f else GetSHA256Fingerprint l
  end.
End transport.
End WebRtc.
