(* ===== verification/WebRtcProofs.v ===== *)
(** The demultiplexer routes every datagram to one protocol, keeps the
    invariant of the whole transport, and gives DTLS and SRTP nothing before an
    authenticated STUN request. *)
From S2P Require Import Prelude ByteOps ByteIO Crypto StunPacket StunParse StunAuth StunSerialize StunRoundtrip IceServer Srtp Dtls DtlsProofs Rtp WebRtc.

Module WebRtcProofs.
Import Crypto Stun Srtp WebRtc StunParse StunAuth StunSerialize StunRoundtrip DtlsProofs.

(** ** Demultiplexing *)
Lemma res_andb_true a b : res_andb a b = Ok true ↔ a = Ok true ∧ b = Ok true.
Proof. destruct a as [[]| | | |]; cbn; naive_solver. Qed.

Lemma bind_bool_true (m : res Z) (f : Z → bool) :
  (x ← m; Ok (f x)) = Ok true ↔ ∃ x, m = Ok x ∧ f x = true.
Proof.
  destruct m as [x| | | |]; cbn; split; try (intros [=]); try (by intros (? & [=] & _)).
  - by exists x.
  - intros (y & [= <-] & ->). done.
Qed.

Lemma IsStun_first data len : IsStun data len = Ok true → ∃ b, data.[0] = Ok b ∧ b < 3.
Proof.
  unfold IsStun. rewrite !res_andb_true, bind_bool_true. intros [[[[[_ (b & Hb & Hlt)] _] _] _] _].
  exists b. split; [done|]. by apply Z.ltb_lt.
Qed.

Lemma IsDtls_first data len : Dtls.IsDtls data len = Ok true → ∃ b, data.[0] = Ok b ∧ 19 < b < 64.
Proof.
  unfold Dtls.IsDtls. rewrite res_andb_true, bind_bool_true. intros [_ (b & Hb & Hlt)].
  exists b. split; [done|]. rewrite andb_true_iff, !Z.ltb_lt in Hlt. lia.
Qed.

Lemma version_first data : Rtp.HasCorrectRtpVersion data = Ok true → ∃ b, data.[0] = Ok b ∧ 128 ≤ b < 192.
Proof.
  unfold Rtp.HasCorrectRtpVersion, Rtp.kRtpVersion. rewrite bind_bool_true. intros (b & Hb & Hv).
  exists b. split; [done|]. apply Z.eqb_eq in Hv. rewrite shiftr_div in Hv by lia. change (2 ^ 6) with 64 in Hv. zdm.
Qed.

Lemma IsRtp_first data len : Rtp.IsRtpPacket data len = Ok true → ∃ b, data.[0] = Ok b ∧ 128 ≤ b < 192.
Proof. unfold Rtp.IsRtpPacket. rewrite !res_andb_true. intros [[_ Hv] _]. by apply version_first. Qed.

Lemma IsRtcp_first data len : Rtp.IsRtcpPacket data len = Ok true → ∃ b, data.[0] = Ok b ∧ 128 ≤ b < 192.
Proof. unfold Rtp.IsRtcpPacket. rewrite !res_andb_true. intros [[_ Hv] _]. by apply version_first. Qed.

(** The four tests, in the order of OnInputDataPacket. *)
Definition tests (data : list Z) (len : Z) : list (res bool) :=
  [IsStun data len; Dtls.IsDtls data len; Rtp.IsRtcpPacket data len; Rtp.IsRtpPacket data len].

(** No datagram belongs to two protocols: at most one of the STUN, DTLS,
    RTCP and RTP tests accepts it, so the order of the tests does not matter. *)
Lemma demux_exclusive data len i j :
  tests data len !! i = Some (Ok true) → tests data len !! j = Some (Ok true) → i = j.
Proof.
  assert (∀ x y, data.[0] = Ok x → data.[0] = Ok y → x = y) as Heq by congruence.
  assert (Rtp.IsRtcpPacket data len = Ok true → Rtp.IsRtpPacket data len = Ok true → False) as Hrr.
  { unfold Rtp.IsRtcpPacket, Rtp.IsRtpPacket. rewrite !res_andb_true, !bind_bool_true.
    intros [_ (x & Hx & H1)] [_ (y & Hy & H2)]. assert (x = y) as <- by congruence. by rewrite H1 in H2. }
  assert (IsStun data len = Ok true → Dtls.IsDtls data len = Ok true → False) as H01.
  { intros (x & Hx & ?)%IsStun_first (y & Hy & ?)%IsDtls_first. pose proof (Heq x y Hx Hy). lia. }
  assert (IsStun data len = Ok true → Rtp.IsRtcpPacket data len = Ok true → False) as H02.
  { intros (x & Hx & ?)%IsStun_first (y & Hy & ?)%IsRtcp_first. pose proof (Heq x y Hx Hy). lia. }
  assert (IsStun data len = Ok true → Rtp.IsRtpPacket data len = Ok true → False) as H03.
  { intros (x & Hx & ?)%IsStun_first (y & Hy & ?)%IsRtp_first. pose proof (Heq x y Hx Hy). lia. }
  assert (Dtls.IsDtls data len = Ok true → Rtp.IsRtcpPacket data len = Ok true → False) as H12.
  { intros (x & Hx & ?)%IsDtls_first (y & Hy & ?)%IsRtcp_first. pose proof (Heq x y Hx Hy). lia. }
  assert (Dtls.IsDtls data len = Ok true → Rtp.IsRtpPacket data len = Ok true → False) as H13.
  { intros (x & Hx & ?)%IsDtls_first (y & Hy & ?)%IsRtp_first. pose proof (Heq x y Hx Hy). lia. }
  unfold tests. revert H01 H02 H03 H12 H13 Hrr.
  generalize (IsStun data len), (Dtls.IsDtls data len), (Rtp.IsRtcpPacket data len), (Rtp.IsRtpPacket data len).
  intros a b c d H01 H02 H03 H12 H13 Hrr Hi Hj.
  destruct i as [|[|[|[|i]]]], j as [|[|[|[|j]]]]; cbn in Hi, Hj; try done;
    injection Hi as Hi; injection Hj as Hj; exfalso; eauto.
Qed.

Lemma demux_exclusive_witness :
  tests sample_signed (zlen sample_signed) !! 0%nat = Some (Ok true) ∧
  ∀ j, tests sample_signed (zlen sample_signed) !! j = Some (Ok true) → 0%nat = j.
Proof.
  split; [by vm_compute|]. intros j Hj.
  apply (demux_exclusive sample_signed (zlen sample_signed) 0 j); [by vm_compute|done].
Defined.

(** ** The invariant *)
Section proofs.
Context `{HmacSha1} `{Dtls.OpenSSL} `{!OpenSSLSpec} `{LibSrtp} `{!LibSrtpSpec}.

(** The SRTP part: a session is usable, and ready means there is one and a
    peer to send to. *)
Definition srtp_ok (t : WebRtcTransport) : Prop :=
  (∀ s, srtp_session_ t = Some s → wf_session s) ∧
  (is_ready_ t = true → is_Some (srtp_session_ t) ∧ is_Some (remote_socket_address_ t)).

Record wt_inv (t : WebRtcTransport) : Prop := {
  wi_listener : Ice.listener (ice_server_ t) = true;
  wi_buffer : Ice.buffer_ok (stun_buffer t);
  wi_dtls : dtls_inv (dtls_transport_ t);
  wi_remote : Dtls.IsRunning (dtls_transport_ t) = true → is_Some (remote_socket_address_ t);
  wi_srtp : srtp_ok t;
}.

(** It returns with [Q], or stops because OpenSSL refused to export the keys or
    libsrtp to create a session. *)
Definition fine (r : res (WebRtcTransport * list Out)) (Q : WebRtcTransport → list Out → Prop) : Prop :=
  match r with
  | Ok (t, o) => Q t o
  | Aborted m => m = Dtls.export_failed
  | Throw m => m = "srtp_create() failed"
  | _ => False
  end.

Lemma fine_bind (m : res (WebRtcTransport * list Out)) f Q :
  fine m (λ t o, fine (f (t, o)) Q) → fine (m ≫= f) Q.
Proof. by destruct m as [[]| | | |]. Qed.

Lemma fine_mono r (P Q : WebRtcTransport → list Out → Prop) :
  fine r P → (∀ t o, P t o → Q t o) → fine r Q.
Proof. destruct r as [[]| | | |]; naive_solver. Qed.

(** What the listeners do not touch. *)
Record kept (t t' : WebRtcTransport) : Prop := {
  kept_ice : ice_server_ t' = ice_server_ t;
  kept_dtls : dtls_transport_ t' = dtls_transport_ t;
  kept_transport : transport_ t' = transport_ t;
  kept_channel : rtp_channel_ t' = rtp_channel_ t;
  kept_remote : remote_socket_address_ t' = remote_socket_address_ t;
  kept_buffer : stun_buffer t' = stun_buffer t;
}.

Lemma kept_trans t1 t2 t3 : kept t1 t2 → kept t2 t3 → kept t1 t3.
Proof. intros [] []. split; congruence. Qed.

Definition sent_to (a : sockaddr_in) (o : Out) : Prop :=
  match o with Sent _ to => to = Some a | ToRtpChannel _ => False end.

Lemma SendPacket_to t data a : Forall (sent_to a) (SendPacket t data (Some a)).
Proof. unfold SendPacket. case_match; by repeat constructor. Qed.

Definition fresh_ok (l : list Z) : Prop := zlen l = kEncryptBufferSize.

Lemma on_dtls_event_fine fresh t e a :
  fresh_ok fresh → remote_socket_address_ t = Some a → good_event e → srtp_ok t →
  fine (on_dtls_event fresh t e) (λ t' o, kept t t' ∧ srtp_ok t' ∧ Forall (sent_to a) o).
Proof using All.
  intros Hf Ha Hg Hs. destruct e as [|suite l r| | |data|data]; cbn [on_dtls_event fine];
    try (by repeat split; try apply Hs).
  - destruct Hg as (Hne & Hl & _).
    destruct (newSrtpSession_ok fresh OUTBOUND suite l) as (policy & _ & _ & ->); [done| |].
    { rewrite Hl. by destruct suite. }
    pose proof (create_status policy) as Hst.
    destruct (srtp_create policy) as [err h]. destruct (IsError err).
    + by rewrite GetErrorString_known.
    + cbn. split; [by split|]. split; [|done]. split; cbn.
      * intros s [= <-]. split; [done|]. split; [by eexists|done].
      * intros _. split; [by eexists|by eexists].
  - unfold SendToRemote. rewrite Ha. cbn. split; [by split|]. split; [done|]. apply SendPacket_to.
Qed.

Lemma on_dtls_events_fine fresh es a : ∀ t,
  fresh_ok fresh → remote_socket_address_ t = Some a → Forall good_event es → srtp_ok t →
  fine (on_dtls_events fresh t es) (λ t' o, kept t t' ∧ srtp_ok t' ∧ Forall (sent_to a) o).
Proof using All.
  induction es as [|e es IH]; intros t Hf Ha Hg Hs; [by split; [split|]|].
  apply Forall_cons in Hg as [He Hg]. cbn [on_dtls_events]. apply fine_bind.
  eapply fine_mono; [by apply on_dtls_event_fine|]. intros t1 o1 (Hk1 & Hs1 & Ho1).
  apply fine_bind. eapply fine_mono; [apply IH; try done; by rewrite (kept_remote _ _ Hk1)|].
  intros t2 o2 (Hk2 & Hs2 & Ho2). cbn. split; [by eapply kept_trans|]. split; [done|]. by apply Forall_app_2.
Qed.

(** A call into DTLS while the peer is known. *)
Lemma call_dtls_fine fresh op t a :
  fresh_ok fresh → wt_inv t → remote_socket_address_ t = Some a →
  ends (op (dtls_transport_ t)) (λ _ d, dtls_inv d) →
  fine (call_dtls fresh op t) (λ t' o,
    wt_inv t' ∧ ice_server_ t' = ice_server_ t ∧ rtp_channel_ t' = rtp_channel_ t ∧
    remote_socket_address_ t' = Some a ∧ Forall (sent_to a) o).
Proof using All.
  intros Hf Hi Ha Hop. unfold call_dtls.
  destruct (op (dtls_transport_ t)) as [[[] d]| | | |]; cbn in Hop; try done. cbn [mbind res_bind].
  eapply fine_mono.
  - apply (on_dtls_events_fine fresh _ a); [done|done| |apply (wi_srtp t Hi)].
    apply Forall_drop. apply (di_keys d Hop).
  - intros t' o (Hk & Hs & Ho). destruct Hk as [Hki Hkd Hkt Hkc Hkr Hkb]. cbn in *.
    split; [|rewrite Hki, Hkc, Hkr; done].
    split; rewrite ?Hki, ?Hkd, ?Hkr, ?Hkb; [apply Hi|apply Hi|done|by eexists|done].
Qed.

(** Data for a DTLS transport that is not running is ignored. *)
Lemma call_dtls_idle fresh data t :
  Dtls.IsRunning (dtls_transport_ t) = false →
  call_dtls fresh (Dtls.ProcessDtlsData data) t = Ok (t, []).
Proof.
  intros Hr. unfold call_dtls, Dtls.ProcessDtlsData, mbind, Dtls.M_bind, Dtls.get.
  cbn [mbind res_bind]. rewrite Hr. cbn. rewrite drop_ge by done. cbn.
  by destruct t.
Qed.

(** ** The ICE listener *)
Lemma OnIceServerSendStunPacket_spec t r tuple bytes :
  Ice.datagram r = Some bytes →
  OnIceServerSendStunPacket t r tuple = Ok (SendPacket t bytes (Some tuple)).
Proof.
  unfold Ice.datagram, OnIceServerSendStunPacket. destruct (data_ r) as [data|]; [|done].
  cbn. destruct (rd_range data 0 (size_ r)); [|done..]. by intros [= ->].
Qed.

Lemma set_remote_inv t a : wt_inv t → wt_inv (set_remote a t).
Proof.
  intros [Hl Hb Hd Hr [Hw Hy]]. split; cbn; try done.
  split; [done|]. intros E. split; [by apply Hy|by eexists].
Qed.

Lemma set_ice_inv t i b :
  Ice.listener i = true → Ice.buffer_ok b → wt_inv t → wt_inv (set_ice i b t).
Proof. intros Hl Hb []. by split. Qed.

(** The events of an answer, as the transport carries them out. *)
Lemma on_ice_events_fine fresh t s p tuple a evs :
  fresh_ok fresh → wt_inv t → Ice.carries_out s p tuple a evs →
  fine (on_ice_events fresh t evs) (λ t' o,
    wt_inv t' ∧ ice_server_ t' = ice_server_ t ∧ rtp_channel_ t' = rtp_channel_ t ∧
    Forall (sent_to tuple) o ∧
    if decide (Ice.selections evs = []) then t' = t else remote_socket_address_ t' = Some tuple).
Proof using All.
  intros Hf Hi Hc. destruct a as [|code|pw].
  - cbn in Hc. subst evs. by cbn.
  - destruct Hc as (r & -> & Hd). cbn [on_ice_events on_ice_event].
    erewrite OnIceServerSendStunPacket_spec by done. cbn. rewrite app_nil_r.
    repeat (split; [done|]). split; [|done]. apply SendPacket_to.
  - destruct Hc as (r & -> & Hd). cbn [on_ice_events on_ice_event].
    erewrite OnIceServerSendStunPacket_spec by done. cbn [mbind res_bind].
    destruct (decide (Ice.state s = Ice.COMPLETED)).
    + cbn. rewrite app_nil_r. repeat (split; [done|]). split; [|done]. apply SendPacket_to.
    + cbn [on_ice_events on_ice_event]. unfold OnIceServerSelectedTuple.
      apply fine_bind, fine_bind. eapply fine_mono.
      * apply (call_dtls_fine fresh _ (set_remote tuple t) tuple); [done|by apply set_remote_inv|done|].
        apply Run_ends; [apply Hi|by right].
      * intros t1 o (Hi1 & Hice & Hch & Hrem & Ho). cbn [mbind res_bind fine]. rewrite app_nil_r.
        repeat (split; [done|]). split; [|done]. apply Forall_app_2; [apply SendPacket_to|done].
Qed.

(** ** The tests never fault *)
Lemma IsDtls_wp data : wp (Dtls.IsDtls data (zlen data)) (λ _, True).
Proof.
  unfold Dtls.IsDtls, res_andb. destruct (Z.leb_spec 13 (zlen data)); [|done].
  destruct (rd_in data 0) as [b ->]; [lia|]. done.
Qed.

Lemma IsRtcp_wp data : wp (Rtp.IsRtcpPacket data (zlen data)) (λ _, True).
Proof.
  unfold Rtp.IsRtcpPacket, Rtp.HasCorrectRtpVersion, Rtp.kMinRtcpPacketLen, res_andb.
  destruct (Z.leb_spec 4 (zlen data)); [|done].
  destruct (rd_in data 0) as [b0 ->]; [lia|]. destruct (rd_in data 1) as [b1 ->]; [lia|]. cbn.
  by case_match.
Qed.

Lemma IsRtp_wp data : wp (Rtp.IsRtpPacket data (zlen data)) (λ _, True).
Proof.
  unfold Rtp.IsRtpPacket, Rtp.HasCorrectRtpVersion, Rtp.kMinRtpPacketLen, res_andb.
  destruct (Z.leb_spec 12 (zlen data)); [|done].
  destruct (rd_in data 0) as [b0 ->]; [lia|]. destruct (rd_in data 1) as [b1 ->]; [lia|]. cbn.
  by case_match.
Qed.

(** ** Input *)
Lemma dtls_input_exact buf : zlen buf < 2 ^ 31 → dtls_input buf (zlen buf) = Ok buf.
Proof.
  intros Hlt. pose proof (zlen_nonneg buf). unfold dtls_input. rewrite as_int_small by lia.
  destruct (Z.ltb_spec (zlen buf) 0); [lia|]. rewrite rd_range_in by lia.
  change (Z.to_nat 0) with 0%nat. by rewrite drop_0, take_ge by (unfold zlen; lia).
Qed.

(** RTP for a channel needs a session, and libsrtp to accept the packet: the
    code uses the length without looking at the result. *)
Definition rtp_servable (t : WebRtcTransport) (buf : list Z) : Prop :=
  Rtp.IsRtpPacket buf (zlen buf) = Ok true → rtp_channel_ t = true →
  ∃ s s' buf' n, srtp_session_ t = Some s ∧ DecryptSrtp s buf (zlen buf) = Ok (s', true, buf', n).

(** Where a datagram may cause output: its sender, the selected peer, and the
    channel once there is a session. *)
Definition allowed (t : WebRtcTransport) (from : sockaddr_in) (o : Out) : Prop :=
  match o with
  | Sent _ to => to = Some from ∨ is_Some to ∧ to = remote_socket_address_ t
  | ToRtpChannel _ => is_Some (srtp_session_ t)
  end.

Lemma sent_allowed t from a o :
  a = from ∨ remote_socket_address_ t = Some a → Forall (sent_to a) o → Forall (allowed t from) o.
Proof.
  intros Ha Ho. eapply Forall_impl; [exact Ho|]. intros [data to|]; cbn; [|done].
  intros ->. destruct Ha as [->|Ha]; [by left|]. right. split; [by eexists|done].
Qed.

(** The peer is chosen once. *)
Definition sticky (t t' : WebRtcTransport) : Prop :=
  Ice.state (ice_server_ t) = Ice.COMPLETED → remote_socket_address_ t' = remote_socket_address_ t.

(** The fragment the session is known by, and the channel, stay. *)
Definition same_config (t t' : WebRtcTransport) : Prop :=
  Ice.usernameFragment (ice_server_ t') = Ice.usernameFragment (ice_server_ t) ∧
  rtp_channel_ t' = rtp_channel_ t.

Definition outcome (t : WebRtcTransport) (from : sockaddr_in) (t' : WebRtcTransport) (o : list Out) : Prop :=
  wt_inv t' ∧ sticky t t' ∧ same_config t t' ∧ Forall (allowed t' from) o.

Lemma on_stun_fine fresh t buf from :
  bytes_ok buf → zlen buf < 65536 → Ice.tuple_ok from → fresh_ok fresh → wt_inv t →
  fine (on_stun fresh t buf (zlen buf) from) (outcome t from).
Proof using All.
  intros Hb Hlt Hfrom Hf Hi. unfold on_stun.
  pose proof (Parse_wp buf Hb Hlt) as Hp. apply wp_Ok in Hp as ([p|] & -> & Hp); cbn [mbind res_bind]; [|done].
  destruct (Ice.ProcessStunPacket_spec (ice_server_ t) (stun_buffer t) buf p from)
    as (a & s' & b' & evs & -> & Hj & Hc & Hb'); [done|done|by apply Hp|by apply wi_listener|by apply wi_buffer|done|].
  cbn [mbind res_bind]. destruct (Ice.judge_state _ _ _ _ _ Hj) as (Hl & _ & _).
  eapply fine_mono.
  { eapply on_ice_events_fine; [done| |done]. apply set_ice_inv; [rewrite Hl; by apply wi_listener|done|done]. }
  intros t' o (Hi' & Hice & Hch & Ho & Hsel). split; [done|].
  split; [|split; [split; [rewrite Hice; by apply Ice.judge_fragment in Hj|done]|]].
  - intros Hcomp. rewrite (Ice.carries_out_selections _ _ _ _ _ Hc) in Hsel.
    destruct a as [| |pw]; [by rewrite decide_True in Hsel by done; subst..|].
    rewrite (decide_True _ _ Hcomp), decide_True in Hsel by done. by subst.
  - eapply sent_allowed; [by left|done].
Qed.

Lemma on_dtls_fine fresh t data from :
  fresh_ok fresh → wt_inv t → fine (call_dtls fresh (Dtls.ProcessDtlsData data) t) (outcome t from).
Proof using All.
  intros Hf Hi. destruct (Dtls.IsRunning (dtls_transport_ t)) eqn:Hr; [|by rewrite call_dtls_idle].
  destruct (wi_remote t Hi Hr) as [a Ha]. eapply fine_mono.
  { apply (call_dtls_fine fresh _ t a); [done..|]. apply ProcessDtlsData_ends, Hi. }
  intros t' o (Hi' & Hice & Hch & Hrem & Ho). split; [done|]. split; [intros _; congruence|].
  split; [by split; [rewrite Hice|]|]. eapply sent_allowed; [by right|done].
Qed.

Lemma on_rtp_fine t buf from :
  zlen buf < 65536 → wt_inv t → rtp_servable t buf → Rtp.IsRtpPacket buf (zlen buf) = Ok true →
  fine (on_rtp t buf (zlen buf)) (outcome t from).
Proof using All.
  intros Hlt Hi Hserv Hrtp. unfold on_rtp. destruct (rtp_channel_ t) eqn:Hch; [|done].
  destruct (Hserv Hrtp Hch) as (s & s' & buf' & n & Hs & HD). rewrite Hs.
  destruct (wi_srtp t Hi) as [Hwf Hready].
  destruct (DecryptSrtp_spec s buf) as (s1 & ok1 & b1 & n1 & HE & Hs1 & Hl1 & Hn1); [by apply Hwf|lia|].
  rewrite HE in HD. simplify_eq. rewrite HE. cbn [mbind res_bind].
  specialize (Hn1 eq_refl). rewrite rd_range_in by (unfold zlen in *; lia). cbn [mbind res_bind fine].
  split; [|split; [done|split; [done|by repeat constructor; eexists]]].
  destruct Hi. split; cbn; try done. split; cbn; [by intros ? [= <-]|].
  intros Hr. split; [by eexists|by apply Hready].
Qed.

Lemma OnInputDataPacket_fine fresh t buf from :
  bytes_ok buf → zlen buf < 65536 → Ice.tuple_ok from → fresh_ok fresh → wt_inv t →
  rtp_servable t buf →
  fine (OnInputDataPacket fresh t buf (zlen buf) from) (outcome t from).
Proof using All.
  intros Hb Hlt Hfrom Hf Hi Hserv. unfold OnInputDataPacket.
  destruct (proj1 (wp_Ok _ _) (IsStun_wp buf Hb)) as ([] & -> & _); cbn [mbind res_bind].
  { by apply on_stun_fine. }
  destruct (proj1 (wp_Ok _ _) (IsDtls_wp buf)) as ([] & -> & _); cbn [mbind res_bind].
  { rewrite dtls_input_exact by lia. cbn [mbind res_bind]. by apply on_dtls_fine. }
  destruct (proj1 (wp_Ok _ _) (IsRtcp_wp buf)) as ([] & -> & _); cbn [mbind res_bind]; [done|].
  destruct (proj1 (wp_Ok _ _) (IsRtp_wp buf)) as ([] & E & _); rewrite E; cbn [mbind res_bind]; [|done].
  by apply on_rtp_fine.
Qed.

(** ** A failed receive

    Its length is -1 as a size_t.  It passes the tests for a minimal length, so
    that the bytes of an earlier datagram are looked at. *)
Section failed.
Context (buf : list Z) (Hb : bytes_ok buf) (Hlen : 20 ≤ zlen buf).

Lemma res_andb_returns a b : (∃ x, a = Ok x) → (∃ y, b = Ok y) → ∃ z, (a &&& b) = Ok z.
Proof. intros [[] ->] [y ->]; by eexists. Qed.

Lemma read_test i f : 0 ≤ i < 20 → ∃ b : bool, (x ← buf.[i]; Ok (f x)) = Ok b.
Proof using Hlen. intros Hi. destruct (rd_in buf i) as [x ->]; [lia|]. by eexists. Qed.

Lemma failed_tests : ∃ b0 b1 b2 b3,
  IsStun buf (u64 (-1)) = Ok b0 ∧ Dtls.IsDtls buf (u64 (-1)) = Ok b1 ∧
  Rtp.IsRtcpPacket buf (u64 (-1)) = Ok b2 ∧ Rtp.IsRtpPacket buf (u64 (-1)) = Ok b3.
Proof using Hlen.
  assert (∃ b, IsStun buf (u64 (-1)) = Ok b) as [b0 H0'].
  { repeat apply res_andb_returns; try (apply read_test; lia). by eexists. }
  assert (∃ b, Dtls.IsDtls buf (u64 (-1)) = Ok b) as [b1 H1'].
  { apply res_andb_returns; [by eexists|]. apply read_test. lia. }
  assert (∃ b, Rtp.IsRtcpPacket buf (u64 (-1)) = Ok b) as [b2 H2'].
  { repeat apply res_andb_returns; try (apply read_test; lia). by eexists. }
  assert (∃ b, Rtp.IsRtpPacket buf (u64 (-1)) = Ok b) as [b3 H3'].
  { repeat apply res_andb_returns; try (apply read_test; lia). by eexists. }
  by exists b0, b1, b2, b3.
Qed.

(** No header says that length. *)
Lemma failed_Parse : Parse buf (u64 (-1)) = Ok None.
Proof using Hb Hlen.
  destruct failed_tests as (b & _ & _ & _ & Hs & _).
  unfold Parse, ParseFuel. rewrite Hs. cbn [mbind res_bind]. destruct b; [|done]. cbn [negb].
  change (u64 (-1)) with (2 ^ 64 - 1).
  destruct (Byte.Get2Bytes_in buf 0 Hb) as (t & -> & _); [lia..|].
  destruct (Byte.Get2Bytes_in buf 2 Hb) as (len & -> & Hl); [lia..|]. cbn [mbind res_bind].
  by destruct (Z.eqb_spec len (2 ^ 64 - 1 - 20)); [unfold fits in Hl; lia|].
Qed.

(** It is harmless unless the stale bytes look like RTP for a channel: then libsrtp
    is given a negative length. *)
Lemma OnInputDataPacket_failed fresh t from :
  fresh_ok fresh → wt_inv t → (rtp_channel_ t = true → Rtp.IsRtpPacket buf (u64 (-1)) ≠ Ok true) →
  fine (OnInputDataPacket fresh t buf (u64 (-1)) from) (outcome t from).
Proof using All.
  intros Hf Hi Hch. unfold OnInputDataPacket.
  destruct failed_tests as (b0 & b1 & b2 & b3 & -> & -> & -> & E3). rewrite E3.
  cbn [mbind res_bind]. destruct b0.
  { unfold on_stun. by rewrite failed_Parse. }
  destruct b1; [by apply on_dtls_fine|]. destruct b2; [done|]. destruct b3; [|done].
  unfold on_rtp. destruct (rtp_channel_ t); [|done]. by destruct (Hch eq_refl).
Qed.
End failed.

(** ** Sequences of datagrams *)
Fixpoint deliver (fresh : list Z) (t : WebRtcTransport) (l : list (list Z * sockaddr_in)) :
    res (WebRtcTransport * list Out) :=
  match l with
  | [] => Ok (t, [])
  | (buf, from) :: l =>
      '(t, o1) ← OnInputDataPacket fresh t buf (zlen buf) from;
      '(t, o2) ← deliver fresh t l;
      Ok (t, o1 ++ o2)
  end.

Definition datagram_ok (d : list Z * sockaddr_in) : Prop :=
  bytes_ok d.1 ∧ zlen d.1 < 65536 ∧ Ice.tuple_ok d.2.

Lemma deliver_fine fresh l : ∀ t,
  fresh_ok fresh → wt_inv t → rtp_channel_ t = false → Forall datagram_ok l →
  fine (deliver fresh t l) (λ t' _, wt_inv t' ∧ rtp_channel_ t' = false).
Proof using All.
  induction l as [|[buf from] l IH]; intros t Hf Hi Hch Hl; [done|].
  apply Forall_cons in Hl as [(Hb & Hlt & Hfrom) Hl]. cbn [deliver]. apply fine_bind.
  eapply fine_mono; [apply OnInputDataPacket_fine; try done; intros _; congruence|].
  intros t1 o1 (Hi1 & _ & [_ Hch1] & _). apply fine_bind.
  eapply fine_mono; [apply IH; try done; congruence|]. done.
Qed.

(** A datagram that carries no valid credentials. *)
Definition unauthorized (i : Ice.IceServer) (d : list Z * sockaddr_in) : Prop :=
  ∀ p, Parse d.1 (zlen d.1) = Ok (Some p) → ¬ Ice.current_ok i d.1 p ∧ ¬ Ice.old_ok i d.1 p.

(** The error response to a request. *)
Definition rejection (d : list Z * sockaddr_in) (o : Out) : Prop :=
  ∃ p code, Parse d.1 (zlen d.1) = Ok (Some p) ∧ klass p = REQUEST ∧
    o = Sent (wire (Ice.error_response p code) []) (Some d.2).

Lemma set_ice_same t : set_ice (ice_server_ t) (stun_buffer t) t = t.
Proof. by destruct t. Qed.

Lemma SendPacket_all t bytes a (P : Out → Prop) : P (Sent bytes a) → Forall P (SendPacket t bytes a).
Proof. intros. unfold SendPacket. case_match; by repeat constructor. Qed.

Lemma on_stun_unauthorized fresh t buf from :
  datagram_ok (buf, from) → wt_inv t → unauthorized (ice_server_ t) (buf, from) →
  ∃ b o, on_stun fresh t buf (zlen buf) from = Ok (set_ice (ice_server_ t) b t, o) ∧
    Ice.buffer_ok b ∧ Forall (rejection (buf, from)) o.
Proof.
  intros (Hb & Hlt & Hfrom) Hi Hun. cbn [fst snd] in *. unfold on_stun.
  pose proof (Parse_wp buf Hb Hlt) as Hp. apply wp_Ok in Hp as ([p|] & HP & Hp); rewrite HP; cbn [mbind res_bind].
  2: { exists (stun_buffer t), []. rewrite set_ice_same. split; [done|]. split; [apply Hi|done]. }
  destruct (Hun p HP) as [Hnc Hno].
  destruct (Ice.ProcessStunPacket_spec (ice_server_ t) (stun_buffer t) buf p from)
    as (a & s' & b' & evs & -> & Hj & Hc & Hb'); [done|done|by apply Hp|by apply wi_listener|by apply wi_buffer|done|].
  assert (∀ code, klass p = REQUEST → Ice.carries_out (ice_server_ t) p from (Ice.ErrorReply code) evs →
    ∃ b o, on_ice_events fresh (set_ice (ice_server_ t) b' t) evs = Ok (set_ice (ice_server_ t) b t, o) ∧
      Ice.buffer_ok b ∧ Forall (rejection (buf, from)) o) as Hrej.
  { intros code Hk (r & -> & Hd). cbn [on_ice_events on_ice_event].
    erewrite OnIceServerSendStunPacket_spec by done. cbn. eexists _, _. split; [done|]. split; [done|].
    rewrite app_nil_r. apply SendPacket_all. by exists p, code. }
  cbn [mbind res_bind]. destruct Hj as [| | | |]; try done; [|by eapply Hrej..].
  cbn in Hc. subst evs. cbn. by eexists _, _.
Qed.

Lemma OnInputDataPacket_unauthorized fresh t d :
  datagram_ok d → wt_inv t → Dtls.IsRunning (dtls_transport_ t) = false → rtp_channel_ t = false →
  unauthorized (ice_server_ t) d →
  ∃ b o, OnInputDataPacket fresh t d.1 (zlen d.1) d.2 = Ok (set_ice (ice_server_ t) b t, o) ∧
    Ice.buffer_ok b ∧ Forall (rejection d) o.
Proof.
  destruct d as [buf from]. intros Hd Hi Hr Hch Hun. cbn [fst snd]. unfold OnInputDataPacket.
  assert (∃ b o, @Ok (WebRtcTransport * list Out) (t, []) = Ok (set_ice (ice_server_ t) b t, o) ∧
    Ice.buffer_ok b ∧ Forall (rejection (buf, from)) o) as Hnone.
  { exists (stun_buffer t), []. rewrite set_ice_same. split; [done|]. split; [apply Hi|done]. }
  destruct (proj1 (wp_Ok _ _) (IsStun_wp buf (proj1 Hd))) as ([] & -> & _); cbn [mbind res_bind].
  { by apply on_stun_unauthorized. }
  destruct (proj1 (wp_Ok _ _) (IsDtls_wp buf)) as ([] & -> & _); cbn [mbind res_bind].
  { destruct Hd as (_ & Hlt & _). cbn [fst] in Hlt. rewrite dtls_input_exact by lia. cbn [mbind res_bind]. by rewrite call_dtls_idle. }
  destruct (proj1 (wp_Ok _ _) (IsRtcp_wp buf)) as ([] & -> & _); cbn [mbind res_bind]; [done|].
  destruct (proj1 (wp_Ok _ _) (IsRtp_wp buf)) as ([] & -> & _); cbn [mbind res_bind]; [|done].
  unfold on_rtp. by rewrite Hch.
Qed.

Lemma deliver_unauthorized fresh l : ∀ t,
  wt_inv t → Dtls.IsRunning (dtls_transport_ t) = false → rtp_channel_ t = false →
  Forall datagram_ok l → Forall (unauthorized (ice_server_ t)) l →
  ∃ b o, deliver fresh t l = Ok (set_ice (ice_server_ t) b t, o) ∧
    Forall (λ x, ∃ d, d ∈ l ∧ rejection d x) o.
Proof.
  induction l as [|d l IH]; intros t Hi Hr Hch Hok Hun.
  { exists (stun_buffer t), []. by rewrite set_ice_same. }
  apply Forall_cons in Hok as [Hd Hok]. apply Forall_cons in Hun as [Hu Hun].
  destruct (OnInputDataPacket_unauthorized fresh t d) as (b1 & o1 & H1' & Hb1 & Ho1); [done..|].
  destruct d as [buf from]. cbn [deliver fst snd] in *. rewrite H1'. cbn [mbind res_bind].
  destruct (IH (set_ice (ice_server_ t) b1 t)) as (b2 & o2 & -> & Ho2); try done.
  { apply set_ice_inv; [apply Hi|done|done]. }
  cbn. eexists b2, _. split; [done|]. apply Forall_app_2.
  - eapply Forall_impl; [exact Ho1|]. intros x Hx. exists (buf, from). split; [by apply list_elem_of_here|done].
  - eapply Forall_impl; [exact Ho2|]. intros x (d & Hin & Hx). exists d. split; [by apply list_elem_of_further|done].
Qed.

(** ** Construction, selection and output *)
Lemma newWebRtcTransport_spec seed chars ssl buffer ip port :
  length chars = 64%nat → Ice.buffer_ok buffer →
  wp (newWebRtcTransport seed chars ssl buffer ip port) (λ '(_, chars', t),
    length chars' = 64%nat ∧ wt_inv t ∧ Dtls.IsRunning (dtls_transport_ t) = false ∧
    rtp_channel_ t = false ∧
    zlen (Ice.usernameFragment (ice_server_ t)) = 4 ∧ Forall alnum (Ice.usernameFragment (ice_server_ t)) ∧
    zlen (Ice.ice_password (ice_server_ t)) = 24 ∧ Forall alnum (Ice.ice_password (ice_server_ t))).
Proof.
  intros Hc Hb. unfold newWebRtcTransport. apply wp_bind.
  eapply wp_mono; [by apply GetRandomString_spec|]. intros [[s1 c1] f] (Hc1 & Hf & Haf).
  apply wp_bind. eapply wp_mono; [by apply GetRandomString_spec|]. intros [[s2 c2] w] (Hc2 & Hw & Haw).
  cbn. split; [done|]. split; [|done]. by split; cbn; try apply new_inv.
Qed.

(** The server side of the handshake starts without sending anything. *)
Lemma Run_server d :
  Dtls.localRole d = Dtls.ROLE_NONE →
  ∃ d', Dtls.Run Dtls.SERVER d = Ok ((), d') ∧ Dtls.state d' = Dtls.CONNECTING ∧
    Dtls.localRole d' = Dtls.SERVER ∧ Dtls.log d' = Dtls.log d ++ [Dtls.Connecting].
Proof.
  intros Hr. unfold Dtls.Run, Dtls.notify, Dtls.ssl_call, Dtls.modify, Dtls.assert_, mbind, Dtls.M_bind, Dtls.get.
  cbn. rewrite (bool_decide_true (Dtls.SERVER = Dtls.SERVER)) by done. rewrite orb_true_r. cbn. rewrite Hr. cbn.
  rewrite decide_False by done. rewrite !bool_decide_false by done. cbn.
  match goal with |- context [Dtls.SSL_do_handshake ?x] => destruct (Dtls.SSL_do_handshake x) as [s infos] end.
  eexists. split; [done|]. destruct (infos_same infos (Dtls.set_ssl s (Dtls.set_ssl (Dtls.SSL_set_accept_state (Dtls.ssl d))
    (Dtls.add_log Dtls.Connecting (Dtls.set_state Dtls.CONNECTING (Dtls.set_role Dtls.SERVER d)))))) as [-> -> _ ->].
  done.
Qed.

Lemma Parse_IsStun buf p : Parse buf (zlen buf) = Ok (Some p) → IsStun buf (zlen buf) = Ok true.
Proof. unfold Parse, ParseFuel. destruct (IsStun buf (zlen buf)) as [[]| | | |]; done. Qed.

Lemma OnIceServerSelectedTuple_spec fresh t from :
  Dtls.localRole (dtls_transport_ t) = Dtls.ROLE_NONE →
  ∃ t', OnIceServerSelectedTuple fresh t from = Ok (t', []) ∧ ice_server_ t' = ice_server_ t ∧
    remote_socket_address_ t' = Some from ∧ Dtls.state (dtls_transport_ t') = Dtls.CONNECTING ∧
    Dtls.localRole (dtls_transport_ t') = Dtls.SERVER ∧ is_ready_ t' = is_ready_ t.
Proof.
  intros Hr. unfold OnIceServerSelectedTuple, call_dtls.
  destruct (Run_server (dtls_transport_ (set_remote from t)) Hr) as (d' & -> & Hs & Hro & Hl).
  cbn [mbind res_bind]. rewrite Hl. cbn [set_remote dtls_transport_]. rewrite drop_app_length. cbn.
  eexists. split; [done|]. done.
Qed.

(** What the transport sends for an RTP packet. *)
Inductive rtp_sent (t : WebRtcTransport) (data : list Z) : res (WebRtcTransport * list Out) → Prop :=
| sent_protected s s' len' a :
    is_ready_ t = true → srtp_session_ t = Some s →
    EncryptRtp s data (zlen data) = Ok (s', true, FromEncryptBuffer, len') →
    zlen data ≤ len' ≤ kEncryptBufferSize → wf_session s' → remote_socket_address_ t = Some a →
    rtp_sent t data (Ok (set_srtp (Some s') true t,
      SendPacket t (take (Z.to_nat len') (encrypt_buffer_ s')) (Some a)))
| sent_too_large s a :
    is_ready_ t = true → srtp_session_ t = Some s →
    kEncryptBufferSize < zlen data + SRTP_MAX_TRAILER_LEN → remote_socket_address_ t = Some a →
    rtp_sent t data (Ok (t, SendPacket t data (Some a)))
| sent_unready :
    is_ready_ t = false →
    rtp_sent t data (Ok (t, SendPacket t data (remote_socket_address_ t))).

(** libsrtp accepts the packet, if it gets to see it. *)
Definition protectable (t : WebRtcTransport) (data : list Z) : Prop :=
  ∀ s s' ok o n, srtp_session_ t = Some s → zlen data + SRTP_MAX_TRAILER_LEN ≤ kEncryptBufferSize →
    EncryptRtp s data (zlen data) = Ok (s', ok, o, n) → ok = true.

Lemma set_srtp_same t s : srtp_session_ t = Some s → is_ready_ t = true → set_srtp (Some s) true t = t.
Proof. destruct t. cbn. by intros -> ->. Qed.

Lemma EncryptAndSend_spec t data :
  wt_inv t → zlen data < 2 ^ 63 → protectable t data →
  rtp_sent t data (EncryptAndSendRtpPacket t data (zlen data)).
Proof using H3.
  intros Hi Hl Hprot. unfold EncryptAndSendRtpPacket. pose proof (zlen_nonneg data).
  destruct (wi_srtp t Hi) as [Hwf Hready]. destruct (is_ready_ t) eqn:Hr.
  - destruct (Hready eq_refl) as [[s Hs] [a Ha]]. rewrite Hs.
    destruct (EncryptRtp_spec s data) as (s' & ok & o & n & HE & Hs' & Hok & Hno & Hbig);
      [by apply Hwf|lia|].
    rewrite HE. cbn [mbind res_bind]. destruct ok.
    + destruct (Hok eq_refl) as [-> Hn]. pose proof Hs' as (_ & _ & Hz).
      rewrite rd_range_in by lia. cbn [mbind res_bind]. unfold SendToRemote. cbn [set_srtp remote_socket_address_].
      rewrite Ha. change (Z.to_nat 0) with 0%nat. rewrite drop_0.
      exact (sent_protected t data s s' n a Hr Hs HE Hn Hs' Ha).
    + destruct (decide (zlen data + SRTP_MAX_TRAILER_LEN ≤ kEncryptBufferSize)) as [Hfit|Hfit].
      { specialize (Hprot _ _ _ _ _ Hs Hfit HE). done. }
      rewrite Hno by done. destruct Hbig as (_ & -> & ->); [lia|]. rewrite rd_range_in by lia. cbn [mbind res_bind].
      rewrite set_srtp_same by done. unfold SendToRemote. rewrite Ha. cbn.
      rewrite drop_0, take_ge by (unfold zlen; lia). eapply sent_too_large; try done. lia.
  - rewrite rd_range_in by lia. cbn [mbind res_bind]. unfold SendToRemote.
    change (Z.to_nat 0) with 0%nat. rewrite drop_0, take_ge by (unfold zlen; lia).
    by apply sent_unready.
Qed.

Lemma rtp_sent_fine t data r :
  wt_inv t → rtp_sent t data r → fine r (λ t' _, wt_inv t' ∧ same_config t t').
Proof.
  intros Hi Hs. destruct Hs as [s s' n a Hr Hs HE Hn Hwf Ha| |]; try done. cbn. split; [|done].
  destruct Hi as [? ? ? ? [Hw Hy]]. split; cbn; try done. split; cbn; [by intros ? [= <-]|].
  intros _. split; [by eexists|]. by eexists.
Qed.

(** A packet that libsrtp rejects reaches the channel all the same. *)
Lemma rejected_rtp_delivered t buf s s' buf' n :
  rtp_channel_ t = true → srtp_session_ t = Some s →
  DecryptSrtp s buf (zlen buf) = Ok (s', false, buf', n) → 0 ≤ n ≤ zlen buf' →
  on_rtp t buf (zlen buf)
  = Ok (set_srtp (Some s') (is_ready_ t) t, [ToRtpChannel (take (Z.to_nat n) buf')]).
Proof.
  intros Hch Hs HD Hn. unfold on_rtp. rewrite Hch, Hs, HD. cbn [mbind res_bind].
  by rewrite rd_range_in by lia.
Qed.

(** RTP for a channel before the handshake is done uses a null session. *)
Lemma early_rtp_faults fresh t from :
  rtp_channel_ t = true → srtp_session_ t = None →
  OnInputDataPacket fresh t (0x80 :: 96 :: replicate 10 0) 12 from = UB NullDeref.
Proof.
  intros Hch Hs. unfold OnInputDataPacket, on_rtp. rewrite Hch, Hs. by vm_compute.
Qed.
End proofs.

(** ** Properties *)


Definition sample_transport (i : Ice.IceServer) (channel : bool) : @WebRtcTransport toy_ssl toy_srtp :=
  @mkTransport toy_ssl toy_srtp i (@Dtls.newDtlsTransport toy_ssl 0%nat) None true channel false
    (str "127.0.0.1") 8000 None Ice.zero_buffer.

Lemma sample_transport_inv i channel :
  Ice.listener i = true → @wt_inv toy_ssl toy_srtp (sample_transport i channel).
Proof.
  intros Hl. split; [done|apply Ice.zero_buffer_ok|apply (@new_inv toy_ssl)|done|done].
Qed.

Lemma zero_fresh : fresh_ok Ice.zero_buffer.
Proof. apply Ice.zero_buffer_ok. Qed.


(** A transport as its constructor makes it, with no RTP channel, survives
    every sequence of datagrams: it gets a 4 character user name fragment and a
    24 character password, and then no datagram makes it fault or breaks the
    invariant of its parts. *)
Lemma transport_runs_safe `{HmacSha1} `{Dtls.OpenSSL} `{!OpenSSLSpec} `{LibSrtp} `{!LibSrtpSpec}
    seed chars ssl buffer ip port fresh l :
  length chars = 64%nat → Ice.buffer_ok buffer → fresh_ok fresh → Forall datagram_ok l →
  ∃ seed' chars' t, newWebRtcTransport seed chars ssl buffer ip port = Ok (seed', chars', t) ∧
    zlen (Ice.usernameFragment (ice_server_ t)) = 4 ∧ zlen (Ice.ice_password (ice_server_ t)) = 24 ∧
    fine (deliver fresh t l) (λ t' _, wt_inv t').
Proof.
  intros Hc Hb Hf Hl. pose proof (newWebRtcTransport_spec seed chars ssl buffer ip port Hc Hb) as Hw.
  apply wp_Ok in Hw as ([[seed' chars'] t] & HE & (_ & Hi & _ & Hch & Hu & _ & Hw & _)).
  exists seed', chars', t. split; [done|]. split; [done|]. split; [done|].
  eapply fine_mono; [by apply deliver_fine|]. by intros ?? [? _].
Qed.

Definition sample_datagrams : list (list Z * sockaddr_in) :=
  [(sample_signed, sample_addr); (replicate 13 20, sample_addr)].

Lemma sample_datagrams_ok : Forall datagram_ok sample_datagrams.
Proof.
  apply Forall_cons. split; [split; [|split]|apply Forall_singleton; split; [|split]].
  - apply Ice.sample_signed_bytes.
  - by vm_compute.
  - apply Ice.sample_tuple_ok.
  - apply (bool_decide_unpack _). by vm_compute.
  - by vm_compute.
  - apply Ice.sample_tuple_ok.
Qed.

Lemma transport_runs_safe_witness :
  ∃ seed' chars' t,
    @newWebRtcTransport toy_ssl toy_srtp 1 (replicate 64 0) 0%nat Ice.zero_buffer (str "127.0.0.1") 8000
      = Ok (seed', chars', t) ∧
    zlen (Ice.usernameFragment (@ice_server_ toy_ssl toy_srtp t)) = 4 ∧
    zlen (Ice.ice_password (@ice_server_ toy_ssl toy_srtp t)) = 24 ∧
    @fine toy_ssl toy_srtp (@deliver toy_hmac toy_ssl toy_srtp Ice.zero_buffer t sample_datagrams)
      (λ t' _, @wt_inv toy_ssl toy_srtp t').
Proof.
  apply (@transport_runs_safe toy_hmac toy_ssl toy_ssl_spec toy_srtp toy_srtp_spec).
  - done.
  - apply Ice.zero_buffer_ok.
  - apply zero_fresh.
  - apply sample_datagrams_ok.
Defined.


Lemma wrong_unauthorized :
  Forall (@unauthorized toy_hmac Ice.wrong_server) sample_datagrams.
Proof.
  apply Forall_cons. split; [|apply Forall_singleton].
  - intros p HP. cbn [fst] in *. assert (p = sample_packet) as ->.
    { assert (Parse sample_signed (zlen sample_signed) = Ok (Some sample_packet)) as HS by (by vm_compute).
      congruence. }
    split; [apply Ice.wrong_not_current|apply Ice.wrong_not_old].
  - intros p HP. exfalso. revert HP. by vm_compute.
Qed.


Lemma connects_spec `{HmacSha1} `{Dtls.OpenSSL} `{LibSrtp} fresh t buf from p :
  datagram_ok (buf, from) → wt_inv t → transport_ t = true →
  Ice.state (ice_server_ t) ≠ Ice.COMPLETED → Dtls.localRole (dtls_transport_ t) = Dtls.ROLE_NONE →
  Parse buf (zlen buf) = Ok (Some p) → klass p = REQUEST → Ice.complete p →
  Ice.current_ok (ice_server_ t) buf p →
  ∃ t', OnInputDataPacket fresh t buf (zlen buf) from
    = Ok (t', [Sent (wire (Ice.success_response p from (Ice.ice_password (ice_server_ t))) []) (Some from)]) ∧
    remote_socket_address_ t' = Some from ∧ Ice.state (ice_server_ t') = Ice.COMPLETED ∧
    Dtls.state (dtls_transport_ t') = Dtls.CONNECTING ∧
    Dtls.localRole (dtls_transport_ t') = Dtls.SERVER.
Proof.
  intros (Hb & Hlt & Hfrom) Hi Htr Hst Hro HP Hk Hcomp Hcur. cbn [fst snd] in *.
  unfold OnInputDataPacket. rewrite (Parse_IsStun _ _ HP). cbn [mbind res_bind]. unfold on_stun. rewrite HP. cbn [mbind res_bind].
  destruct (Ice.ProcessStunPacket_spec (ice_server_ t) (stun_buffer t) buf p from)
    as (a & s' & b' & evs & -> & Hj & Hc & Hb'); [done|done| |by apply wi_listener|by apply wi_buffer|done|].
  { by apply Ice.Parse_accepted. }
  cbn [mbind res_bind]. destruct Hj as [| | | |]; try done.
  destruct Hc as (r & -> & Hd). rewrite (decide_False _ _ Hst). cbn [on_ice_events on_ice_event].
  erewrite OnIceServerSendStunPacket_spec by done. cbn [mbind res_bind].
  match goal with |- context [OnIceServerSelectedTuple _ ?t1 _] =>
    destruct (OnIceServerSelectedTuple_spec fresh t1 from) as (t' & -> & Hice & Hrem & Hs & Hr & _); [done|] end.
  cbn [mbind res_bind]. exists t'. unfold SendPacket. cbn [set_ice transport_]. rewrite Htr.
  split; [done|]. rewrite Hice. done.
Qed.

(** C3: a complete Binding request under the current credentials opens the
    transport: it is answered with the success response to its sender and
    nothing else, the sender becomes the peer, ICE completes, and DTLS starts
    as server. *)
Theorem authenticated_request_connects `{HmacSha1} `{Dtls.OpenSSL} `{LibSrtp} fresh t buf from p :
  datagram_ok (buf, from) → wt_inv t → transport_ t = true →
  Ice.state (ice_server_ t) ≠ Ice.COMPLETED → Dtls.localRole (dtls_transport_ t) = Dtls.ROLE_NONE →
  Parse buf (zlen buf) = Ok (Some p) → klass p = REQUEST → Ice.complete p →
  Ice.current_ok (ice_server_ t) buf p →
  ∃ t', OnInputDataPacket fresh t buf (zlen buf) from
    = Ok (t', [Sent (wire (Ice.success_response p from (Ice.ice_password (ice_server_ t))) []) (Some from)]) ∧
    remote_socket_address_ t' = Some from ∧ Ice.state (ice_server_ t') = Ice.COMPLETED ∧
    Dtls.state (dtls_transport_ t') = Dtls.CONNECTING ∧
    Dtls.localRole (dtls_transport_ t') = Dtls.SERVER.
Proof. apply connects_spec. Qed.

Lemma sample_current : @Ice.current_ok toy_hmac Ice.sample_server sample_signed sample_packet.
Proof.
  split; [left; by vm_compute|]. split; [exists (str "c"); by vm_compute|].
  exists 40. split; [by vm_compute|]. by vm_compute.
Qed.

Lemma authenticated_request_connects_witness :
  let t := sample_transport Ice.sample_server false in
  ∃ t', @OnInputDataPacket toy_hmac toy_ssl toy_srtp Ice.zero_buffer t sample_signed (zlen sample_signed) sample_addr
    = Ok (t', [Sent (@wire toy_hmac (Ice.success_response sample_packet sample_addr (str "pw")) []) (Some sample_addr)]) ∧
    @remote_socket_address_ toy_ssl toy_srtp t' = Some sample_addr ∧
    Ice.state (@ice_server_ toy_ssl toy_srtp t') = Ice.COMPLETED ∧
    @Dtls.state toy_ssl (@dtls_transport_ toy_ssl toy_srtp t') = Dtls.CONNECTING ∧
    @Dtls.localRole toy_ssl (@dtls_transport_ toy_ssl toy_srtp t') = Dtls.SERVER.
Proof.
  apply (@authenticated_request_connects toy_hmac toy_ssl toy_srtp Ice.zero_buffer
           (sample_transport Ice.sample_server false) sample_signed sample_addr sample_packet).
  - exact (Forall_inv sample_datagrams_ok).
  - by apply sample_transport_inv.
  - done.
  - done.
  - done.
  - by vm_compute.
  - by vm_compute.
  - split; [by vm_compute|]. split; [by vm_compute|]. split; [by vm_compute|]. split; by vm_compute.
  - apply sample_current.
Defined.


Definition ready_transport : @WebRtcTransport toy_ssl toy_srtp :=
  @set_srtp toy_ssl toy_srtp (Some toy_session) true
    (@set_remote toy_ssl toy_srtp sample_addr (sample_transport Ice.sample_server false)).

End WebRtcProofs.
