(* ===== verification/Sdp.v ===== *)
(** * The session descriptions of WebRtcTransport

    GetLocalSdp and GetPublishSdp of rtc/webrtc_transport.cc: the text a browser
    gets over HTTP, printed with sprintf into an array of 10240 characters on the
    stack.  Every line of the format strings ends with CR LF, so the text is the
    list of its lines. *)
From S2P Require Import Prelude Text ByteOps Crypto StunPacket IceServer Srtp Dtls DtlsProofs DtlsInit DtlsInitProofs WebRtc WebRtcProofs.

Module Sdp.
Import Crypto Srtp WebRtc.

Definition crlf : list Z := [13; 10].
Definition text_of (lines : list (list Z)) : list Z := concat ((λ l, l ++ crlf) <$> lines).

(** [s.c_str()] given to [%s]. *)
Definition cs (s : list Z) : list Z := c_str (s ++ [0]).

Definition nssrc : Z := 12345678.

(** The values of the conversions, then the lines. *)
Definition candidate (ip : list Z) (port : Z) : list Z :=
  str "a=candidate:" ++ str "4" ++ str " 1 udp " ++ fmt_u 12345678 ++ str " " ++ ip ++ str " " ++
  fmt_u port ++ str " typ " ++ str "host".

Definition local_lines (ip ufrag pwd fingerprint : list Z) (port : Z) : list (list Z) :=
  [str "v=0";
   str "o=- 1495799811084970 1495799811084970 IN IP4 " ++ ip;
   str "s=Streaming Test";
   str "t=0 0";
   str "a=group:BUNDLE 0";
   str "a=msid-semantic: WMS janus";
   str "m=video 1 RTP/SAVPF 96";
   str "c=IN IP4 " ++ ip;
   str "a=mid:0";
   str "a=sendonly";
   str "a=rtcp-mux";
   str "a=ice-ufrag:" ++ ufrag;
   str "a=ice-pwd:" ++ pwd;
   str "a=ice-options:trickle";
   str "a=fingerprint:sha-256 " ++ fingerprint;
   str "a=setup:actpass";
   str "a=connection:new";
   str "a=rtpmap:96 H264/90000";
   str "a=ssrc:" ++ fmt_u nssrc ++ str " cname:janusvideo";
   str "a=ssrc:" ++ fmt_u nssrc ++ str " msid:janus janusv0";
   str "a=ssrc:" ++ fmt_u nssrc ++ str " mslabel:janus";
   str "a=ssrc:" ++ fmt_u nssrc ++ str " label:janusv0";
   candidate ip port].

Definition publish_lines (ip ufrag pwd fingerprint : list Z) (port : Z) : list (list Z) :=
  [str "v=0";
   str "o=- 1495799811084970 1495799811084970 IN IP4 " ++ ip;
   str "s=Streaming Test";
   str "t=0 0";
   str "a=group:BUNDLE 0";
   str "a=msid-semantic: WMS janus";
   str "m=video 1 RTP/SAVPF 96";
   str "c=IN IP4 " ++ ip;
   str "a=mid:0";
   str "a=recvonly";
   str "a=rtcp-mux";
   str "a=ice-ufrag:" ++ ufrag;
   str "a=ice-pwd:" ++ pwd;
   str "a=ice-options:trickle";
   str "a=fingerprint:sha-256 " ++ fingerprint;
   str "a=setup:actpass";
   str "a=connection:new";
   str "a=rtpmap:96 H264/90000";
   candidate ip port].

(** [char szsdp[1024 * 10] = {0}; sprintf(szsdp, ...); return std::string(szsdp);] *)
Definition szsdp : list Z := replicate 10240 0.
Definition print_sdp (lines : list (list Z)) : res (list Z) :=
  buf ← sprintf szsdp (text_of lines);
  Ok (c_str buf).

Section transport.
Context `{HmacSha1} `{Dtls.OpenSSL} `{LibSrtp}.

Definition GetLocalSdp (t : WebRtcTransport) (localFingerprints : list Dtls.Fingerprint) : res (list Z) :=
  print_sdp (local_lines (cs (ip_ t)) (cs (Ice.usernameFragment (ice_server_ t)))
    (cs (Ice.ice_password (ice_server_ t))) (cs (GetSHA256Fingerprint localFingerprints)) (port_ t)).

Definition GetPublishSdp (t : WebRtcTransport) (localFingerprints : list Dtls.Fingerprint) : res (list Z) :=
  print_sdp (publish_lines (cs (ip_ t)) (cs (Ice.usernameFragment (ice_server_ t)))
    (cs (Ice.ice_password (ice_server_ t))) (cs (GetSHA256Fingerprint localFingerprints)) (port_ t)).
End transport.

(** ** Reading a description *)

(** The lines of a text: what stands before each CR LF. *)
Fixpoint lines_of (cur : list Z) (l : list Z) : list (list Z) :=
  match l with
  | [] => []
  | c :: rest =>
      match rest with
      | d :: rest' => if (c =? 13) && (d =? 10) then cur :: lines_of [] rest' else lines_of (cur ++ [c]) rest
      | [] => []
      end
  end.

Fixpoint strip (prefix l : list Z) : option (list Z) :=
  match prefix, l with
  | [], _ => Some l
  | a :: prefix, b :: l => if a =? b then strip prefix l else None
  | _ :: _, [] => None
  end.

(** The value of the first line [a=name:value]. *)
Fixpoint attribute_in (name : list Z) (lines : list (list Z)) : option (list Z) :=
  match lines with
  | [] => None
  | l :: rest =>
      match strip (str "a=" ++ name ++ str ":") l with
      | Some v => Some v
      | None => attribute_in name rest
      end
  end.

Definition attribute (name : string) (sdp : list Z) : option (list Z) :=
  attribute_in (str name) (lines_of [] sdp).

(** ** Proofs *)

(** Text that can stand in a line: no CR, no NUL. *)
Definition plain (l : list Z) : Prop := Forall (λ c, c ≠ 13 ∧ c ≠ 0) l.

Lemma lines_of_line cur l rest :
  plain l → lines_of cur (l ++ crlf ++ rest) = (cur ++ l) :: lines_of [] rest.
Proof.
  intros Hl. revert cur. induction Hl as [|c l [Hc _] Hl IH]; intros cur.
  { simpl. by rewrite app_nil_r. }
  assert (∃ d r, l ++ crlf ++ rest = d :: r) as (d & r & E) by (destruct l; by eexists _, _).
  cbn [app lines_of]. rewrite E. rewrite <- E.
  destruct (Z.eqb_spec c 13); [done|]. cbn [andb]. rewrite IH. by rewrite <- app_assoc.
Qed.

Lemma lines_of_text lines : Forall plain lines → lines_of [] (text_of lines) = lines.
Proof.
  induction 1 as [|l lines Hl _ IH]; [done|]. unfold text_of in *. rewrite fmap_cons. cbn [concat].
  rewrite <- app_assoc, lines_of_line by done. by rewrite IH.
Qed.

Lemma cs_plain l : plain l → cs l = l.
Proof. intros Hl. apply c_str_app. eapply Forall_impl; [exact Hl|]. naive_solver. Qed.

Lemma plain_text lines : Forall plain lines → Forall (λ c, c ≠ 0) (text_of lines).
Proof.
  induction 1 as [|l lines Hl _ IH]; [done|]. unfold text_of in *. rewrite fmap_cons. cbn [concat].
  apply Forall_app_2; [|done]. apply Forall_app_2; [|by repeat constructor].
  eapply Forall_impl; [exact Hl|]. naive_solver.
Qed.

Lemma print_sdp_Ok lines :
  Forall plain lines → zlen (text_of lines) < 10240 → print_sdp lines = Ok (text_of lines).
Proof.
  intros Hp Hl. destruct (sprintf_Ok szsdp (text_of lines)) as (buf & E & Hc & _).
  - assert (zlen szsdp = 10240) as -> by (vm_compute; reflexivity). lia.
  - by apply plain_text.
  - unfold print_sdp. rewrite E. cbn [mbind res_bind]. by rewrite Hc.
Qed.

Lemma plain_literal s : forallb (λ c, negb ((c =? 13) || (c =? 0))) (str s) = true → plain (str s).
Proof.
  intros Hs. apply Forall_forall. intros c Hc. rewrite forallb_forall in Hs.
  apply list_elem_of_In, Hs in Hc. destruct (Z.eqb_spec c 13), (Z.eqb_spec c 0); done.
Qed.

(** The parts of a description are plain. *)
Definition plain_parts (ip ufrag pwd fp : list Z) (port : Z) : Prop :=
  plain ip ∧ plain ufrag ∧ plain pwd ∧ plain fp ∧ fits 16 port.

Lemma plain_digits v : 0 ≤ v → plain (fmt_u v).
Proof. intros Hv. eapply Forall_impl; [by apply fmt_u_digits|]. simpl. lia. Qed.

Ltac solve_plain :=
  repeat first
    [ assumption
    | apply Forall_app_2
    | apply plain_literal; reflexivity
    | apply plain_digits; unfold fits, nssrc in *; lia ].

Lemma candidate_plain ip port : plain ip → fits 16 port → plain (candidate ip port).
Proof. intros. unfold candidate. solve_plain. Qed.

Lemma local_plain ip ufrag pwd fp port :
  plain_parts ip ufrag pwd fp port → Forall plain (local_lines ip ufrag pwd fp port).
Proof.
  intros (Hi & Hu & Hp & Hf & Ho). pose proof (candidate_plain ip port Hi Ho).
  unfold local_lines. repeat (apply (Forall_cons plain); split); [solve_plain..|constructor].
Qed.

Lemma publish_plain ip ufrag pwd fp port :
  plain_parts ip ufrag pwd fp port → Forall plain (publish_lines ip ufrag pwd fp port).
Proof.
  intros (Hi & Hu & Hp & Hf & Ho). pose proof (candidate_plain ip port Hi Ho).
  unfold publish_lines. repeat (apply (Forall_cons plain); split); [solve_plain..|constructor].
Qed.

(** The length of a text whose variable parts are known. *)
Ltac literal_lengths :=
  repeat match goal with
  | |- context [length (str ?s)] =>
      let n := eval vm_compute in (length (str s)) in change (length (str s)) with n
  end;
  change (length crlf) with 2%nat; change (length (fmt_u 12345678)) with 8%nat.

Lemma local_length ip ufrag pwd fp port :
  zlen (text_of (local_lines ip ufrag pwd fp port)) =
    496 + 3 * zlen ip + zlen ufrag + zlen pwd + zlen fp + zlen (fmt_u port).
Proof.
  unfold text_of, local_lines, candidate, zlen, nssrc. cbn [fmap list_fmap concat].
  repeat rewrite length_app. literal_lengths. cbn [length]. lia.
Qed.

Lemma publish_length ip ufrag pwd fp port :
  zlen (text_of (publish_lines ip ufrag pwd fp port)) =
    364 + 3 * zlen ip + zlen ufrag + zlen pwd + zlen fp + zlen (fmt_u port).
Proof.
  unfold text_of, publish_lines, candidate, zlen. cbn [fmap list_fmap concat].
  repeat rewrite length_app. literal_lengths. cbn [length]. lia.
Qed.

(** What the browser finds, in both descriptions. *)
Definition announces (ip ufrag pwd fp : list Z) (port : Z) (sdp : list Z) : Prop :=
  attribute "ice-ufrag" sdp = Some ufrag ∧
  attribute "ice-pwd" sdp = Some pwd ∧
  attribute "fingerprint" sdp = Some (str "sha-256 " ++ fp) ∧
  attribute "candidate" sdp = Some (str "4 1 udp 12345678 " ++ ip ++ str " " ++ fmt_u port ++ str " typ host").

Lemma local_announces ip ufrag pwd fp port :
  plain_parts ip ufrag pwd fp port →
  announces ip ufrag pwd fp port (text_of (local_lines ip ufrag pwd fp port)).
Proof.
  intros Hp. unfold announces, attribute. rewrite !lines_of_text by by apply local_plain.
  split_and!; reflexivity.
Qed.

Lemma publish_announces ip ufrag pwd fp port :
  plain_parts ip ufrag pwd fp port →
  announces ip ufrag pwd fp port (text_of (publish_lines ip ufrag pwd fp port)).
Proof.
  intros Hp. unfold announces, attribute. rewrite !lines_of_text by by apply publish_plain.
  split_and!; reflexivity.
Qed.

Lemma alnum_plain l : Forall alnum l → plain l.
Proof. intros Hl. eapply Forall_impl; [exact Hl|]. unfold alnum. intros c Hc. lia. Qed.

Lemma colon_hex_plain d : bytes_ok d → plain (DtlsInitProofs.colon_hex d).
Proof.
  assert (∀ b, is_byte b → plain (fmt_X 2 b)) as Hg.
  { unfold is_byte. intros b Hb. eapply Forall_impl; [apply fmt_X_is_hex; lia|].
    unfold is_hex. intros c Hc. lia. }
  induction 1 as [|b d Hb Hd IH]; [constructor|]. cbn [DtlsInitProofs.colon_hex].
  destruct d; [by apply Hg|]. apply Forall_app_2; [by apply Hg|].
  by apply Forall_app_2; [apply plain_literal; reflexivity|].
Qed.

(** The size of a 16 bit port in text. *)
Lemma port_length port : fits 16 port → zlen (fmt_u port) ≤ 5.
Proof.
  unfold fits, zlen. intros. pose proof (fmt_u_length port 4 ltac:(simpl; lia)). lia.
Qed.

Section announce.
Context `{HmacSha1} `{Dtls.OpenSSL} `{LibSrtp} `{DtlsInitProofs.DigestSpec}.

(** The SHA-256 fingerprint among those ClassInit made. *)
Lemma sha256_fingerprint x fps :
  DtlsInitProofs.fingerprints_for x Dtls.string2FingerprintAlgorithm fps →
  ∃ d, DtlsInit.X509_digest x Dtls.SHA256 = Some d ∧
    GetSHA256Fingerprint fps = DtlsInitProofs.colon_hex d.
Proof.
  intros Hf. unfold DtlsInitProofs.fingerprints_for, Dtls.string2FingerprintAlgorithm in Hf.
  apply Forall2_cons_inv_l in Hf as (f1 & ? & [A1 _] & Hf & ->).
  apply Forall2_cons_inv_l in Hf as (f2 & ? & [A2 _] & Hf & ->).
  apply Forall2_cons_inv_l in Hf as (f3 & ? & [A3 (d & Hd & Hv)] & Hf & ->).
  exists d. split; [done|]. cbn [GetSHA256Fingerprint]. rewrite A1, A2, A3. done.
Qed.

Lemma new_transport_fields seed chars ssl buffer ip port :
  length chars = 64%nat →
  wp (newWebRtcTransport seed chars ssl buffer ip port) (λ '(_, _, t),
    ip_ t = ip ∧ port_ t = port ∧
    zlen (Ice.usernameFragment (ice_server_ t)) = 4 ∧ plain (Ice.usernameFragment (ice_server_ t)) ∧
    zlen (Ice.ice_password (ice_server_ t)) = 24 ∧ plain (Ice.ice_password (ice_server_ t))).
Proof.
  intros Hc. unfold newWebRtcTransport. apply wp_bind.
  eapply wp_mono; [by apply GetRandomString_spec|]. intros [[s1 c1] f] (Hc1 & Hf & Haf).
  apply wp_bind. eapply wp_mono; [by apply GetRandomString_spec|]. intros [[s2 c2] w] (Hc2 & Hw & Haw).
  cbn. split_and!; [done|done|done|by apply alnum_plain|done|by apply alnum_plain].
Qed.

(** A transport whose description fits. *)
Definition describable (t : WebRtcTransport) : Prop :=
  plain (ip_ t) ∧ zlen (ip_ t) ≤ 3205 ∧ fits 16 (port_ t) ∧
  zlen (Ice.usernameFragment (ice_server_ t)) = 4 ∧ plain (Ice.usernameFragment (ice_server_ t)) ∧
  zlen (Ice.ice_password (ice_server_ t)) = 24 ∧ plain (Ice.ice_password (ice_server_ t)).

Definition describes (t : WebRtcTransport) (d : list Z) (sdp : list Z) : Prop :=
  announces (ip_ t) (Ice.usernameFragment (ice_server_ t)) (Ice.ice_password (ice_server_ t))
    (DtlsInitProofs.colon_hex d) (port_ t) sdp.

Lemma sdp_spec t x fps :
  describable t → DtlsInitProofs.fingerprints_for x Dtls.string2FingerprintAlgorithm fps →
  ∃ d, DtlsInit.X509_digest x Dtls.SHA256 = Some d ∧
    wp (GetLocalSdp t fps) (λ sdp, describes t d sdp ∧ str "a=sendonly" ∈ lines_of [] sdp) ∧
    wp (GetPublishSdp t fps) (λ sdp, describes t d sdp ∧ str "a=recvonly" ∈ lines_of [] sdp).
Proof using All.
  intros (Hip & Hl & Hport & Hu & Hup & Hw & Hwp) Hf.
  destruct (sha256_fingerprint x fps Hf) as (d & Hd & Hfp). exists d. split; [done|].
  pose proof (DtlsInitProofs.digest_bytes x _ d Hd) as Hdb.
  assert (zlen (DtlsInitProofs.colon_hex d) = 95) as Hfl.
  { destruct (DtlsInitProofs.hex_fingerprint_text (replicate 193 0) d) as [_ ->]; [done|done| |];
      unfold zlen; by rewrite (DtlsInitProofs.digest_length x _ d Hd). }
  pose proof (colon_hex_plain d Hdb) as Hfpl. pose proof (port_length (port_ t) Hport).
  unfold describes, GetLocalSdp, GetPublishSdp. rewrite Hfp, !cs_plain by done.
  set (u := Ice.usernameFragment (ice_server_ t)) in *. set (w := Ice.ice_password (ice_server_ t)) in *.
  assert (plain_parts (ip_ t) u w (DtlsInitProofs.colon_hex d) (port_ t)) as Hpp by by split_and!.
  split.
  - rewrite print_sdp_Ok by (try (by apply local_plain); rewrite local_length; lia). split.
    + by apply local_announces.
    + rewrite lines_of_text by by apply local_plain. do 9 apply list_elem_of_further. apply list_elem_of_here.
  - rewrite print_sdp_Ok by (try (by apply publish_plain); rewrite publish_length; lia). split.
    + by apply publish_announces.
    + rewrite lines_of_text by by apply publish_plain. do 9 apply list_elem_of_further. apply list_elem_of_here.
Qed.

(** C25: the descriptions sent to browsers announce the session.  For the transport
    the constructor makes, with an address of at most 3205 characters, the text
    fits the array it is printed into, and a reader of its lines finds the ICE
    user name fragment and password that the transport's ICE server checks
    requests against, the SHA-256 fingerprint of the shared certificate, and the
    address and port as the candidate; GetLocalSdp offers to send, GetPublishSdp to
    receive. *)
Theorem sdp_announces_session seed chars ssl buffer ip port x fps :
  length chars = 64%nat → plain ip → zlen ip ≤ 3205 → fits 16 port →
  DtlsInitProofs.fingerprints_for x Dtls.string2FingerprintAlgorithm fps →
  ∃ seed' chars' t d,
    newWebRtcTransport seed chars ssl buffer ip port = Ok (seed', chars', t) ∧
    ip_ t = ip ∧ port_ t = port ∧ DtlsInit.X509_digest x Dtls.SHA256 = Some d ∧
    wp (GetLocalSdp t fps) (λ sdp, describes t d sdp ∧ str "a=sendonly" ∈ lines_of [] sdp) ∧
    wp (GetPublishSdp t fps) (λ sdp, describes t d sdp ∧ str "a=recvonly" ∈ lines_of [] sdp).
Proof using All.
  intros Hc Hip Hl Hport Hf.
  pose proof (new_transport_fields seed chars ssl buffer ip port Hc) as Hn.
  apply wp_Ok in Hn as ([[seed' chars'] t] & E & Hti & Htp & Hu & Hup & Hw & Hwp).
  destruct (sdp_spec t x fps) as (d & Hd & Hlocal & Hpub); [by unfold describable; rewrite Hti, Htp|done|].
  exists seed', chars', t, d. 
  exact (conj E (conj Hti (conj Htp (conj Hd (conj Hlocal Hpub))))).
Qed.

(** A longer address overruns the array: sprintf has no bound. *)
Lemma long_address_overflows t fps :
  10240 ≤ 496 + 3 * zlen (cs (ip_ t)) → GetLocalSdp t fps = UB OutOfBounds.
Proof.
  intros Hl. unfold GetLocalSdp, print_sdp. rewrite sprintf_overflow; [done|].
  assert (zlen szsdp = 10240) as -> by (vm_compute; reflexivity). rewrite local_length.
  repeat match goal with |- context [zlen ?l] => pose proof (zlen_nonneg l); generalize dependent (zlen l) end.
  intros. lia.
Qed.
End announce.

(** ** Witness *)

Definition shared_certificate : DtlsInit.X509 := DtlsInitProofs.peer_certificate.
Definition shared_fingerprints : list Dtls.Fingerprint :=
  (λ na, Dtls.mkFingerprint na.2 (DtlsInitProofs.colon_hex (replicate (DtlsInitProofs.hash_length na.2) 18)))
    <$> Dtls.string2FingerprintAlgorithm.

Lemma shared_fingerprints_for :
  @DtlsInitProofs.fingerprints_for DtlsInitProofs.toy_digest shared_certificate
    Dtls.string2FingerprintAlgorithm shared_fingerprints.
Proof. repeat constructor; eexists; split; reflexivity. Qed.

Lemma sdp_announces_session_witness :
  ∃ t sdp,
    @GetLocalSdp DtlsProofs.toy_ssl toy_srtp t shared_fingerprints = Ok sdp ∧
    attribute "ice-ufrag" sdp = Some (Ice.usernameFragment (@ice_server_ DtlsProofs.toy_ssl toy_srtp t)) ∧
    attribute "candidate" sdp = Some (str "4 1 udp 12345678 192.168.1.7 8000 typ host").
Proof.
  destruct (@sdp_announces_session toy_hmac DtlsProofs.toy_ssl toy_srtp DtlsInitProofs.toy_digest
    DtlsInitProofs.toy_digest_spec 1 (replicate 64 0) 0%nat [] (str "192.168.1.7") 8000
    shared_certificate shared_fingerprints) as (s & c & t & d & _ & Hi & Hp & _ & Hl & _).
  - reflexivity.
  - apply plain_literal. reflexivity.
  - vm_compute. congruence.
  - unfold fits. lia.
  - exact shared_fingerprints_for.
  - apply wp_Ok in Hl as (sdp & E & (Hu & _ & _ & Hc) & _). rewrite Hi, Hp in Hc.
    exists t, sdp. split_and!; [exact E|exact Hu|exact Hc].
Defined.
End Sdp.
