(* ===== verification/Session.v ===== *)
(** WebRTCSession and WebRTCSessionFactory (src/session/webrtc_session.h,
    webrtc_session.cc), the connection table of UdpServer and UdpConnection
    (src/net) and the broadcast callback of src/example/rtp_src_example.cc:
    which session a datagram belongs to, and where its answers go. *)
From S2P Require Import Prelude ByteOps Crypto StunPacket StunParse StunAuth StunSerialize StunRoundtrip IceServer Srtp Dtls DtlsProofs Rtp WebRtc WebRtcProofs.

Module Session.
Import Crypto Stun Srtp WebRtc.

(** ** Split *)

(** [std::string::find]: the first index from [pos] on where [delim] occurs. *)
Fixpoint find_at (delim s : list Z) (i : Z) : option Z :=
  if decide (take (length delim) s = delim) then Some i
  else match s with
       | [] => None
       | _ :: s => find_at delim s (i + 1)
       end.

Definition find (s delim : list Z) (pos : Z) : option Z :=
  if zlen s <? pos then None else find_at delim (drop (Z.to_nat pos) s) pos.

(** [std::string::substr]: at most the rest of the string, and an exception for
    a position behind the end. *)
Definition substr (s : list Z) (pos n : Z) : res (list Z) :=
  if zlen s <? pos then Throw "out_of_range"
  else Ok (take (Z.to_nat (Z.min n (zlen s - pos))) (drop (Z.to_nat pos) s)).

Definition npos : Z := 2 ^ 64 - 1.

(** Both comparisons with zero are on unsigned numbers. *)
Fixpoint split_loop (fuel : nat) (s delim : list Z) (last : Z) (index : option Z) (ret : list (list Z)) :
    res (Z * list (list Z)) :=
  match index with
  | None => Ok (last, ret)
  | Some index =>
      match fuel with
      | O => OutOfFuel
      | S fuel =>
          ret ← (if 0 <=? u64 (index - last)
                 then piece ← substr s last (u64 (index - last)); Ok (ret ++ [piece]) else Ok ret);
          let last := index + zlen delim in
          split_loop fuel s delim last (find s delim last) ret
      end
  end.

Definition Split (s delim : list Z) : res (list (list Z)) :=
  '(last, ret) ← split_loop (S (length s)) s delim 0 (find s delim 0) [];
  if (zlen s =? 0) || (0 <=? u64 (zlen s - last))
  then piece ← substr s last npos; Ok (ret ++ [piece]) else Ok ret.

(** ** The network library

    muduo: the text of an address, and the pool that hands out event loops. *)
Class Muduo := {
  toIpPort : sockaddr_in → string;
  pool_t : Type;
  getNextLoop : pool_t → Z * pool_t;
}.

(** ** State

    Objects behind shared pointers live in lists and are named by their index. *)
Abbreviation session_id := nat.
Abbreviation connection_id := nat.

(** The packet callback of a connection captures a session. *)
Record UdpConnection := mkConnection {
  conn_loop_ : Z;
  name_ : string;
  peer_addr_ : sockaddr_in;
  callback_ : option session_id;
  reading : bool;
}.

Section world.
Context `{HmacSha1} `{Dtls.OpenSSL} `{LibSrtp} `{Muduo}.

Record WebRTCSession := mkWebRTCSession {
  webrtc_transport_ : WebRtcTransport;
  network_transport_ : option connection_id;
  loop_ : option Z;
  session_ready_ : bool;
}.

(** The factory with its map, the server with its connections, and the static
    variables: of the random strings, and the buffer all ICE servers serialize
    into. *)
Record World := mkWorld {
  sessions : list WebRTCSession;
  rtc_sessions : gmap (list Z) session_id;
  conns : list UdpConnection;
  connections_ : gmap string connection_id;
  pool : pool_t;
  seed : Z;
  random_chars : list Z;
  StunSerializeBuffer : list Z;
}.

(** What is handed to event loops and sockets. *)
Inductive Task :=
| OnInput (buf : list Z) (remote_address : sockaddr_in)
| SendRtp (buf : list Z).

Inductive Effect :=
| EnableReading (c : connection_id)
| RunInLoop (loop : Z) (s : session_id) (t : Task)
| Write (c : connection_id) (data : list Z)
| Channel (data : list Z).

Definition set_sessions (l : list WebRTCSession) (w : World) : World :=
  mkWorld l w.(rtc_sessions) w.(conns) w.(connections_) w.(pool) w.(seed) w.(random_chars)
    w.(StunSerializeBuffer).
Definition set_conns (l : list UdpConnection) (w : World) : World :=
  mkWorld w.(sessions) w.(rtc_sessions) l w.(connections_) w.(pool) w.(seed) w.(random_chars)
    w.(StunSerializeBuffer).

Definition set_buffer (b : list Z) (w : World) : World :=
  mkWorld w.(sessions) w.(rtc_sessions) w.(conns) w.(connections_) w.(pool) w.(seed) w.(random_chars) b.

(** A transport with the static buffer as it is now. *)
Definition with_buffer (b : list Z) (t : WebRtcTransport) : WebRtcTransport := set_ice t.(ice_server_) b t.

Definition put_transport (t : WebRtcTransport) (s : WebRTCSession) : WebRTCSession :=
  mkWebRTCSession t s.(network_transport_) s.(loop_) s.(session_ready_).

(** ** The factory *)

(** [insert] of std::map keeps an entry that is there already. *)
Definition CreateWebRTCSession (ssl : Dtls.ssl_t) (ip : list Z) (port : Z) (w : World) :
    res (World * session_id) :=
  '(seed, chars, t) ←
    newWebRtcTransport w.(seed) w.(random_chars) ssl w.(StunSerializeBuffer) ip port;
  let id := length w.(sessions) in
  let key := Ice.usernameFragment t.(ice_server_) in
  let m := match w.(rtc_sessions) !! key with
           | Some _ => w.(rtc_sessions)
           | None => <[key := id]> w.(rtc_sessions)
           end in
  Ok (mkWorld (w.(sessions) ++ [mkWebRTCSession t None None false]) m w.(conns) w.(connections_)
        w.(pool) seed chars w.(StunSerializeBuffer), id).

Definition GetWebRTCSession (key : list Z) (w : World) : option session_id := w.(rtc_sessions) !! key.

Definition GetAllReadyWebRTCSession (w : World) : list session_id :=
  filter (λ id, from_option session_ready_ false (w.(sessions) !! id) = true)
    (map_to_list w.(rtc_sessions)).*2.

(** ** The server *)
Definition GetOrCreatConnection (remote_addr : sockaddr_in) (w : World) : World * connection_id :=
  let key := toIpPort remote_addr in
  match w.(connections_) !! key with
  | Some c => (w, c)
  | None =>
      let '(io_loop, pool) := getNextLoop w.(pool) in
      let c := length w.(conns) in
      (mkWorld w.(sessions) w.(rtc_sessions) (w.(conns) ++ [mkConnection io_loop key remote_addr None false])
         (<[key := c]> w.(connections_)) pool w.(seed) w.(random_chars) w.(StunSerializeBuffer), c)
  end.

(** The connection gets its callback and is started, then the session is moved
    to its loop and marked ready. *)
Definition SetNetworkTransport (id : session_id) (c : connection_id) (w : World) : res (World * list Effect) :=
  match w.(sessions) !! id, w.(conns) !! c with
  | Some s, Some conn =>
      let t := WebRtc.SetNetworkTransport true s.(webrtc_transport_) in
      let conn := mkConnection conn.(conn_loop_) conn.(name_) conn.(peer_addr_) (Some id) true in
      let s := mkWebRTCSession t (Some c) (Some conn.(conn_loop_)) true in
      Ok (set_conns (<[c := conn]> w.(conns)) (set_sessions (<[id := s]> w.(sessions)) w), [EnableReading c])
  | _, _ => UB NullDeref
  end.

(** The session a packet names, if it is STUN and names one. *)
Definition find_session (buf : list Z) (len : Z) (w : World) : res (option session_id) :=
  stun ← IsStun buf len;
  if negb stun then Ok None
  else
    packet ← Stun.Parse buf len;
    match packet with
    | None => Ok None
    | Some packet =>
        vec ← Split packet.(username) (str ":");
        match vec with
        | [] => UB OutOfBounds
        | use_name :: _ => Ok (GetWebRTCSession use_name w)
        end
    end.

(** The session gets the connection, and the packet goes to the session's loop. *)
Definition bind_session (id : session_id) (c : connection_id) (buf : list Z) (len : Z) (peer_addr : sockaddr_in)
    (w : World) : res (World * list Effect) :=
  '(w, effects) ← SetNetworkTransport id c w;
  shared_buf ← rd_range buf 0 len;
  match s ← w.(sessions) !! id; s.(loop_) with
  | None => UB Uninit
  | Some loop => Ok (w, effects ++ [RunInLoop loop id (OnInput shared_buf peer_addr)])
  end.

Definition HandlePacket (buf : list Z) (len : Z) (peer_addr : sockaddr_in) (w : World) :
    res (World * list Effect) :=
  session ← find_session buf len w;
  match session with
  | None => Ok (w, [])
  | Some id => let '(w, c) := GetOrCreatConnection peer_addr w in bind_session id c buf len peer_addr w
  end.

(** ** Receiving *)
Definition BUF_SIZE : nat := 4 * 1024.

(** A call of recvfrom with an address that starts out uninitialised: a datagram,
    of which at most the size of the buffer is kept, or a failure. *)
Inductive Receive :=
| Datagram (data : list Z) (from : sockaddr_in)
| RecvFailed (uninit : sockaddr_in).

(** The buffer, the length and the address behind it.  The buffer is never
    cleared: behind what was received it holds what it held before, and the -1
    of a failure becomes a size_t. *)
Definition receive (buf_ : list Z) (r : Receive) : list Z * Z * sockaddr_in :=
  match r with
  | Datagram data from =>
      let got := take BUF_SIZE data in (got ++ drop (length got) buf_, zlen got, from)
  | RecvFailed uninit => (buf_, u64 (-1), uninit)
  end.

(** UdpServer::HandleRead with the callback that main sets. *)
Definition ServerHandleRead (buf_ : list Z) (r : Receive) (w : World) : res (World * list Effect) :=
  let '(buf, recvLen, remote_addr) := receive buf_ r in HandlePacket buf recvLen remote_addr w.

(** ** Sessions at work *)

(** NetworkTransport::SendPacket: what it does, and how the call ends (there is
    no return statement).  The address is not used. *)
Definition NetworkTransport_SendPacket (c : connection_id) (data : list Z) (remote_address : option sockaddr_in) :
    list Effect * res bool :=
  ([Write c data], UB NoReturn).

(** What the packets a transport sends come to: the effects of the calls. *)
Definition emit (network : option connection_id) (o : Out) : list Effect :=
  match o with
  | Sent data to =>
      match network with
      | Some c => (NetworkTransport_SendPacket c data to).1
      | None => []
      end
  | ToRtpChannel data => [Channel data]
  end.

Definition on_session (id : session_id) (f : WebRtcTransport → res (WebRtcTransport * list Out)) (w : World) :
    res (World * list Effect) :=
  match w.(sessions) !! id with
  | None => UB NullDeref
  | Some s =>
      '(t, out) ← f (with_buffer w.(StunSerializeBuffer) s.(webrtc_transport_));
      Ok (set_buffer t.(stun_buffer) (set_sessions (<[id := put_transport t s]> w.(sessions)) w),
          out ≫= emit s.(network_transport_))
  end.

(** A task on its loop. *)
Definition run_task (fresh : list Z) (id : session_id) (t : Task) : World → res (World * list Effect) :=
  on_session id (λ tr,
    match t with
    | OnInput buf from => OnInputDataPacket fresh tr buf (zlen buf) from
    | SendRtp buf => EncryptAndSendRtpPacket tr buf (zlen buf)
    end).

(** UdpConnection::HandleRead with the callback of SetNetworkTransport. *)
Definition ConnectionHandleRead (fresh : list Z) (c : connection_id) (buf_ : list Z) (r : Receive)
    (w : World) : res (World * list Effect) :=
  let '(buf, recvLen, remote_addr) := receive buf_ r in
  match w.(conns) !! c with
  | None => UB NullDeref
  | Some conn =>
      match conn.(callback_) with
      | None => Ok (w, [])
      | Some id => on_session id (λ tr, OnInputDataPacket fresh tr buf recvLen remote_addr) w
      end
  end.

(** WriteRtpCallback: one task for every ready session, on its loop. *)
Definition WriteRtpCallback (buf : list Z) (w : World) : res (list Effect) :=
  mapM (λ id, match s ← w.(sessions) !! id; s.(loop_) with
              | Some loop => Ok (RunInLoop loop id (SendRtp buf))
              | None => UB Uninit
              end) (GetAllReadyWebRTCSession w).
End world.
End Session.
