(* ===== verification/Locality.v ===== *)
(** * What the program reads of a receive buffer

    UdpServer and UdpConnection hand the program a buffer of 4096 bytes and the
    number of bytes that were received into it.  This file shows that the bytes
    behind the received ones do not matter: a run on the received bytes alone and
    a run on any longer buffer give the same result, unless the first one faults
    for lack of them.  The relation [sim] compares the two runs; it is carried
    through the parser, the credential check, the ICE server, the transport and
    the session handler. *)
From S2P Require Import Prelude ByteOps Crypto StunPacket StunParse IceServer Srtp Dtls Rtp WebRtc Session.

Module Locality.
Import Byte Crypto Stun Srtp WebRtc.

(** ** Two runs *)

(** [r1] is the run on the shorter buffer. *)
Definition sim {A B} (R : A → B → Prop) (r1 : res A) (r2 : res B) : Prop :=
  match r1 with
  | Ok a => ∃ b, r2 = Ok b ∧ R a b
  | UB OutOfBounds => True
  | UB f => r2 = UB f
  | Aborted m => r2 = Aborted m
  | Throw m => r2 = Throw m
  | OutOfFuel => r2 = OutOfFuel
  end.

Lemma sim_ok {A B} (R : A → B → Prop) a b : R a b → sim R (Ok a) (Ok b).
Proof. intros H. by exists b. Qed.

#[export] Instance sim_eq_refl {A} : Reflexive (sim (@eq A)).
Proof. intros [a|[]| | |]; simpl; try done. by exists a. Qed.

Lemma sim_bind {A B C D} (R : A → B → Prop) (S : C → D → Prop) m1 m2 f1 f2 :
  sim R m1 m2 → (∀ a b, R a b → sim S (f1 a) (f2 b)) → sim S (m1 ≫= f1) (m2 ≫= f2).
Proof.
  intros Hm Hf. destruct m1 as [a|[]| | |]; simpl in Hm; try (by rewrite Hm); try done.
  destruct Hm as (b & -> & HR). by apply Hf.
Qed.

(** Both runs have the same value up to here. *)
Lemma sim_bind_eq {A C D} (S : C → D → Prop) (m1 m2 : res A) f1 f2 :
  sim eq m1 m2 → (∀ a, sim S (f1 a) (f2 a)) → sim S (m1 ≫= f1) (m2 ≫= f2).
Proof. intros Hm Hf. eapply sim_bind; [exact Hm|]. intros a b <-. apply Hf. Qed.

Lemma sim_mono {A B} (R S : A → B → Prop) r1 r2 : (∀ a b, R a b → S a b) → sim R r1 r2 → sim S r1 r2.
Proof. intros H. destruct r1 as [a|[]| | |]; simpl; try done. naive_solver. Qed.

(** What a run that does not run out of the shorter buffer gives. *)
Lemma sim_eq_Ok {A} (r1 r2 : res A) : sim eq r1 r2 → r1 ≠ UB OutOfBounds → r2 = r1.
Proof. destruct r1 as [a|[]| | |]; simpl; try done. by intros (b & -> & ->). Qed.

(** ** Reading and writing a prefix *)
Section buffers.
Context (d D : list Z) (HD : d `prefix_of` D).

Lemma rd_sim i : sim eq (d.[i]) (D.[i]).
Proof using HD.
  unfold rd. destruct (0 <=? i); [|done]. destruct (d !! Z.to_nat i) as [x|] eqn:E; [|done].
  rewrite (prefix_lookup_Some _ _ _ _ E HD). by exists x.
Qed.

Lemma rd_range_sim i n : sim eq (rd_range d i n) (rd_range D i n).
Proof using HD.
  unfold rd_range. destruct HD as [tail ->]. autorewrite with zlen. pose proof (zlen_nonneg tail).
  destruct (Z.leb_spec 0 i), (Z.leb_spec 0 n), (Z.leb_spec (i + n) (zlen d)); simpl; try done.
  destruct (Z.leb_spec (i + n) (zlen d + zlen tail)); [|lia]. eexists. split; [done|].
  unfold zlen in *. rewrite drop_app_le by lia. rewrite take_app_le; [done|]. rewrite length_drop. lia.
Qed.

Lemma Get1Byte_sim i : sim eq (Get1Byte d i) (Get1Byte D i).
Proof using HD. apply rd_sim. Qed.
Lemma Get2Bytes_sim i : sim eq (Get2Bytes d i) (Get2Bytes D i).
Proof using HD. unfold Get2Bytes. do 2 (apply sim_bind_eq; [apply rd_sim|]; intros ?). reflexivity. Qed.
Lemma Get4Bytes_sim i : sim eq (Get4Bytes d i) (Get4Bytes D i).
Proof using HD. unfold Get4Bytes. do 4 (apply sim_bind_eq; [apply rd_sim|]; intros ?). reflexivity. Qed.
Lemma Get8Bytes_sim i : sim eq (Get8Bytes d i) (Get8Bytes D i).
Proof using HD. unfold Get8Bytes. do 2 (apply sim_bind_eq; [apply Get4Bytes_sim|]; intros ?). reflexivity. Qed.

Lemma crc_loop_sim n p crc : sim eq (crc_loop n d p crc) (crc_loop n D p crc).
Proof using HD.
  revert p crc. induction n as [|n IH]; intros p crc; cbn [crc_loop]; [reflexivity|].
  apply sim_bind_eq; [apply rd_sim|]. intros b. apply sim_bind_eq; [reflexivity|]. intros t. apply IH.
Qed.

Lemma GetCRC32_sim n : sim eq (GetCRC32 d n) (GetCRC32 D n).
Proof using HD. apply sim_bind_eq; [apply crc_loop_sim|]. reflexivity. Qed.

Lemma wr_sim i v : sim prefix (wr d i v) (wr D i v).
Proof using HD.
  destruct HD as [tail ->]. unfold wr. autorewrite with zlen. pose proof (zlen_nonneg tail).
  destruct (Z.leb_spec 0 i), (Z.ltb_spec i (zlen d)), (Z.ltb_spec i (zlen d + zlen tail)); simpl; try done; try lia.
  eexists. split; [done|]. exists tail. rewrite insert_app_l; [done|]. unfold zlen in *. lia.
Qed.
End buffers.

Create HintDb locality.
#[export] Hint Resolve rd_sim rd_range_sim Get1Byte_sim Get2Bytes_sim Get4Bytes_sim Get8Bytes_sim GetCRC32_sim
  : locality.
#[export] Hint Extern 1 (sim eq ?r ?r) => reflexivity : locality.

(** One step of two runs that agree: the same test, or the same read. *)
Ltac sim_step :=
  match goal with
  | |- sim _ (if ?c then _ else _) (if ?c then _ else _) => destruct c
  | |- sim _ (_ ≫= _) (_ ≫= _) => apply sim_bind_eq; [by eauto with locality|intros ?]
  | |- sim _ (Ok _) (Ok _) => apply sim_ok
  end.

Lemma Set2Bytes_sim d D i v : d `prefix_of` D → sim prefix (Set2Bytes d i v) (Set2Bytes D i v).
Proof. intros HD. unfold Set2Bytes. eapply sim_bind; [by apply wr_sim|]. intros a b Hab. by apply wr_sim. Qed.

(** ** The parser *)

(** The packets of the two runs differ in the buffer behind their data pointer. *)
Definition moved (d D : list Z) (p P : StunPacket) : Prop :=
  p.(data_) = Some d ∧ d `prefix_of` D ∧ P = SetData (Some D) p.

Definition moved_state (d D : list Z) (st ST : ParseState) : Prop :=
  data_ (ps_packet st) = Some d ∧ d `prefix_of` D ∧ ST = upd_packet (SetData (Some D)) st.

Section parse.
Context (d D : list Z) (HD : d `prefix_of` D).

Lemma byte_is_sim i v : sim eq (byte_is d i v) (byte_is D i v).
Proof using HD. unfold byte_is. by repeat sim_step. Qed.

Lemma res_andb_sim a b a' b' : sim eq a a' → sim eq b b' → sim eq (a &&& b) (a' &&& b').
Proof. intros Ha Hb. apply sim_bind_eq; [done|]. intros []; [done|reflexivity]. Qed.

Lemma IsStun_sim len : sim eq (IsStun d len) (IsStun D len).
Proof using HD.
  unfold IsStun. repeat apply res_andb_sim; try apply byte_is_sim; [reflexivity|]. by repeat sim_step.
Qed.

Lemma parse_attr_sim pos ty len st ST :
  moved_state d D st ST →
  sim (option_Forall2 (moved_state d D)) (parse_attr d pos ty len st) (parse_attr D pos ty len ST).
Proof using HD.
  intros (Hd & _ & ->). unfold parse_attr. by repeat (sim_step || constructor).
Qed.

Definition moved_pos (x X : Z * ParseState) : Prop := x.1 = X.1 ∧ moved_state d D x.2 X.2.

Lemma parse_attrs_sim fuel len pos st ST :
  moved_state d D st ST →
  sim (option_Forall2 moved_pos) (parse_attrs fuel d len pos st) (parse_attrs fuel D len pos ST).
Proof using HD.
  revert pos st ST. induction fuel as [|fuel IH]; intros pos st ST Hst; [done|].
  pose proof Hst as (Hd & _ & ->). cbn [parse_attrs ps_hasFingerprint ps_hasMessageIntegrity upd_packet].
  repeat (sim_step; try (by repeat constructor)); try (by repeat (sim_step || constructor)).
  eapply sim_bind; [by apply parse_attr_sim|].
  intros r R Hr. destruct Hr as [st' ST' Hst'|]; [by apply IH|]. by repeat (sim_step || constructor).
Qed.

Lemma parse_finish_sim len pos st ST :
  moved_state d D st ST →
  sim (option_Forall2 (moved d D)) (parse_finish d len pos st) (parse_finish D len pos ST).
Proof using HD.
  intros (Hd & _ & ->). unfold parse_finish.
  cbn [ps_hasFingerprint ps_fingerprintAttrPos ps_fingerprint ps_packet upd_packet].
  by repeat (sim_step || constructor).
Qed.

Lemma Parse_sim len : sim (option_Forall2 (moved d D)) (Parse d len) (Parse D len).
Proof using HD.
  unfold Parse, ParseFuel. apply sim_bind_eq; [apply IsStun_sim|]. intros is_stun.
  repeat (sim_step; try (by repeat (sim_step || constructor))).
  eapply sim_bind; [by apply parse_attrs_sim|].
  intros r R Hr. destruct Hr as [[pos st] [POS ST] [E Hst]|]; [|by repeat (sim_step || constructor)].
  cbn in E. subst POS. by apply parse_finish_sim.
Qed.
End parse.

(** ** Credentials and the ICE server

    CheckAuthentication writes to the buffer, so that the packets come out with
    other buffers than they went in with. *)
Definition moved_packet (p P : StunPacket) : Prop := ∃ d D, moved d D p P.

Lemma moved_eq p P :
  moved_packet p P →
  klass P = klass p ∧ method P = method p ∧ transactionId P = transactionId p ∧ username P = username p ∧
  priority P = priority p ∧ messageIntegrity P = messageIntegrity p ∧ hasFingerprint P = hasFingerprint p ∧
  size_ P = size_ p.
Proof. by intros (d & D & _ & _ & ->). Qed.

Lemma moved_SetData d D p P : d `prefix_of` D → moved_packet p P → moved_packet (SetData (Some d) p) (SetData (Some D) P).
Proof. intros HD (d0 & D0 & _ & _ & ->). by exists d, D. Qed.

Section ice.
Context `{HmacSha1}.

Definition moved_with {A} (x X : StunPacket * A) : Prop := x.2 = X.2 ∧ moved_packet x.1 X.1.

Lemma patch_sim (b : bool) d D i v :
  d `prefix_of` D →
  sim prefix (if b then Set2Bytes d i v else Ok d) (if b then Set2Bytes D i v else Ok D).
Proof. intros HD. destruct b; [by apply Set2Bytes_sim|by apply sim_ok]. Qed.

Lemma check_integrity_sim p P pw :
  moved_packet p P → sim moved_with (check_integrity p pw) (check_integrity P pw).
Proof.
  intros HM. pose proof (moved_eq p P HM) as (_ & _ & _ & _ & _ & Emi & Efp & Esz).
  unfold check_integrity. rewrite Emi, Efp, Esz. destruct HM as (d & D & Hd & HD & ->).
  rewrite Hd. cbn [data_ SetData]. destruct (messageIntegrity p) as [mi|]; [|done].
  eapply sim_bind; [by apply patch_sim|]. intros d1 D1 H1.
  do 2 (apply sim_bind_eq; [by apply rd_range_sim|]; intros ?).
  eapply sim_bind; [by apply patch_sim|]. intros d2 D2 H2. apply sim_ok. split; [done|]. by exists d2, D2.
Qed.

Lemma CheckAuthentication_sim p P u pw :
  moved_packet p P → sim moved_with (CheckAuthentication p u pw) (CheckAuthentication P u pw).
Proof.
  intros HM. pose proof (moved_eq p P HM) as (Ek & _ & _ & Eu & _ & Emi & _).
  unfold CheckAuthentication, HasMessageIntegrity. rewrite Ek, Eu, Emi.
  destruct (klass p); repeat sim_step; try done; by apply check_integrity_sim.
Qed.

(** The server, its error and the packet. *)
Definition moved_auth (x X : StunPacket * Ice.IceServer * option Z) : Prop :=
  x.1.2 = X.1.2 ∧ x.2 = X.2 ∧ moved_packet x.1.1 X.1.1.

Lemma authenticate_sim s p P :
  moved_packet p P → sim moved_auth (Ice.authenticate s p) (Ice.authenticate s P).
Proof.
  intros HM. unfold Ice.authenticate. eapply sim_bind; [by apply CheckAuthentication_sim|].
  intros [p1 a] [P1 A] [E HM1]. cbn in E, HM1. subst A. destruct a; repeat sim_step; try done.
  eapply sim_bind; [by apply CheckAuthentication_sim|].
  intros [p2 a2] [P2 A2] [E2 HM2]. cbn in E2, HM2. subst A2. by destruct a2; apply sim_ok.
Qed.

(** What a request comes to: everything but the packet is the same. *)
Definition moved_done (x X : Ice.IceServer * list Z * StunPacket * list Ice.Event) : Prop :=
  x.1.1.1 = X.1.1.1 ∧ x.1.1.2 = X.1.1.2 ∧ x.2 = X.2.

Lemma reply_error_sim s buffer p P tuple code :
  moved_packet p P → sim moved_done (Ice.reply_error s buffer p tuple code) (Ice.reply_error s buffer P tuple code).
Proof.
  intros HM. pose proof (moved_eq p P HM) as (Ek & Em & Et & _).
  unfold Ice.reply_error, CreateErrorResponse. rewrite Ek, Em, Et.
  apply sim_bind_eq; [reflexivity|]. intros r. apply sim_bind_eq; [reflexivity|]. intros [b evs]. by apply sim_ok.
Qed.

Lemma process_request_sim s buffer p P tuple :
  moved_packet p P → sim moved_done (Ice.process_request s buffer p tuple) (Ice.process_request s buffer P tuple).
Proof.
  intros HM. pose proof (moved_eq p P HM) as (Ek & Em & Et & Eu & Ep & Emi & _).
  unfold Ice.process_request, HasMessageIntegrity. rewrite Eu, Ep, Emi.
  case_match; [by apply reply_error_sim|]. eapply sim_bind; [by apply authenticate_sim|].
  intros [[p1 s1] err] [[P1 S1] ERR] (E1 & E2 & HM1). cbn in E1, E2, HM1. subst S1 ERR.
  destruct err; [by apply reply_error_sim|].
  pose proof (moved_eq p1 P1 HM1) as (Ek1 & Em1 & Et1 & _). unfold CreateSuccessResponse. rewrite Ek1, Em1, Et1.
  apply sim_bind_eq; [reflexivity|]. intros r. apply sim_bind_eq; [reflexivity|]. intros [b evs].
  destruct (Ice.HandleTuple s1 tuple). by apply sim_ok.
Qed.

Lemma ProcessStunPacket_sim s buffer p P tuple :
  moved_packet p P → sim moved_done (Ice.ProcessStunPacket s buffer p tuple) (Ice.ProcessStunPacket s buffer P tuple).
Proof.
  intros HM. pose proof (moved_eq p P HM) as (Ek & Em & _ & _ & _ & _ & Ef & _).
  unfold Ice.ProcessStunPacket. rewrite Ek, Em, Ef.
  do 3 (case_match; try (by apply reply_error_sim); try (by apply sim_ok)). by apply process_request_sim.
Qed.
End ice.

(** ** The transport *)

(** srtp_unprotect looks at the packet only: the bytes behind it neither matter
    nor change the outcome. *)
Class LibSrtpLocal `{LibSrtp} := {
  unprotect_local h d D n :
    0 ≤ n ≤ zlen d → d `prefix_of` D →
    let '(err, h1, d1, n1) := srtp_unprotect h d n in
    ∃ D1, srtp_unprotect h D n = (err, h1, D1, n1) ∧ d1 `prefix_of` D1;
}.

Section transport.
Context `{HmacSha1} `{Dtls.OpenSSL} `{LibSrtp} `{!LibSrtpLocal}.
Context (d D : list Z) (HD : d `prefix_of` D).

Lemma IsDtls_sim len : sim eq (Dtls.IsDtls d len) (Dtls.IsDtls D len).
Proof using HD. apply res_andb_sim; [reflexivity|]. by repeat sim_step. Qed.

Lemma HasCorrectRtpVersion_sim : sim eq (Rtp.HasCorrectRtpVersion d) (Rtp.HasCorrectRtpVersion D).
Proof using HD. unfold Rtp.HasCorrectRtpVersion. by repeat sim_step. Qed.

Lemma IsRtcpPacket_sim len : sim eq (Rtp.IsRtcpPacket d len) (Rtp.IsRtcpPacket D len).
Proof using HD.
  unfold Rtp.IsRtcpPacket. repeat apply res_andb_sim; [reflexivity|apply HasCorrectRtpVersion_sim|]. by repeat sim_step.
Qed.

Lemma IsRtpPacket_sim len : sim eq (Rtp.IsRtpPacket d len) (Rtp.IsRtpPacket D len).
Proof using HD.
  unfold Rtp.IsRtpPacket. repeat apply res_andb_sim; [reflexivity|apply HasCorrectRtpVersion_sim|]. by repeat sim_step.
Qed.

Lemma dtls_input_sim len : sim eq (dtls_input d len) (dtls_input D len).
Proof using HD. unfold dtls_input. destruct (as_int len <? 0); [reflexivity|by apply rd_range_sim]. Qed.

Lemma on_stun_sim fresh t len from : sim eq (on_stun fresh t d len from) (on_stun fresh t D len from).
Proof using HD.
  unfold on_stun. eapply sim_bind; [by apply Parse_sim|]. intros r R [p P HM|]; [|reflexivity].
  eapply sim_bind; [apply ProcessStunPacket_sim; by exists d, D|].
  intros [[[s b] p1] evs] [[[S B] P1] EVS] (E1 & E2 & E3). cbn in E1, E2, E3. subst. reflexivity.
Qed.

(** The buffer of a decrypted packet moves with the packet. *)
Definition moved_plain (x X : SrtpSession * bool * list Z * Z) : Prop :=
  x.1.1 = X.1.1 ∧ x.1.2 `prefix_of` X.1.2 ∧ x.2 = X.2.

Lemma DecryptSrtp_sim s len :
  0 ≤ as_int len ≤ zlen d → sim moved_plain (DecryptSrtp s d len) (DecryptSrtp s D len).
Proof using All.
  intros Hlen. unfold DecryptSrtp, decrypt. destruct (session s) as [h|]; [|reflexivity].
  pose proof (unprotect_local h d D (as_int len) Hlen HD) as Hl.
  destruct (srtp_unprotect h d (as_int len)) as [[[err h1] d1] n1]. destruct Hl as (D1 & -> & HD1).
  destruct (IsError err); [apply sim_bind_eq; [reflexivity|]; intros _|]; by apply sim_ok.
Qed.

Lemma on_rtp_sim t len :
  (rtp_channel_ t = true → 0 ≤ as_int len ≤ zlen d) →
  sim eq (on_rtp t d len) (on_rtp t D len).
Proof using All.
  intros Hlen. unfold on_rtp. destruct (rtp_channel_ t); [|reflexivity].
  destruct (srtp_session_ t) as [s|]; [|reflexivity].
  eapply sim_bind; [apply DecryptSrtp_sim; by apply Hlen|].
  intros [[[s1 ok] d1] n1] [[[S1 OK] D1] N1] (E1 & HD1 & E2). cbn in E1, HD1, E2. simplify_eq.
  apply sim_bind_eq; [by apply rd_range_sim|]. reflexivity.
Qed.

Lemma on_rtp_none_sim t len : rtp_channel_ t = false → sim eq (on_rtp t d len) (on_rtp t D len).
Proof. intros Hch. unfold on_rtp. rewrite Hch. reflexivity. Qed.

Lemma OnInputDataPacket_sim fresh t len from :
  sim eq (on_rtp t d len) (on_rtp t D len) →
  sim eq (OnInputDataPacket fresh t d len from) (OnInputDataPacket fresh t D len from).
Proof using HD.
  intros Hrtp. unfold OnInputDataPacket.
  apply sim_bind_eq; [by apply IsStun_sim|]. intros []; [by apply on_stun_sim|].
  apply sim_bind_eq; [by apply IsDtls_sim|]. intros [].
  { apply sim_bind_eq; [by apply dtls_input_sim|]. reflexivity. }
  apply sim_bind_eq; [by apply IsRtcpPacket_sim|]. intros []; [reflexivity|].
  apply sim_bind_eq; [by apply IsRtpPacket_sim|]. intros []; [done|reflexivity].
Qed.

Lemma find_session_sim `{Session.Muduo} len w : sim eq (Session.find_session d len w) (Session.find_session D len w).
Proof using HD.
  unfold Session.find_session. apply sim_bind_eq; [by apply IsStun_sim|]. intros []; [|reflexivity]. cbn [negb].
  eapply sim_bind; [by apply Parse_sim|]. intros r R [p P HM|]; [|reflexivity].
  destruct (moved_eq p P) as (_ & _ & _ & -> & _); [by exists d, D|]. reflexivity.
Qed.

Lemma bind_session_sim `{Session.Muduo} id c len from w :
  sim eq (Session.bind_session id c d len from w) (Session.bind_session id c D len from w).
Proof using HD.
  apply sim_bind_eq; [reflexivity|]. intros [w2 effects]. apply sim_bind_eq; [by apply rd_range_sim|]. reflexivity.
Qed.

Lemma HandlePacket_sim `{Session.Muduo} len from w :
  sim eq (Session.HandlePacket d len from w) (Session.HandlePacket D len from w).
Proof using HD.
  apply sim_bind_eq; [apply find_session_sim|]. intros [id|]; [|reflexivity].
  destruct (Session.GetOrCreatConnection from w) as [w1 c]. apply bind_session_sim.
Qed.
End transport.

(** ** The receive handlers *)
Section handlers.
Context `{HmacSha1} `{Dtls.OpenSSL} `{LibSrtp} `{Session.Muduo}.
Import Session.

(** What is in front of the stale bytes. *)
Lemma received_prefix buf_ data from :
  let '(buf, recvLen, remote) := receive buf_ (Datagram data from) in
  take BUF_SIZE data `prefix_of` buf ∧ recvLen = zlen (take BUF_SIZE data) ∧ remote = from.
Proof. cbn. split; [|done]. by eexists. Qed.

(** The server's handler on the datagram alone. *)
Lemma ServerHandleRead_exact buf_ data from w :
  let got := take BUF_SIZE data in
  HandlePacket got (zlen got) from w ≠ UB OutOfBounds →
  ServerHandleRead buf_ (Datagram data from) w = HandlePacket got (zlen got) from w.
Proof.
  intros got Hn. destruct (received_prefix buf_ data from) as (Hp & _). unfold ServerHandleRead. cbn [receive].
  apply sim_eq_Ok; [|done]. by apply HandlePacket_sim.
Qed.

(** The connection's handler on the datagram alone. *)
Lemma ConnectionHandleRead_exact fresh c buf_ data from w conn id s :
  let got := take BUF_SIZE data in
  conns w !! c = Some conn → callback_ conn = Some id → sessions w !! id = Some s →
  sim eq (on_rtp (with_buffer (StunSerializeBuffer w) (webrtc_transport_ s)) got (zlen got))
    (on_rtp (with_buffer (StunSerializeBuffer w) (webrtc_transport_ s)) (got ++ drop (length got) buf_) (zlen got)) →
  run_task fresh id (OnInput got from) w ≠ UB OutOfBounds →
  ConnectionHandleRead fresh c buf_ (Datagram data from) w = run_task fresh id (OnInput got from) w.
Proof.
  intros got Hc Hcb Hs Hrtp Hn. destruct (received_prefix buf_ data from) as (Hp & _).
  unfold ConnectionHandleRead. cbn [receive]. rewrite Hc, Hcb. apply sim_eq_Ok; [|done].
  unfold run_task, on_session. rewrite Hs. eapply sim_bind; [by apply OnInputDataPacket_sim|].
  intros [t out] ? <-. reflexivity.
Qed.
End handlers.

(** The library of the witnesses looks at the packet only. *)
Lemma toy_srtp_local : @LibSrtpLocal toy_srtp.
Proof.
  split. intros h d D n Hn HD. cbn. unfold toy_unprotect. destruct (n <? 10); by eexists.
Qed.
End Locality.
