(* ===== verification/SessionProofs.v ===== *)
(** Datagrams find their session: Split against a structural definition, one
    connection per address, the invariant of factory and server over every
    interleaving of datagrams, tasks and broadcasts, and what a packet that
    merely names a session can do. *)
From stdpp Require Import countable pretty.
From S2P Require Import Prelude ByteOps Crypto StunPacket StunParse StunAuth StunSerialize StunRoundtrip IceServer Srtp Dtls DtlsProofs Rtp WebRtc WebRtcProofs Session Locality.

Module SessionProofs.
Import Crypto Stun Srtp WebRtc StunParse StunAuth StunSerialize DtlsProofs WebRtcProofs Session Locality.

(** ** Split at a character *)
Fixpoint split_on (c : Z) (s : list Z) : list (list Z) :=
  match s with
  | [] => [[]]
  | x :: s =>
      if decide (x = c) then [] :: split_on c s
      else match split_on c s with
           | h :: t => (x :: h) :: t
           | [] => [[x]]
           end
  end.

Fixpoint join (c : Z) (l : list (list Z)) : list Z :=
  match l with
  | [] => []
  | [p] => p
  | p :: l => p ++ c :: join c l
  end.

Lemma split_on_nonempty c s : ∃ h t, split_on c s = h :: t.
Proof.
  induction s as [|x s (h & t & IH)]; cbn; [by eexists _, _|]. rewrite IH. case_decide; by eexists _, _.
Qed.

Lemma split_on_none c s : c ∉ s → split_on c s = [s].
Proof.
  induction s as [|x s IH]; cbn; [done|]. intros [Hx Hs]%not_elem_of_cons.
  rewrite decide_False by done. by rewrite IH.
Qed.

Lemma split_on_app c a r : c ∉ a → split_on c (a ++ c :: r) = a :: split_on c r.
Proof.
  induction a as [|x a IH]; cbn; [by rewrite decide_True|]. intros [Hx Ha]%not_elem_of_cons.
  rewrite decide_False by done. by rewrite IH.
Qed.

Lemma join_split_on c s : join c (split_on c s) = s.
Proof.
  induction s as [|x s IH]; [done|]. cbn. destruct (split_on_nonempty c s) as (h & t & E). rewrite E in IH |- *.
  case_decide as Hx; [by subst; cbn; f_equal|]. cbn in *. destruct t; cbn in *; by f_equal.
Qed.

Lemma split_on_free c s : Forall (λ p, c ∉ p) (split_on c s).
Proof.
  induction s as [|x s IH]; cbn; [constructor; [apply not_elem_of_nil|done]|].
  case_decide as Hx; [constructor; [apply not_elem_of_nil|done]|].
  destruct (split_on_nonempty c s) as (h & t & E). rewrite E in IH |- *. apply Forall_cons in IH as [Hh Ht].
  constructor; [|done]. apply not_elem_of_cons. by split.
Qed.

Lemma find_at_some c a r i : c ∉ a → find_at [c] (a ++ c :: r) i = Some (i + zlen a).
Proof.
  revert i. induction a as [|x a IH]; intros i; cbn.
  - rewrite decide_True by (by rewrite take_0). intros _. f_equal. unfold zlen. cbn. lia.
  - intros [Hx Ha]%not_elem_of_cons. rewrite decide_False by (rewrite take_0; congruence).
    rewrite IH by done. f_equal. unfold zlen. cbn. lia.
Qed.

Lemma find_at_none c s i : c ∉ s → find_at [c] s i = None.
Proof.
  revert i. induction s as [|x s IH]; intros i; cbn; [done|]. intros [Hx Hs]%not_elem_of_cons.
  rewrite decide_False by (rewrite take_0; congruence). by apply IH.
Qed.

(** The loop at position [pre] inside the string, with the final piece. *)
Lemma split_loop_at c s : ∀ fuel pre ret,
  (length s < fuel)%nat → zlen (pre ++ s) < 2 ^ 64 →
  ∃ last init tail, split_loop fuel (pre ++ s) [c] (zlen pre) (find (pre ++ s) [c] (zlen pre)) ret
    = Ok (last, ret ++ init) ∧ split_on c s = init ++ [tail] ∧
    last + zlen tail = zlen (pre ++ s) ∧ 0 ≤ last ∧ drop (Z.to_nat last) (pre ++ s) = tail.
Proof.
  remember (length s) as n eqn:Hn. revert s Hn. induction (lt_wf n) as [n _ IH]. intros s -> fuel pre ret Hf Hz.
  pose proof (zlen_nonneg pre) as Hp. pose proof (zlen_nonneg s) as Hs. rewrite zlen_app in Hz.
  assert (find (pre ++ s) [c] (zlen pre) = find_at [c] s (zlen pre)) as ->.
  { unfold find. rewrite zlen_app. destruct (Z.ltb_spec (zlen pre + zlen s) (zlen pre)); [lia|].
    unfold zlen. by rewrite Nat2Z.id, drop_app_length. }
  destruct (decide (c ∈ s)) as [Hin|Hni].
  - apply list_elem_of_split_l in Hin as (a & r & -> & Ha). rewrite find_at_some by done.
    destruct fuel as [|fuel]; [lia|]. cbn [split_loop]. rewrite zlen_app, zlen_cons in *.
    pose proof (zlen_nonneg a). pose proof (zlen_nonneg r).
    replace (zlen pre + zlen a - zlen pre) with (zlen a) by lia.
    rewrite wrap_small by (unfold fits; lia). destruct (Z.leb_spec 0 (zlen a)); [|lia].
    unfold substr. rewrite zlen_app, zlen_app, zlen_cons. destruct (Z.ltb_spec (zlen pre + (zlen a + (1 + zlen r))) (zlen pre)); [lia|].
    cbn [mbind res_bind].
    rewrite Z.min_l by lia.
    assert (take (Z.to_nat (zlen a)) (drop (Z.to_nat (zlen pre)) (pre ++ a ++ c :: r)) = a) as ->
      by (unfold zlen; by rewrite !Nat2Z.id, drop_app_length, take_app_length).
    destruct (IH (length r)) with (s := r) (fuel := fuel) (pre := pre ++ a ++ [c]) (ret := ret ++ [a])
      as (last & init & tail & HE & Hsp & Hl & Hpos & Hd); [rewrite length_app; cbn; lia|done|rewrite length_app in Hf; cbn in Hf; lia| |].
    { rewrite !zlen_app. change (zlen [c]) with 1. lia. }
    exists last, (a :: init), tail.
    assert ((pre ++ a ++ [c]) ++ r = pre ++ a ++ c :: r) as Hass by (by rewrite <- !app_assoc).
    rewrite Hass in *. replace (zlen pre + zlen a + (1 + zlen [])) with (zlen (pre ++ a ++ [c]))
      by (rewrite !zlen_app, zlen_cons; lia).
    split; [rewrite HE, <- app_assoc; done|]. split; [rewrite split_on_app by done; by rewrite Hsp|].
    rewrite !zlen_app, zlen_cons in Hl. done.
  - rewrite find_at_none by done. exists (zlen pre), [], s. split; [by destruct fuel; rewrite app_nil_r|].
    split; [by apply split_on_none|]. rewrite zlen_app. split; [done|]. split; [done|].
    unfold zlen. by rewrite Nat2Z.id, drop_app_length.
Qed.

Lemma Split_spec c s : zlen s < 2 ^ 64 → Split s [c] = Ok (split_on c s).
Proof.
  intros Hs. destruct (split_loop_at c s (S (length s)) [] []) as (last & init & tail & HE & Hsp & Hl & Hpos & Hd);
    [lia|done|]. cbn [app] in *. unfold Split. change (zlen []) with 0 in HE. rewrite HE. cbn [mbind res_bind].
  pose proof (zlen_nonneg tail). rewrite wrap_small by (unfold fits; lia).
  destruct (Z.leb_spec 0 (zlen s - last)); [|lia]. rewrite orb_true_r. unfold substr.
  destruct (Z.ltb_spec (zlen s) last); [lia|]. cbn [mbind res_bind]. rewrite Hd, Hsp, take_ge; [done|].
  unfold npos. rewrite Z.min_r by lia. unfold zlen in *. lia.
Qed.

(** ** The invariant of factory and server *)

(** muduo prints different addresses differently. *)
Class MuduoSpec `{Muduo} := {
  toIpPort_inj : Inj (=) (=) toIpPort;
}.

Section world.
Context `{HmacSha1} `{Dtls.OpenSSL} `{!OpenSSLSpec} `{LibSrtp} `{!LibSrtpSpec} `{!LibSrtpLocal} `{Muduo}.

Definition fragment_of (s : WebRTCSession) : list Z :=
  Ice.usernameFragment (ice_server_ (webrtc_transport_ s)).

(** A session: its transport is in order, its name is alphanumeric, and ready
    means it has a loop and a connection. *)
Record session_ok (n_conns : nat) (s : WebRTCSession) : Prop := {
  so_transport : wt_inv (webrtc_transport_ s);
  so_name : Forall alnum (fragment_of s);
  so_ready : session_ready_ s = true → is_Some (loop_ s) ∧ is_Some (network_transport_ s);
  so_network c : network_transport_ s = Some c → (c < n_conns)%nat;
}.

Record conn_ok (n_sessions : nat) (c : UdpConnection) : Prop := {
  co_name : name_ c = toIpPort (peer_addr_ c);
  co_callback id : callback_ c = Some id → (id < n_sessions)%nat;
}.

Record world_inv (w : World) : Prop := {
  wv_sessions : Forall (session_ok (length (conns w))) (sessions w);
  wv_conns : Forall (conn_ok (length (sessions w))) (conns w);
  wv_keys k id : rtc_sessions w !! k = Some id → ∃ s, sessions w !! id = Some s ∧ fragment_of s = k;
  wv_table k c : connections_ w !! k = Some c ↔ ∃ conn, conns w !! c = Some conn ∧ name_ conn = k;
  wv_chars : length (random_chars w) = 64%nat;
  wv_buffer : Ice.buffer_ok (StunSerializeBuffer w);
}.

Lemma session_ok_mono n m s : (n ≤ m)%nat → session_ok n s → session_ok m s.
Proof. intros Hn []. split; try done. intros c Hc. apply so_network0 in Hc. lia. Qed.

Lemma conn_ok_mono n m c : (n ≤ m)%nat → conn_ok n c → conn_ok m c.
Proof. intros Hn []. split; [done|]. intros id Hid. apply co_callback0 in Hid. lia. Qed.

(** ** Operations keep it *)
Lemma CreateWebRTCSession_spec ssl ip port w :
  world_inv w →
  wp (CreateWebRTCSession ssl ip port w) (λ '(w', id),
    world_inv w' ∧ id = length (sessions w) ∧ length (sessions w') = S id ∧ conns w' = conns w).
Proof.
  intros [Hs Hc Hk Ht Hch Hb]. unfold CreateWebRTCSession. apply wp_bind.
  eapply wp_mono; [by apply newWebRtcTransport_spec|].
  intros [[sd chars] t] (Hch' & Hi & _ & Hrtp & _ & Hal & _). cbn.
  set (s := mkWebRTCSession t None None false).
  assert (session_ok (length (conns w)) s) as Hok by (by split).
  split; [|rewrite length_app; cbn; split; [done|split; [lia|done]]].
  split; cbn; try done.
  - apply Forall_app_2; [done|by apply Forall_singleton].
  - eapply Forall_impl; [exact Hc|]. intros c. apply conn_ok_mono. rewrite length_app. lia.
  - intros k id Hid.
    assert (∀ k id, rtc_sessions w !! k = Some id → ∃ s', (sessions w ++ [s]) !! id = Some s' ∧ fragment_of s' = k) as Hold.
    { intros k' id' (s' & Hl & Hf)%Hk. exists s'. split; [|done]. by apply lookup_app_l_Some. }
    destruct (rtc_sessions w !! Ice.usernameFragment (ice_server_ t)) eqn:E; [by apply Hold|].
    apply lookup_insert_Some in Hid as [[<- <-]|[_ Hid]]; [|by apply Hold].
    exists s. split; [|done]. rewrite lookup_app_r, Nat.sub_diag by lia. done.
Qed.

Lemma GetOrCreatConnection_spec a w :
  world_inv w →
  let '(w', c) := GetOrCreatConnection a w in
  world_inv w' ∧ sessions w' = sessions w ∧ rtc_sessions w' = rtc_sessions w ∧
  connections_ w' !! toIpPort a = Some c ∧ conns w `prefix_of` conns w'.
Proof.
  intros Hi. pose proof Hi as [Hs Hc Hk Ht Hch Hb]. unfold GetOrCreatConnection.
  destruct (connections_ w !! toIpPort a) as [c|] eqn:E; [split; [done|]; by repeat (split; [done|])|].
  destruct (getNextLoop (pool w)) as [l pool']. cbn.
  split; [|split; [done|split; [done|split; [by rewrite lookup_insert_eq|by eexists]]]].
  split; cbn; try done.
  - eapply Forall_impl; [exact Hs|]. intros s. apply session_ok_mono. rewrite length_app. lia.
  - apply Forall_app_2; [done|]. apply Forall_singleton. by split.
  - intros k c. rewrite lookup_insert_Some, Ht. split.
    + intros [[<- <-]|[_ (conn & Hl & Hn)]].
      * eexists. rewrite lookup_app_r, Nat.sub_diag by lia. done.
      * exists conn. split; [|done]. by apply lookup_app_l_Some.
    + intros (conn & Hl & Hn). apply lookup_app_Some in Hl as [Hl|[Hge Hl]].
      * right. split; [|by exists conn]. intros <-.
        assert (connections_ w !! toIpPort a = Some c) as Ec by (apply Ht; by exists conn). congruence.
      * apply list_lookup_singleton_Some in Hl as [Hc0 <-]. left. split; [done|]. lia.
Qed.

(** A session bound to a connection. *)
Definition bound (s : WebRTCSession) (c : connection_id) (loop : Z) : WebRTCSession :=
  mkWebRTCSession (WebRtc.SetNetworkTransport true (webrtc_transport_ s)) (Some c) (Some loop) true.

Lemma SetNetworkTransport_spec id c w s :
  world_inv w → sessions w !! id = Some s → (c < length (conns w))%nat →
  wp (SetNetworkTransport id c w) (λ '(w', effects),
    world_inv w' ∧ effects = [EnableReading c] ∧ length (sessions w') = length (sessions w) ∧
    rtc_sessions w' = rtc_sessions w ∧ connections_ w' = connections_ w ∧
    ∃ loop, sessions w' !! id = Some (bound s c loop)).
Proof.
  intros [Hs Hc Hk Ht Hch Hb] Hl Hcid. pose proof (lookup_lt_Some _ _ _ Hl) as Hid.
  unfold SetNetworkTransport. rewrite Hl.
  destruct (lookup_lt_is_Some_2 (conns w) c) as [conn Hlc]; [done|]. rewrite Hlc. cbn.
  pose proof (Forall_lookup_1 _ _ _ _ Hs Hl) as [Hi Hal Hr Hn].
  pose proof (Forall_lookup_1 _ _ _ _ Hc Hlc) as [Hcn Hcb].
  set (s' := mkWebRTCSession _ _ _ _). set (conn' := mkConnection _ _ _ _ _).
  split; [|split; [done|rewrite length_insert; split; [done|split; [done|split; [done|]]]]].
  - split; cbn; rewrite ?length_insert; try done.
    + apply Forall_insert; [done|]. split; cbn; try done; [|naive_solver].
      destruct Hi as [? ? ? ? [? ?]]. by split.
    + apply Forall_insert; [done|]. split; cbn; [done|]. naive_solver.
    + intros k i Hki. apply Hk in Hki as (s0 & Hs0 & Hf). destruct (decide (i = id)) as [->|Hne].
      * rewrite list_lookup_insert_eq by done. exists s'. split; [done|]. rewrite Hl in Hs0. by simplify_eq.
      * rewrite list_lookup_insert_ne by done. by exists s0.
    + intros k i. rewrite Ht. destruct (decide (i = c)) as [->|Hne].
      * rewrite list_lookup_insert_eq by done. rewrite Hlc. split; intros (x & [= <-] & Hx); by eexists.
      * by rewrite list_lookup_insert_ne.
  - exists (conn_loop_ conn). by rewrite list_lookup_insert_eq.
Qed.

(** ** The first packet *)
Definition task_ok (t : Task) : Prop :=
  match t with
  | OnInput buf from => datagram_ok (buf, from)
  | SendRtp buf => zlen buf < 2 ^ 63
  end.

(** The name a USERNAME starts with. *)
Definition first_name (u : list Z) : list Z :=
  match split_on 58 u with h :: _ => h | [] => [] end.

(** What HandlePacket does with a datagram: nothing, or it binds the session
    named by the packet to the connection of the sender and queues the packet. *)
Inductive routed (w : World) (buf : list Z) (from : sockaddr_in) : World → list Effect → Prop :=
| routed_not :
    (∀ p id, Parse buf (zlen buf) = Ok (Some p) → rtc_sessions w !! first_name (username p) ≠ Some id) →
    routed w buf from w []
| routed_to p id c s loop w' :
    sessions w !! id = Some s →
    Parse buf (zlen buf) = Ok (Some p) → rtc_sessions w !! first_name (username p) = Some id →
    rtc_sessions w' = rtc_sessions w → connections_ w' !! toIpPort from = Some c →
    sessions w' !! id = Some (bound s c loop) →
    routed w buf from w' [EnableReading c; RunInLoop loop id (OnInput buf from)].

(** The session a datagram is for. *)
Lemma find_session_spec buf from w :
  datagram_ok (buf, from) → world_inv w →
  wp (find_session buf (zlen buf) w) (λ r,
    match r with
    | None => ∀ p id, Parse buf (zlen buf) = Ok (Some p) → rtc_sessions w !! first_name (username p) ≠ Some id
    | Some id => ∃ p s, Parse buf (zlen buf) = Ok (Some p) ∧ rtc_sessions w !! first_name (username p) = Some id ∧
        sessions w !! id = Some s
    end).
Proof.
  intros (Hb & Hlt & Hfrom) Hi. cbn [fst snd] in *. unfold find_session.
  apply wp_bind. pose proof (IsStun_wp buf Hb) as (b & Hstun & _)%wp_Ok. rewrite Hstun. cbn [wp].
  destruct b; cbn [negb].
  2: { intros p id HP. apply Parse_IsStun in HP. congruence. }
  apply wp_bind. pose proof (Parse_wp buf Hb Hlt) as ([p|] & HP & Hacc)%wp_Ok; rewrite HP; cbn [wp]; [|done].
  specialize (Hacc p eq_refl). pose proof (wf_username_len _ _ (acc_wf _ _ Hacc)) as Hul.
  apply wp_bind. change (str ":") with [58]. rewrite Split_spec by lia. cbn [wp].
  destruct (split_on_nonempty 58 (username p)) as (use_name & rest & Hsp). rewrite Hsp.
  assert (first_name (username p) = use_name) as Hfn by (unfold first_name; by rewrite Hsp).
  unfold GetWebRTCSession. cbn [wp]. destruct (rtc_sessions w !! use_name) as [id|] eqn:Hid.
  - pose proof (wv_keys w Hi _ _ Hid) as (s & Hs & _). exists p, s. by rewrite Hfn.
  - intros p' id [= <-] Hlk. rewrite Hfn in Hlk. congruence.
Qed.

Lemma bind_session_spec id c buf from w s :
  world_inv w → sessions w !! id = Some s → (c < length (conns w))%nat →
  wp (bind_session id c buf (zlen buf) from w) (λ '(w', effects),
    world_inv w' ∧ length (sessions w') = length (sessions w) ∧ rtc_sessions w' = rtc_sessions w ∧
    connections_ w' = connections_ w ∧
    ∃ loop, sessions w' !! id = Some (bound s c loop) ∧
      effects = [EnableReading c; RunInLoop loop id (OnInput buf from)]).
Proof.
  intros Hi Hs Hc. unfold bind_session. apply wp_bind. eapply wp_mono; [by apply SetNetworkTransport_spec|].
  intros [w2 effects] (Hi2 & -> & Hlen2 & Hrs2 & Hcs2 & loop & Hs2).
  apply wp_bind. pose proof (zlen_nonneg buf). rewrite rd_range_in by lia. cbn [wp].
  change (Z.to_nat 0) with 0%nat. rewrite drop_0, take_ge by (unfold zlen; lia).
  rewrite Hs2. cbn. repeat (split; [done|]). by exists loop.
Qed.

Lemma HandlePacket_spec buf from w :
  datagram_ok (buf, from) → world_inv w →
  wp (HandlePacket buf (zlen buf) from w) (λ '(w', effects),
    world_inv w' ∧ length (sessions w') = length (sessions w) ∧ routed w buf from w' effects).
Proof.
  intros Hd Hi. unfold HandlePacket. apply wp_bind. eapply wp_mono; [by eapply find_session_spec|].
  intros [id|] Hfound; [|by split; [done|split; [done|by apply routed_not]]].
  destruct Hfound as (p & s & HP & Hid & Hs).
  pose proof (GetOrCreatConnection_spec from w Hi) as Hconn.
  destruct (GetOrCreatConnection from w) as [w1 c]. destruct Hconn as (Hi1 & Hse1 & Hrs1 & Hc1 & _).
  apply (wv_table w1 Hi1) in Hc1 as Hc1'. destruct Hc1' as (conn & Hlc & _).
  eapply wp_mono; [apply (bind_session_spec id c buf from w1 s Hi1); [by rewrite Hse1|by eapply lookup_lt_Some]|].
  intros [w2 effects] (Hi2 & Hlen2 & Hrs2 & Hcs2 & loop & Hs2 & ->). split; [done|]. split; [congruence|].
  apply (routed_to _ _ _ p id c s loop); try done; congruence.
Qed.

(** ** Tasks *)

(** As [fine], for the whole server. *)
Definition fine_w {A} (r : res A) (Q : A → Prop) : Prop :=
  match r with
  | Ok a => Q a
  | Aborted m => m = Dtls.export_failed
  | Throw m => m = "srtp_create() failed"
  | _ => False
  end.

Lemma fine_w_bind {A B} (m : res A) (f : A → res B) Q : fine_w m (λ a, fine_w (f a) Q) → fine_w (m ≫= f) Q.
Proof. by destruct m. Qed.

Lemma fine_w_mono {A} (r : res A) (P Q : A → Prop) : fine_w r P → (∀ a, P a → Q a) → fine_w r Q.
Proof. destruct r; naive_solver. Qed.

Lemma wp_fine_w {A} (r : res A) Q : wp r Q → fine_w r Q.
Proof. by destruct r. Qed.

Lemma with_buffer_inv b t : Ice.buffer_ok b → wt_inv t → wt_inv (with_buffer b t).
Proof. intros Hb Hi. apply set_ice_inv; [apply Hi|done|done]. Qed.

Lemma on_session_fine id f w s :
  world_inv w → sessions w !! id = Some s →
  fine (f (with_buffer (StunSerializeBuffer w) (webrtc_transport_ s)))
    (λ t' _, wt_inv t' ∧ same_config (webrtc_transport_ s) t') →
  fine_w (on_session id f w) (λ '(w', effects),
    world_inv w' ∧ length (sessions w') = length (sessions w) ∧ conns w' = conns w).
Proof.
  intros [Hs Hc Hk Ht Hch Hb] Hl Hf. unfold on_session. rewrite Hl.
  destruct (f _) as [[t out]| | | |]; try done. destruct Hf as (Hi & Hfr & Hrtp). cbn.
  rewrite length_insert. split; [|done].
  pose proof (Forall_lookup_1 _ _ _ _ Hs Hl) as [Hi0 Hal Hr Hn].
  split; cbn; rewrite ?length_insert; try done; [| |apply Hi].
  - apply Forall_insert; [done|]. split; cbn; try done. unfold fragment_of. cbn. by rewrite Hfr.
  - intros k i Hki. apply Hk in Hki as (s0 & Hs0 & Hf0). destruct (decide (i = id)) as [->|Hne].
    + rewrite list_lookup_insert_eq by (by eapply lookup_lt_Some). eexists. split; [done|].
      rewrite Hl in Hs0. simplify_eq. done.
    + rewrite list_lookup_insert_ne by done. by exists s0.
Qed.

(** libsrtp accepts what is sent, and RTP for a channel. *)
Definition acceptable (w : World) (id : session_id) (t : Task) : Prop :=
  ∀ s, sessions w !! id = Some s →
    match t with
    | OnInput buf _ => rtp_servable (webrtc_transport_ s) buf
    | SendRtp buf => protectable (webrtc_transport_ s) buf
    end.

(** What a handler or a task keeps. *)
Definition kept_world (w : World) : World * list Effect → Prop :=
  λ '(w', effects), world_inv w' ∧ length (sessions w') = length (sessions w) ∧ conns w' = conns w.

Lemma run_task_fine fresh id t w :
  world_inv w → fresh_ok fresh → (id < length (sessions w))%nat → task_ok t → acceptable w id t →
  fine_w (run_task fresh id t w) (kept_world w).
Proof using All.
  intros Hi Hf Hid Ht Hacc. destruct (lookup_lt_is_Some_2 (sessions w) id) as [s Hl]; [done|].
  pose proof (Forall_lookup_1 _ _ _ _ (wv_sessions w Hi) Hl) as [Hit _ _ _].
  specialize (Hacc s Hl). eapply on_session_fine; [done|done|].
  pose proof (with_buffer_inv _ _ (wv_buffer w Hi) Hit) as Hib. destruct t as [buf from|buf].
  - destruct Ht as (Hb & Hlt & Hfrom). eapply fine_mono; [by apply OnInputDataPacket_fine|].
    intros t' o (Hi' & _ & Hcfg & _). done.
  - eapply fine_mono; [eapply rtp_sent_fine; [done|by apply EncryptAndSend_spec]|].
    intros t' o [Hi' Hcfg]. done.
Qed.

(** ** Receiving *)

(** A receive buffer, and what recvfrom may do. *)
Definition held (buf_ : list Z) : Prop := bytes_ok buf_ ∧ length buf_ = BUF_SIZE.
Definition receive_ok (r : Receive) : Prop :=
  match r with
  | Datagram data from => bytes_ok data ∧ Ice.tuple_ok from
  | RecvFailed uninit => Ice.tuple_ok uninit
  end.

Lemma held_len buf_ : held buf_ → zlen buf_ = 4096.
Proof. intros [_ Hl]. unfold zlen. by rewrite Hl. Qed.

Lemma take_datagram_ok data from :
  bytes_ok data → Ice.tuple_ok from → datagram_ok (take BUF_SIZE data, from).
Proof.
  intros Hb Hf. split; [by apply Forall_take|]. split; [|done]. cbn. unfold zlen, BUF_SIZE.
  rewrite length_take. lia.
Qed.

(** The server's handler: the datagram alone, and nothing for a failure, whose
    length matches no STUN header. *)
Definition server_receives (r : Receive) (w : World) : res (World * list Effect) :=
  match r with
  | Datagram data from => let got := take BUF_SIZE data in HandlePacket got (zlen got) from w
  | RecvFailed _ => Ok (w, [])
  end.

Lemma ServerHandleRead_spec buf_ r w :
  held buf_ → receive_ok r → world_inv w → ServerHandleRead buf_ r w = server_receives r w.
Proof.
  intros Hh Hr Hi. destruct r as [data from|uninit].
  - destruct Hr as [Hb Hf]. apply ServerHandleRead_exact.
    pose proof (HandlePacket_spec _ _ w (take_datagram_ok _ _ Hb Hf) Hi) as (x & E & _)%wp_Ok. by rewrite E.
  - pose proof (held_len buf_ Hh) as Hz. destruct Hh as [Hb _]. unfold ServerHandleRead, HandlePacket, find_session. cbn [receive].
    destruct (failed_tests buf_) as (b & _ & _ & _ & -> & _); [lia|]. cbn [mbind res_bind].
    destruct b; [|done]. cbn [negb]. by rewrite failed_Parse by (done || lia).
Qed.

(** The connection's handler: the datagram as a task of the session, and an empty
    DTLS record at most for a failure. *)
Definition connection_acceptable (w : World) (c : connection_id) (buf_ : list Z) (r : Receive) : Prop :=
  ∀ conn id s, conns w !! c = Some conn → callback_ conn = Some id → sessions w !! id = Some s →
    match r with
    | Datagram data _ => rtp_servable (webrtc_transport_ s) (take BUF_SIZE data)
    | RecvFailed _ => rtp_channel_ (webrtc_transport_ s) = true → Rtp.IsRtpPacket buf_ (u64 (-1)) ≠ Ok true
    end.

Lemma ConnectionHandleRead_datagram fresh c buf_ data from w conn id :
  world_inv w → fresh_ok fresh → receive_ok (Datagram data from) →
  conns w !! c = Some conn → callback_ conn = Some id →
  acceptable w id (OnInput (take BUF_SIZE data) from) →
  ConnectionHandleRead fresh c buf_ (Datagram data from) w
  = run_task fresh id (OnInput (take BUF_SIZE data) from) w.
Proof using All.
  intros Hi Hf [Hb Hfrom] Hc Hcb Hacc.
  pose proof (Forall_lookup_1 _ _ _ _ (wv_conns w Hi) Hc) as [_ Hid]. specialize (Hid id Hcb).
  destruct (lookup_lt_is_Some_2 (sessions w) id) as [s Hs]; [done|].
  pose proof (take_datagram_ok data from Hb Hfrom) as Hok.
  eapply ConnectionHandleRead_exact; [done|done|done| |].
  - apply on_rtp_sim; [by eexists|]. intros _. destruct Hok as (_ & Hlt & _). cbn [fst] in Hlt.
    pose proof (zlen_nonneg (take BUF_SIZE data)). rewrite as_int_small by lia. lia.
  - pose proof (run_task_fine fresh id (OnInput (take BUF_SIZE data) from) w Hi Hf Hid Hok Hacc) as Hfine.
    by destruct (run_task _ _ _ _).
Qed.

Lemma ConnectionHandleRead_fine fresh c buf_ r w :
  world_inv w → fresh_ok fresh → (c < length (conns w))%nat → held buf_ → receive_ok r →
  connection_acceptable w c buf_ r →
  fine_w (ConnectionHandleRead fresh c buf_ r w) (kept_world w).
Proof using All.
  intros Hi Hf Hc Hh Hr Hacc. destruct (lookup_lt_is_Some_2 (conns w) c) as [conn Hlc]; [done|].
  destruct (callback_ conn) as [id|] eqn:Hcb.
  2: { unfold ConnectionHandleRead. destruct r; cbn [receive]; by rewrite Hlc, Hcb. }
  pose proof (Forall_lookup_1 _ _ _ _ (wv_conns w Hi) Hlc) as [_ Hid]. specialize (Hid id Hcb).
  destruct (lookup_lt_is_Some_2 (sessions w) id) as [s Hs]; [done|].
  specialize (Hacc conn id s Hlc Hcb Hs). destruct r as [data from|uninit].
  - assert (acceptable w id (OnInput (take BUF_SIZE data) from)) as Hacc' by (intros s' Hs'; by simplify_eq).
    erewrite ConnectionHandleRead_datagram by done. destruct Hr. apply run_task_fine; try done. by apply take_datagram_ok.
  - unfold ConnectionHandleRead. cbn [receive]. rewrite Hlc, Hcb. eapply on_session_fine; [done|done|].
    pose proof (Forall_lookup_1 _ _ _ _ (wv_sessions w Hi) Hs) as [Hit _ _ _].
    pose proof (held_len buf_ Hh) as Hz. destruct Hh as [Hb _]. eapply fine_mono.
    { apply OnInputDataPacket_failed; [done|lia|done|by apply with_buffer_inv; [apply Hi|]|done]. }
    intros t' o (Hi' & _ & Hcfg & _). done.
Qed.

(** ** Broadcast *)
Lemma ready_elem w id :
  id ∈ GetAllReadyWebRTCSession w ↔
  ∃ k s, rtc_sessions w !! k = Some id ∧ sessions w !! id = Some s ∧ session_ready_ s = true.
Proof.
  unfold GetAllReadyWebRTCSession. rewrite list_elem_of_filter, list_elem_of_fmap. split.
  - intros [Hr ([k i] & Hi & Hin)]. cbn in Hi. subst i. apply elem_of_map_to_list in Hin.
    destruct (sessions w !! id) as [s|] eqn:E; [|done]. by exists k, s.
  - intros (k & s & Hk & Hs & Hr). rewrite Hs. split; [done|]. exists (k, id). split; [done|].
    by apply elem_of_map_to_list.
Qed.

Lemma ready_NoDup w : world_inv w → NoDup (GetAllReadyWebRTCSession w).
Proof.
  intros Hi. apply NoDup_filter, NoDup_fmap_2_strong; [|apply NoDup_map_to_list].
  intros [k1 i1] [k2 i2] Hk1%elem_of_map_to_list Hk2%elem_of_map_to_list E. cbn in E. subst i2.
  apply (wv_keys w Hi) in Hk1 as (s1 & Hs1 & <-). apply (wv_keys w Hi) in Hk2 as (s2 & Hs2 & <-). congruence.
Qed.

(** The task a broadcast queues for a session. *)
Definition broadcast_task (buf : list Z) (w : World) (id : session_id) : option Effect :=
  s ← sessions w !! id; loop ← loop_ s; Some (RunInLoop loop id (SendRtp buf)).

Lemma WriteRtpCallback_spec buf w :
  world_inv w →
  ∃ effects, WriteRtpCallback buf w = Ok effects ∧
    Some <$> effects = broadcast_task buf w <$> GetAllReadyWebRTCSession w.
Proof.
  intros Hi. unfold WriteRtpCallback.
  assert (∀ id, id ∈ GetAllReadyWebRTCSession w → ∃ s loop, sessions w !! id = Some s ∧ loop_ s = Some loop) as Hr.
  { intros id (k & s & _ & Hs & Hr)%ready_elem.
    pose proof (Forall_lookup_1 _ _ _ _ (wv_sessions w Hi) Hs) as [_ _ Hl _].
    destruct (Hl Hr) as [[loop Hloop] _]. by exists s, loop. }
  induction (GetAllReadyWebRTCSession w) as [|id l IH]; [by exists []|].
  destruct IH as (effects & HE & Hmap); [intros; apply Hr; by apply list_elem_of_further|].
  destruct (Hr id) as (s & loop & Hs & Hloop); [by apply list_elem_of_here|].
  cbn [mapM]. rewrite Hs. cbn. rewrite Hloop. cbn. rewrite HE. cbn. eexists. split; [done|].
  cbn. f_equal; [|done]. unfold broadcast_task. rewrite Hs. cbn. by rewrite Hloop.
Qed.

(** ** Interleavings

    The server with the tasks that wait on the event loops.  A loop may run any
    of them next. *)
Definition System : Type := World * list (session_id * Task).

Definition queued (e : Effect) : option (session_id * Task) :=
  match e with RunInLoop _ id t => Some (id, t) | _ => None end.

(** A session given an RTP channel, as publish.cc does. *)
Definition with_channel (id : session_id) (s : WebRTCSession) (w : World) : World :=
  set_sessions (<[id := put_transport (SetRTPChannel true (webrtc_transport_ s)) s]> (sessions w)) w.

(** What a step shows to the outside: the datagram that was received in it. *)
Inductive Label := Received (buf : list Z) (from : sockaddr_in) | Silent.
Definition label_of (r : Receive) : Label :=
  match r with
  | Datagram data from => Received (take BUF_SIZE data) from
  | RecvFailed _ => Silent
  end.

Inductive sys_step : System → Label → res System → Prop :=
| step_create ssl ip port w q :
    sys_step (w, q) Silent ('(w', _) ← CreateWebRTCSession ssl ip port w; Ok (w', q))
| step_channel id s w q :
    sessions w !! id = Some s →
    sys_step (w, q) Silent (Ok (with_channel id s w, q))
| step_server buf_ r w q :
    held buf_ → receive_ok r →
    sys_step (w, q) (label_of r) ('(w', e) ← ServerHandleRead buf_ r w; Ok (w', q ++ omap queued e))
| step_connection fresh c buf_ r w q :
    fresh_ok fresh → (c < length (conns w))%nat → held buf_ → receive_ok r → connection_acceptable w c buf_ r →
    sys_step (w, q) (label_of r) ('(w', _) ← ConnectionHandleRead fresh c buf_ r w; Ok (w', q))
| step_broadcast buf w q :
    zlen buf < 2 ^ 63 →
    sys_step (w, q) Silent (e ← WriteRtpCallback buf w; Ok (w, q ++ omap queued e))
| step_task fresh w q1 id t q2 :
    fresh_ok fresh → acceptable w id t →
    sys_step (w, q1 ++ (id, t) :: q2) Silent ('(w', _) ← run_task fresh id t w; Ok (w', q1 ++ q2)).

(** A server that has just been started. *)
Definition start (pool : pool_t) (seed : Z) (chars buffer : list Z) : System :=
  (mkWorld [] ∅ [] ∅ pool seed chars buffer, []).

(** The states with the labels that led to them, the latest first. *)
Inductive history : list Label → System → Prop :=
| hist_start pool seed chars buffer :
    length chars = 64%nat → Ice.buffer_ok buffer → history [] (start pool seed chars buffer)
| hist_step h s l s' : history h s → sys_step s l (Ok s') → history (l :: h) s'.

Definition reachable (s : System) : Prop := ∃ h, history h s.

Lemma reach_start pool seed chars buffer :
  length chars = 64%nat → Ice.buffer_ok buffer → reachable (start pool seed chars buffer).
Proof. intros. exists []. by apply hist_start. Qed.

Lemma reach_step s l s' : reachable s → sys_step s l (Ok s') → reachable s'.
Proof. intros [h Hh] Hs. exists (l :: h). by eapply hist_step. Qed.

Definition pending_ok (w : World) (x : session_id * Task) : Prop :=
  (x.1 < length (sessions w))%nat ∧ task_ok x.2.

Definition sys_inv (s : System) : Prop := world_inv s.1 ∧ Forall (pending_ok s.1) s.2.

Lemma pending_mono w w' q :
  (length (sessions w) ≤ length (sessions w'))%nat → Forall (pending_ok w) q → Forall (pending_ok w') q.
Proof. intros Hle Hq. eapply Forall_impl; [exact Hq|]. intros x [Hl Ht]. split; [lia|done]. Qed.

Lemma start_inv pool seed chars buffer :
  length chars = 64%nat → Ice.buffer_ok buffer → sys_inv (start pool seed chars buffer).
Proof.
  intros Hc Hb. split; [|done]. split; cbn; try done. intros k c. split; [done|]. by intros (? & ? & _).
Qed.

Lemma server_step_fine buf_ r w q :
  held buf_ → receive_ok r → sys_inv (w, q) →
  fine_w ('(w', e) ← ServerHandleRead buf_ r w; Ok (w', q ++ omap queued e)) sys_inv.
Proof.
  intros Hh Hr [Hi Hq]. rewrite ServerHandleRead_spec by done. destruct r as [data from|uninit].
  2: { cbn. by rewrite app_nil_r. }
  destruct Hr as [Hb Hf]. pose proof (take_datagram_ok _ _ Hb Hf) as Hok. apply wp_fine_w, wp_bind.
  eapply wp_mono; [by apply HandlePacket_spec|]. intros [w' e] (Hi' & Hlen & Hr). cbn [wp fst snd].
  split; [done|]. apply Forall_app_2; [apply (pending_mono w); [cbn; lia|done]|].
  destruct Hr as [|p id c s loop w' ? ? ? ? ? Hs]; [constructor|]. cbn. apply Forall_singleton.
  split; [by eapply lookup_lt_Some|done].
Qed.

Lemma with_channel_inv id s w : world_inv w → sessions w !! id = Some s → world_inv (with_channel id s w).
Proof.
  intros [Hs Hc Hk Ht Hch Hb] Hl. pose proof (Forall_lookup_1 _ _ _ _ Hs Hl) as [Hi Hal Hr Hn].
  split; cbn; rewrite ?length_insert; try done.
  - apply Forall_insert; [done|]. split; try done. destruct Hi as [? ? ? ? [? ?]]. by split.
  - intros k i Hki. apply Hk in Hki as (s0 & Hs0 & Hf0). destruct (decide (i = id)) as [->|Hne].
    + rewrite list_lookup_insert_eq by (by eapply lookup_lt_Some). eexists. split; [done|]. by simplify_eq.
    + rewrite list_lookup_insert_ne by done. by exists s0.
Qed.

(** A broadcast queues its packet for sessions that exist. *)
Lemma broadcast_queued buf w e id t :
  world_inv w → WriteRtpCallback buf w = Ok e → (id, t) ∈ omap queued e →
  t = SendRtp buf ∧ (id < length (sessions w))%nat.
Proof.
  intros Hi HE Hin. destruct (WriteRtpCallback_spec buf w Hi) as (e' & HE' & Hmap). rewrite HE in HE'. injection HE' as <-.
  apply list_elem_of_omap in Hin as (x & Hx & Hqx).
  assert (Some x ∈ broadcast_task buf w <$> GetAllReadyWebRTCSession w) as Hb
    by (rewrite <- Hmap; by apply list_elem_of_fmap_2).
  apply list_elem_of_fmap in Hb as (i & Hbi & _). unfold broadcast_task in Hbi.
  destruct (sessions w !! i) as [s|] eqn:Hs; [|done]. cbn in Hbi. destruct (loop_ s); [|done]. cbn in Hbi. simplify_eq/=.
  split; [done|]. by eapply lookup_lt_Some.
Qed.

Lemma broadcast_step_fine buf w q :
  zlen buf < 2 ^ 63 → sys_inv (w, q) →
  fine_w (e ← WriteRtpCallback buf w; Ok (w, q ++ omap queued e)) sys_inv.
Proof.
  intros Hz [Hi Hq]. destruct (WriteRtpCallback_spec buf w Hi) as (e & HE & _). rewrite HE. cbn.
  split; [done|]. apply Forall_app_2; [done|]. apply Forall_forall. intros [id t] Hin.
  by destruct (broadcast_queued buf w e id t Hi HE Hin) as [-> Hid].
Qed.

Lemma sys_step_fine s l r : sys_inv s → sys_step s l r → fine_w r sys_inv.
Proof using All.
  intros Hi Hstep. destruct Hstep as [ssl ip port w q|id s w q Hs|buf_ r w q Hh Hr|fresh c buf_ r w q Hfr Hc Hh Hr Hacc|buf w q Hz|fresh w q1 id t q2 Hfr Hacc];
    pose proof Hi as [Hw Hq]; cbn [fst snd] in *.
  - apply wp_fine_w, wp_bind. eapply wp_mono; [by apply CreateWebRTCSession_spec|].
    intros [w' id] (Hw' & -> & Hlen & _). split; [done|]. apply (pending_mono w); [cbn; lia|done].
  - split; [by apply with_channel_inv|]. apply (pending_mono w); [cbn; by rewrite length_insert|done].
  - by apply server_step_fine.
  - apply fine_w_bind. eapply fine_w_mono; [by apply ConnectionHandleRead_fine|].
    intros [w' e] (Hw' & Hlen & _). split; [done|]. apply (pending_mono w); [cbn; lia|done].
  - by apply broadcast_step_fine.
  - apply Forall_app in Hq as [Hq1 [[Hid Ht] Hq2]%Forall_cons]. apply fine_w_bind.
    eapply fine_w_mono; [by apply run_task_fine|].
    intros [w' e] (Hw' & Hlen & _). split; [done|]. cbn. apply (pending_mono w); [lia|by apply Forall_app_2].
Qed.

Lemma history_inv h s : history h s → sys_inv s.
Proof using All.
  induction 1 as [|h s l s' _ IH Hs]; [by apply start_inv|]. exact (sys_step_fine s l (Ok s') IH Hs).
Qed.

Lemma reachable_inv s : reachable s → sys_inv s.
Proof using All. intros [h Hh]. by eapply history_inv. Qed.

(** The first session of a new server. *)
Lemma start_create pool seed chars buffer ssl ip port :
  length chars = 64%nat → Ice.buffer_ok buffer →
  ∃ w, CreateWebRTCSession ssl ip port (start pool seed chars buffer).1 = Ok (w, 0%nat) ∧ reachable (w, []).
Proof.
  intros Hc Hb. destruct (start_inv pool seed chars buffer Hc Hb) as [Hi _].
  pose proof (CreateWebRTCSession_spec ssl ip port _ Hi) as ([w id] & HE & _ & -> & _)%wp_Ok.
  exists w. split; [done|]. eapply reach_step; [by apply (reach_start pool seed chars buffer)|].
  pose proof (step_create ssl ip port (start pool seed chars buffer).1 []) as Hstep.
  rewrite HE in Hstep. exact Hstep.
Qed.

(** ** Names *)
Lemma alnum_no_colon l : Forall alnum l → 58 ∉ l.
Proof. rewrite Forall_forall. intros Hl Hin. apply Hl in Hin. unfold alnum in Hin. lia. Qed.

Lemma first_name_us u f : 58 ∉ f → names_us u f → first_name u = f.
Proof. intros Hf (rest & ->). unfold first_name. cbn [app]. by rewrite split_on_app. Qed.

(** A packet that names a registered session is queued for it, and the session
    is bound to the sender's connection. *)
Lemma named_routed `{!MuduoSpec} buf from w id s p :
  datagram_ok (buf, from) → world_inv w → sessions w !! id = Some s →
  rtc_sessions w !! fragment_of s = Some id →
  Parse buf (zlen buf) = Ok (Some p) → names_us (username p) (fragment_of s) →
  ∃ w' c loop conn,
    HandlePacket buf (zlen buf) from w = Ok (w', [EnableReading c; RunInLoop loop id (OnInput buf from)]) ∧
    world_inv w' ∧ sessions w' !! id = Some (bound s c loop) ∧
    conns w' !! c = Some conn ∧ peer_addr_ conn = from.
Proof.
  intros Hd Hi Hs Hreg HP Hn. pose proof (HandlePacket_spec buf from w Hd Hi) as ([w' e] & HE & Hi' & _ & Hr)%wp_Ok.
  pose proof (Forall_lookup_1 _ _ _ _ (wv_sessions w Hi) Hs) as [_ Hal _ _].
  pose proof (first_name_us _ _ (alnum_no_colon _ Hal) Hn) as Hfn.
  destruct Hr as [Hno|p' id' c s' loop w' Hs0 HP' Hid _ Hc Hb]; [by destruct (Hno p id HP); rewrite Hfn|].
  rewrite HP in HP'. simplify_eq. rewrite Hfn in Hid. simplify_eq.
  apply (wv_table w' Hi') in Hc as (conn & Hlc & Hname). exists w', c, loop, conn.
  split; [done|]. split; [done|]. split; [done|]. split; [done|].
  pose proof (Forall_lookup_1 _ _ _ _ (wv_conns w' Hi') Hlc) as [Hpeer _].
  apply (inj toIpPort (Inj := toIpPort_inj)). congruence.
Qed.

End world.

(** ** Properties *)

(** Split at a one character delimiter, as HandlePacket uses it, ends and
    equals the structural split: the pieces joined with the delimiter give the
    string back and none of them contains it. *)
Lemma Split_at_char c s :
  zlen s < 2 ^ 64 →
  Split s [c] = Ok (split_on c s) ∧ join c (split_on c s) = s ∧ Forall (λ p, c ∉ p) (split_on c s).
Proof. intros Hs. split; [by apply Split_spec|]. split; [apply join_split_on|apply split_on_free]. Qed.


(** *** A server for the witnesses *)
Definition toy_muduo : Muduo := {|
  toIpPort a := pretty (Npos (encode (sin_port a, s_addr a)));
  pool_t := Z;
  getNextLoop l := (l, 1 - l) |}.

Lemma toy_muduo_spec : @MuduoSpec toy_muduo.
Proof.
  split. intros [p1 a1] [p2 a2] E. cbn in E. apply (inj pretty) in E.
  injection E as E%(inj encode). injection E as -> ->. done.
Qed.

Definition sample_chars : list Z := replicate 64 0.

Definition sample_session : @WebRTCSession toy_ssl toy_srtp :=
  @mkWebRTCSession toy_ssl toy_srtp (sample_transport Ice.sample_server false) None None false.

Definition sample_world : @World toy_ssl toy_srtp toy_muduo :=
  @mkWorld toy_ssl toy_srtp toy_muduo [sample_session] {[ str "ab" := 0%nat ]} [] ∅ 1 1
    sample_chars Ice.zero_buffer.

Lemma sample_world_inv : @world_inv toy_ssl toy_srtp toy_muduo sample_world.
Proof.
  split; cbn [sessions rtc_sessions conns connections_ random_chars StunSerializeBuffer sample_world].
  - apply Forall_singleton. split; [by apply sample_transport_inv| |done|done].
    apply (bool_decide_unpack _). by vm_compute.
  - constructor.
  - intros k id [<- <-]%lookup_singleton_Some. exists sample_session. by split.
  - intros k c. rewrite lookup_empty. split; [done|]. by intros (? & ? & _).
  - done.
  - apply Ice.zero_buffer_ok.
Qed.

(** A receive buffer with old bytes in it, and a receive. *)
Definition sample_buffer : list Z := replicate BUF_SIZE 0x80.

Lemma sample_buffer_held : held sample_buffer.
Proof. split; [|apply length_replicate]. apply Forall_replicate. split; [done|]. by vm_compute. Qed.

Lemma sample_receive_ok : receive_ok (Datagram sample_signed sample_addr).
Proof. split; [apply Ice.sample_signed_bytes|apply Ice.sample_tuple_ok]. Qed.



(** A server whose session has a connection. *)
Definition bound_world : @World toy_ssl toy_srtp toy_muduo :=
  match @HandlePacket toy_ssl toy_srtp toy_muduo sample_signed (zlen sample_signed) sample_addr sample_world with
  | Ok (w, _) => w
  | _ => sample_world
  end.

Lemma bound_world_inv : @world_inv toy_ssl toy_srtp toy_muduo bound_world.
Proof.
  assert (datagram_ok (sample_signed, sample_addr)) as Hd by exact (Forall_inv sample_datagrams_ok).
  pose proof (HandlePacket_spec sample_signed sample_addr sample_world Hd sample_world_inv) as Hw.
  unfold bound_world. destruct (HandlePacket _ _ _ _) as [[w e]| | | |]; [apply Hw|contradiction..].
Qed.


(** The connection table has one connection per address: asking twice for an
    address gives the same connection and changes nothing, different addresses
    get different connections, and a connection's peer is its address. *)
Lemma connection_per_address `{HmacSha1} `{Dtls.OpenSSL} `{LibSrtp} `{Muduo} `{!MuduoSpec} a b w :
  world_inv w →
  let '(w1, c1) := GetOrCreatConnection a w in
  let '(w2, c2) := GetOrCreatConnection b w1 in
  (c1 = c2 ↔ a = b) ∧ (a = b → w2 = w1) ∧ ∃ conn, conns w2 !! c1 = Some conn ∧ peer_addr_ conn = a.
Proof.
  intros Hi. pose proof (GetOrCreatConnection_spec a w Hi) as H1'.
  destruct (GetOrCreatConnection a w) as [w1 c1]. destruct H1' as (Hi1 & _ & _ & Hc1 & _).
  pose proof (GetOrCreatConnection_spec b w1 Hi1) as H2'.
  destruct (GetOrCreatConnection b w1) as [w2 c2] eqn:E2. destruct H2' as (Hi2 & _ & _ & Hc2 & Hpre).
  apply (wv_table w1 Hi1) in Hc1 as Hx. destruct Hx as (conn1 & Hl1 & Hn1).
  apply (wv_table w2 Hi2) in Hc2 as Hx. destruct Hx as (conn2 & Hl2 & Hn2).
  assert (conns w2 !! c1 = Some conn1) as Hl12 by (by eapply prefix_lookup_Some).
  assert (a = b → w2 = w1 ∧ c2 = c1) as Hsame.
  { intros <-. unfold GetOrCreatConnection in E2. rewrite Hc1 in E2. by simplify_eq. }
  split; [split|split].
  - intros ->. rewrite Hl2 in Hl12. simplify_eq. apply (inj toIpPort (Inj := toIpPort_inj)). congruence.
  - intros Hab. symmetry. by apply Hsame.
  - intros Hab. by apply Hsame.
  - exists conn1. split; [done|]. pose proof (Forall_lookup_1 _ _ _ _ (wv_conns w1 Hi1) Hl1) as [Hp _].
    apply (inj toIpPort (Inj := toIpPort_inj)). congruence.
Qed.

Lemma connection_per_address_witness :
  let '(w1, c1) := @GetOrCreatConnection toy_ssl toy_srtp toy_muduo sample_addr sample_world in
  let '(w2, c2) := @GetOrCreatConnection toy_ssl toy_srtp toy_muduo sample_addr w1 in
  (c1 = c2 ↔ sample_addr = sample_addr) ∧ (sample_addr = sample_addr → w2 = w1) ∧
  ∃ conn, @conns toy_ssl toy_srtp toy_muduo w2 !! c1 = Some conn ∧ peer_addr_ conn = sample_addr.
Proof.
  exact (@connection_per_address toy_hmac toy_ssl toy_srtp toy_muduo toy_muduo_spec sample_addr sample_addr
           sample_world sample_world_inv).
Defined.

(** A broadcast queues the packet exactly once for every registered session
    that is ready, on the session's own loop, and for no other. *)
Lemma broadcast_reaches_ready `{HmacSha1} `{Dtls.OpenSSL} `{LibSrtp} `{Muduo} buf w :
  world_inv w →
  ∃ effects, WriteRtpCallback buf w = Ok effects ∧ NoDup effects ∧
    ∀ e, e ∈ effects ↔ ∃ k id s loop, rtc_sessions w !! k = Some id ∧ sessions w !! id = Some s ∧
      session_ready_ s = true ∧ loop_ s = Some loop ∧ e = RunInLoop loop id (SendRtp buf).
Proof.
  intros Hi. destruct (WriteRtpCallback_spec buf w Hi) as (effects & HE & Hmap). exists effects. split; [done|].
  assert (∀ id x, broadcast_task buf w id = Some x → ∃ s loop, sessions w !! id = Some s ∧ loop_ s = Some loop ∧
    x = RunInLoop loop id (SendRtp buf)) as Hb.
  { unfold broadcast_task. intros id x. destruct (sessions w !! id) as [s|]; [|done]. cbn.
    destruct (loop_ s) as [loop|] eqn:E; [|done]. intros [= <-]. by exists s, loop. }
  split.
  - apply (NoDup_fmap_1 Some). rewrite Hmap. apply NoDup_fmap_2_strong; [|by apply ready_NoDup].
    intros i j Hin1 Hin2 Heq. assert (broadcast_task buf w i ∈ Some <$> effects) as Hin by (rewrite Hmap; apply list_elem_of_fmap; by exists i).
    apply list_elem_of_fmap in Hin as (x & Hx & _). rewrite Hx in Heq. symmetry in Heq.
    destruct (Hb i x Hx) as (? & ? & _ & _ & ->). by destruct (Hb j _ Heq) as (? & ? & _ & _ & [= _ ->]).
  - intros e. rewrite <- (list_elem_of_fmap_inj Some). rewrite Hmap, list_elem_of_fmap. split.
    + intros (id & He & (k & s & Hk & Hs & Hr)%ready_elem). symmetry in He.
      destruct (Hb id e He) as (s' & loop & Hs' & Hl & ->). simplify_eq. eauto 10.
    + intros (k & id & s & loop & Hk & Hs & Hr & Hl & ->). exists id. unfold broadcast_task. rewrite Hs. cbn. rewrite Hl.
      split; [done|]. apply ready_elem. eauto.
Qed.

Lemma broadcast_reaches_ready_witness :
  ∃ effects, @WriteRtpCallback toy_ssl toy_srtp toy_muduo [1; 2; 3] sample_world = Ok effects ∧ NoDup effects ∧
    ∀ e, e ∈ effects ↔ ∃ k id s loop, @rtc_sessions toy_ssl toy_srtp toy_muduo sample_world !! k = Some id ∧
      @sessions toy_ssl toy_srtp toy_muduo sample_world !! id = Some s ∧
      @session_ready_ toy_ssl toy_srtp s = true ∧ @loop_ toy_ssl toy_srtp s = Some loop ∧
      e = RunInLoop loop id (SendRtp [1; 2; 3]).
Proof. apply (@broadcast_reaches_ready toy_hmac toy_ssl toy_srtp toy_muduo [1; 2; 3] sample_world sample_world_inv). Defined.

(** The first authenticated Binding request to a session is answered end to end:
    the server finds the session by the name in USERNAME and queues the packet for
    it, and the queued task writes the success response to a connection whose peer
    is the sender, and nothing else. *)
Lemma first_request_answered `{HmacSha1} `{Dtls.OpenSSL} `{LibSrtp} `{Muduo} `{!MuduoSpec}
    fresh buf from w id s p :
  datagram_ok (buf, from) → world_inv w → sessions w !! id = Some s →
  rtc_sessions w !! fragment_of s = Some id →
  let t := webrtc_transport_ s in
  Ice.state (ice_server_ t) ≠ Ice.COMPLETED → Dtls.localRole (dtls_transport_ t) = Dtls.ROLE_NONE →
  Parse buf (zlen buf) = Ok (Some p) → klass p = REQUEST → Ice.complete p →
  Ice.current_ok (ice_server_ t) buf p →
  ∃ w1 w2 c loop conn,
    HandlePacket buf (zlen buf) from w = Ok (w1, [EnableReading c; RunInLoop loop id (OnInput buf from)]) ∧
    run_task fresh id (OnInput buf from) w1
    = Ok (w2, [Write c (wire (Ice.success_response p from (Ice.ice_password (ice_server_ t))) [])]) ∧
    conns w1 !! c = Some conn ∧ peer_addr_ conn = from ∧
    ∃ s2, sessions w2 !! id = Some s2 ∧ remote_socket_address_ (webrtc_transport_ s2) = Some from.
Proof.
  intros Hd Hi Hs Hreg t Hst Hro HP Hk Hcomp Hcur.
  destruct (named_routed buf from w id s p Hd Hi Hs Hreg HP) as (w1 & c & loop & conn & HE & Hi1 & Hb & Hlc & Hp).
  { apply Hcur. }
  pose proof (Forall_lookup_1 _ _ _ _ (wv_sessions w1 Hi1) Hb) as [Hit _ _ _].
  destruct (connects_spec fresh (with_buffer (StunSerializeBuffer w1) (webrtc_transport_ (bound s c loop)))
    buf from p) as (t' & Ht & Hrem & _); try done; [by apply with_buffer_inv; [apply Hi1|]|].
  eexists w1, _, c, loop, conn. split; [done|]. split; [|split; [done|split; [done|]]].
  - unfold run_task, on_session. rewrite Hb, Ht. done.
  - cbn. eexists. split; [apply list_lookup_insert_eq; by eapply lookup_lt_Some|done].
Qed.

(** C35: no credentials are needed to take a session over: any STUN packet whose
    USERNAME starts with the name of a registered session binds that session to
    its sender's connection and marks it ready; if the handshake is not done, the
    next broadcast packet is written to that sender unencrypted. *)
Theorem named_packet_takes_over `{HmacSha1} `{Dtls.OpenSSL} `{LibSrtp} `{Muduo} `{!MuduoSpec}
    fresh buf from w id s p media :
  datagram_ok (buf, from) → world_inv w → sessions w !! id = Some s →
  rtc_sessions w !! fragment_of s = Some id → is_ready_ (webrtc_transport_ s) = false →
  Parse buf (zlen buf) = Ok (Some p) → names_us (username p) (fragment_of s) →
  ∃ w1 w2 c loop conn s1,
    HandlePacket buf (zlen buf) from w = Ok (w1, [EnableReading c; RunInLoop loop id (OnInput buf from)]) ∧
    conns w1 !! c = Some conn ∧ peer_addr_ conn = from ∧
    sessions w1 !! id = Some s1 ∧ network_transport_ s1 = Some c ∧ session_ready_ s1 = true ∧
    run_task fresh id (SendRtp media) w1 = Ok (w2, [Write c media]).
Proof.
  intros Hd Hi Hs Hreg Hr HP Hn.
  destruct (named_routed buf from w id s p Hd Hi Hs Hreg HP Hn) as (w1 & c & loop & conn & HE & Hi1 & Hb & Hlc & Hp).
  eexists w1, _, c, loop, conn, (bound s c loop). do 6 (split; [done|]).
  unfold run_task, on_session. rewrite Hb. unfold EncryptAndSendRtpPacket. cbn [is_ready_ with_buffer set_ice bound
    webrtc_transport_ WebRtc.SetNetworkTransport]. rewrite Hr. pose proof (zlen_nonneg media). rewrite rd_range_in by lia.
  change (Z.to_nat 0) with 0%nat. rewrite drop_0, take_ge by (unfold zlen; lia). done.
Qed.

(** A packet with USERNAME "ab:" and nothing else. *)
Definition sample_named : list Z :=
  [0x00; 0x01; 0x00; 0x08; 0x21; 0x12; 0xA4; 0x42] ++ seqZ 1 12 ++ [0x00; 0x06; 0x00; 0x03; 97; 98; 58; 0].
Definition named_packet : StunPacket :=
  SetUsername (str "ab:") (newStunPacket REQUEST BINDING (seqZ 1 12) (Some sample_named) 28).

Lemma named_packet_takes_over_witness :
  messageIntegrity named_packet = None ∧
  ∃ w1 w2 c loop conn s1,
    @HandlePacket toy_ssl toy_srtp toy_muduo sample_named (zlen sample_named) sample_addr sample_world
    = Ok (w1, [EnableReading c; RunInLoop loop 0%nat (OnInput sample_named sample_addr)]) ∧
    @conns toy_ssl toy_srtp toy_muduo w1 !! c = Some conn ∧ peer_addr_ conn = sample_addr ∧
    @sessions toy_ssl toy_srtp toy_muduo w1 !! 0%nat = Some s1 ∧
    @network_transport_ toy_ssl toy_srtp s1 = Some c ∧ @session_ready_ toy_ssl toy_srtp s1 = true ∧
    @run_task toy_hmac toy_ssl toy_srtp toy_muduo Ice.zero_buffer 0%nat (SendRtp [1; 2; 3]) w1
    = Ok (w2, [Write c [1; 2; 3]]).
Proof.
  split; [done|].
  apply (@named_packet_takes_over toy_hmac toy_ssl toy_srtp toy_muduo toy_muduo_spec
           Ice.zero_buffer sample_named sample_addr sample_world 0%nat sample_session named_packet [1; 2; 3]).
  - split; [apply (bool_decide_unpack _); by vm_compute|]. split; [by vm_compute|apply Ice.sample_tuple_ok].
  - apply sample_world_inv.
  - done.
  - apply lookup_singleton_eq.
  - done.
  - by vm_compute.
  - exists []. by vm_compute.
Defined.
End SessionProofs.
