(* ===== verification/Lifecycle.v ===== *)
(** * The life of a session

    An abstract machine for a session, with no packets, buffers or libraries in
    it: a session is fresh, then has a peer, then is secured with that peer.  The
    transport refines it datagram by datagram, and the server refines one machine
    per session over every history; who becomes a peer has proved to know the
    session's password in a datagram of that history. *)
From S2P Require Import Prelude ByteOps Crypto StunPacket StunParse StunAuth StunSerialize IceServer Srtp Dtls DtlsProofs Rtp WebRtc WebRtcProofs Session Locality SessionProofs.

Module Lifecycle.
Import Crypto Stun Srtp WebRtc StunParse StunAuth StunSerialize DtlsProofs WebRtcProofs Session Locality SessionProofs.

(** ** The abstract machine *)
Inductive phase := Fresh | Selected (peer : sockaddr_in) | Secured (peer : sockaddr_in).

(** What a session is given: a request that proves knowledge of the password, a
    record of the peer's handshake, or anything else. *)
Inductive input := Proof_of_password (from : sockaddr_in) | Handshake | Nothing.

Inductive life : phase → input → phase → Prop :=
| life_select a : life Fresh (Proof_of_password a) (Selected a)
| life_again p a : p ≠ Fresh → life p (Proof_of_password a) p
| life_secure a : life (Selected a) Handshake (Secured a)
| life_wait p : life p Handshake p
| life_idle p : life p Nothing p.

Definition peer_of (p : phase) : option sockaddr_in :=
  match p with Fresh => None | Selected a | Secured a => Some a end.

(** Further along, with the same peer. *)
Inductive later : phase → phase → Prop :=
| later_fresh p : later Fresh p
| later_selected a : later (Selected a) (Selected a)
| later_secured a : later (Selected a) (Secured a)
| later_done a : later (Secured a) (Secured a).

#[export] Instance later_preorder : PreOrder later.
Proof.
  split; [intros []; constructor|]. intros p q r Hpq Hqr. destruct Hpq; inversion Hqr; subst; constructor.
Qed.

Lemma life_later p i q : life p i q → later p q.
Proof. destruct 1; try reflexivity; constructor. Qed.

(** ** The transport *)
Section transport.
Context `{HmacSha1} `{Dtls.OpenSSL} `{!OpenSSLSpec} `{LibSrtp} `{!LibSrtpSpec}.

Definition phase_of (t : WebRtcTransport) : phase :=
  match remote_socket_address_ t with
  | None => Fresh
  | Some a => if is_ready_ t then Secured a else Selected a
  end.

(** The credentials are those of the constructor, and ICE has completed exactly
    when there is a peer. *)
Record life_inv (t : WebRtcTransport) : Prop := {
  li_wt : wt_inv t;
  li_old : Ice.oldPassword (ice_server_ t) = [];
  li_peer : Ice.state (ice_server_ t) = Ice.COMPLETED ↔ is_Some (remote_socket_address_ t);
}.

(** A complete request signed with the session's password. *)
Definition proves (i : Ice.IceServer) (buf : list Z) : Prop :=
  ∃ p, Parse buf (zlen buf) = Ok (Some p) ∧ klass p = REQUEST ∧ Ice.complete p ∧ Ice.current_ok i buf p.

(** The input a datagram is. *)
Inductive input_of (i : Ice.IceServer) (buf : list Z) (from : sockaddr_in) : input → Prop :=
| input_proof : proves i buf → input_of i buf from (Proof_of_password from)
| input_handshake : Dtls.IsDtls buf (zlen buf) = Ok true → input_of i buf from Handshake
| input_nothing : ¬ proves i buf → Dtls.IsDtls buf (zlen buf) ≠ Ok true → input_of i buf from Nothing.

(** The same session. *)
Definition same_credentials (t t' : WebRtcTransport) : Prop :=
  Ice.usernameFragment (ice_server_ t') = Ice.usernameFragment (ice_server_ t) ∧
  Ice.ice_password (ice_server_ t') = Ice.ice_password (ice_server_ t).

Lemma phase_fresh t : phase_of t = Fresh ↔ remote_socket_address_ t = None.
Proof. unfold phase_of. destruct (remote_socket_address_ t); [|done]. split; [|done]. by destruct (is_ready_ t). Qed.

Lemma fresh_unready t : wt_inv t → remote_socket_address_ t = None → is_ready_ t = false.
Proof.
  intros Hi Hn. destruct (is_ready_ t) eqn:E; [|done]. destruct (wi_srtp t Hi) as [_ Hr].
  destruct (Hr E) as [_ [a Ha]]. congruence.
Qed.

Lemma fresh_role t : wt_inv t → remote_socket_address_ t = None → Dtls.localRole (dtls_transport_ t) = Dtls.ROLE_NONE.
Proof.
  intros Hi Hn. pose proof (di_role _ (wi_dtls t Hi)) as Hr. pose proof (wi_remote t Hi) as Hrun.
  unfold Dtls.IsRunning in Hrun. rewrite Hn in Hrun.
  destruct (Dtls.state (dtls_transport_ t)); try done; by destruct (Hrun eq_refl).
Qed.

(** Once ready, always ready. *)
Lemma on_dtls_events_ready fresh es : ∀ t t' o,
  on_dtls_events fresh t es = Ok (t', o) → is_ready_ t = true → is_ready_ t' = true.
Proof.
  induction es as [|e es IH]; intros t t' o HE Hr; cbn [on_dtls_events] in HE; [by simplify_eq|].
  destruct (on_dtls_event fresh t e) as [[t1 o1]| | | |] eqn:E1; try done. cbn [mbind res_bind] in HE.
  destruct (on_dtls_events fresh t1 es) as [[t2 o2]| | | |] eqn:E2; try done. simplify_eq/=.
  apply (IH _ _ _ E2). destruct e; cbn in E1; simplify_eq; try done.
  destruct (newSrtpSession _ _ _ _ _); simplify_eq/=. done.
Qed.

Lemma call_dtls_ready fresh op t t' o :
  call_dtls fresh op t = Ok (t', o) → is_ready_ t = true → is_ready_ t' = true.
Proof.
  unfold call_dtls. destruct (op (dtls_transport_ t)) as [[[] d]| | | |]; try done. cbn [mbind res_bind].
  intros HE Hr. by eapply on_dtls_events_ready.
Qed.

(** *** STUN *)
Definition lives (t : WebRtcTransport) (i : input) : WebRtcTransport * list Out → Prop :=
  λ '(t', o), life_inv t' ∧ same_credentials t t' ∧ life (phase_of t) i (phase_of t').

Lemma set_ice_lives t b i : life_inv t → Ice.buffer_ok b → life (phase_of t) i (phase_of t) →
  ∀ o, lives t i (set_ice (ice_server_ t) b t, o).
Proof.
  intros [Hi Ho Hp] Hb Hl o. split; [|done]. split; [apply set_ice_inv; [apply Hi|done|done]|done|done].
Qed.
(** An error response, or no answer: the session stays as it is. *)
Lemma not_proved_lives fresh t b p from a evs :
  life_inv t → Ice.buffer_ok b → Ice.carries_out (ice_server_ t) p from a evs → (∀ pw, a ≠ Ice.SuccessReply pw) →
  wp (on_ice_events fresh (set_ice (ice_server_ t) b t) evs) (lives t Nothing).
Proof.
  intros Hi Hb Hc Ha. destruct a as [|code|pw]; [| |by destruct (Ha pw)].
  - cbn in Hc. subst evs. exact (set_ice_lives t b Nothing Hi Hb (life_idle _) []).
  - destruct Hc as (r & -> & Hd). cbn [on_ice_events on_ice_event].
    erewrite OnIceServerSendStunPacket_spec by done. cbn [mbind res_bind].
    exact (set_ice_lives t b Nothing Hi Hb (life_idle _) _).
Qed.

(** A success response: the first one makes its sender the peer. *)
Lemma proved_lives fresh t b p from evs :
  fresh_ok fresh → life_inv t → Ice.buffer_ok b →
  Ice.carries_out (ice_server_ t) p from (Ice.SuccessReply (Ice.ice_password (ice_server_ t))) evs →
  wp (on_ice_events fresh (set_ice (Ice.SetState Ice.COMPLETED (ice_server_ t)) b t) evs)
    (lives t (Proof_of_password from)).
Proof using All.
  intros Hf Hi Hb (r & -> & Hd). cbn [on_ice_events on_ice_event].
  erewrite OnIceServerSendStunPacket_spec by done. cbn [mbind res_bind].
  destruct (decide (Ice.state (ice_server_ t) = Ice.COMPLETED)) as [Hc|Hc].
  { rewrite (Ice.SetState_id _ Hc). cbn [on_ice_events wp mbind res_bind]. apply (set_ice_lives t b _ Hi Hb). apply life_again.
    rewrite phase_fresh. apply (li_peer t Hi) in Hc as [x Hx]. congruence. }
  assert (remote_socket_address_ t = None) as Hn.
  { apply eq_None_not_Some. intros Hs. by apply Hc, (li_peer t Hi). }
  set (t1 := set_ice (Ice.SetState Ice.COMPLETED (ice_server_ t)) b t).
  destruct (OnIceServerSelectedTuple_spec fresh t1 from) as (t' & HE & Hice & Hrem & Hst & Hro & Hrd);
    [exact (fresh_role t (li_wt t Hi) Hn)|].
  cbn [on_ice_events on_ice_event]. rewrite HE. cbn [mbind res_bind wp].
  split; [|split; [by unfold same_credentials; rewrite Hice|]].
  - split; [|by rewrite Hice; apply Hi|rewrite Hice, Hrem; cbn; split; [by eexists|done]].
    pose proof (call_dtls_fine fresh (Dtls.Run Dtls.SERVER) (set_remote from t1) from Hf) as Hfine.
    change (call_dtls fresh (Dtls.Run Dtls.SERVER) (set_remote from t1)) with (OnIceServerSelectedTuple fresh t1 from) in Hfine.
    rewrite HE in Hfine. apply Hfine; [|done|apply Run_ends; [apply Hi|by right]].
    apply set_remote_inv, set_ice_inv; [apply (wi_listener t)|done|]; apply Hi.
  - rewrite (proj2 (phase_fresh t) Hn). unfold phase_of. rewrite Hrem, Hrd. cbn. rewrite (fresh_unready t) by (done || apply Hi).
    constructor.
Qed.

Lemma stun_not_dtls buf : IsStun buf (zlen buf) = Ok true → Dtls.IsDtls buf (zlen buf) ≠ Ok true.
Proof.
  intros (x & Hx & Hlt)%IsStun_first (y & Hy & Hgt)%IsDtls_first. rewrite Hx in Hy. simplify_eq. lia.
Qed.

Definition input_lives (t : WebRtcTransport) (buf : list Z) (from : sockaddr_in) (r : WebRtcTransport * list Out) : Prop :=
  ∃ i, input_of (ice_server_ t) buf from i ∧ lives t i r.

Lemma on_stun_lives fresh t buf from :
  datagram_ok (buf, from) → fresh_ok fresh → life_inv t → IsStun buf (zlen buf) = Ok true →
  wp (on_stun fresh t buf (zlen buf) from) (input_lives t buf from).
Proof using All.
  intros (Hb & Hlt & Hfrom) Hf Hi Hstun. cbn [fst snd] in *. pose proof (stun_not_dtls buf Hstun) as Hnd.
  unfold on_stun. pose proof (Parse_wp buf Hb Hlt) as Hp.
  apply wp_Ok in Hp as ([p|] & HP & Hp); rewrite HP; cbn [mbind res_bind].
  2: { exists Nothing. split; [|by split; [done|split; [done|constructor]]]. apply input_nothing; [|done].
       intros (p & HP' & _). congruence. }
  destruct (Ice.ProcessStunPacket_spec (ice_server_ t) (stun_buffer t) buf p from)
    as (a & s' & b' & evs & -> & Hj & Hc & Hb'); [done|done|by apply Hp|apply Hi|apply Hi|done|].
  cbn [mbind res_bind].
  assert (klass p ≠ REQUEST ∨ ¬ Ice.complete p ∨ ¬ Ice.current_ok (ice_server_ t) buf p →
    input_of (ice_server_ t) buf from Nothing) as Hno.
  { intros Hcase. apply input_nothing; [|done]. intros (p' & HP' & ? & ? & ?). rewrite HP in HP'. simplify_eq. naive_solver. }
  destruct Hj as [Hk|Hk Hcp|Hk Hcp Hcur Hold|Hk Hcp Hcur|Hk Hcp Hcur Hold];
    try (eapply wp_mono; [by eapply not_proved_lives|]; intros r Hr; exists Nothing; split; [|done]; apply Hno; tauto).
  - rewrite decide_True by apply Hi. eapply wp_mono; [by eapply proved_lives|]. intros r Hr.
    exists (Proof_of_password from). split; [|done]. apply input_proof. by exists p.
  - destruct Hold as (_ & Hold & _). by destruct Hold; apply Hi.
Qed.
(** *** DTLS *)
Lemma on_dtls_lives fresh t data :
  fresh_ok fresh → life_inv t →
  fine (call_dtls fresh (Dtls.ProcessDtlsData data) t) (λ t' o, lives t Handshake (t', o)).
Proof using All.
  intros Hf Hi. pose proof (li_wt t Hi) as Hw. destruct (Dtls.IsRunning (dtls_transport_ t)) eqn:Hr.
  2: { rewrite call_dtls_idle by done. split; [done|]. split; [done|constructor]. }
  destruct (wi_remote t Hw Hr) as [a Ha].
  pose proof (call_dtls_fine fresh (Dtls.ProcessDtlsData data) t a Hf Hw Ha (ProcessDtlsData_ends _ _ (wi_dtls t Hw))) as Hfine.
  destruct (call_dtls _ _ _) as [[t' o]| | | |] eqn:E; try done. destruct Hfine as (Hi' & Hice & _ & Hrem & _).
  split; [|split; [by unfold same_credentials; rewrite Hice|]].
  - split; [done|rewrite Hice; apply Hi|]. rewrite Hice, Hrem, <- Ha. apply Hi.
  - unfold phase_of. rewrite Ha, Hrem. destruct (is_ready_ t) eqn:Hrd.
    + rewrite (call_dtls_ready _ _ _ _ _ E Hrd). constructor.
    + destruct (is_ready_ t'); constructor.
Qed.

(** *** Every datagram *)
Lemma idle_lives t o : life_inv t → lives t Nothing (t, o).
Proof. intros Hi. split; [done|]. split; [done|constructor]. Qed.

Lemma not_stun_idle t buf from o :
  IsStun buf (zlen buf) = Ok false → Dtls.IsDtls buf (zlen buf) = Ok false →
  ∀ t', lives t Nothing (t', o) → input_lives t buf from (t', o).
Proof.
  intros Hs Hd t' Hl. exists Nothing. split; [|done]. apply input_nothing; [|congruence].
  intros (p & HP & _). apply Parse_IsStun in HP. congruence.
Qed.

Lemma on_rtp_lives t buf from :
  datagram_ok (buf, from) → life_inv t → rtp_servable t buf → Rtp.IsRtpPacket buf (zlen buf) = Ok true →
  fine (on_rtp t buf (zlen buf)) (λ t' o, lives t Nothing (t', o)).
Proof using All.
  intros (_ & Hlt & _) Hi Hserv Hrtp. pose proof (on_rtp_fine t buf from Hlt (li_wt t Hi) Hserv Hrtp) as Hfine.
  unfold on_rtp in *. destruct (rtp_channel_ t); [|by apply idle_lives].
  destruct (srtp_session_ t) as [s|]; [|done].
  destruct (DecryptSrtp s buf (zlen buf)) as [[[[s1 ok] buf1] n]| | | |]; try done. cbn [mbind res_bind] in *.
  destruct (rd_range buf1 0 n) as [bytes| | | |]; try done. destruct Hfine as (Hw & _).
  split; [|split; [done|constructor]]. split; [done|apply Hi|apply Hi].
Qed.

Lemma OnInputDataPacket_lives fresh t buf from :
  datagram_ok (buf, from) → fresh_ok fresh → life_inv t → rtp_servable t buf →
  fine (OnInputDataPacket fresh t buf (zlen buf) from) (λ t' o, input_lives t buf from (t', o)).
Proof using All.
  intros Hd Hf Hi Hserv. unfold OnInputDataPacket. pose proof Hd as (Hb & Hlt & _). cbn [fst] in *.
  destruct (proj1 (wp_Ok _ _) (IsStun_wp buf Hb)) as ([] & Hs & _); rewrite Hs; cbn [mbind res_bind].
  { pose proof (on_stun_lives fresh t buf from Hd Hf Hi Hs) as ([t' o] & -> & Hl)%wp_Ok. exact Hl. }
  destruct (proj1 (wp_Ok _ _) (IsDtls_wp buf)) as ([] & Hdt & _); rewrite Hdt; cbn [mbind res_bind].
  { rewrite dtls_input_exact by lia. cbn [mbind res_bind]. eapply fine_mono; [by apply on_dtls_lives|].
    intros t' o Hl. exists Handshake. split; [by apply input_handshake|done]. }
  destruct (proj1 (wp_Ok _ _) (IsRtcp_wp buf)) as ([] & -> & _); cbn [mbind res_bind].
  { apply not_stun_idle; [done|done|by apply idle_lives]. }
  destruct (proj1 (wp_Ok _ _) (IsRtp_wp buf)) as ([] & E & _); rewrite E; cbn [mbind res_bind].
  2: { apply not_stun_idle; [done|done|by apply idle_lives]. }
  eapply fine_mono; [by eapply on_rtp_lives|]. intros t' o. by apply not_stun_idle.
Qed.

(** A failed receive is at most a record of the handshake. *)
Lemma OnInputDataPacket_failed_lives buf fresh t from :
  bytes_ok buf → 20 ≤ zlen buf → fresh_ok fresh → life_inv t →
  (rtp_channel_ t = true → Rtp.IsRtpPacket buf (u64 (-1)) ≠ Ok true) →
  fine (OnInputDataPacket fresh t buf (u64 (-1)) from) (λ t' o, ∃ i, (i = Nothing ∨ i = Handshake) ∧ lives t i (t', o)).
Proof using All.
  intros Hb Hlen Hf Hi Hch. unfold OnInputDataPacket.
  destruct (failed_tests buf Hlen) as (b0 & b1 & b2 & b3 & -> & -> & -> & E3). rewrite E3.
  assert (∃ i, (i = Nothing ∨ i = Handshake) ∧ lives t i (t, [])) as Hidle.
  { exists Nothing. split; [by left|]. by apply idle_lives. }
  cbn [mbind res_bind]. destruct b0.
  { unfold on_stun. rewrite failed_Parse by done. done. }
  destruct b1.
  { change (dtls_input buf (u64 (-1))) with (@Ok (list Z) []). cbn [mbind res_bind].
    eapply fine_mono; [by apply on_dtls_lives|]. intros t' o Hl. exists Handshake. split; [by right|done]. }
  destruct b2; [done|]. destruct b3; [|done]. unfold on_rtp. destruct (rtp_channel_ t); [|done]. by destruct (Hch eq_refl).
Qed.

(** *** Output *)
Lemma EncryptAndSend_lives t data :
  life_inv t → zlen data < 2 ^ 63 → protectable t data →
  fine (EncryptAndSendRtpPacket t data (zlen data)) (λ t' o, lives t Nothing (t', o)).
Proof using All.
  intros Hi Hl Hp. pose proof (EncryptAndSend_spec t data (li_wt t Hi) Hl Hp) as Hs.
  pose proof (rtp_sent_fine t data _ (li_wt t Hi) Hs) as Hfine.
  destruct Hs as [s s' n a Hr _ _ _ _ _|s a _ _ _ _|_]; [|by apply idle_lives..].
  destruct Hfine as [Hw _]. split; [|split; [done|]].
  - split; [done|apply Hi|apply Hi].
  - unfold phase_of. cbn. rewrite Hr. constructor.
Qed.
End transport.

(** ** The server *)
Section world.
Context `{HmacSha1} `{Dtls.OpenSSL} `{!OpenSSLSpec} `{LibSrtp} `{!LibSrtpSpec} `{!LibSrtpLocal} `{Muduo}.

Definition tr (s : WebRTCSession) : WebRtcTransport := webrtc_transport_ s.

(** What a step does to a session, given the datagrams [gave]. *)
Definition evolves (gave : list Z → sockaddr_in → Prop) (s s' : WebRTCSession) : Prop :=
  life_inv (tr s') ∧ same_credentials (tr s) (tr s') ∧
  ∃ i, life (phase_of (tr s)) i (phase_of (tr s')) ∧
    ∀ a, i = Proof_of_password a → ∃ buf, gave buf a ∧ proves (ice_server_ (tr s)) buf.

Definition all_live (w : World) : Prop := ∀ id s, sessions w !! id = Some s → life_inv (tr s).

(** Every session evolves; the ones that are new are fresh. *)
Definition sessions_evolve (gave : session_id → list Z → sockaddr_in → Prop) (w w' : World) : Prop :=
  (∀ id s, sessions w !! id = Some s → ∃ s', sessions w' !! id = Some s' ∧ evolves (gave id) s s') ∧
  (∀ id s', sessions w !! id = None → sessions w' !! id = Some s' → life_inv (tr s') ∧ phase_of (tr s') = Fresh).

Lemma evolves_idle gave s s' :
  life_inv (tr s') → same_credentials (tr s) (tr s') → phase_of (tr s') = phase_of (tr s) → evolves gave s s'.
Proof. intros Hi Hc Hp. split; [done|]. split; [done|]. exists Nothing. rewrite Hp. split; [constructor|done]. Qed.

Lemma evolves_refl gave s : life_inv (tr s) → evolves gave s s.
Proof. intros Hi. by apply evolves_idle. Qed.

Lemma same_evolve gave w w' : all_live w → sessions w' = sessions w → sessions_evolve gave w w'.
Proof.
  intros Hl E. split; rewrite E; [|congruence]. intros id s Hs. exists s. split; [done|].
  eapply evolves_refl, Hl, Hs.
Qed.

(** One session changes. *)
Lemma insert_evolve (gave : session_id → list Z → sockaddr_in → Prop) w w' id s s' :
  all_live w → sessions w !! id = Some s → sessions w' = <[id := s']> (sessions w) → evolves (gave id) s s' →
  sessions_evolve gave w w'.
Proof.
  intros Hl Hs E Hev. pose proof (lookup_lt_Some _ _ _ Hs) as Hlt. split; rewrite E.
  - intros i x Hx. destruct (decide (i = id)) as [->|Hne].
    + rewrite list_lookup_insert_eq by done. simplify_eq. by exists s'.
    + rewrite list_lookup_insert_ne by done. exists x. split; [done|]. eapply evolves_refl, Hl, Hx.
  - intros i x Hn Hx. destruct (decide (i = id)) as [->|Hne]; [congruence|].
    rewrite list_lookup_insert_ne in Hx by done. congruence.
Qed.

(** *** What the operations do to the sessions *)
Lemma on_session_inv id f w w' e :
  on_session id f w = Ok (w', e) →
  ∃ s t o, sessions w !! id = Some s ∧ f (with_buffer (StunSerializeBuffer w) (tr s)) = Ok (t, o) ∧
    sessions w' = <[id := put_transport t s]> (sessions w).
Proof.
  unfold on_session. destruct (sessions w !! id) as [s|]; [|done].
  destruct (f _) as [[t o]| | | |] eqn:E; try done. cbn. intros [= <- <-]. by exists s, t, o.
Qed.

Lemma with_buffer_live b t : Ice.buffer_ok b → life_inv t → life_inv (with_buffer b t).
Proof. intros Hb []. split; [by apply with_buffer_inv|done|done]. Qed.

(** A call into a session's transport that lives. *)
Lemma on_session_evolve gave id f w w' e :
  world_inv w → all_live w → on_session id f w = Ok (w', e) →
  (∀ s, sessions w !! id = Some s →
    fine (f (with_buffer (StunSerializeBuffer w) (tr s))) (λ t' o, ∃ i,
      lives (with_buffer (StunSerializeBuffer w) (tr s)) i (t', o) ∧
      ∀ a, i = Proof_of_password a → ∃ buf, gave id buf a ∧ proves (ice_server_ (tr s)) buf)) →
  sessions_evolve gave w w'.
Proof.
  intros Hw Hl HE Hf. apply on_session_inv in HE as (s & t & o & Hs & Ht & Hw').
  specialize (Hf s Hs). rewrite Ht in Hf. destruct Hf as (i & (Hi & Hc & Hlife) & Hproof).
  eapply insert_evolve; [done|done|done|]. split; [done|]. split; [done|]. by exists i.
Qed.

Lemma HandlePacket_sessions buf len from w w' e :
  HandlePacket buf len from w = Ok (w', e) →
  sessions w' = sessions w ∨
  ∃ id s c loop, sessions w !! id = Some s ∧ sessions w' = <[id := bound s c loop]> (sessions w).
Proof.
  unfold HandlePacket. destruct (find_session buf len w) as [[id|]| | | |]; cbn [mbind res_bind]; try done;
    [|by left; simplify_eq].
  assert (sessions (GetOrCreatConnection from w).1 = sessions w) as Hg.
  { unfold GetOrCreatConnection. case_match; [done|]. by case_match. }
  destruct (GetOrCreatConnection from w) as [w1 c]. cbn in Hg. unfold bind_session, SetNetworkTransport. rewrite Hg.
  destruct (sessions w !! id) as [s|] eqn:Hs; [|done]. destruct (conns w1 !! c) as [conn|]; [|done]. cbn [mbind res_bind].
  destruct (rd_range buf 0 len); cbn [mbind res_bind]; try done. intros HE. right.
  exists id, s, c, (conn_loop_ conn). split; [done|]. case_match; [|done]. by simplify_eq.
Qed.

Lemma CreateWebRTCSession_sessions ssl ip port w w' id :
  world_inv w → CreateWebRTCSession ssl ip port w = Ok (w', id) →
  ∃ s, sessions w' = sessions w ++ [s] ∧ life_inv (tr s) ∧ phase_of (tr s) = Fresh.
Proof.
  intros Hw. unfold CreateWebRTCSession.
  pose proof (newWebRtcTransport_spec (seed w) (random_chars w) ssl (StunSerializeBuffer w) ip port
    (wv_chars w Hw) (wv_buffer w Hw)) as ([[sd chars] t] & Ht & _ & Hi & _)%wp_Ok. rewrite Ht. cbn [mbind res_bind].
  intros HE. simplify_eq. eexists. split; [done|]. cbn.
  unfold newWebRtcTransport in Ht.
  destruct (GetRandomString _ _ 4) as [[[s1 c1] f]| | | |]; cbn [mbind res_bind] in Ht; try done.
  destruct (GetRandomString _ _ 24) as [[[s2 c2] g]| | | |]; cbn [mbind res_bind] in Ht; try done.
  simplify_eq. split; [|done]. split; [done|done|]. cbn. split; [done|by intros []].
Qed.

(** *** Every step *)

(** The datagrams a step may give to a session: the one received in it, and those
    that wait in the queue. *)
Definition given (s : System) (l : Label) (id : session_id) (buf : list Z) (a : sockaddr_in) : Prop :=
  l = Received buf a ∨ (id, OnInput buf a) ∈ s.2.

Lemma run_task_evolve (gave : session_id → list Z → sockaddr_in → Prop) fresh id t w w' e :
  world_inv w → all_live w → fresh_ok fresh → task_ok t → acceptable w id t →
  (∀ buf a, t = OnInput buf a → gave id buf a) →
  run_task fresh id t w = Ok (w', e) → sessions_evolve gave w w'.
Proof using All.
  intros Hw Hl Hf Ht Hacc Hgave HE. unfold run_task in HE. eapply on_session_evolve; [done|done|exact HE|].
  intros s Hs. specialize (Hacc s Hs).
  pose proof (with_buffer_live _ _ (wv_buffer w Hw) (Hl id s Hs)) as Hib. destruct t as [buf from|buf].
  - eapply fine_mono; [by apply OnInputDataPacket_lives|]. intros t' o (i & Hin & Hlv). exists i. split; [done|].
    intros a ->. inversion Hin; subst. exists buf. split; [by apply Hgave|done].
  - eapply fine_mono; [by apply EncryptAndSend_lives|]. intros t' o Hlv. by exists Nothing.
Qed.

Lemma failed_evolve gave fresh c buf_ uninit w w' e :
  world_inv w → all_live w → fresh_ok fresh → held buf_ → connection_acceptable w c buf_ (RecvFailed uninit) →
  ConnectionHandleRead fresh c buf_ (RecvFailed uninit) w = Ok (w', e) → sessions_evolve gave w w'.
Proof using All.
  intros Hw Hl Hf Hh Hacc HE. unfold ConnectionHandleRead in HE. cbn [receive] in HE.
  destruct (conns w !! c) as [conn|] eqn:Hc; [|done]. destruct (callback_ conn) as [id|] eqn:Hcb.
  2: { simplify_eq. by apply same_evolve. }
  eapply on_session_evolve; [done|done|exact HE|]. intros s Hs. specialize (Hacc conn id s Hc Hcb Hs).
  pose proof (held_len buf_ Hh) as Hz. destruct Hh as [Hb _].
  pose proof (with_buffer_live _ _ (wv_buffer w Hw) (Hl id s Hs)) as Hib.
  eapply fine_mono; [apply OnInputDataPacket_failed_lives; try done; lia|].
  intros t' o (i & Hi & Hlv). exists i. split; [done|]. intros a ->. by destruct Hi.
Qed.

Lemma connection_evolve (gave : session_id → list Z → sockaddr_in → Prop) fresh c buf_ r w w' e :
  world_inv w → all_live w → fresh_ok fresh → held buf_ → receive_ok r → connection_acceptable w c buf_ r →
  (∀ id buf a, label_of r = Received buf a → gave id buf a) →
  ConnectionHandleRead fresh c buf_ r w = Ok (w', e) → sessions_evolve gave w w'.
Proof using All.
  intros Hw Hl Hf Hh Hr Hacc Hgave HE. destruct r as [data from|uninit]; [|by eapply failed_evolve].
  destruct (conns w !! c) as [conn|] eqn:Hc; [|unfold ConnectionHandleRead in HE; cbn [receive] in HE; by rewrite Hc in HE].
  destruct (callback_ conn) as [id|] eqn:Hcb.
  2: { unfold ConnectionHandleRead in HE; cbn [receive] in HE. rewrite Hc, Hcb in HE. simplify_eq. by apply same_evolve. }
  assert (acceptable w id (OnInput (take BUF_SIZE data) from)) as Hacc' by (intros s Hs; by eapply Hacc).
  erewrite ConnectionHandleRead_datagram in HE by done.
  eapply run_task_evolve; [done|done|done| |exact Hacc'| |exact HE].
  - destruct Hr. by apply take_datagram_ok.
  - intros buf a [= <- <-]. by apply Hgave.
Qed.

Lemma server_evolve gave buf_ r w w' e :
  world_inv w → all_live w → held buf_ → receive_ok r → ServerHandleRead buf_ r w = Ok (w', e) →
  sessions_evolve gave w w' ∧
  ∀ id buf a, (id, OnInput buf a) ∈ omap queued e → label_of r = Received buf a.
Proof.
  intros Hw Hl Hh Hr HE. rewrite ServerHandleRead_spec in HE by done. destruct r as [data from|uninit].
  2: { cbn in HE. simplify_eq. split; [by apply same_evolve|]. intros ? ? ? []%not_elem_of_nil. }
  cbn [server_receives] in HE. split.
  - apply HandlePacket_sessions in HE as [E|(id & s & c & loop & Hs & E)]; [by apply same_evolve|].
    eapply insert_evolve; [done|done|done|]. pose proof (Hl id s Hs) as [Hi Ho Hp].
    apply evolves_idle; [|done|done]. split; [|done|done]. destruct Hi as [? ? ? ? [? ?]]. by split.
  - destruct Hr as [Hb Hfrom]. pose proof (HandlePacket_spec _ _ w (take_datagram_ok _ _ Hb Hfrom) Hw) as Hspec.
    rewrite HE in Hspec. destruct Hspec as (_ & _ & Hroute). intros id buf a Hin.
    destruct Hroute as [|p i c s loop w' _ _ _ _ _ _]; [by apply not_elem_of_nil in Hin|].
    cbn in Hin. apply list_elem_of_singleton in Hin. by simplify_eq.
Qed.

Lemma sys_step_evolve s l s' :
  sys_inv s → all_live s.1 → sys_step s l (Ok s') →
  sessions_evolve (given s l) s.1 s'.1 ∧
  ∀ id buf a, (id, OnInput buf a) ∈ s'.2 → given s l id buf a.
Proof using All.
  intros [Hw Hq] Hl Hstep. inversion Hstep as [ssl ip port w q E|id x w q Hx E|buf_ r w q Hh Hr E|fresh c buf_ r w q Hfr Hc Hh Hr Hacc E|buf w q Hz E|fresh w q1 id t q2 Hfr Hacc E];
    clear Hstep; subst; cbn [fst snd] in *.
  - destruct (CreateWebRTCSession ssl ip port w) as [[w' id]| | | |] eqn:HE; try done. simplify_eq/=.
    destruct (CreateWebRTCSession_sessions _ _ _ _ _ _ Hw HE) as (x & Es & Hi & Hp).
    split; [|intros; by right]. split; cbn; rewrite Es.
    + intros i y Hy. exists y. split; [by apply lookup_app_l_Some|]. eapply evolves_refl, Hl, Hy.
    + intros i y Hn Hy. apply lookup_app_Some in Hy as [Hy|[_ Hy]]; [cbn in Hn; congruence|].
      by apply list_lookup_singleton_Some in Hy as [_ <-].
  - simplify_eq/=. split; [|intros; by right]. eapply insert_evolve; [done|done|done|].
    pose proof (Hl id x Hx) as [Hi Ho Hp]. apply evolves_idle; [|done|done]. split; [|done|done].
    destruct Hi as [? ? ? ? [? ?]]. by split.
  - destruct (ServerHandleRead buf_ r w) as [[w' e]| | | |] eqn:HE; try done. simplify_eq/=.
    destruct (server_evolve (given (w, q) (label_of r)) buf_ r w w' e) as [Hev Hin]; [done..|]. split; [done|].
    intros id buf a [Hi|Hi]%elem_of_app; [by right|]. left. by eapply Hin.
  - destruct (ConnectionHandleRead fresh c buf_ r w) as [[w' e]| | | |] eqn:HE; try done. simplify_eq/=.
    split; [|intros; by right]. eapply connection_evolve; try done. intros i buf a. by left.
  - destruct (WriteRtpCallback buf w) as [e| | | |] eqn:HE; try done. simplify_eq/=.
    split; [by apply same_evolve|]. intros id b a [Hi|Hi]%elem_of_app; [by right|]. exfalso.
    by destruct (broadcast_queued buf w e id (OnInput b a) Hw HE Hi).
  - destruct (run_task fresh id t w) as [[w' e]| | | |] eqn:HE; try done. simplify_eq/=.
    apply Forall_app in Hq as [_ [[_ Ht] _]%Forall_cons]. cbn in Ht. split.
    + eapply run_task_evolve; [done..| |exact HE]. intros buf a ->. right. apply elem_of_app. right. apply list_elem_of_here.
    + intros i buf a Hi. right. apply elem_of_app in Hi as [Hi|Hi]; apply elem_of_app; [by left|right; by apply list_elem_of_further].
Qed.
(** *** Every history *)
Lemma proves_same t t' buf : same_credentials t t' → proves (ice_server_ t) buf → proves (ice_server_ t') buf.
Proof.
  intros [Hu Hp] (p & HP & Hk & Hc & Ha). exists p. split; [done|]. split; [done|]. split; [done|].
  unfold Ice.current_ok. by rewrite Hu, Hp.
Qed.

(** The datagrams in the queue were received, and every peer sent one that proves
    the password. *)
Record hist_inv (h : list Label) (s : System) : Prop := {
  hi_sys : sys_inv s;
  hi_live : all_live s.1;
  hi_queue id buf a : (id, OnInput buf a) ∈ s.2 → Received buf a ∈ h;
  hi_peer id x a : sessions s.1 !! id = Some x → peer_of (phase_of (tr x)) = Some a →
    ∃ buf, Received buf a ∈ h ∧ proves (ice_server_ (tr x)) buf;
}.

Lemma given_received h s l id buf a : hist_inv h s → given s l id buf a → Received buf a ∈ l :: h.
Proof.
  intros Hi [->|Hin]; [apply list_elem_of_here|]. apply list_elem_of_further. by eapply hi_queue.
Qed.

Lemma hist_step_inv h s l s' : hist_inv h s → sys_step s l (Ok s') → hist_inv (l :: h) s'.
Proof using All.
  intros Hi Hs. destruct (sys_step_evolve s l s' (hi_sys h s Hi) (hi_live h s Hi) Hs) as [[Hold Hnew] Hq].
  assert (∀ id x', sessions s'.1 !! id = Some x' →
    (life_inv (tr x') ∧ phase_of (tr x') = Fresh) ∨
    ∃ x, sessions s.1 !! id = Some x ∧ evolves (given s l id) x x') as Hcase.
  { intros id x' Hx'. destruct (sessions s.1 !! id) as [x|] eqn:Hx; [|left; by eapply Hnew]. right. exists x.
    destruct (Hold id x Hx) as (y & Hy & Hev). by simplify_eq. }
  split.
  - exact (sys_step_fine s l (Ok s') (hi_sys h s Hi) Hs).
  - intros id x' Hx'. by destruct (Hcase id x' Hx') as [[? _]|(x & _ & ? & _)].
  - intros id buf a Hin. eapply given_received; [done|]. by eapply Hq.
  - intros id x' a Hx' Hp. destruct (Hcase id x' Hx') as [[_ Hf]|(x & Hx & _ & Hcred & i & Hlife & Hproof)].
    { by rewrite Hf in Hp. }
    destruct (peer_of (phase_of (tr x))) as [b|] eqn:Hpx.
    + assert (a = b) as -> by (revert Hp Hpx; destruct Hlife; cbn; congruence).
      destruct (hi_peer h s Hi id x b Hx Hpx) as (buf & Hin & Hpr). exists buf.
      split; [by apply list_elem_of_further|by eapply proves_same].
    + assert (i = Proof_of_password a) as Hia by (revert Hp Hpx; destruct Hlife; cbn; congruence).
      destruct (Hproof a Hia) as (buf & Hg & Hpr). exists buf.
      split; [by eapply given_received|by eapply proves_same].
Qed.

Lemma history_hist_inv h s : history h s → hist_inv h s.
Proof using All.
  induction 1 as [pool seed chars buffer Hc Hb|h s l s' _ IH Hs]; [|by eapply hist_step_inv].
  split; [by apply start_inv|done| |done]. intros id buf a []%not_elem_of_nil.
Qed.

(** The server from one state to a later one. *)
Definition sys_next (s s' : System) : Prop := ∃ l, sys_step s l (Ok s').

Lemma steps_later s s' id x :
  rtc sys_next s s' → reachable s → sessions s.1 !! id = Some x →
  ∃ x', sessions s'.1 !! id = Some x' ∧ later (phase_of (tr x)) (phase_of (tr x')).
Proof using All.
  intros Hsteps. revert x. induction Hsteps as [s|s s1 s' [l Hs] _ IH]; intros x Hr Hx.
  { exists x. split; [done|]. reflexivity. }
  destruct Hr as [h Hh]. pose proof (history_hist_inv h s Hh) as Hi.
  destruct (sys_step_evolve s l s1 (hi_sys h s Hi) (hi_live h s Hi) Hs) as [[Hold _] _].
  destruct (Hold id x Hx) as (x1 & Hx1 & _ & _ & i & Hlife & _).
  destruct (IH x1) as (x' & Hx' & Hl); [exists (l :: h); by eapply hist_step|done|].
  exists x'. split; [done|]. transitivity (phase_of (tr x1)); [by eapply life_later|done].
Qed.
End world.

(** ** Properties *)

(** *** A history for the witnesses

    A server with one session, and a request signed with its password. *)
Definition start_world : @World toy_ssl toy_srtp toy_muduo :=
  (@start toy_ssl toy_srtp toy_muduo 1 1 sample_chars Ice.zero_buffer).1.

Definition new_world : @World toy_ssl toy_srtp toy_muduo :=
  match @CreateWebRTCSession toy_ssl toy_srtp toy_muduo 0%nat (str "127.0.0.1") 8000 start_world with
  | Ok (w, _) => w
  | _ => start_world
  end.

Definition new_session : @WebRTCSession toy_ssl toy_srtp :=
  default sample_session (@sessions toy_ssl toy_srtp toy_muduo new_world !! 0%nat).
Definition new_ice : Ice.IceServer := @ice_server_ toy_ssl toy_srtp (@tr toy_ssl toy_srtp new_session).

Definition request : list Z :=
  @wire toy_hmac (Stun.SetPassword (Ice.ice_password new_ice) (SetPriority 1
    (SetUsername (Ice.usernameFragment new_ice ++ str ":")
       (newStunPacket REQUEST BINDING (seqZ 1 12) None 0)))) [0; 0; 0].
Definition request_packet : StunPacket :=
  match Parse request (zlen request) with Ok (Some p) => p | _ => sample_packet end.

Lemma request_parsed : Parse request (zlen request) = Ok (Some request_packet).
Proof. by vm_compute. Qed.

Lemma request_complete : klass request_packet = REQUEST ∧ Ice.complete request_packet.
Proof. split; [by vm_compute|]. repeat split; by vm_compute. Qed.

Lemma request_current : @Ice.current_ok toy_hmac new_ice request request_packet.
Proof.
  split; [left; by vm_compute|]. split; [exists []; by vm_compute|]. exists 44. split; by vm_compute.
Qed.

Lemma request_received : receive_ok (Datagram request sample_addr).
Proof. split; [|apply Ice.sample_tuple_ok]. apply (bool_decide_unpack _). by vm_compute. Qed.

Lemma new_history : @history toy_hmac toy_ssl toy_srtp toy_muduo [Silent] (new_world, []).
Proof.
  eapply hist_step; [apply (@hist_start toy_hmac toy_ssl toy_srtp toy_muduo 1 1 sample_chars Ice.zero_buffer); [done|apply Ice.zero_buffer_ok]|].
  pose proof (@step_create toy_hmac toy_ssl toy_srtp toy_muduo 0%nat (str "127.0.0.1") 8000 start_world []) as Hs.
  unfold new_world.
  destruct (@start_create toy_hmac toy_ssl toy_srtp toy_muduo 1 1 sample_chars Ice.zero_buffer 0%nat
    (str "127.0.0.1") 8000 eq_refl Ice.zero_buffer_ok) as (w & HE & _).
  change (@CreateWebRTCSession toy_ssl toy_srtp toy_muduo 0%nat (str "127.0.0.1") 8000 start_world = Ok (w, 0%nat)) in HE.
  rewrite HE in Hs |- *. exact Hs.
Qed.

Lemma new_session_there :
  @sessions toy_ssl toy_srtp toy_muduo new_world !! 0%nat = Some new_session ∧
  @rtc_sessions toy_ssl toy_srtp toy_muduo new_world !! Ice.usernameFragment new_ice = Some 0%nat.
Proof.
  split; [|vm_compute; reflexivity]. unfold new_session.
  destruct (lookup_lt_is_Some_2 (@sessions toy_ssl toy_srtp toy_muduo new_world) 0) as [s ->]; [vm_compute; lia|done].
Qed.

Lemma request_datagram : datagram_ok (request, sample_addr).
Proof.
  destruct request_received as [Hb Ha]. split; [done|]. split; [by vm_compute|done].
Qed.

Lemma request_history :
  ∃ w1 w2 s2,
    @sys_step toy_hmac toy_ssl toy_srtp toy_muduo (new_world, []) (Received request sample_addr)
      (Ok (w1, [(0%nat, OnInput request sample_addr)])) ∧
    @sys_step toy_hmac toy_ssl toy_srtp toy_muduo (w1, [(0%nat, OnInput request sample_addr)]) Silent (Ok (w2, [])) ∧
    @sessions toy_ssl toy_srtp toy_muduo w2 !! 0%nat = Some s2 ∧
    @remote_socket_address_ toy_ssl toy_srtp (webrtc_transport_ s2) = Some sample_addr.
Proof.
  pose proof (@history_inv toy_hmac toy_ssl toy_ssl_spec toy_srtp toy_srtp_spec toy_srtp_local toy_muduo _ _ new_history)
    as [Hw _]. cbn [fst] in Hw. destruct new_session_there as [Hs Hreg]. destruct request_complete as [Hk Hc].
  destruct (@first_request_answered toy_hmac toy_ssl toy_srtp toy_muduo toy_muduo_spec Ice.zero_buffer request
    sample_addr new_world 0%nat new_session request_packet request_datagram Hw Hs Hreg)
    as (w1 & w2 & c & loop & conn & HH & HT & _ & _ & s2 & Hs2 & Hr);
    [vm_compute; congruence|vm_compute; reflexivity|exact request_parsed|exact Hk|exact Hc|exact request_current|].
  exists w1, w2, s2. split; [|split; [|split; [exact Hs2|exact Hr]]].
  - pose proof (@step_server toy_hmac toy_ssl toy_srtp toy_muduo sample_buffer (Datagram request sample_addr) new_world []
      sample_buffer_held request_received) as Hstep.
    rewrite ServerHandleRead_spec in Hstep by (apply sample_buffer_held || apply request_received || exact Hw).
    unfold server_receives, label_of in Hstep. rewrite (take_ge request) in Hstep by (vm_compute; lia).
    rewrite HH in Hstep. exact Hstep.
  - pose proof (@step_task toy_hmac toy_ssl toy_srtp toy_muduo Ice.zero_buffer w1 [] 0%nat (OnInput request sample_addr) []) as Hstep.
    rewrite HT in Hstep. apply Hstep; [apply zero_fresh|]. intros s _ Hrtp. exfalso. revert Hrtp. by vm_compute.
Qed.





(** Whatever the server does next, a session goes on living: it keeps the peer
    once it has one, and once secured it stays secured. *)
Lemma phases_go_forward `{HmacSha1} `{Dtls.OpenSSL} `{!OpenSSLSpec} `{LibSrtp} `{!LibSrtpSpec} `{!LibSrtpLocal} `{Muduo}
    s s' id x :
  reachable s → rtc sys_next s s' → sessions s.1 !! id = Some x →
  ∃ x', sessions s'.1 !! id = Some x' ∧ later (phase_of (tr x)) (phase_of (tr x')).
Proof. intros Hr Hs Hx. by eapply steps_later. Qed.

Lemma phases_go_forward_witness :
  ∃ s' x', @sessions toy_ssl toy_srtp toy_muduo s' !! 0%nat = Some x' ∧
    @phase_of toy_ssl toy_srtp (tr new_session) = Fresh ∧ @phase_of toy_ssl toy_srtp (tr x') ≠ Fresh ∧
    later (@phase_of toy_ssl toy_srtp (tr new_session)) (@phase_of toy_ssl toy_srtp (tr x')).
Proof.
  destruct request_history as (w1 & w2 & s2 & H1 & Hs & Hx & Hr).
  destruct (@phases_go_forward toy_hmac toy_ssl toy_ssl_spec toy_srtp toy_srtp_spec toy_srtp_local toy_muduo
    (new_world, []) (w2, []) 0%nat new_session) as (x' & Hx' & Hl).
  - eexists. exact new_history.
  - eapply rtc_l; [eexists; exact H1|]. eapply rtc_l; [eexists; exact Hs|apply rtc_refl].
  - apply new_session_there.
  - exists w2, x'. split; [exact Hx'|]. split; [vm_compute; reflexivity|]. split; [|exact Hl].
    cbn [fst] in Hx'. rewrite Hx in Hx'. injection Hx' as <-. rewrite phase_fresh. unfold tr. rewrite Hr. congruence.
Defined.
End Lifecycle.
