(* ===== verification/Net.v ===== *)
(** * The sockets of UdpServer and UdpConnection (src/net)

    Session.v has the connection table and the receive handlers; this file adds
    the sockets behind them: the constructors, Start, DissolveUdpSock, and
    GetOrCreatConnection with its system calls.  Sockets are modelled as far as
    the calls of the source set their state; whether a call succeeds is an
    argument.  muduo's wrappers make one call each: bindAddress stops the process
    when bind fails, the other failures are only logged. *)
From S2P Require Import Prelude ByteOps Crypto StunPacket StunParse StunAuth StunSerialize StunRoundtrip IceServer Srtp Dtls DtlsProofs Rtp WebRtc WebRtcProofs Session Locality SessionProofs.

Module Net.
Import Crypto Stun Srtp WebRtc StunAuth StunSerialize WebRtcProofs Session Locality SessionProofs.

(** ** Sockets *)
Record Sock := mkSock {
  reuse_addr : bool;
  reuse_port : bool;
  local : option sockaddr_in;
  peer : option sockaddr_in;
}.

(** The open sockets by file descriptor. *)
Abbreviation OS := (gmap Z Sock).

(** [::socket]: a descriptor that was free, or a negative number. *)
Definition open_socket (fd : Z) (os : OS) : OS :=
  if fd <? 0 then os else <[fd := mkSock false false None None]> os.

Definition setReuseAddr (fd : Z) (on : bool) (os : OS) : OS :=
  alter (λ s, mkSock on s.(reuse_port) s.(local) s.(peer)) fd os.
Definition setReusePort (fd : Z) (on : bool) (os : OS) : OS :=
  alter (λ s, mkSock s.(reuse_addr) on s.(local) s.(peer)) fd os.

(** A descriptor that is not open cannot be bound. *)
Definition bindAddress (ok : bool) (fd : Z) (a : sockaddr_in) (os : OS) : res OS :=
  match os !! fd with
  | Some s => if ok then Ok (<[fd := mkSock s.(reuse_addr) s.(reuse_port) (Some a) s.(peer)]> os)
              else Aborted "sockets::bindOrDie"
  | None => Aborted "sockets::bindOrDie"
  end.

(** [::connect]: to an address, or with AF_UNSPEC to none.  On failure nothing
    changes. *)
Definition connect (ok : bool) (fd : Z) (to : option sockaddr_in) (os : OS) : OS :=
  if ok then alter (λ s, mkSock s.(reuse_addr) s.(reuse_port) s.(local) to) fd os else os.

(** getLocalAddr: zeros when getsockname fails. *)
Definition any_addr : sockaddr_in := mkSockaddrIn [0; 0] [0; 0; 0; 0].
Definition getLocalAddr (ok : bool) (fd : Z) (os : OS) : sockaddr_in :=
  match os !! fd with
  | Some s => if ok then default any_addr s.(local) else any_addr
  | None => any_addr
  end.

(** ** The server and its connections *)

(** The callbacks say whether the functions are set. *)
Record UdpServer := mkUdpServer {
  server_loop_ : Z;
  server_fd : Z;
  thread_num : Z;
  server_callback_ : bool;
  thread_init_callback_ : bool;
  pool_started : bool;
  server_reading : bool;
}.

(** The constructor, given the descriptor of [::socket] and the result of bind. *)
Definition newUdpServer (fd : Z) (bound : bool) (loop : option Z) (listen_addr : sockaddr_in) (num_threads : Z)
    (os : OS) : res (UdpServer * OS) :=
  match loop with
  | None => Aborted "'loop' Must be non NULL"
  | Some loop =>
      let os := open_socket fd os in
      let os := setReuseAddr fd true os in
      let os := setReusePort fd true os in
      os ← bindAddress bound fd listen_addr os;
      Ok (mkUdpServer loop fd num_threads false false false false, os)
  end.

Definition SetPacketCallback (s : UdpServer) : UdpServer :=
  mkUdpServer s.(server_loop_) s.(server_fd) s.(thread_num) true s.(thread_init_callback_) s.(pool_started)
    s.(server_reading).

Definition SetThreadInitCallback (s : UdpServer) : UdpServer :=
  mkUdpServer s.(server_loop_) s.(server_fd) s.(thread_num) s.(server_callback_) true s.(pool_started)
    s.(server_reading).

Definition Start (s : UdpServer) : UdpServer :=
  mkUdpServer s.(server_loop_) s.(server_fd) s.(thread_num) s.(server_callback_) s.(thread_init_callback_) true true.

(** [connected] is not looked at. *)
Definition newUdpConnection (bound connected : bool) (loop : Z) (name : string) (sockfd : Z)
    (local_addr peer_addr : sockaddr_in) (os : OS) : res (UdpConnection * OS) :=
  let os := setReuseAddr sockfd true os in
  let os := setReusePort sockfd true os in
  os ← bindAddress bound sockfd local_addr os;
  Ok (mkConnection loop name peer_addr None false, connect connected sockfd (Some peer_addr) os).

(** The address of getsockname with its family set to AF_UNSPEC. *)
Definition DissolveUdpSock (named connected : bool) (fd : Z) (os : OS) : Z * OS :=
  if negb named then (-1, os)
  else if negb connected then (-1, os)
  else (0, connect true fd None os).

Lemma newUdpServer_fails fd bound loop listen threads :
  fd < 0 ∨ bound = false → newUdpServer fd bound (Some loop) listen threads ∅ = Aborted "sockets::bindOrDie".
Proof.
  intros Hf. unfold newUdpServer, bindAddress, setReuseAddr, setReusePort, open_socket.
  destruct (Z.ltb_spec fd 0).
  - by rewrite !lookup_alter_eq, lookup_empty.
  - destruct Hf as [Hlt | ->]; [lia|]. by rewrite !alter_insert_eq, lookup_insert_eq.
Qed.

(** The results of the calls GetOrCreatConnection makes for a new address. *)
Record ConnCalls := mkConnCalls {
  cc_local : bool;
  cc_fd : Z;
  cc_bind : bool;
  cc_connect : bool;
  cc_dissolve_name : bool;
  cc_dissolve_connect : bool;
}.

Section net.
Context `{Dtls.OpenSSL} `{LibSrtp} `{Muduo}.

(** The descriptors of the connections in the order of [conns]. *)
Record NetState := mkNet {
  world : World;
  server : UdpServer;
  conn_fds : list Z;
  os : OS;
}.

Definition GetOrCreatConnection (o : ConnCalls) (remote_addr : sockaddr_in) (n : NetState) :
    res (NetState * connection_id) :=
  let w := n.(world) in
  let key := toIpPort remote_addr in
  match w.(connections_) !! key with
  | Some c => Ok (n, c)
  | None =>
      let '(io_loop, pool) := getNextLoop w.(pool) in
      let local_addr := getLocalAddr o.(cc_local) n.(server).(server_fd) n.(os) in
      let os := open_socket o.(cc_fd) n.(os) in
      '(connection, os) ←
        newUdpConnection o.(cc_bind) o.(cc_connect) io_loop key o.(cc_fd) local_addr remote_addr os;
      let c := length w.(conns) in
      let w := mkWorld w.(sessions) w.(rtc_sessions) (w.(conns) ++ [connection]) (<[key := c]> w.(connections_))
                 pool w.(seed) w.(random_chars) w.(StunSerializeBuffer) in
      let '(_, os) := DissolveUdpSock o.(cc_dissolve_name) o.(cc_dissolve_connect) n.(server).(server_fd) os in
      Ok (mkNet w n.(server) (n.(conn_fds) ++ [o.(cc_fd)]) os, c)
  end.

Definition set_world (w : World) (n : NetState) : NetState := mkNet w n.(server) n.(conn_fds) n.(os).

(** WebRTCSessionFactory::HandlePacket with the sockets. *)
Definition HandlePacket (o : ConnCalls) (buf : list Z) (len : Z) (peer_addr : sockaddr_in) (n : NetState) :
    res (NetState * list Effect) :=
  session ← find_session buf len n.(world);
  match session with
  | None => Ok (n, [])
  | Some id =>
      '(n, c) ← GetOrCreatConnection o peer_addr n;
      '(w, effects) ← bind_session id c buf len peer_addr n.(world);
      Ok (set_world w n, effects)
  end.

(** UdpServer::HandleRead: without a callback the datagram is dropped. *)
Definition HandleRead (o : ConnCalls) (buf_ : list Z) (r : Receive) (n : NetState) : res (NetState * list Effect) :=
  let '(buf, recvLen, remote_addr) := receive buf_ r in
  if n.(server).(server_callback_) then HandlePacket o buf recvLen remote_addr n else Ok (n, []).

(** ** Proofs *)

(** Whatever the calls answer, the table changes as Session.v says, or bind has
    stopped the process. *)
Lemma GetOrCreatConnection_table o a n :
  match GetOrCreatConnection o a n with
  | Ok (n', c) => (world n', c) = Session.GetOrCreatConnection a (world n)
  | Aborted m => m = "sockets::bindOrDie"
  | _ => False
  end.
Proof.
  unfold GetOrCreatConnection, Session.GetOrCreatConnection. destruct (connections_ (world n) !! toIpPort a); [done|].
  destruct (getNextLoop (pool (world n))) as [loop pool']. unfold newUdpConnection, bindAddress.
  destruct (_ !! cc_fd o) as [s|]; [|done]. destruct (cc_bind o); [|done]. cbn [mbind res_bind].
  by destruct (DissolveUdpSock _ _ _ _).
Qed.

(** The sockets: the server's takes datagrams from anywhere, each connection's from
    its peer only, and all have the server's address. *)
Record net_inv (listen : sockaddr_in) (n : NetState) : Prop := {
  ni_world : world_inv (world n);
  ni_server : os n !! server_fd (server n) = Some (mkSock true true (Some listen) None);
  ni_conns : Forall2 (λ fd conn, os n !! fd = Some (mkSock true true (Some listen) (Some (peer_addr_ conn))))
    (conn_fds n) (conns (world n));
  ni_all fd s : os n !! fd = Some s → fd = server_fd (server n) ∨ fd ∈ conn_fds n;
}.

Definition connected_to (a : sockaddr_in) (os : OS) : gset Z := dom (filter (λ x, peer x.2 = Some a) os).

Definition calls_ok (o : ConnCalls) (n : NetState) : Prop :=
  cc_local o = true ∧ 0 ≤ cc_fd o ∧ os n !! cc_fd o = None ∧ cc_bind o = true ∧ cc_connect o = true ∧
  cc_dissolve_name o = true ∧ cc_dissolve_connect o = true.

(** A new connection's socket, and the server's as it was. *)
Lemma connection_socket o a n listen :
  net_inv listen n → calls_ok o n → connections_ (world n) !! toIpPort a = None →
  ∃ n' c, GetOrCreatConnection o a n = Ok (n', c) ∧ server n' = server n ∧
    conn_fds n' = conn_fds n ++ [cc_fd o] ∧
    os n' = <[cc_fd o := mkSock true true (Some listen) (Some a)]> (os n).
Proof.
  intros Hn (Hl & Hfd & Hfree & Hb & Hc & Hd1 & Hd2) Hk. unfold GetOrCreatConnection. rewrite Hk.
  destruct (getNextLoop (pool (world n))) as [loop pool'].
  pose proof (ni_server listen n Hn) as Hs. assert (cc_fd o ≠ server_fd (server n)) as Hne by congruence.
  unfold getLocalAddr. rewrite Hs, Hl. cbn [local default from_option id].
  unfold open_socket. destruct (Z.ltb_spec (cc_fd o) 0); [lia|].
  unfold newUdpConnection, bindAddress, setReuseAddr, setReusePort. rewrite !alter_insert_eq, lookup_insert_eq, Hb, Hc.
  cbn [mbind res_bind reuse_addr reuse_port local peer].
  unfold DissolveUdpSock, connect. rewrite Hd1, Hd2. cbn [negb].
  rewrite insert_insert_eq, alter_insert_eq, alter_insert_ne by done. eexists _, _. split; [done|].
  cbn [server conn_fds os]. split; [done|]. split; [done|]. cbn [reuse_addr reuse_port local]. f_equal.
  apply alter_id. intros s Hs'. rewrite Hs in Hs'. by injection Hs' as <-.
Qed.
Lemma GetOrCreatConnection_inv listen o a n :
  net_inv listen n → calls_ok o n →
  ∃ n' c, GetOrCreatConnection o a n = Ok (n', c) ∧ net_inv listen n' ∧
    (world n', c) = Session.GetOrCreatConnection a (world n).
Proof.
  intros Hn Ho. pose proof (GetOrCreatConnection_table o a n) as Ht.
  pose proof (GetOrCreatConnection_spec a (world n) (ni_world listen n Hn)) as Hw.
  destruct (connections_ (world n) !! toIpPort a) as [c|] eqn:Hk.
  { unfold GetOrCreatConnection in *. rewrite Hk in *. exists n, c. done. }
  destruct (connection_socket o a n listen Hn Ho Hk) as (n' & c & HE & Hsrv & Hfds & Hos). rewrite HE in Ht.
  exists n', c. split; [done|]. split; [|done]. rewrite <- Ht in Hw. destruct Hw as (Hw' & _ & _ & _ & [tail Hpre]).
  destruct Ho as (_ & _ & Hfree & _). pose proof (ni_server listen n Hn) as Hs.
  assert (cc_fd o ≠ server_fd (server n)) as Hne by congruence.
  unfold Session.GetOrCreatConnection in Ht. rewrite Hk in Ht.
  destruct (getNextLoop (pool (world n))) as [loop pool']. injection Ht as Hwn Hcn.
  assert (conns (world n') = conns (world n) ++ [mkConnection loop (toIpPort a) a None false]) as Hcs by (by rewrite Hwn).
  split; [done|by rewrite Hsrv, Hos, lookup_insert_ne| |].
  - rewrite Hfds, Hcs, Hos. apply Forall2_app; [|constructor; [apply lookup_insert_eq|constructor]].
    eapply Forall2_impl; [apply (ni_conns listen n Hn)|]. intros fd conn Hfd. rewrite lookup_insert_ne by congruence. done.
  - intros fd s Hfd. rewrite Hsrv, Hfds. rewrite Hos in Hfd. apply lookup_insert_Some in Hfd as [[<- _]|[_ Hfd]].
    + right. apply elem_of_app. right. apply list_elem_of_here.
    + destruct (ni_all listen n Hn fd s Hfd) as [->|Hin]; [by left|]. right. apply elem_of_app. by left.
Qed.

(** The sockets connected to a peer in the table: its connection's and no other. *)
Lemma connected_unique `{!MuduoSpec} listen n a c :
  net_inv listen n → connections_ (world n) !! toIpPort a = Some c →
  ∃ fd, conn_fds n !! c = Some fd ∧ connected_to a (os n) = {[fd]}.
Proof.
  intros Hn Hc. pose proof (ni_world listen n Hn) as Hw. apply (wv_table _ Hw) in Hc as (conn & Hlc & Hname).
  assert (∀ i x, conns (world n) !! i = Some x → peer_addr_ x = a → i = c) as Huniq.
  { intros i x Hx Hp. pose proof (Forall_lookup_1 _ _ _ _ (wv_conns _ Hw) Hx) as [Hxn _].
    assert (connections_ (world n) !! toIpPort a = Some i) as Hi by (apply (wv_table _ Hw); exists x; split; congruence).
    assert (connections_ (world n) !! toIpPort a = Some c) as Hc' by (apply (wv_table _ Hw); by exists conn). congruence. }
  assert (peer_addr_ conn = a) as Hpa.
  { pose proof (Forall_lookup_1 _ _ _ _ (wv_conns _ Hw) Hlc) as [Hn' _]. apply (inj toIpPort (Inj := toIpPort_inj)). congruence. }
  destruct (Forall2_lookup_r _ _ _ _ _ (ni_conns listen n Hn) Hlc) as (fd & Hfd & Hsock). exists fd. split; [done|].
  apply set_eq. intros x. rewrite elem_of_singleton. unfold connected_to. rewrite elem_of_dom. split.
  - intros [s Hs]. apply map_lookup_filter_Some in Hs as [Hs Hp]. cbn in Hp.
    destruct (ni_all listen n Hn x s Hs) as [->|Hin].
    { rewrite (ni_server listen n Hn) in Hs. injection Hs as <-. done. }
    apply list_elem_of_lookup in Hin as (i & Hi).
    destruct (Forall2_lookup_l _ _ _ _ _ (ni_conns listen n Hn) Hi) as (y & Hy & Hsock').
    rewrite Hs in Hsock'. injection Hsock' as ->. cbn in Hp. injection Hp as Hp.
    rewrite (Huniq i y Hy Hp) in Hi. congruence.
  - intros ->. exists (mkSock true true (Some listen) (Some (peer_addr_ conn))).
    apply map_lookup_filter_Some. split; [done|]. cbn. by rewrite Hpa.
Qed.

(** A server just constructed, with no connections. *)
Lemma newUdpServer_inv fd loop listen threads w :
  0 ≤ fd → world_inv w → conns w = [] →
  ∃ srv sockets, newUdpServer fd true (Some loop) listen threads ∅ = Ok (srv, sockets) ∧
    srv = mkUdpServer loop fd threads false false false false ∧ net_inv listen (mkNet w srv [] sockets).
Proof.
  intros Hfd Hw Hc. unfold newUdpServer, open_socket. destruct (Z.ltb_spec fd 0); [lia|].
  unfold bindAddress, setReuseAddr, setReusePort. rewrite !alter_insert_eq, lookup_insert_eq. cbn [mbind res_bind].
  eexists _, _. split; [done|]. split; [done|]. rewrite insert_insert_eq.
  split; cbn [world server conn_fds os server_fd]; [done|apply lookup_insert_eq|by rewrite Hc|].
  intros x s [[<- _]|[_ Hx]]%lookup_insert_Some; [by left|by rewrite lookup_empty in Hx].
Qed.

(** A connect that fails is not noticed: the connection is there, and its socket
    takes datagrams from anyone. *)
Lemma connect_failure_unnoticed listen n o a :
  net_inv listen n → connections_ (world n) !! toIpPort a = None →
  cc_local o = true → 0 ≤ cc_fd o → os n !! cc_fd o = None → cc_bind o = true → cc_connect o = false →
  ∃ n' c, GetOrCreatConnection o a n = Ok (n', c) ∧
    os n' !! cc_fd o = Some (mkSock true true (Some listen) None).
Proof.
  intros Hn Hk Hl Hfd Hfree Hb Hc. unfold GetOrCreatConnection. rewrite Hk.
  destruct (getNextLoop (pool (world n))) as [loop pool'].
  pose proof (ni_server listen n Hn) as Hs. assert (cc_fd o ≠ server_fd (server n)) as Hne by congruence.
  unfold getLocalAddr. rewrite Hs, Hl. cbn [local default from_option id].
  unfold open_socket. destruct (Z.ltb_spec (cc_fd o) 0); [lia|].
  unfold newUdpConnection, bindAddress, setReuseAddr, setReusePort. rewrite !alter_insert_eq, lookup_insert_eq, Hb, Hc.
  cbn [mbind res_bind reuse_addr reuse_port local peer connect]. unfold DissolveUdpSock, connect.
  destruct (negb (cc_dissolve_name o)), (negb (cc_dissolve_connect o)); eexists _, _; (split; [done|]); cbn [os];
    rewrite ?lookup_alter_ne by done; apply lookup_insert_eq.
Qed.
(** Sessions and callbacks may change, the peers of the connections may not. *)
Definition peers (w : World) : list sockaddr_in := peer_addr_ <$> conns w.

Lemma set_world_inv listen w n :
  net_inv listen n → world_inv w → peers w = peers (world n) → net_inv listen (set_world w n).
Proof.
  intros [Hw Hs Hc Ha] Hw' E. split; cbn; [done|done| |done].
  assert (Forall2 (λ fd a, os n !! fd = Some (mkSock true true (Some listen) (Some a))) (conn_fds n) (peers w)) as Hp
    by (rewrite E; by apply Forall2_fmap_r).
  by apply Forall2_fmap_r in Hp.
Qed.

Lemma bind_session_peers id c buf len a w w' e :
  bind_session id c buf len a w = Ok (w', e) → peers w' = peers w.
Proof.
  unfold bind_session, SetNetworkTransport. destruct (sessions w !! id) as [s|]; [|done].
  destruct (conns w !! c) as [conn|] eqn:Hc; [|done]. cbn [mbind res_bind].
  destruct (rd_range buf 0 len); cbn [mbind res_bind]; try done.
  intros HE. assert (conns w' = <[c := mkConnection (conn_loop_ conn) (name_ conn) (peer_addr_ conn) (Some id) true]> (conns w)) as E.
  { case_match; [|done]. by simplify_eq. }
  unfold peers. rewrite E, list_fmap_insert. cbn [peer_addr_]. apply list_insert_id. by rewrite list_lookup_fmap, Hc.
Qed.

(** The sessions and the table change as in Session.v, or bind has stopped the
    process. *)
Lemma HandlePacket_world o buf len a n :
  HandlePacket o buf len a n = Aborted "sockets::bindOrDie" ∨
  ('(n', e) ← HandlePacket o buf len a n; Ok (world n', e)) = Session.HandlePacket buf len a (world n).
Proof.
  unfold HandlePacket, Session.HandlePacket.
  destruct (find_session buf len (world n)) as [[id|]| | | |]; cbn [mbind res_bind]; try (by right).
  pose proof (GetOrCreatConnection_table o a n) as Ht.
  destruct (GetOrCreatConnection o a n) as [[n1 c]| |m| |]; try done; [|left; by rewrite Ht]. right. rewrite <- Ht.
  cbn [mbind res_bind]. by destruct (bind_session id c buf len a (world n1)) as [[w' e]| | | |].
Qed.

Lemma HandlePacket_inv listen o buf a n :
  net_inv listen n → calls_ok o n → datagram_ok (buf, a) →
  ∃ n' e, HandlePacket o buf (zlen buf) a n = Ok (n', e) ∧ net_inv listen n' ∧
    Session.HandlePacket buf (zlen buf) a (world n) = Ok (world n', e).
Proof.
  intros Hn Ho Hd. pose proof (ni_world listen n Hn) as Hw.
  pose proof (HandlePacket_spec buf a (world n) Hd Hw) as ([w' e'] & HS & Hw' & _)%wp_Ok.
  assert (HandlePacket o buf (zlen buf) a n ≠ Aborted "sockets::bindOrDie" ∧
    ∀ n' e, HandlePacket o buf (zlen buf) a n = Ok (n', e) → net_inv listen n' ∧ world_inv (world n')) as [Hno Hinv].
  { unfold HandlePacket, Session.HandlePacket in *.
    destruct (find_session buf (zlen buf) (world n)) as [[id|]| | | |]; cbn [mbind res_bind] in *; try done;
      [|split; [done|]; intros n' e [= <- <-]; done].
    destruct (GetOrCreatConnection_inv listen o a n Hn Ho) as (n1 & c & -> & Hn1 & Ht). cbn [mbind res_bind].
    rewrite <- Ht in HS. rewrite HS. cbn [mbind res_bind]. split; [done|]. intros n' e [= <- <-].
    split; [|done]. apply set_world_inv; [done|done|]. by eapply bind_session_peers. }
  destruct (HandlePacket_world o buf (zlen buf) a n) as [?|HE]; [done|]. rewrite HS in HE.
  destruct (HandlePacket o buf (zlen buf) a n) as [[n' e]| | | |]; try done. cbn in HE. injection HE as <- <-.
  exists n', e. split; [done|]. split; [by eapply Hinv|done].
Qed.

(** The handler on the receive buffer: the datagram alone matters. *)
Lemma HandlePacket_net_sim d D o len a n :
  d `prefix_of` D → sim eq (HandlePacket o d len a n) (HandlePacket o D len a n).
Proof.
  intros HD. apply sim_bind_eq; [by apply find_session_sim|]. intros [id|]; [|reflexivity].
  apply sim_bind_eq; [reflexivity|]. intros [n1 c].
  apply sim_bind_eq; [by apply bind_session_sim|]. reflexivity.
Qed.

Lemma HandleRead_inv listen o buf_ r n :
  net_inv listen n → calls_ok o n → held buf_ → receive_ok r → server_callback_ (server n) = true →
  ∃ n' e, HandleRead o buf_ r n = Ok (n', e) ∧ net_inv listen n' ∧ server n' = server n ∧
    ServerHandleRead buf_ r (world n) = Ok (world n', e).
Proof.
  intros Hn Ho Hh Hr Hcb. rewrite ServerHandleRead_spec by (done || apply Hn). unfold HandleRead. rewrite Hcb.
  destruct r as [data from|uninit]; cbn [receive server_receives].
  - destruct Hr as [Hb Hf]. destruct (HandlePacket_inv listen o (take BUF_SIZE data) from n Hn Ho (take_datagram_ok _ _ Hb Hf))
      as (n' & e & HE & Hn' & HS). exists n', e. split; [|split; [done|split; [|done]]].
    + rewrite <- HE. apply sim_eq_Ok; [|by rewrite HE]. apply HandlePacket_net_sim. by eexists.
    + revert HE. unfold HandlePacket. destruct (find_session _ _ _) as [[id|]| | | |]; cbn [mbind res_bind]; try done;
        [|by intros [= <- _]].
      destruct (GetOrCreatConnection o from n) as [[n1 c]| | | |] eqn:HG; cbn [mbind res_bind]; try done.
      destruct (bind_session _ _ _ _ _ _) as [[w e']| | | |]; cbn [mbind res_bind]; try done. intros [= <- _]. cbn.
      unfold GetOrCreatConnection in HG. destruct (connections_ (world n) !! toIpPort from); [by simplify_eq|].
      destruct (getNextLoop _). destruct (newUdpConnection _ _ _ _ _ _ _ _) as [[conn os1]| | | |]; try done.
      cbn [mbind res_bind] in HG. destruct (DissolveUdpSock _ _ _ _). by injection HG as <- _.
  - pose proof (held_len buf_ Hh) as Hz. destruct Hh as [Hb _]. exists n, []. split; [|done].
    unfold HandlePacket, find_session. destruct (failed_tests buf_) as (b & _ & _ & _ & -> & _); [lia|].
    cbn [mbind res_bind]. destruct b; [|done]. cbn [negb]. by rewrite failed_Parse by (done || lia).
Qed.
End net.

(** The socket behind a connection.  When the system calls succeed,
    GetOrCreatConnection leaves the sockets in order, changes the connection table as
    Session.v's operation does, and the one socket connected to the address is that
    of the connection it returns. *)
Lemma connection_owns_socket `{Dtls.OpenSSL} `{LibSrtp} `{Muduo} `{!MuduoSpec} listen o a n :
  net_inv listen n → calls_ok o n →
  ∃ n' c fd, GetOrCreatConnection o a n = Ok (n', c) ∧
    (world n', c) = Session.GetOrCreatConnection a (world n) ∧ net_inv listen n' ∧
    conn_fds n' !! c = Some fd ∧ connected_to a (os n') = {[fd]}.
Proof.
  intros Hn Ho. destruct (GetOrCreatConnection_inv listen o a n Hn Ho) as (n' & c & HE & Hn' & Hw).
  pose proof (GetOrCreatConnection_spec a (world n) (ni_world listen n Hn)) as Hs. rewrite <- Hw in Hs.
  destruct Hs as (_ & _ & _ & Hc & _). destruct (connected_unique listen n' a c Hn' Hc) as (fd & Hfd & Hconn).
  by exists n', c, fd.
Qed.

(** C27: the server with its sockets.  When the system calls succeed, a datagram at
    the server changes sessions and connections as Session.v's HandlePacket does and
    leaves the sockets in order: the server's bound to its address and not connected,
    so that new peers still reach it, every connection's bound to the same address
    and connected to its peer.  A session for which the packet is queued sends from
    now on through a connection whose socket is the one connected to the sender. *)
Theorem session_bound_to_socket `{Dtls.OpenSSL} `{LibSrtp} `{Muduo} `{!MuduoSpec} listen o buf from n :
  net_inv listen n → calls_ok o n → datagram_ok (buf, from) →
  ∃ n' effects, HandlePacket o buf (zlen buf) from n = Ok (n', effects) ∧
    Session.HandlePacket buf (zlen buf) from (world n) = Ok (world n', effects) ∧ net_inv listen n' ∧
    ∀ loop id task, RunInLoop loop id task ∈ effects →
      task = OnInput buf from ∧
      ∃ s c fd, sessions (world n') !! id = Some s ∧ network_transport_ s = Some c ∧
        conn_fds n' !! c = Some fd ∧ connected_to from (os n') = {[fd]}.
Proof.
  intros Hn Ho Hd. destruct (HandlePacket_inv listen o buf from n Hn Ho Hd) as (n' & e & HE & Hn' & HS).
  exists n', e. split; [done|]. split; [done|]. split; [done|]. intros loop id task Hin.
  pose proof (HandlePacket_spec buf from (world n) Hd (ni_world listen n Hn)) as Hspec. rewrite HS in Hspec.
  destruct Hspec as (_ & _ & Hr). inversion Hr as [Hno Ew Ee|p i c s l w' _ _ _ _ Hc Hs Ew Ee]; subst.
  { by apply not_elem_of_nil in Hin. }
  apply elem_of_cons in Hin as [[=]|Hin]. apply list_elem_of_singleton in Hin as [= -> -> ->]. split; [done|].
  destruct (connected_unique listen n' from c Hn' Hc) as (fd & Hfd & Hconn). by exists (bound s c l), c, fd.
Qed.

(** *** A server for the witness *)
Definition sample_listen : sockaddr_in := mkSockaddrIn (to_be 2 10000) [0; 0; 0; 0].
Definition sample_calls : ConnCalls := mkConnCalls true 4 true true true true.

Lemma session_bound_to_socket_witness :
  ∃ srv sockets n' effects, newUdpServer 3 true (Some 77) sample_listen 2 ∅ = Ok (srv, sockets) ∧
    @HandlePacket DtlsProofs.toy_ssl toy_srtp toy_muduo sample_calls sample_signed (zlen sample_signed) sample_addr
      (@mkNet DtlsProofs.toy_ssl toy_srtp toy_muduo sample_world srv [] sockets) = Ok (n', effects) ∧
    @net_inv DtlsProofs.toy_ssl toy_srtp toy_muduo sample_listen n' ∧
    ∀ loop id task, RunInLoop loop id task ∈ effects →
      task = OnInput sample_signed sample_addr ∧
      ∃ s c fd, @sessions DtlsProofs.toy_ssl toy_srtp toy_muduo (world n') !! id = Some s ∧
        network_transport_ s = Some c ∧ conn_fds n' !! c = Some fd ∧ connected_to sample_addr (os n') = {[fd]}.
Proof.
  destruct (@newUdpServer_inv DtlsProofs.toy_ssl toy_srtp toy_muduo 3 77 sample_listen 2 sample_world)
    as (srv & sockets & HE & Hsrv & Hn); [done|exact sample_world_inv|reflexivity|].
  exists srv, sockets.
  destruct (@session_bound_to_socket DtlsProofs.toy_ssl toy_srtp toy_muduo toy_muduo_spec sample_listen sample_calls
    sample_signed sample_addr (@mkNet DtlsProofs.toy_ssl toy_srtp toy_muduo sample_world srv [] sockets))
    as (n' & effects & HH & _ & Hn' & Hr).
  - exact Hn.
  - split; [reflexivity|]. split; [done|]. split; [|repeat split].
    vm_compute in HE. injection HE as <- <-. reflexivity.
  - exact (Forall_inv sample_datagrams_ok).
  - exists n', effects. split; [exact HE|]. split; [exact HH|]. split; [exact Hn'|exact Hr].
Defined.
End Net.
