(* ===== verification/Loops.v ===== *)
(** * Event loops: where handlers and tasks run, and what reaches the sockets

    Session.v says what a handler or a task does to the sessions and which calls
    it makes on connections and loops; Net.v has the sockets.  This file puts the
    threads under them: every connection belongs to an event loop, a loop runs the
    functions queued on it in order, UdpConnection::Send insists on running on the
    loop of its connection (assertInLoopThread stops the process otherwise), and
    what it writes leaves from the connection's socket.

    main starts two threads for the connections, so that their loops are not the
    loop of the server and runInLoop always queues. *)
From S2P Require Import Prelude ByteOps Crypto StunPacket StunParse StunAuth StunSerialize StunRoundtrip IceServer Srtp Dtls DtlsProofs Rtp WebRtc WebRtcProofs Session Locality SessionProofs Net.

Module Loops.
Import Crypto Stun Srtp WebRtc StunAuth StunSerialize DtlsProofs WebRtcProofs Session Locality SessionProofs Net.

(** ** Threads

    A thread is named by the loop it runs; the FFmpeg thread runs none. *)
Abbreviation Thread := (option Z).

Definition not_in_loop : string := "EventLoop::abortNotInLoopThread".

(** [EventLoop::assertInLoopThread]. *)
Definition assertInLoopThread (me : Thread) (loop : Z) : res unit :=
  if decide (me = Some loop) then Ok tt else Aborted not_in_loop.

(** A datagram handed to the kernel: where it goes, and what is in it. *)
Definition Sending : Type := sockaddr_in * list Z.

(** [::write] on a UDP socket: one datagram to the peer it is connected to, and an
    error, which nobody looks at, if there is none. *)
Definition write (fd : Z) (data : list Z) (os : OS) : list Sending :=
  match s ← os !! fd; peer s with
  | Some a => [(a, data)]
  | None => []
  end.

Section loops.
Context `{HmacSha1} `{Dtls.OpenSSL} `{LibSrtp} `{Muduo}.

Definition Send (me : Thread) (c : connection_id) (data : list Z) (n : NetState) : res (list Sending) :=
  match conns (world n) !! c, conn_fds n !! c with
  | Some conn, Some fd => _ ← assertInLoopThread me (conn_loop_ conn); Ok (write fd data (os n))
  | _, _ => UB NullDeref
  end.

(** ** The functions queued on loops *)
Inductive Functor :=
| Reading (c : connection_id)
| Run (id : session_id) (t : Task).

(** All queues in one list, in the order of the calls; the queue of a loop is the
    part that is for it.  [enabled] are the connections whose channel reads. *)
Record Sys := mkSys {
  net : NetState;
  pending : list (Z * Functor);
  enabled : list connection_id;
}.

Definition set_net (n : NetState) (s : Sys) : Sys := mkSys n (pending s) (enabled s).

Definition runInLoop (loop : Z) (f : Functor) (s : Sys) : Sys :=
  mkSys (net s) (pending s ++ [(loop, f)]) (enabled s).

(** UdpConnection::Start. *)
Definition StartConnection (c : connection_id) (s : Sys) : res Sys :=
  match conns (world (net s)) !! c with
  | Some conn => Ok (runInLoop (conn_loop_ conn) (Reading c) s)
  | None => UB NullDeref
  end.

(** A call a handler makes, on the thread that runs the handler. *)
Definition perform1 (me : Thread) (e : Effect) (s : Sys) : res (Sys * list Sending) :=
  match e with
  | EnableReading c => s ← StartConnection c s; Ok (s, [])
  | RunInLoop loop id t => Ok (runInLoop loop (Run id t) s, [])
  | Write c data => out ← Send me c data (net s); Ok (s, out)
  | Channel _ => Ok (s, [])
  end.

Fixpoint perform (me : Thread) (es : list Effect) (s : Sys) : res (Sys * list Sending) :=
  match es with
  | [] => Ok (s, [])
  | e :: es =>
      '(s, o1) ← perform1 me e s;
      '(s, o2) ← perform me es s;
      Ok (s, o1 ++ o2)
  end.

(** The next function of a loop, and the queues without it. *)
Fixpoint next (loop : Z) (q : list (Z * Functor)) : option (Functor * list (Z * Functor)) :=
  match q with
  | [] => None
  | (l, f) :: q =>
      if decide (l = loop) then Some (f, q)
      else '(g, q) ← next loop q; Some (g, (l, f) :: q)
  end.

(** ** Steps *)
Inductive Input :=
| NewSession (ssl : Dtls.ssl_t) (ip : list Z) (port : Z)
| GiveChannel (id : session_id)
| ServerReads (o : ConnCalls) (buf_ : list Z) (r : Receive)
| ConnectionReads (fresh : list Z) (c : connection_id) (buf_ : list Z) (r : Receive)
| Broadcast (buf : list Z)
| LoopRuns (fresh : list Z) (loop : Z).

Definition perform_all (me : Thread) (s : Sys) (r : res (World * list Effect)) : res (Sys * list Sending) :=
  '(w, es) ← r; perform me es (set_net (set_world w (net s)) s).

(** What the process does next. *)
Definition step (i : Input) (s : Sys) : res (Sys * list Sending) :=
  let n := net s in
  let w := world n in
  match i with
  | NewSession ssl ip port =>
      '(w, _) ← CreateWebRTCSession ssl ip port w; Ok (set_net (set_world w n) s, [])
  | GiveChannel id =>
      match sessions w !! id with
      | Some x => Ok (set_net (set_world (with_channel id x w) n) s, [])
      | None => UB NullDeref
      end
  | ServerReads o buf_ r =>
      let me := Some (server_loop_ (server n)) in
      _ ← assertInLoopThread me (server_loop_ (server n));
      '(n, es) ← HandleRead o buf_ r n; perform me es (set_net n s)
  | ConnectionReads fresh c buf_ r =>
      match conns w !! c with
      | Some conn =>
          let me := Some (conn_loop_ conn) in
          _ ← assertInLoopThread me (conn_loop_ conn);
          perform_all me s (ConnectionHandleRead fresh c buf_ r w)
      | None => UB NullDeref
      end
  | Broadcast buf => es ← WriteRtpCallback buf w; perform None es s
  | LoopRuns fresh loop =>
      match next loop (pending s) with
      | None => Ok (s, [])
      | Some (Reading c, q) => Ok (mkSys n q (c :: enabled s), [])
      | Some (Run id t, q) => perform_all (Some loop) (mkSys n q (enabled s)) (run_task fresh id t w)
      end
  end.
End loops.
End Loops.
