(* ===== verification/LoopsProofs.v ===== *)
(** * Handlers on their loops: proofs about Loops.v

    As long as no packet moves a session to another loop, no step fails the thread
    assertion and everything a session sends leaves from the socket connected to
    its peer; every run is a run of Session.v's interleavings; and a packet from a
    second address stops the process when it lands on another loop. *)
From S2P Require Import Prelude ByteOps Crypto StunPacket StunParse StunAuth StunSerialize StunRoundtrip IceServer Srtp Dtls DtlsProofs Rtp WebRtc WebRtcProofs Session Locality SessionProofs Lifecycle Net Loops.

Module LoopsProofs.
Import Crypto Stun Srtp WebRtc StunAuth StunSerialize DtlsProofs WebRtcProofs Session Locality SessionProofs Lifecycle Net Loops.

Section loops.
Context `{HmacSha1} `{Dtls.OpenSSL} `{LibSrtp} `{Muduo}.

(** ** Queues *)
Definition task_of (x : Z * Functor) : option (session_id * Task) :=
  match x.2 with Run id t => Some (id, t) | Reading _ => None end.
Definition tasks (q : list (Z * Functor)) : list (session_id * Task) := omap task_of q.

Lemma next_split loop q f q' :
  next loop q = Some (f, q') → ∃ q1 q2, q = q1 ++ (loop, f) :: q2 ∧ q' = q1 ++ q2 ∧ loop ∉ q1.*1.
Proof.
  revert q'. induction q as [|[l g] q IH]; intros q'; [done|]. cbn [next]. case_decide as Hl.
  - intros [= <- <-]. subst l. exists [], q. split; [done|]. split; [done|]. apply not_elem_of_nil.
  - destruct (next loop q) as [[g' q'']|]; [|done]. intros [= -> <-].
    destruct (IH q'' eq_refl) as (q1 & q2 & -> & -> & Hni). exists ((l, g) :: q1), q2.
    split; [done|]. split; [done|]. cbn. apply not_elem_of_cons. by split.
Qed.

Lemma tasks_app q1 q2 : tasks (q1 ++ q2) = tasks q1 ++ tasks q2.
Proof. apply omap_app. Qed.

(** ** Where a session is at home *)
Definition home (w : World) (id : session_id) : option Z := s ← sessions w !! id; loop_ s.
Definition loop_of (w : World) (c : connection_id) : option Z := conn_loop_ <$> conns w !! c.

(** The connection a session sends through, every connection that delivers to it
    and every task that waits for it are on the session's loop. *)
Record at_home (w : World) (q : list (Z * Functor)) : Prop := {
  ah_network id s : sessions w !! id = Some s → loop_ s = network_transport_ s ≫= loop_of w;
  ah_callback c conn id : conns w !! c = Some conn → callback_ conn = Some id → home w id = Some (conn_loop_ conn);
  ah_pending l id t : (l, Run id t) ∈ q → home w id = Some l;
}.

(** Worlds with the same connections, and the sessions where they were. *)
Definition place (s : WebRTCSession) : option connection_id * option Z := (network_transport_ s, loop_ s).
Definition same_places (w w' : World) : Prop :=
  conns w' = conns w ∧ place <$> sessions w' = place <$> sessions w.

Lemma same_places_home w w' id : same_places w w' → home w' id = home w id.
Proof.
  intros [_ Hp]. unfold home. assert (place <$> sessions w' !! id = place <$> sessions w !! id) as E
    by (by rewrite <- !list_lookup_fmap, Hp).
  destruct (sessions w' !! id), (sessions w !! id); cbn in *; try done. by injection E.
Qed.

Lemma at_home_same w w' q : same_places w w' → at_home w q → at_home w' q.
Proof.
  intros Hsp [Hn Hc Hp]. pose proof Hsp as [Ec Es]. split.
  - intros id s Hs. assert (place <$> sessions w' !! id = place <$> sessions w !! id) as E
      by (by rewrite <- !list_lookup_fmap, Es).
    rewrite Hs in E. destruct (sessions w !! id) as [s0|] eqn:E0; [|done]. cbn in E. injection E as E1 E2.
    rewrite E1, E2. unfold loop_of. rewrite Ec. exact (Hn id s0 E0).
  - intros c conn id. rewrite Ec, (same_places_home w w') by done. apply Hc.
  - intros l id t. rewrite (same_places_home w w') by done. apply Hp.
Qed.

Lemma put_transport_places w id s t :
  sessions w !! id = Some s → same_places w (set_sessions (<[id := put_transport t s]> (sessions w)) w).
Proof. intros Hs. split; [done|]. cbn. rewrite list_fmap_insert. apply list_insert_id. by rewrite list_lookup_fmap, Hs. Qed.

Lemma at_home_sub w q q' : q' ⊆ q → at_home w q → at_home w q'.
Proof. intros Hq [Hn Hc Hp]. split; [done|done|]. intros l id t Hin. eapply Hp. by apply Hq. Qed.

(** What a handler of a session did. *)
Lemma on_session_did id f w w' es :
  on_session id f w = Ok (w', es) →
  ∃ s out, sessions w !! id = Some s ∧ es = out ≫= emit (network_transport_ s) ∧ same_places w w'.
Proof.
  unfold on_session. destruct (sessions w !! id) as [s|] eqn:Hs; [|done].
  destruct (f _) as [[t out]| | | |]; try done. cbn. intros [= <- <-]. exists s, out. split; [done|]. split; [done|].
  by apply (put_transport_places w id s t).
Qed.

(** *** The operations of the server *)
Lemma CreateWebRTCSession_home ssl ip port w w' id q :
  world_inv w → CreateWebRTCSession ssl ip port w = Ok (w', id) → at_home w q → at_home w' q.
Proof.
  intros Hi HE Hh. assert (conns w' = conns w ∧ ∃ t, sessions w' = sessions w ++ [mkWebRTCSession t None None false]) as [Ec [t Es]].
  { revert HE. unfold CreateWebRTCSession. destruct (newWebRtcTransport _ _ _ _ _ _) as [[[sd ch] t]| | | |]; try done.
    cbn [mbind res_bind]. intros [= <- _]. split; [done|]. by exists t. }
  assert (∀ i l, home w i = Some l → home w' i = Some l) as Hhome.
  { intros i l. unfold home. rewrite Es. destruct (sessions w !! i) eqn:E; [|done]. by rewrite (lookup_app_l_Some _ _ _ _ E). }
  destruct Hh as [Hn Hc Hp]. split.
  - intros i s Hs. unfold loop_of. rewrite Ec. rewrite Es in Hs. apply lookup_app_Some in Hs as [Hs|[_ Hs]]; [by eapply Hn|].
    apply list_lookup_singleton_Some in Hs as [_ <-]. done.
  - intros c conn i. rewrite Ec. intros. by eapply Hhome, Hc.
  - intros l i tk Hin. by eapply Hhome, Hp.
Qed.

Lemma network_known w id s c :
  world_inv w → sessions w !! id = Some s → network_transport_ s = Some c → ∃ conn, conns w !! c = Some conn.
Proof.
  intros Hi Hs Hc. pose proof (Forall_lookup_1 _ _ _ _ (wv_sessions w Hi) Hs) as [_ _ _ Hn].
  destruct (lookup_lt_is_Some_2 (conns w) c) as [conn Hconn]; [by apply Hn|]. by exists conn.
Qed.

Lemma GetOrCreatConnection_home a w q :
  world_inv w → at_home w q → at_home (Session.GetOrCreatConnection a w).1 q.
Proof.
  intros Hi Hh. unfold Session.GetOrCreatConnection. destruct (connections_ w !! toIpPort a); [done|].
  destruct (getNextLoop (pool w)) as [l p]. cbn. destruct Hh as [Hn Hc Hp]. split; [|intros c conn id Hconn Hcb|done].
  - intros id s Hs. cbn in Hs. rewrite (Hn id s Hs). destruct (network_transport_ s) as [c|] eqn:Hnt; [|done].
    unfold loop_of. cbn. destruct (network_known w id s c Hi Hs Hnt) as [conn E]. by rewrite E, (lookup_app_l_Some _ _ _ _ E).
  - cbn in Hconn. apply lookup_app_Some in Hconn as [Hconn|[_ Hconn]]; [by eapply Hc|].
    apply list_lookup_singleton_Some in Hconn as [_ <-]. done.
Qed.

(** The world after a session was bound to a connection. *)
Definition bound_to (id : session_id) (s : WebRTCSession) (c : connection_id) (conn : UdpConnection) (w : World) : World :=
  set_conns (<[c := mkConnection (conn_loop_ conn) (name_ conn) (peer_addr_ conn) (Some id) true]> (conns w))
    (set_sessions (<[id := bound s c (conn_loop_ conn)]> (sessions w)) w).

Lemma bind_session_eq id c buf a w s conn :
  sessions w !! id = Some s → conns w !! c = Some conn →
  bind_session id c buf (zlen buf) a w
  = Ok (bound_to id s c conn w, [EnableReading c; RunInLoop (conn_loop_ conn) id (OnInput buf a)]).
Proof.
  intros Hs Hc. unfold bind_session, SetNetworkTransport. rewrite Hs, Hc. cbn [mbind res_bind].
  pose proof (zlen_nonneg buf). rewrite rd_range_in by lia. cbn [mbind res_bind].
  change (Z.to_nat 0) with 0%nat. rewrite drop_0, take_ge by (unfold zlen; lia).
  cbn. rewrite list_lookup_insert_eq by (by eapply lookup_lt_Some). done.
Qed.

Lemma loop_of_bound id s c conn w x :
  conns w !! c = Some conn → loop_of (bound_to id s c conn w) x = loop_of w x.
Proof.
  intros Hc. unfold loop_of. cbn. destruct (decide (x = c)) as [->|Hne].
  - rewrite list_lookup_insert_eq by (by eapply lookup_lt_Some). by rewrite Hc.
  - by rewrite list_lookup_insert_ne.
Qed.

Lemma home_bound id s c conn w i :
  sessions w !! id = Some s →
  home (bound_to id s c conn w) i = if decide (i = id) then Some (conn_loop_ conn) else home w i.
Proof.
  intros Hs. unfold home. cbn. case_decide as Hi.
  - subst i. by rewrite list_lookup_insert_eq by (by eapply lookup_lt_Some).
  - by rewrite list_lookup_insert_ne.
Qed.

(** A session that has no home or moves within its loop. *)
Lemma bound_home id s c conn w q buf a :
  sessions w !! id = Some s → conns w !! c = Some conn → at_home w q →
  home w id = None ∨ home w id = Some (conn_loop_ conn) →
  at_home (bound_to id s c conn w) (q ++ [(conn_loop_ conn, Reading c); (conn_loop_ conn, Run id (OnInput buf a))]).
Proof.
  intros Hs Hc [Hn Hcb Hp] Hsame.
  assert (∀ i l, home w i = Some l → home (bound_to id s c conn w) i = Some l) as Hhome.
  { intros i l Hl. rewrite home_bound by done. case_decide as Hi; [|done]. subst i. destruct Hsame; congruence. }
  split.
  - intros i x Hx. cbn in Hx. destruct (decide (i = id)) as [->|Hne].
    + rewrite list_lookup_insert_eq in Hx by (by eapply lookup_lt_Some). injection Hx as <-. cbn.
      rewrite loop_of_bound by done. unfold loop_of. by rewrite Hc.
    + rewrite list_lookup_insert_ne in Hx by done. rewrite (Hn i x Hx).
      destruct (network_transport_ x); [|done]. cbn. by rewrite loop_of_bound.
  - intros c' conn' i Hc' Hcb'. cbn in Hc'. destruct (decide (c' = c)) as [->|Hne].
    + rewrite list_lookup_insert_eq in Hc' by (by eapply lookup_lt_Some). injection Hc' as <-. cbn in *. injection Hcb' as <-.
      rewrite home_bound by done. by rewrite decide_True.
    + rewrite list_lookup_insert_ne in Hc' by done. by eapply Hhome, Hcb.
  - intros l i t Hin. apply elem_of_app in Hin as [Hin|Hin]; [by eapply Hhome, Hp|].
    apply elem_of_cons in Hin as [[=]|Hin]. apply list_elem_of_singleton in Hin as [= -> -> ->].
    rewrite home_bound by done. by rewrite decide_True.
Qed.

(** ** Invariants and inputs *)
Record loops_inv (listen : sockaddr_in) (s : Sys) : Prop := {
  li_net : net_inv listen (net s);
  li_sys : sys_inv (world (net s), tasks (pending s));
  li_callback : server_callback_ (server (net s)) = true;
  li_enabled : Forall (λ c, (c < length (conns (world (net s))))%nat) (enabled s);
  li_reading l c : (l, Reading c) ∈ pending s → (c < length (conns (world (net s))))%nat;
}.

(** What the system calls and the libraries may do. *)
Definition allowed (i : Input) (s : Sys) : Prop :=
  let w := world (net s) in
  match i with
  | NewSession _ _ _ => True
  | GiveChannel id => (id < length (sessions w))%nat
  | ServerReads o buf_ r => calls_ok o (net s) ∧ held buf_ ∧ receive_ok r
  | ConnectionReads fresh c buf_ r =>
      fresh_ok fresh ∧ c ∈ enabled s ∧ held buf_ ∧ receive_ok r ∧ connection_acceptable w c buf_ r
  | Broadcast buf => zlen buf < 2 ^ 63
  | LoopRuns fresh loop =>
      fresh_ok fresh ∧ ∀ id t q, next loop (pending s) = Some (Run id t, q) → acceptable w id t
  end.

(** A packet that does not move a session to another loop. *)
Definition stays (buf : list Z) (from : sockaddr_in) (w : World) : bool :=
  match find_session buf (zlen buf) w with
  | Ok (Some id) =>
      match home w id with
      | Some l => let '(w', c) := Session.GetOrCreatConnection from w in bool_decide (loop_of w' c = Some l)
      | None => true
      end
  | _ => true
  end.

Definition settled (i : Input) (s : Sys) : Prop :=
  match i with
  | ServerReads _ _ (Datagram data from) => stays (take BUF_SIZE data) from (world (net s)) = true
  | _ => True
  end.

(** ** The server's handler *)
Inductive handled (w : World) (buf : list Z) (from : sockaddr_in) : World → list Effect → Prop :=
| handled_not : find_session buf (zlen buf) w = Ok None → handled w buf from w []
| handled_bound id s w1 c conn :
    find_session buf (zlen buf) w = Ok (Some id) → Session.GetOrCreatConnection from w = (w1, c) →
    sessions w1 !! id = Some s → conns w1 !! c = Some conn →
    handled w buf from (bound_to id s c conn w1)
      [EnableReading c; RunInLoop (conn_loop_ conn) id (OnInput buf from)].

Lemma HandlePacket_handled buf from w :
  world_inv w → datagram_ok (buf, from) →
  ∃ w' es, Session.HandlePacket buf (zlen buf) from w = Ok (w', es) ∧ handled w buf from w' es.
Proof.
  intros Hi Hd. pose proof (find_session_spec buf from w Hd Hi) as (o & Hf & Ho)%wp_Ok.
  unfold Session.HandlePacket. rewrite Hf. cbn [mbind res_bind]. destruct o as [id|].
  2: { eexists _, _. split; [done|]. by apply handled_not. }
  destruct Ho as (p & s & _ & _ & Hs). pose proof (GetOrCreatConnection_spec from w Hi) as Hc.
  destruct (Session.GetOrCreatConnection from w) as [w1 c] eqn:HG. destruct Hc as (Hi1 & Hse & _ & Hc & _).
  apply (wv_table w1 Hi1) in Hc as (conn & Hlc & _). rewrite <- Hse in Hs.
  eexists _, _. split; [by apply bind_session_eq|]. by eapply handled_bound.
Qed.

(** The calls the server's handler makes. *)
Lemma perform_handled me w buf from w' es s :
  world (net s) = w' → handled w buf from w' es →
  perform me es s = Ok (mkSys (net s) (pending s ++ match es with
    | EnableReading c :: RunInLoop l id t :: _ => [(l, Reading c); (l, Run id t)]
    | _ => [] end) (enabled s), []).
Proof.
  intros Hw Hh. destruct Hh as [|id x w1 c conn _ _ _ Hc].
  { cbn. rewrite app_nil_r. by destruct s. }
  cbn. unfold StartConnection. rewrite Hw. cbn. rewrite list_lookup_insert_eq by (by eapply lookup_lt_Some).
  cbn. unfold runInLoop. cbn. by rewrite <- app_assoc.
Qed.

(** The step of the server: sockets in order, the sessions as the handler leaves
    them, and the functions it queues. *)
Lemma ServerReads_handled listen o buf_ r s :
  loops_inv listen s → calls_ok o (net s) → held buf_ → receive_ok r →
  ∃ n' q, step (ServerReads o buf_ r) s = Ok (mkSys n' (pending s ++ q) (enabled s), []) ∧
    net_inv listen n' ∧ server n' = server (net s) ∧
    ServerHandleRead buf_ r (world (net s)) = Ok (world n', match q with
      | [(_, Reading c); (l, Run id t)] => [EnableReading c; RunInLoop l id t]
      | _ => [] end) ∧
    (world n' = world (net s) ∧ q = [] ∧ (∀ data from, r = Datagram data from →
      find_session (take BUF_SIZE data) (zlen (take BUF_SIZE data)) (world (net s)) = Ok None) ∨
     ∃ data from id x w1 c conn, r = Datagram data from ∧
      find_session (take BUF_SIZE data) (zlen (take BUF_SIZE data)) (world (net s)) = Ok (Some id) ∧
      Session.GetOrCreatConnection from (world (net s)) = (w1, c) ∧ sessions w1 !! id = Some x ∧
      conns w1 !! c = Some conn ∧ world n' = bound_to id x c conn w1 ∧
      q = [(conn_loop_ conn, Reading c); (conn_loop_ conn, Run id (OnInput (take BUF_SIZE data) from))]).
Proof.
  intros [Hn Hsys Hcb _ _] Ho Hh Hr. pose proof (ni_world listen _ Hn) as Hw.
  destruct (HandleRead_inv listen o buf_ r (net s) Hn Ho Hh Hr Hcb) as (n' & e & HE & Hn' & Hsrv & HS).
  cbn [step]. unfold assertInLoopThread. rewrite decide_True by done. cbn [mbind res_bind]. rewrite HE. cbn [mbind res_bind].
  exists n'. rewrite ServerHandleRead_spec in HS |- * by done. destruct r as [data from|uninit]; cbn [server_receives] in HS |- *.
  2: { injection HS as Ew <-. exists []. rewrite app_nil_r. split; [done|]. split; [done|]. split; [done|].
       split; [by rewrite Ew|]. by left. }
  destruct Hr as [Hb Hf]. destruct (HandlePacket_handled _ from (world (net s)) Hw (take_datagram_ok data from Hb Hf))
    as (w' & es & HP & Hhd). rewrite HP in HS |- *. injection HS as -> ->.
  erewrite perform_handled by done. eexists. split; [done|]. split; [done|]. split; [done|].
  destruct Hhd as [Hf0|id x w1 c conn Hf0 HG Hs Hc]; (split; [done|]);
    [left; split; [done|]; split; [done|]; by intros ? ? [= <- <-]|]. right.
  by exists data, from, id, x, w1, c, conn.
Qed.

(** ** What a session sends *)
Definition sent (o : Out) : option (list Z) := match o with Sent data _ => Some data | ToRtpChannel _ => None end.

(** On the loop of its connection, everything goes to the connection's peer. *)
Lemma perform_emit s listen c conn out :
  net_inv listen (net s) → conns (world (net s)) !! c = Some conn →
  perform (Some (conn_loop_ conn)) (out ≫= emit (Some c)) s = Ok (s, (λ d, (peer_addr_ conn, d)) <$> omap sent out).
Proof.
  intros Hn Hc. destruct (Forall2_lookup_r _ _ _ _ _ (ni_conns listen _ Hn) Hc) as (fd & Hfd & Hsock).
  induction out as [|[data to|data] out IH]; [done| |].
  - cbn. unfold Send. rewrite Hc, Hfd. unfold assertInLoopThread. rewrite decide_True by done. cbn.
    unfold write. rewrite Hsock. cbn. cbn in IH. by rewrite IH.
  - cbn. cbn in IH. by rewrite IH.
Qed.

(** Elsewhere the first packet stops the process. *)
Lemma perform_elsewhere s c conn me out fd :
  conns (world (net s)) !! c = Some conn → conn_fds (net s) !! c = Some fd → me ≠ Some (conn_loop_ conn) →
  omap sent out ≠ [] → perform me (out ≫= emit (Some c)) s = Aborted not_in_loop.
Proof.
  intros Hc Hfd Hme. induction out as [|[data to|data] out IH]; [done| |].
  - intros _. cbn. unfold Send. rewrite Hc, Hfd. unfold assertInLoopThread. by rewrite decide_False.
  - cbn. intros Hne. cbn in IH. by rewrite IH.
Qed.

Lemma perform_emit_none s me out : perform me (out ≫= emit None) s = Ok (s, []).
Proof. induction out as [|[data to|data] out IH]; cbn in *; [done|done|]. by rewrite IH. Qed.

Definition to_peer_of (w : World) (id : session_id) (x : Sending) : Prop :=
  ∃ s c conn, sessions w !! id = Some s ∧ network_transport_ s = Some c ∧ conns w !! c = Some conn ∧ x.1 = peer_addr_ conn.

Lemma loops_inv_world listen s w :
  loops_inv listen s → world_inv w → (length (sessions (world (net s))) ≤ length (sessions w))%nat →
  conns w = conns (world (net s)) → loops_inv listen (set_net (set_world w (net s)) s).
Proof.
  intros [Hn [Hw Hq] Hcb He Hr] Hw' Hlen Hc. split; cbn.
  - apply set_world_inv; [done|done|]. unfold peers. by rewrite Hc.
  - split; [done|]. by eapply pending_mono.
  - done.
  - by rewrite Hc.
  - by rewrite Hc.
Qed.

Lemma loops_inv_sub listen s q :
  loops_inv listen s → (∀ x, x ∈ q → x ∈ pending s) → loops_inv listen (mkSys (net s) q (enabled s)).
Proof.
  intros [Hn [Hw Hq] Hcb He Hr] Hsub. split; cbn; [done| |done|done|].
  - split; [done|]. apply Forall_forall. intros x (y & Hy & Hx)%list_elem_of_omap.
    apply (Forall_forall _ _) with (x := x) in Hq; [done|]. apply list_elem_of_omap. exists y. by eauto.
  - intros l c Hin. by eapply Hr, Hsub.
Qed.

Lemma loops_inv_reading listen s l c q :
  loops_inv listen s → (∀ x, x ∈ q → x ∈ pending s) → (l, Reading c) ∈ pending s →
  loops_inv listen (mkSys (net s) q (c :: enabled s)).
Proof.
  intros Hi Hsub Hin. destruct (loops_inv_sub listen s q Hi Hsub) as [Hn Hs Hcb He Hr].
  split; [exact Hn|exact Hs|exact Hcb| |exact Hr]. constructor; [by eapply (li_reading listen s Hi)|exact He].
Qed.

(** A handler of a session, on the session's loop. *)
Lemma session_performs listen s l id f :
  loops_inv listen s → at_home (world (net s)) (pending s) → home (world (net s)) id = Some l →
  fine_w (on_session id f (world (net s))) (kept_world (world (net s))) →
  fine_w (perform_all (Some l) s (on_session id f (world (net s)))) (λ '(s', out),
    loops_inv listen s' ∧ at_home (world (net s')) (pending s') ∧ Forall (to_peer_of (world (net s)) id) out).
Proof.
  intros Hi Hh Hl Hfine. unfold perform_all.
  destruct (on_session id f (world (net s))) as [[w' es]| | | |] eqn:HE; try done. cbn [mbind res_bind].
  destruct Hfine as (Hw' & Hlen & Hconns). destruct (on_session_did _ _ _ _ _ HE) as (x & out & Hx & -> & Hsp).
  assert (loops_inv listen (set_net (set_world w' (net s)) s)) as Hi' by (by apply loops_inv_world; [done|done|lia|]).
  assert (at_home w' (pending s)) as Hh' by (by eapply at_home_same).
  destruct (network_transport_ x) as [c|] eqn:Hnt.
  2: { rewrite perform_emit_none. by split. }
  pose proof (li_net listen s Hi) as Hn. destruct (network_known _ _ _ _ (ni_world listen _ Hn) Hx Hnt) as [conn Hc].
  assert (l = conn_loop_ conn) as ->.
  { pose proof (ah_network _ _ Hh id x Hx) as E. unfold home in Hl. rewrite Hx in Hl. cbn in Hl.
    rewrite Hnt in E. cbn in E. unfold loop_of in E. rewrite Hc in E. cbn in E. congruence. }
  rewrite (perform_emit _ listen c conn) by (apply Hi' || by cbn; rewrite Hconns).
  split; [done|]. split; [done|]. apply Forall_fmap, Forall_true. intros d. by exists x, c, conn.
Qed.

(** ** Every step on its loop *)
Definition actor (i : Input) (s : Sys) : option session_id :=
  match i with
  | ConnectionReads _ c _ _ => conn ← conns (world (net s)) !! c; callback_ conn
  | LoopRuns _ loop =>
      match next loop (pending s) with Some (Run id _, _) => Some id | _ => None end
  | _ => None
  end.

Definition safe_after (listen : sockaddr_in) (i : Input) (s : Sys) : Sys * list Sending → Prop :=
  λ '(s', out), loops_inv listen s' ∧ at_home (world (net s')) (pending s') ∧
    Forall (λ x, ∃ id, actor i s = Some id ∧ to_peer_of (world (net s)) id x) out.

(** After a step that sends nothing. *)
Definition quiet_after (listen : sockaddr_in) (i : Input) (s : Sys) : Sys * list Sending → Prop :=
  λ '(s', out), loops_inv listen s' ∧ out = [] ∧
    (settled i s → at_home (world (net s)) (pending s) → at_home (world (net s')) (pending s')).

Lemma NewSession_quiet listen ssl ip port s :
  loops_inv listen s → fine_w (step (NewSession ssl ip port) s) (quiet_after listen (NewSession ssl ip port) s).
Proof.
  intros Hi. cbn [step]. pose proof (ni_world listen _ (li_net listen s Hi)) as Hw.
  pose proof (CreateWebRTCSession_spec ssl ip port _ Hw) as ([w' id] & HE & Hw' & -> & Hlen & Hc)%wp_Ok.
  rewrite HE. cbn. split; [apply loops_inv_world; try done; lia|]. split; [done|]. intros _.
  by apply (CreateWebRTCSession_home ssl ip port (world (net s)) w' (length (sessions (world (net s))))).
Qed.

Lemma GiveChannel_quiet listen id s :
  loops_inv listen s → allowed (GiveChannel id) s →
  fine_w (step (GiveChannel id) s) (quiet_after listen (GiveChannel id) s).
Proof.
  intros Hi Hid. cbn [step]. pose proof (ni_world listen _ (li_net listen s Hi)) as Hw.
  destruct (lookup_lt_is_Some_2 (sessions (world (net s))) id) as [x Hx]; [done|]. rewrite Hx. cbn.
  split; [apply loops_inv_world; [done|by apply with_channel_inv|cbn; by rewrite length_insert|done]|].
  split; [done|]. intros _. apply at_home_same. by apply put_transport_places.
Qed.

Lemma ServerReads_quiet listen o buf_ r s :
  loops_inv listen s → allowed (ServerReads o buf_ r) s →
  fine_w (step (ServerReads o buf_ r) s) (quiet_after listen (ServerReads o buf_ r) s).
Proof.
  intros Hi (Ho & Hb & Hr).
  destruct (ServerReads_handled listen o buf_ r s Hi Ho Hb Hr) as (n' & q & -> & Hn' & Hsrv & HS & Hcase). cbn [fine_w].
  pose proof Hi as [Hn Hsys Hcb He Hrd]. pose proof (ni_world listen _ Hn) as Hw.
  pose proof (server_step_fine buf_ r _ _ Hb Hr Hsys) as Hsys'. rewrite HS in Hsys'. cbn [mbind res_bind fine_w] in Hsys'.
  destruct Hcase as [(Ew & -> & _)|(data & from & id & x & w1 & c & conn & -> & Hf & HG & Hx & Hc & Ew & ->)].
  { cbn in Hsys'. rewrite app_nil_r in *. split; [|split; [done|cbn; by rewrite Ew]].
    split; cbn; rewrite ?Ew, ?Hsrv; try done. }
  pose proof (GetOrCreatConnection_spec from _ Hw) as HG'. rewrite HG in HG'. destruct HG' as (Hw1 & Hse & _ & _ & Hpre).
  assert (length (conns (world (net s))) ≤ length (conns (world n')))%nat as Hlen
    by (rewrite Ew; cbn; rewrite length_insert; by apply prefix_length).
  split; [split; cbn|].
  - done.
  - rewrite tasks_app. exact Hsys'.
  - by rewrite Hsrv.
  - eapply Forall_impl; [exact He|]. cbn. lia.
  - intros l c' Hin. apply elem_of_app in Hin as [Hin|Hin]; [apply Hrd in Hin; lia|].
    apply elem_of_cons in Hin as [[= -> ->]|Hin]; [|by apply list_elem_of_singleton in Hin].
    rewrite Ew. cbn. rewrite length_insert. by eapply lookup_lt_Some.
  - split; [done|]. intros Hst Hh. cbn. rewrite Ew. apply bound_home; [done|done| |].
    + pose proof (GetOrCreatConnection_home from _ _ Hw Hh) as Hh1. by rewrite HG in Hh1.
    + assert (home w1 id = home (world (net s)) id) as -> by (unfold home; by rewrite Hse).
      cbn [settled] in Hst. unfold stays in Hst. rewrite Hf in Hst. destruct (home _ id) as [l|]; [|by left].
      right. rewrite HG in Hst. apply bool_decide_eq_true in Hst. unfold loop_of in Hst. rewrite Hc in Hst. by injection Hst as <-.
Qed.

(** *** Broadcasts *)
Definition posted (e : Effect) : option (Z * Functor) :=
  match e with RunInLoop l id t => Some (l, Run id t) | _ => None end.

Lemma perform_posts me es s :
  Forall (λ e, is_Some (posted e)) es →
  perform me es s = Ok (mkSys (net s) (pending s ++ omap posted es) (enabled s), []).
Proof.
  intros Hes. revert s. induction Hes as [|e es [x Hx] _ IH]; intros s; [cbn; rewrite app_nil_r; by destruct s|].
  destruct e; try done. injection Hx as <-. cbn. rewrite IH. cbn. by rewrite <- app_assoc.
Qed.

Lemma tasks_posted es : Forall (λ e, is_Some (posted e)) es → tasks (omap posted es) = omap queued es.
Proof.
  induction 1 as [|e es [x Hx] _ IH]; [done|]. destruct e; try done. cbn. f_equal. exact IH.
Qed.

Lemma broadcast_posts buf w es :
  world_inv w → WriteRtpCallback buf w = Ok es →
  Forall (λ e, ∃ l id, e = RunInLoop l id (SendRtp buf) ∧ home w id = Some l) es.
Proof.
  intros Hi HE. destruct (WriteRtpCallback_spec buf w Hi) as (es' & HE' & Hmap). rewrite HE in HE'. injection HE' as <-.
  apply Forall_forall. intros e He.
  assert (Some e ∈ broadcast_task buf w <$> GetAllReadyWebRTCSession w) as Hb
    by (rewrite <- Hmap; by apply list_elem_of_fmap_2).
  apply list_elem_of_fmap in Hb as (id & Hb & _). unfold broadcast_task in Hb.
  destruct (sessions w !! id) as [x|] eqn:Hx; [|done]. cbn in Hb. destruct (loop_ x) as [l|] eqn:Hl; [|done].
  injection Hb as ->. exists l, id. split; [done|]. unfold home. by rewrite Hx.
Qed.

Lemma Broadcast_quiet listen buf s :
  loops_inv listen s → allowed (Broadcast buf) s →
  fine_w (step (Broadcast buf) s) (quiet_after listen (Broadcast buf) s).
Proof.
  intros Hi Hz. pose proof Hi as [Hn Hsys Hcb He Hrd]. pose proof (ni_world listen _ Hn) as Hw.
  pose proof (broadcast_step_fine buf _ _ Hz Hsys) as Hs'. cbn [step].
  destruct (WriteRtpCallback_spec buf _ Hw) as (es & HE & _). rewrite HE in *. cbn [mbind res_bind fine_w] in *.
  pose proof (broadcast_posts buf _ es Hw HE) as Hes.
  assert (Forall (λ e, is_Some (posted e)) es) as Hps by (eapply Forall_impl; [exact Hes|]; intros e (l & id & -> & _); by eexists).
  rewrite perform_posts by done. cbn [fine_w]. split; [split; cbn; try done|split; [done|]].
  - rewrite tasks_app, tasks_posted by done. exact Hs'.
  - intros l c [Hin|Hin]%elem_of_app; [by eapply Hrd|]. apply list_elem_of_omap in Hin as (e & He' & Hp).
    apply (Forall_forall _ _) with (x := e) in Hes; [|done]. destruct Hes as (l' & id & -> & _). done.
  - intros _ [Ha Hb Hp]. cbn. split; [done|done|]. intros l id t [Hin|Hin]%elem_of_app; [by eapply Hp|].
    apply list_elem_of_omap in Hin as (e & He' & Hpe). apply (Forall_forall _ _) with (x := e) in Hes; [|done].
    destruct Hes as (l' & id' & -> & Hl). by injection Hpe as <- <- <-.
Qed.
End loops.

(** ** All steps, and runs *)
Section safety.
Context `{HmacSha1} `{Dtls.OpenSSL} `{!OpenSSLSpec} `{LibSrtp} `{!LibSrtpSpec} `{!LibSrtpLocal} `{Muduo}.

Lemma session_step_safe listen i s s0 l id f :
  loops_inv listen s → at_home (world (net s)) (pending s) → home (world (net s)) id = Some l →
  actor i s0 = Some id → world (net s0) = world (net s) →
  fine_w (on_session id f (world (net s))) (kept_world (world (net s))) →
  fine_w (perform_all (Some l) s (on_session id f (world (net s)))) (safe_after listen i s0).
Proof.
  intros Hi Hh Hl Ha Ew Hf. eapply fine_w_mono; [by apply (session_performs listen)|].
  intros [s' out] (Hi' & Hh' & Hout). split; [done|]. split; [done|].
  eapply Forall_impl; [exact Hout|]. intros x Hx. exists id. by rewrite Ew.
Qed.

Lemma ConnectionReads_safe listen fresh c buf_ r s :
  loops_inv listen s → at_home (world (net s)) (pending s) → allowed (ConnectionReads fresh c buf_ r) s →
  fine_w (step (ConnectionReads fresh c buf_ r) s) (safe_after listen (ConnectionReads fresh c buf_ r) s).
Proof using All.
  intros Hi Hh (Hf & Hen & Hb & Hr & Hacc). pose proof Hi as [Hn Hsys Hcb He Hrd].
  pose proof (ni_world listen _ Hn) as Hw.
  assert (c < length (conns (world (net s))))%nat as Hlt by (by eapply (Forall_forall _ _) in He).
  pose proof (ConnectionHandleRead_fine fresh c buf_ r _ Hw Hf Hlt Hb Hr Hacc) as Hfine.
  destruct (lookup_lt_is_Some_2 (conns (world (net s))) c) as [conn Hc]; [done|]. cbn [step]. rewrite Hc.
  unfold assertInLoopThread. rewrite decide_True by done. cbn [mbind res_bind].
  unfold ConnectionHandleRead in Hfine |- *. destruct (receive buf_ r) as [[buf len] addr]. rewrite Hc in Hfine |- *.
  destruct (callback_ conn) as [id|] eqn:Hid.
  - eapply session_step_safe; try done; [by eapply (ah_callback _ _ Hh)|]. cbn. by rewrite Hc.
  - cbn. split; [by destruct s as [[]]|]. split; [by destruct s as [[]]|done].
Qed.

Lemma LoopRuns_safe listen fresh loop s :
  loops_inv listen s → at_home (world (net s)) (pending s) → allowed (LoopRuns fresh loop) s →
  fine_w (step (LoopRuns fresh loop) s) (safe_after listen (LoopRuns fresh loop) s).
Proof using All.
  intros Hi Hh [Hf Hacc]. pose proof Hi as [Hn [Hw Hq] Hcb He Hrd]. cbn [step].
  destruct (next loop (pending s)) as [[f q]|] eqn:Hnx; [|by split].
  destruct (next_split _ _ _ _ Hnx) as (q1 & q2 & Epend & Eq & _).
  assert (∀ x, x ∈ q → x ∈ pending s) as Hsub by (rewrite Epend, Eq; set_solver).
  pose proof (loops_inv_sub listen s q Hi Hsub) as Hi'. pose proof (at_home_sub _ _ q Hsub Hh) as Hh'.
  assert ((loop, f) ∈ pending s) as Hin by (rewrite Epend; set_solver).
  destruct f as [c|id t].
  - split; [by eapply loops_inv_reading|done].
  - eapply (session_step_safe listen _ (mkSys (net s) q (enabled s))); try done.
    + by eapply (ah_pending _ _ Hh).
    + cbn. by rewrite Hnx.
    + apply (run_task_fine fresh id t); [done|done| | |by eapply Hacc].
      * apply (Forall_forall (pending_ok _) (tasks (pending s))) with (x := (id, t)) in Hq; [apply Hq|].
        apply list_elem_of_omap. by exists (loop, Run id t).
      * apply (Forall_forall (pending_ok _) (tasks (pending s))) with (x := (id, t)) in Hq; [apply Hq|].
        apply list_elem_of_omap. by exists (loop, Run id t).
Qed.

Lemma quiet_safe listen i s r :
  settled i s → at_home (world (net s)) (pending s) →
  fine_w r (quiet_after listen i s) → fine_w r (safe_after listen i s).
Proof.
  intros Hs Hh Hr. eapply fine_w_mono; [exact Hr|]. intros [s' out] (Hi' & -> & Hh'). split; [done|]. split; [|done].
  by apply Hh'.
Qed.

Lemma step_safe listen i s :
  loops_inv listen s → at_home (world (net s)) (pending s) → allowed i s → settled i s →
  fine_w (step i s) (safe_after listen i s).
Proof using All.
  intros Hi Hh Ha Hs. destruct i.
  - apply quiet_safe; [done|done|]. by apply NewSession_quiet.
  - apply quiet_safe; [done|done|]. by apply GiveChannel_quiet.
  - apply quiet_safe; [done|done|]. by apply ServerReads_quiet.
  - by apply ConnectionReads_safe.
  - apply quiet_safe; [done|done|]. by apply Broadcast_quiet.
  - by apply LoopRuns_safe.
Qed.

(** *** Steps and the steps of Session.v *)
Lemma perform_emit_state me out o s s' sends : perform me (out ≫= emit o) s = Ok (s', sends) → s' = s.
Proof.
  revert sends. induction out as [|[data to|data] out IH]; intros sends; [by intros [= <- _]| |].
  - destruct o as [c|]; [|apply IH]. cbn. destruct (Send me c data (net s)) as [x| | | |]; try done. cbn.
    destruct (perform me _ s) as [[s1 o2]| | | |] eqn:E; try done. intros [= <- _]. by eapply IH.
  - cbn. destruct (perform me _ s) as [[s1 o2]| | | |] eqn:E; try done. intros [= <- _]. by eapply IH.
Qed.

Lemma perform_all_session me s id f s' sends :
  perform_all me s (on_session id f (world (net s))) = Ok (s', sends) →
  ∃ w' es, on_session id f (world (net s)) = Ok (w', es) ∧ s' = set_net (set_world w' (net s)) s.
Proof.
  unfold perform_all. destruct (on_session id f _) as [[w' es]| | | |] eqn:E; try done. cbn [mbind res_bind].
  destruct (on_session_did _ _ _ _ _ E) as (x & out & _ & -> & _). intros ->%perform_emit_state. by exists w', (out ≫= emit (network_transport_ x)).
Qed.

(** What Session.v's interleavings see of a state and of a step. *)
Definition abs (s : Sys) : System := (world (net s), tasks (pending s)).
Definition label (i : Input) : Label :=
  match i with ServerReads _ _ r | ConnectionReads _ _ _ r => label_of r | _ => Silent end.

Definition refines (listen : sockaddr_in) (i : Input) (s s' : Sys) : Prop :=
  loops_inv listen s' ∧ (sys_step (abs s) (label i) (Ok (abs s')) ∨ label i = Silent ∧ abs s' = abs s).

Lemma session_refines listen s me id f s' sends :
  loops_inv listen s → fine_w (on_session id f (world (net s))) (kept_world (world (net s))) →
  perform_all me s (on_session id f (world (net s))) = Ok (s', sends) →
  loops_inv listen s' ∧ pending s' = pending s ∧ ∃ es, on_session id f (world (net s)) = Ok (world (net s'), es).
Proof.
  intros Hi Hf HE. destruct (perform_all_session _ _ _ _ _ _ HE) as (w' & es & E & ->). rewrite E in Hf.
  destruct Hf as (Hw & Hlen & Hc). split; [by apply loops_inv_world; [done|done|lia|]|]. split; [done|]. by exists es.
Qed.

Lemma ConnectionReads_refines listen fresh c buf_ r s s' sends :
  loops_inv listen s → allowed (ConnectionReads fresh c buf_ r) s →
  step (ConnectionReads fresh c buf_ r) s = Ok (s', sends) → refines listen (ConnectionReads fresh c buf_ r) s s'.
Proof using All.
  intros Hi (Hf & Hen & Hb & Hr & Hacc) HE. pose proof Hi as [Hn Hsys Hcb He Hrd].
  pose proof (ni_world listen _ Hn) as Hw.
  assert (c < length (conns (world (net s))))%nat as Hlt by (by eapply (Forall_forall _ _) in He).
  pose proof (ConnectionHandleRead_fine fresh c buf_ r _ Hw Hf Hlt Hb Hr Hacc) as Hfine.
  pose proof (step_connection fresh c buf_ r (world (net s)) (tasks (pending s)) Hf Hlt Hb Hr Hacc) as Hstep.
  destruct (lookup_lt_is_Some_2 (conns (world (net s))) c) as [conn Hc]; [done|]. cbn [step] in HE. rewrite Hc in HE.
  unfold assertInLoopThread in HE. rewrite decide_True in HE by done. cbn [mbind res_bind] in HE. fold (abs s) in Hstep.
  assert (loops_inv listen s' ∧ pending s' = pending s ∧
    ∃ es, ConnectionHandleRead fresh c buf_ r (world (net s)) = Ok (world (net s'), es)) as (Hi' & Hp & es & E).
  { revert HE Hfine. unfold ConnectionHandleRead. destruct (receive buf_ r) as [[buf len] addr]. rewrite Hc.
    destruct (callback_ conn) as [id|]; [intros HE Hfine; by eapply session_refines|].
    intros [= <- _] _. destruct s as [[]]. cbn in *. split; [done|]. split; [done|]. by eexists. }
  split; [done|]. left. rewrite E in Hstep. unfold abs at 2. rewrite Hp. exact Hstep.
Qed.

Lemma LoopRuns_refines listen fresh loop s s' sends :
  loops_inv listen s → allowed (LoopRuns fresh loop) s →
  step (LoopRuns fresh loop) s = Ok (s', sends) → refines listen (LoopRuns fresh loop) s s'.
Proof using All.
  intros Hi [Hf Hacc] HE. pose proof Hi as [Hn [Hw Hq] Hcb He Hrd]. cbn [step] in HE.
  destruct (next loop (pending s)) as [[f q]|] eqn:Hnx; [|injection HE as <- _; split; [done|by right]].
  destruct (next_split _ _ _ _ Hnx) as (q1 & q2 & Epend & Eq & _).
  assert (∀ x, x ∈ q → x ∈ pending s) as Hsub by (rewrite Epend, Eq; set_solver).
  pose proof (loops_inv_sub listen s q Hi Hsub) as Hi'.
  assert ((loop, f) ∈ pending s) as Hin by (rewrite Epend; set_solver).
  destruct f as [c|id t].
  - injection HE as <- _. split; [|right; split; [done|]].
    + by eapply loops_inv_reading.
    + unfold abs. cbn. rewrite Epend, Eq, !tasks_app. done.
  - assert (pending_ok (world (net s)) (id, t)) as [Hid Ht].
    { apply (Forall_forall (pending_ok _) (tasks (pending s))) with (x := (id, t)) in Hq; [done|].
      apply list_elem_of_omap. by exists (loop, Run id t). }
    pose proof (run_task_fine fresh id t _ Hw Hf Hid Ht (Hacc _ _ _ eq_refl)) as Hfine.
    destruct (session_refines listen (mkSys (net s) q (enabled s)) (Some loop) id _ s' sends Hi' Hfine HE)
      as (Hi'' & Hp & es & E). split; [done|]. left.
    pose proof (step_task fresh (world (net s)) (tasks q1) id t (tasks q2) Hf (Hacc _ _ _ eq_refl)) as Hstep.
    unfold run_task in Hstep. cbn [net] in E. rewrite E in Hstep. unfold abs. rewrite Hp, Epend. cbn [pending]. rewrite Eq, !tasks_app. exact Hstep.
Qed.

Lemma step_refines listen i s s' sends :
  loops_inv listen s → allowed i s → step i s = Ok (s', sends) → refines listen i s s'.
Proof using All.
  intros Hi Ha HE. destruct i as [ssl ip port|id|o buf_ r|fresh c buf_ r|buf|fresh loop].
  - pose proof (NewSession_quiet listen ssl ip port s Hi) as Hq. rewrite HE in Hq. split; [apply Hq|]. left.
    pose proof (step_create ssl ip port (world (net s)) (tasks (pending s))) as Hstep. cbn [step] in HE.
    destruct (CreateWebRTCSession ssl ip port _) as [[w' id]| | | |]; try done. by injection HE as <- _.
  - pose proof (GiveChannel_quiet listen id s Hi Ha) as Hq. rewrite HE in Hq. split; [apply Hq|]. left. cbn [step] in HE.
    destruct (sessions (world (net s)) !! id) as [x|] eqn:Hx; [|done]. injection HE as <- _. by apply step_channel.
  - pose proof (ServerReads_quiet listen o buf_ r s Hi Ha) as Hq. rewrite HE in Hq. split; [apply Hq|]. left.
    destruct Ha as (Ho & Hb & Hr). destruct (ServerReads_handled listen o buf_ r s Hi Ho Hb Hr) as (n' & q & E & _ & _ & HS & Hcase).
    rewrite E in HE. injection HE as <- _. pose proof (step_server buf_ r (world (net s)) (tasks (pending s)) Hb Hr) as Hstep.
    rewrite HS in Hstep. unfold abs. cbn [pending net]. rewrite tasks_app.
    destruct Hcase as [(Ew & -> & _)|(? & ? & ? & ? & ? & ? & ? & _ & _ & _ & _ & _ & _ & ->)]; exact Hstep.
  - by eapply ConnectionReads_refines.
  - pose proof (Broadcast_quiet listen buf s Hi Ha) as Hq. rewrite HE in Hq. split; [apply Hq|]. left. cbn [step] in HE.
    pose proof (step_broadcast buf (world (net s)) (tasks (pending s)) Ha) as Hstep.
    pose proof (ni_world listen _ (li_net listen s Hi)) as Hw.
    destruct (WriteRtpCallback_spec buf _ Hw) as (es & E & _). rewrite E in HE, Hstep. cbn [mbind res_bind] in HE.
    pose proof (broadcast_posts buf _ es Hw E) as Hes.
    assert (Forall (λ e, is_Some (posted e)) es) as Hps by (eapply Forall_impl; [exact Hes|]; intros e (l & id & -> & _); by eexists).
    rewrite perform_posts in HE by done. injection HE as <- _. unfold abs. cbn. rewrite tasks_app, tasks_posted by done. exact Hstep.
  - by eapply LoopRuns_refines.
Qed.

(** ** Runs *)
Inductive runs (ok : Input → Sys → Prop) (s0 : Sys) : list Label → Sys → Prop :=
| runs_here : runs ok s0 [] s0
| runs_more h s i s' sends :
    runs ok s0 h s → ok i s → step i s = Ok (s', sends) → runs ok s0 (label i :: h) s'.

(** A server that waits for its first packet. *)
Record booted (listen : sockaddr_in) (s : Sys) : Prop := {
  bt_inv : loops_inv listen s;
  bt_pending : pending s = [];
  bt_world : ∃ pool seed chars buffer, length chars = 64%nat ∧ Ice.buffer_ok buffer ∧
    abs s = start pool seed chars buffer;
}.

(** The datagrams of a history, the latest first. *)
Definition receipts (h : list Label) : list (list Z * sockaddr_in) :=
  omap (λ l, match l with Received buf from => Some (buf, from) | Silent => None end) h.

Lemma runs_history listen s0 h s :
  booted listen s0 → runs allowed s0 h s →
  loops_inv listen s ∧ ∃ h', history h' (abs s) ∧ receipts h' = receipts h.
Proof using All.
  intros [Hi _ (pool & seed & chars & buffer & Hc & Hb & E)] Hr.
  induction Hr as [|h s i s' sends _ (Hs & h' & Hh & Hrc) Ha HE].
  - split; [done|]. exists []. rewrite E. split; [by apply hist_start|done].
  - destruct (step_refines listen i s s' sends Hs Ha HE) as [Hi' [Hst|[Hl Ea]]]; (split; [done|]).
    + exists (label i :: h'). split; [by eapply hist_step|]. unfold receipts in *. cbn. by rewrite Hrc.
    + exists h'. rewrite Ea, Hl. by split.
Qed.

Definition allowed_settled (i : Input) (s : Sys) : Prop := allowed i s ∧ settled i s.

Lemma booted_home listen s : booted listen s → at_home (world (net s)) (pending s).
Proof.
  intros [_ Hp (pool & seed & chars & buffer & _ & _ & E)]. injection E as Ew _. rewrite Ew, Hp.
  split; [done|done|]. intros l id t []%not_elem_of_nil.
Qed.

Lemma runs_safe listen s0 h s :
  booted listen s0 → runs allowed_settled s0 h s → loops_inv listen s ∧ at_home (world (net s)) (pending s).
Proof using All.
  intros Hb Hr. induction Hr as [|h s i s' sends _ [Hi Hh] [Ha Hst] HE].
  - split; [apply Hb|by eapply booted_home].
  - pose proof (step_safe listen i s Hi Hh Ha Hst) as Hsafe. rewrite HE in Hsafe. destruct Hsafe as (Hi' & Hh' & _). by split.
Qed.

(** *** One thread for all connections *)
Definition on_one_loop (l : Z) (w : World) : Prop := Forall (λ conn, conn_loop_ conn = l) (conns w).

Lemma one_loop_connection l a w :
  (∀ p, (getNextLoop p).1 = l) → on_one_loop l w → on_one_loop l (Session.GetOrCreatConnection a w).1.
Proof.
  intros Hl Hw. unfold Session.GetOrCreatConnection. destruct (connections_ w !! toIpPort a); [done|].
  specialize (Hl (pool w)). destruct (getNextLoop (pool w)) as [io p]. cbn in *. apply Forall_app_2; [done|].
  by apply Forall_singleton.
Qed.

Lemma one_loop_settled l i s listen :
  (∀ p, (getNextLoop p).1 = l) → loops_inv listen s → allowed i s →
  on_one_loop l (world (net s)) → at_home (world (net s)) (pending s) → settled i s.
Proof.
  intros Hl Hi Ha Hone Hh. destruct i as [| |o buf_ r| | |]; try done. destruct r as [data from|]; [|done].
  destruct Ha as (_ & _ & [Hb Hf]). pose proof (ni_world listen _ (li_net listen s Hi)) as Hw. cbn [settled]. unfold stays.
  pose proof (find_session_spec _ _ _ (take_datagram_ok _ _ Hb Hf) Hw) as (o' & -> & Ho)%wp_Ok. destruct o' as [id|]; [|done].
  destruct Ho as (_ & x & _ & _ & Hx). unfold home. rewrite Hx. cbn. rewrite (ah_network _ _ Hh id x Hx).
  destruct (network_transport_ x) as [c0|]; [|done]. cbn. unfold loop_of at 1.
  destruct (conns (world (net s)) !! c0) as [conn0|] eqn:Hc0; [|done]. cbn.
  pose proof (Forall_lookup_1 _ _ _ _ Hone Hc0) as E0. cbn in E0. rewrite E0.
  pose proof (GetOrCreatConnection_spec from _ Hw) as HG. pose proof (one_loop_connection l from _ Hl Hone) as Hone'.
  destruct (Session.GetOrCreatConnection from _) as [w1 c]. destruct HG as (Hw1 & _ & _ & Hc & _).
  apply (wv_table w1 Hw1) in Hc as (conn & Hc & _). unfold loop_of. rewrite Hc. cbn.
  pose proof (Forall_lookup_1 _ _ _ _ Hone' Hc) as E. cbn in E. rewrite E. by apply bool_decide_eq_true.
Qed.

Lemma perform_all_conns me s id f s' sends :
  perform_all me s (on_session id f (world (net s))) = Ok (s', sends) → conns (world (net s')) = conns (world (net s)).
Proof.
  intros HE. destruct (perform_all_session _ _ _ _ _ _ HE) as (w' & es & E & ->).
  by destruct (on_session_did _ _ _ _ _ E) as (_ & _ & _ & _ & Hc & _).
Qed.

Lemma step_one_loop l listen i s s' sends :
  (∀ p, (getNextLoop p).1 = l) → loops_inv listen s → allowed i s → step i s = Ok (s', sends) →
  on_one_loop l (world (net s)) → on_one_loop l (world (net s')).
Proof using All.
  intros Hl Hi Ha HE Hone. pose proof (ni_world listen _ (li_net listen s Hi)) as Hw. unfold on_one_loop.
  destruct i as [ssl ip port|id|o buf_ r|fresh c buf_ r|buf|fresh loop].
  - cbn [step] in HE. pose proof (CreateWebRTCSession_spec ssl ip port _ Hw) as ([w' id] & E & _ & _ & _ & Hc)%wp_Ok.
    rewrite E in HE. injection HE as <- _. cbn. by rewrite Hc.
  - cbn [step] in HE. destruct (sessions (world (net s)) !! id); [|done]. by injection HE as <- _.
  - destruct Ha as (Ho & Hb & Hr). destruct (ServerReads_handled listen o buf_ r s Hi Ho Hb Hr) as (n' & q & E & _ & _ & _ & Hcase).
    rewrite E in HE. injection HE as <- _. cbn.
    destruct Hcase as [(-> & _)|(data & from & id & x & w1 & c & conn & _ & _ & HG & _ & Hc & -> & _)]; [done|]. cbn.
    pose proof (one_loop_connection l from _ Hl Hone) as Hone'. rewrite HG in Hone'. apply Forall_insert; [done|].
    by apply (Forall_lookup_1 _ _ _ _ Hone' Hc).
  - cbn [step] in HE. destruct (conns (world (net s)) !! c) as [conn|] eqn:Hc; [|done].
    unfold assertInLoopThread in HE. rewrite decide_True in HE by done. cbn [mbind res_bind] in HE.
    unfold ConnectionHandleRead in HE. destruct (receive buf_ r) as [[buf len] addr]. rewrite Hc in HE.
    destruct (callback_ conn); [by rewrite (perform_all_conns _ _ _ _ _ _ HE)|by injection HE as <- _].
  - cbn [step] in HE. destruct (WriteRtpCallback_spec buf _ Hw) as (es & E & _). rewrite E in HE. cbn [mbind res_bind] in HE.
    rewrite perform_posts in HE; [by injection HE as <- _|].
    eapply Forall_impl; [by apply (broadcast_posts buf _ es Hw)|]. intros e (l' & id & -> & _). by eexists.
  - cbn [step] in HE. destruct (next loop (pending s)) as [[[c|id t] q]|]; try (by injection HE as <- _).
    by rewrite (perform_all_conns _ (mkSys (net s) q (enabled s)) _ _ _ _ HE).
Qed.

(** With one thread for the connections every run is settled. *)
Lemma one_loop_runs l listen s0 h s :
  (∀ p, (getNextLoop p).1 = l) → booted listen s0 → runs allowed s0 h s →
  loops_inv listen s ∧ at_home (world (net s)) (pending s) ∧ on_one_loop l (world (net s)).
Proof using All.
  intros Hl Hb Hr. induction Hr as [|h s i s' sends _ (Hi & Hh & Hone) Ha HE].
  - split; [apply Hb|]. split; [by eapply booted_home|]. destruct Hb as [_ _ (pool & seed & chars & buffer & _ & _ & E)].
    injection E as -> _. constructor.
  - pose proof (one_loop_settled l i s listen Hl Hi Ha Hone Hh) as Hst.
    pose proof (step_safe listen i s Hi Hh Ha Hst) as Hsafe. rewrite HE in Hsafe. destruct Hsafe as (Hi' & Hh' & _).
    split; [done|]. split; [done|]. exact (step_one_loop l listen i s s' sends Hl Hi Ha HE Hone).
Qed.
End safety.

(** ** A packet from a second address *)
Section second_address.
Context `{HmacSha1} `{Dtls.OpenSSL} `{LibSrtp} `{Muduo} `{!MuduoSpec}.

(** A new connection opens its own descriptor and touches no other. *)
Lemma HandleRead_fds listen o buf_ r n n' e :
  net_inv listen n → calls_ok o n → HandleRead o buf_ r n = Ok (n', e) → ∀ fd, fd ≠ cc_fd o → os n' !! fd = os n !! fd.
Proof.
  intros Hn Ho HE fd Hfd. unfold HandleRead in HE. destruct (receive buf_ r) as [[buf len] a].
  destruct (server_callback_ (server n)); [|by injection HE as <- _].
  unfold HandlePacket in HE. destruct (find_session buf len (world n)) as [[id|]| | | |]; try done; [|by injection HE as <- _].
  cbn [mbind res_bind] in HE. destruct (connections_ (world n) !! toIpPort a) as [c|] eqn:Hk.
  - unfold GetOrCreatConnection in HE. rewrite Hk in HE. cbn [mbind res_bind] in HE.
    destruct (bind_session id c buf len a (world n)) as [[w e']| | | |]; try done. by injection HE as <- _.
  - destruct (connection_socket o a n listen Hn Ho Hk) as (n1 & c & HG & _ & _ & Hos). rewrite HG in HE. cbn [mbind res_bind] in HE.
    destruct (bind_session id c buf len a (world n1)) as [[w e']| | | |]; try done. injection HE as <- _. cbn [os set_world].
    by rewrite Hos, lookup_insert_ne.
Qed.

Lemma calls_still_ok listen o o2 buf_ r s s1 sends :
  loops_inv listen s → calls_ok o (net s) → calls_ok o2 (net s) → cc_fd o ≠ cc_fd o2 →
  step (ServerReads o buf_ r) s = Ok (s1, sends) → calls_ok o2 (net s1).
Proof.
  intros Hi Ho Ho2 Hne HE. cbn [step] in HE. unfold assertInLoopThread in HE. rewrite decide_True in HE by done.
  cbn [mbind res_bind] in HE. destruct (HandleRead o buf_ r (net s)) as [[n' es]| | | |] eqn:Hh; try done. cbn [mbind res_bind] in HE.
  assert (net s1 = n') as ->.
  { change n' with (net (set_net n' s)). revert HE. generalize (set_net n' s) sends. clear.
    induction es as [|e es IH]; intros s2 out; cbn [perform]; [by intros [= <- _]|].
    destruct (perform1 _ e s2) as [[s3 o1]| | | |] eqn:E1; try done. cbn [mbind res_bind].
    destruct (perform _ es s3) as [[s4 o2]| | | |] eqn:E2; try done. intros [= <- _]. rewrite (IH _ _ E2).
    unfold perform1, StartConnection in E1.
    destruct e; [|by injection E1 as <- _| |by injection E1 as <- _].
    - destruct (conns _ !! c); [|done]. by injection E1 as <- _.
    - destruct (Send _ _ _ _); try done. by injection E1 as <- _. }
  destruct Ho2 as (? & ? & Hfree & ?). split; [done|]. split; [done|]. split; [|done].
  rewrite (HandleRead_fds listen o buf_ r (net s) n' es (li_net listen s Hi) Ho Hh); done.
Qed.

Lemma named_found buf from w id x p :
  world_inv w → datagram_ok (buf, from) → sessions w !! id = Some x → rtc_sessions w !! fragment_of x = Some id →
  Parse buf (zlen buf) = Ok (Some p) → names_us (username p) (fragment_of x) →
  find_session buf (zlen buf) w = Ok (Some id).
Proof.
  intros Hi Hd Hx Hreg HP Hn. pose proof (find_session_spec buf from w Hd Hi) as (o & -> & Ho)%wp_Ok.
  pose proof (Forall_lookup_1 _ _ _ _ (wv_sessions w Hi) Hx) as [_ Hal _ _].
  pose proof (first_name_us _ _ (alnum_no_colon _ Hal) Hn) as Hfn. destruct o as [i|].
  - destruct Ho as (p' & s & HP' & Hi' & _). rewrite HP in HP'. injection HP' as <-. rewrite Hfn in Hi'. congruence.
  - destruct (Ho p id HP). by rewrite Hfn.
Qed.

(** A named packet from a new address: the session moves to the next loop. *)
Lemma new_address listen o buf_ buf from s id x p l pool' :
  loops_inv listen s → calls_ok o (net s) → held buf_ → receive_ok (Datagram buf from) → (length buf ≤ BUF_SIZE)%nat →
  sessions (world (net s)) !! id = Some x → rtc_sessions (world (net s)) !! fragment_of x = Some id →
  Parse buf (zlen buf) = Ok (Some p) → names_us (username p) (fragment_of x) →
  connections_ (world (net s)) !! toIpPort from = None → getNextLoop (pool (world (net s))) = (l, pool') →
  let c := length (conns (world (net s))) in
  ∃ n', step (ServerReads o buf_ (Datagram buf from)) s
    = Ok (mkSys n' (pending s ++ [(l, Reading c); (l, Run id (OnInput buf from))]) (enabled s), []) ∧
    loops_inv listen (mkSys n' (pending s ++ [(l, Reading c); (l, Run id (OnInput buf from))]) (enabled s)) ∧
    sessions (world n') !! id = Some (bound x c l) ∧ rtc_sessions (world n') = rtc_sessions (world (net s)) ∧
    length (conns (world n')) = S c ∧ loop_of (world n') c = Some l ∧ pool (world n') = pool' ∧
    connections_ (world n') = <[toIpPort from := c]> (connections_ (world (net s))).
Proof.
  intros Hi Ho Hh Hr Hlen Hx Hreg HP Hn Hk Hl c. pose proof (ni_world listen _ (li_net listen s Hi)) as Hw.
  pose proof (ServerReads_quiet listen o buf_ (Datagram buf from) s Hi (conj Ho (conj Hh Hr))) as Hq.
  destruct (ServerReads_handled listen o buf_ (Datagram buf from) s Hi Ho Hh Hr) as (n' & q & E & _ & _ & _ & Hcase).
  assert (take BUF_SIZE buf = buf) as Et by (by apply take_ge).
  assert (datagram_ok (buf, from)) as Hd by (rewrite <- Et; destruct Hr; by apply take_datagram_ok).
  pose proof (named_found buf from _ id x p Hw Hd Hx Hreg HP Hn) as Hf. rewrite E in Hq. destruct Hq as [Hi' _].
  destruct Hcase as [(_ & _ & Hno)|(data & from' & id' & x' & w1 & c' & conn & [= <- <-] & Hf' & HG & Hx' & Hc' & Ew & ->)].
  { specialize (Hno buf from eq_refl). rewrite Et in Hno. congruence. }
  rewrite Et, Hf in Hf'. injection Hf' as <-. unfold Session.GetOrCreatConnection in HG. rewrite Hk, Hl in HG.
  injection HG as <- <-. cbn in Hc', Hx'. rewrite lookup_app_r, Nat.sub_diag in Hc' by lia. injection Hc' as <-.
  rewrite Hx in Hx'. injection Hx' as <-. rewrite Et in *. exists n'. split; [done|]. split; [done|]. rewrite Ew. cbn.
  split; [by apply list_lookup_insert_eq, (lookup_lt_Some _ _ _ Hx)|]. split; [done|].
  rewrite length_insert, length_app. cbn. split; [unfold c; lia|]. split; [|done].
  rewrite loop_of_bound; unfold loop_of; cbn; by rewrite lookup_app_r, Nat.sub_diag by lia.
Qed.

(** The session is bound to a connection on another loop than the one its task
    runs on. *)
Lemma answer_elsewhere listen s fresh l l2 id x c2 buf from p :
  loops_inv listen s → datagram_ok (buf, from) →
  (∃ q, next l (pending s) = Some (Run id (OnInput buf from), q)) →
  sessions (world (net s)) !! id = Some x → network_transport_ x = Some c2 → loop_of (world (net s)) c2 = Some l2 → l ≠ l2 →
  let t := webrtc_transport_ x in
  transport_ t = true → Ice.state (ice_server_ t) ≠ Ice.COMPLETED → Dtls.localRole (dtls_transport_ t) = Dtls.ROLE_NONE →
  Parse buf (zlen buf) = Ok (Some p) → klass p = REQUEST → Ice.complete p → Ice.current_ok (ice_server_ t) buf p →
  step (LoopRuns fresh l) s = Aborted not_in_loop.
Proof.
  intros Hi Hd [q Hq] Hx Hnt Hl2 Hne t Htr Hst Hro HP Hk Hcomp Hcur.
  pose proof (li_net listen s Hi) as Hn. pose proof (ni_world listen _ Hn) as Hw.
  pose proof (Forall_lookup_1 _ _ _ _ (wv_sessions _ Hw) Hx) as [Hit _ _ _].
  destruct (connects_spec fresh (with_buffer (StunSerializeBuffer (world (net s))) t) buf from p) as (t' & HE & _);
    try done; [by apply with_buffer_inv; [apply Hw|]|].
  cbn [step]. rewrite Hq. unfold perform_all, run_task, on_session. rewrite Hx. fold t. rewrite HE. cbn [mbind res_bind].
  unfold loop_of in Hl2. destruct (conns (world (net s)) !! c2) as [conn|] eqn:Hc; [|done]. injection Hl2 as Hl2.
  destruct (Forall2_lookup_r _ _ _ _ _ (ni_conns listen _ Hn) Hc) as (fd & Hfd & _). rewrite Hnt.
  eapply perform_elsewhere; [done|done|congruence|done].
Qed.

(** Two packets that name a session, from two new addresses. *)
Lemma second_address_spec listen s id x buf1 buf2 p1 p2 a b o1 o2 buf_ l1 l2 pool1 pool2 fresh :
  loops_inv listen s → pending s = [] →
  sessions (world (net s)) !! id = Some x → rtc_sessions (world (net s)) !! fragment_of x = Some id →
  let t := webrtc_transport_ x in
  Ice.state (ice_server_ t) ≠ Ice.COMPLETED → Dtls.localRole (dtls_transport_ t) = Dtls.ROLE_NONE →
  held buf_ → receive_ok (Datagram buf1 a) → receive_ok (Datagram buf2 b) →
  (length buf1 ≤ BUF_SIZE)%nat → (length buf2 ≤ BUF_SIZE)%nat →
  Parse buf1 (zlen buf1) = Ok (Some p1) → klass p1 = REQUEST → Ice.complete p1 → Ice.current_ok (ice_server_ t) buf1 p1 →
  Parse buf2 (zlen buf2) = Ok (Some p2) → names_us (username p2) (fragment_of x) →
  a ≠ b → connections_ (world (net s)) !! toIpPort a = None → connections_ (world (net s)) !! toIpPort b = None →
  getNextLoop (pool (world (net s))) = (l1, pool1) → getNextLoop pool1 = (l2, pool2) → l1 ≠ l2 →
  calls_ok o1 (net s) → calls_ok o2 (net s) → cc_fd o1 ≠ cc_fd o2 →
  ∃ s1 s2 s3, step (ServerReads o1 buf_ (Datagram buf1 a)) s = Ok (s1, []) ∧
    step (ServerReads o2 buf_ (Datagram buf2 b)) s1 = Ok (s2, []) ∧
    step (LoopRuns fresh l1) s2 = Ok (s3, []) ∧ step (LoopRuns fresh l1) s3 = Aborted not_in_loop.
Proof using All.
  intros Hi Hp Hx Hreg t Hst Hro Hh Hr1 Hr2 Hlen1 Hlen2 HP1 Hk Hcomp Hcur HP2 Hn2 Hab Hka Hkb Hl1 Hl2 Hne Ho1 Ho2 Hfds.
  destruct (new_address listen o1 buf_ buf1 a s id x p1 l1 pool1) as (n1 & E1 & Hi1 & Hx1 & Hrs1 & Hlc1 & _ & Hpool1 & Hcs1);
    try done; [apply Hcur|]. rewrite Hp in *. cbn [app] in *. pose proof (calls_still_ok _ _ _ _ _ _ _ _ Hi Ho1 Ho2 Hfds E1) as Ho2'.
  edestruct (new_address listen o2 buf_ buf2 b _ id (bound x (length (conns (world (net s)))) l1) p2 l2 pool2 Hi1) as (n2 & E2 & Hi2 & Hx2 & _ & _ & Hlo2 & _ & _);
    [done|done|done|done|exact Hx1|by cbn [net]; rewrite Hrs1|done|done| |by cbn [net]; rewrite Hpool1|].
  { cbn [net]. rewrite Hcs1, lookup_insert_ne; [done|]. intros E%(inj toIpPort (Inj := toIpPort_inj)). done. }
  cbn [net pending enabled app] in *.
  eexists _, _, _. split; [exact E1|]. split; [exact E2|]. split; [cbn [step pending next]; by rewrite decide_True|].
  eapply (answer_elsewhere listen _ fresh l1 l2 id _ _ buf1 a p1); cbn [net pending].
  - eapply (loops_inv_reading listen _ l1 _ _ Hi2); [|apply list_elem_of_here]. intros y Hy. by apply list_elem_of_further.
  - rewrite <- (take_ge buf1 BUF_SIZE) by done. destruct Hr1. by apply take_datagram_ok.
  - cbn [next]. rewrite decide_True by done. by eexists.
  - exact Hx2.
  - done.
  - exact Hlo2.
  - done.
  - done.
  - done.
  - done.
  - done.
  - done.
  - done.
  - done.
Qed.
End second_address.

(** ** Start *)
Lemma server_boots `{HmacSha1} `{Dtls.OpenSSL} `{LibSrtp} `{Muduo} fd loop listen threads pool seed chars buffer :
  0 ≤ fd → length chars = 64%nat → Ice.buffer_ok buffer →
  ∃ srv sockets, newUdpServer fd true (Some loop) listen threads ∅ = Ok (srv, sockets) ∧
    booted listen (mkSys (mkNet (start pool seed chars buffer).1 (Start (SetPacketCallback srv)) [] sockets) [] []).
Proof.
  intros Hfd Hc Hb. destruct (start_inv pool seed chars buffer Hc Hb) as [Hw _].
  destruct (newUdpServer_inv fd loop listen threads (start pool seed chars buffer).1 Hfd Hw eq_refl)
    as (srv & sockets & HE & -> & Hn). eexists _, _. split; [exact HE|].
  assert (net_inv listen (mkNet (start pool seed chars buffer).1
    (Start (SetPacketCallback (mkUdpServer loop fd threads false false false false))) [] sockets)) as Hn'
    by (destruct Hn as [? ? ? ?]; by split).
  split; [|done|by exists pool, seed, chars, buffer].
  split; [exact Hn'|by apply start_inv|done|constructor|]. intros l c []%not_elem_of_nil.
Qed.

(** ** Properties *)



(** With one thread for all connections no step ever fails the assertion. *)
Lemma one_thread_suffices `{HmacSha1} `{Dtls.OpenSSL} `{!OpenSSLSpec} `{LibSrtp} `{!LibSrtpSpec} `{!LibSrtpLocal} `{Muduo}
    l listen s0 h s i :
  (∀ p, (getNextLoop p).1 = l) → booted listen s0 → runs allowed s0 h s → allowed i s →
  fine_w (step i s) (safe_after listen i s).
Proof.
  intros Hl Hb Hr Ha. destruct (one_loop_runs l listen s0 h s Hl Hb Hr) as (Hi & Hh & Hone).
  apply step_safe; try done. by eapply one_loop_settled.
Qed.

(** C36: but two addresses are enough to stop the process.  The owner of a session
    sends his signed Binding request; before the session's loop gets to it, any STUN
    packet that names the session arrives from another address, and the pool puts
    its connection on another loop.  Then the answer to the first request is to be
    sent through the second connection, from the wrong thread, and
    assertInLoopThread aborts the server. *)
Theorem second_address_stops_server `{HmacSha1} `{Dtls.OpenSSL} `{LibSrtp} `{Muduo} `{!MuduoSpec}
    listen s id x buf1 buf2 p1 p2 a b o1 o2 buf_ l1 l2 pool1 pool2 fresh :
  loops_inv listen s → pending s = [] →
  sessions (world (net s)) !! id = Some x → rtc_sessions (world (net s)) !! fragment_of x = Some id →
  let t := webrtc_transport_ x in
  Ice.state (ice_server_ t) ≠ Ice.COMPLETED → Dtls.localRole (dtls_transport_ t) = Dtls.ROLE_NONE →
  held buf_ → receive_ok (Datagram buf1 a) → receive_ok (Datagram buf2 b) →
  (length buf1 ≤ BUF_SIZE)%nat → (length buf2 ≤ BUF_SIZE)%nat →
  Parse buf1 (zlen buf1) = Ok (Some p1) → klass p1 = REQUEST → Ice.complete p1 → Ice.current_ok (ice_server_ t) buf1 p1 →
  Parse buf2 (zlen buf2) = Ok (Some p2) → names_us (username p2) (fragment_of x) →
  a ≠ b → connections_ (world (net s)) !! toIpPort a = None → connections_ (world (net s)) !! toIpPort b = None →
  getNextLoop (pool (world (net s))) = (l1, pool1) → getNextLoop pool1 = (l2, pool2) → l1 ≠ l2 →
  calls_ok o1 (net s) → calls_ok o2 (net s) → cc_fd o1 ≠ cc_fd o2 →
  ∃ s1 s2 s3, step (ServerReads o1 buf_ (Datagram buf1 a)) s = Ok (s1, []) ∧
    step (ServerReads o2 buf_ (Datagram buf2 b)) s1 = Ok (s2, []) ∧
    step (LoopRuns fresh l1) s2 = Ok (s3, []) ∧ step (LoopRuns fresh l1) s3 = Aborted not_in_loop.
Proof. exact (second_address_spec listen s id x buf1 buf2 p1 p2 a b o1 o2 buf_ l1 l2 pool1 pool2 fresh). Qed.

(** *** A run for the witnesses *)
Abbreviation ToySys := (@Sys toy_ssl toy_srtp toy_muduo).
Definition boot_sys : ToySys :=
  match newUdpServer 3 true (Some 77) sample_listen 2 ∅ with
  | Ok (srv, sockets) =>
      mkSys (@mkNet toy_ssl toy_srtp toy_muduo start_world (Start (SetPacketCallback srv)) [] sockets) [] []
  | _ => mkSys (@mkNet toy_ssl toy_srtp toy_muduo start_world (mkUdpServer 0 0 0 false false false false) [] ∅) [] []
  end.

Lemma boot_sys_booted : @booted toy_ssl toy_srtp toy_muduo sample_listen boot_sys.
Proof.
  destruct (@server_boots toy_hmac toy_ssl toy_srtp toy_muduo 3 77 sample_listen 2 1 1 sample_chars Ice.zero_buffer)
    as (srv & sockets & HE & Hb); [done|done|apply Ice.zero_buffer_ok|]. unfold boot_sys. rewrite HE. exact Hb.
Qed.

(** A session was created. *)
Definition session_sys : ToySys := set_net (set_world new_world (net boot_sys)) boot_sys.

Lemma session_step :
  @step toy_hmac toy_ssl toy_srtp toy_muduo (@NewSession toy_ssl 0%nat (str "127.0.0.1") 8000) boot_sys = Ok (session_sys, []).
Proof.
  destruct (@start_create toy_hmac toy_ssl toy_srtp toy_muduo 1 1 sample_chars Ice.zero_buffer 0%nat
    (str "127.0.0.1") 8000 eq_refl Ice.zero_buffer_ok) as (w & HE & _).
  change (@CreateWebRTCSession toy_ssl toy_srtp toy_muduo 0%nat (str "127.0.0.1") 8000 start_world = Ok (w, 0%nat)) in HE.
  unfold session_sys, new_world. rewrite HE. cbn [step].
  change (@world toy_ssl toy_srtp toy_muduo (net boot_sys)) with start_world. rewrite HE. reflexivity.
Qed.

Lemma session_run : @runs toy_hmac toy_ssl toy_srtp toy_muduo allowed_settled boot_sys [Silent] session_sys.
Proof. exact (runs_more _ _ _ _ _ _ _ (runs_here _ _) (conj I I) session_step). Qed.

Lemma session_inv : @loops_inv toy_ssl toy_srtp toy_muduo sample_listen session_sys.
Proof.
  exact (proj1 (@runs_safe toy_hmac toy_ssl toy_ssl_spec toy_srtp toy_srtp_spec toy_srtp_local toy_muduo
    sample_listen boot_sys [Silent] session_sys boot_sys_booted session_run)).
Qed.

Lemma session_calls : @calls_ok toy_ssl toy_srtp toy_muduo sample_calls (net session_sys).
Proof. split; [reflexivity|]. split; [done|]. split; [by vm_compute|]. repeat split. Qed.

Lemma request_short : (length request ≤ BUF_SIZE)%nat.
Proof. apply Nat.leb_le. by vm_compute. Qed.

(** His request was received, and the loop of his connection has enabled it. *)
Lemma request_run :
  ∃ s3, @runs toy_hmac toy_ssl toy_srtp toy_muduo allowed_settled boot_sys [Silent; Received request sample_addr; Silent] s3 ∧
    next 1 (pending s3) = Some (Run 0%nat (OnInput request sample_addr), []).
Proof.
  destruct new_session_there as [Hx Hreg].
  destruct (@new_address toy_hmac toy_ssl toy_srtp toy_muduo sample_listen sample_calls sample_buffer request sample_addr
    session_sys 0%nat new_session request_packet 1 0) as (n & HE & _);
    [exact session_inv|exact session_calls|exact sample_buffer_held|exact request_received|exact request_short|exact Hx
    |exact Hreg|exact request_parsed|apply request_current|by vm_compute|reflexivity|].
  assert (Received request sample_addr = label (@ServerReads toy_ssl sample_calls sample_buffer (Datagram request sample_addr))) as El
    by (unfold label, label_of; by rewrite (take_ge request BUF_SIZE request_short)).
  epose proof (runs_more _ _ _ _ _ _ _ session_run _ HE) as Hr2. rewrite <- El in Hr2. Unshelve.
  2: { split; [split; [exact session_calls|split; [exact sample_buffer_held|exact request_received]]|].
       cbn [settled]. unfold stays. rewrite (take_ge request BUF_SIZE request_short).
       rewrite (@named_found toy_ssl toy_srtp toy_muduo request sample_addr (world (net session_sys)) 0%nat
         new_session request_packet);
         [|apply session_inv|apply request_datagram|exact Hx|exact Hreg|exact request_parsed|apply request_current].
       unfold home. by vm_compute. }
  eexists. split.
  - refine (runs_more _ _ _ _ (LoopRuns Ice.zero_buffer 1) _ [] Hr2 _ _); [|reflexivity].
    split; [|done]. split; [apply zero_fresh|]. intros id t q Hnx. discriminate Hnx.
  - reflexivity.
Qed.

Lemma settled_allowed `{HmacSha1} `{Dtls.OpenSSL} `{LibSrtp} `{Muduo} s0 h s :
  runs allowed_settled s0 h s → runs allowed s0 h s.
Proof. induction 1 as [|h s i s' sends _ IH [Ha _] HE]; [apply runs_here|by eapply runs_more]. Qed.



(** Another address. *)
Definition other_addr : sockaddr_in := mkSockaddrIn (to_be 2 4000) [10; 0; 0; 9].
Definition other_calls : ConnCalls := mkConnCalls true 5 true true true true.

Lemma other_received : receive_ok (Datagram request other_addr).
Proof. split; [apply request_received|]. apply (bool_decide_unpack _). by vm_compute. Qed.

Lemma second_address_stops_server_witness :
  ∃ s1 s2 s3,
    @step toy_hmac toy_ssl toy_srtp toy_muduo (ServerReads sample_calls sample_buffer (Datagram request sample_addr)) session_sys
    = Ok (s1, []) ∧
    @step toy_hmac toy_ssl toy_srtp toy_muduo (ServerReads other_calls sample_buffer (Datagram request other_addr)) s1
    = Ok (s2, []) ∧
    @step toy_hmac toy_ssl toy_srtp toy_muduo (LoopRuns Ice.zero_buffer 1) s2 = Ok (s3, []) ∧
    @step toy_hmac toy_ssl toy_srtp toy_muduo (LoopRuns Ice.zero_buffer 1) s3 = Aborted not_in_loop.
Proof.
  destruct new_session_there as [Hx Hreg]. destruct request_complete as [Hk Hc].
  apply (@second_address_stops_server toy_hmac toy_ssl toy_srtp toy_muduo toy_muduo_spec sample_listen session_sys 0%nat
    new_session request request request_packet request_packet sample_addr other_addr sample_calls other_calls sample_buffer
    1 0 0 1 Ice.zero_buffer).
  - exact session_inv.
  - reflexivity.
  - exact Hx.
  - exact Hreg.
  - vm_compute. congruence.
  - vm_compute. reflexivity.
  - exact sample_buffer_held.
  - exact request_received.
  - exact other_received.
  - exact request_short.
  - exact request_short.
  - exact request_parsed.
  - exact Hk.
  - exact Hc.
  - exact request_current.
  - exact request_parsed.
  - apply request_current.
  - done.
  - by vm_compute.
  - by vm_compute.
  - reflexivity.
  - reflexivity.
  - done.
  - exact session_calls.
  - split; [reflexivity|]. split; [done|]. split; [by vm_compute|]. repeat split.
  - done.
Defined.
End LoopsProofs.
