(* ===== verification/Concurrency.v ===== *)
(** * Threads below the level of a handler

    The handlers of Session.v run on several threads: HandlePacket and
    CreateWebRTCSession on the server's, WriteRtpCallback on the FFmpeg thread, the
    tasks and receive handlers of sessions on the loops of the pool.  Here they are
    programs of single accesses to the memory they share, interleaved in every way:
    the factory's map under its mutex, the fields SetNetworkTransport writes one
    after the other, the atomic flag is_ready_, the transports, and the static
    buffer of ice_server.cc.  What the accesses compute is left to Session.v; the
    values that decide what a thread does next (map, pointers, loops, flag) are
    kept. *)
From S2P Require Import Prelude ByteOps Crypto StunPacket StunParse StunAuth StunSerialize StunRoundtrip IceServer Srtp Dtls DtlsProofs Rtp WebRtc WebRtcProofs Session.

Module Concurrency.
Import Session.

(** ** Memory *)
Inductive Loc :=
| Sessions
| Network (id : session_id)
| Target (id : session_id)
| SessionLoop (id : session_id)
| Callback (c : connection_id)
| Transport (id : session_id)
| StunBuffer.

#[global] Instance Loc_eq_dec : EqDecision Loc.
Proof. solve_decision. Defined.

Definition Loc_code (x : Loc) : nat * nat :=
  match x with
  | Sessions => (0, 0)
  | Network id => (1, id)
  | Target id => (2, id)
  | SessionLoop id => (3, id)
  | Callback c => (4, c)
  | Transport id => (5, id)
  | StunBuffer => (6, 0)
  end%nat.
#[global] Instance Loc_countable : Countable Loc.
Proof.
  refine (inj_countable' Loc_code (λ p, match p with
    | (0, _) => Sessions | (1, n) => Network n | (2, n) => Target n | (3, n) => SessionLoop n
    | (4, n) => Callback n | (5, n) => Transport n | _ => StunBuffer end%nat) _).
  by intros [].
Defined.

(** What is stored where it matters: the map, a connection or a session, a loop. *)
Inductive Val :=
| VMap (m : gmap (list Z) session_id)
| VNat (n : nat)
| VLoop (l : Z)
| VAny.

(** ** Programs

    What the handling of a packet sends, in order: answers to STUN requests, which
    go through the static buffer, and others. *)
Abbreviation Answers := (list bool).

(** Functions that wait on a loop. *)
Inductive Functor :=
| EnableRead (c : connection_id)
| Input (id : session_id) (answers : Answers)
| Media (id : session_id).

(** One access, lock operation or call of runInLoop after the other.  [Fault] is a
    use of a loop pointer that was never set. *)
Inductive Code :=
| Done
| Fault
| Load (x : Loc) (k : option Val → Code)
| Store (x : Loc) (v : Val) (k : Code)
| LoadReady (id : session_id) (k : bool → Code)
| StoreReady (id : session_id) (k : Code)
| Lock (k : Code)
| Unlock (k : Code)
| RunIn (l : Z) (f : Functor) (k : Code).

Section programs.
(** The loop a connection was made with. *)
Context (conn_loop : connection_id → Z).

(** WebRTCSession::SetNetworkTransport, and what follows it. *)
Definition SetNetworkTransport_code (id : session_id) (c : connection_id) (k : Code) : Code :=
  Store (Network id) (VNat c) (
  Store (Target id) (VNat c) (
  Store (Callback c) (VNat id) (
  RunIn (conn_loop c) (EnableRead c) (
  Store (SessionLoop id) (VLoop (conn_loop c)) (
  StoreReady id k))))).

(** A use of [session->loop()]. *)
Definition run_in_session_loop (id : session_id) (f : Functor) (k : Code) : Code :=
  Load (SessionLoop id) (λ v,
    match v with
    | Some (VLoop l) => RunIn l f k
    | _ => Fault
    end).

(** The map, read under the mutex. *)
Definition with_sessions (k : gmap (list Z) session_id → Code) : Code :=
  Lock (Load Sessions (λ v, match v with Some (VMap m) => k m | _ => Fault end)).

(** WebRTCSessionFactory::HandlePacket for a packet whose user name starts with
    [key], from the address of connection [c]. *)
Definition HandlePacket_code (key : list Z) (c : connection_id) (answers : Answers) : Code :=
  with_sessions (λ m,
    Unlock (match m !! key with
            | None => Done
            | Some id => SetNetworkTransport_code id c (run_in_session_loop id (Input id answers) Done)
            end)).

(** The HTTP callback: the transport is made, CreateWebRTCSession enters it into the
    map, then its description is read and publish.cc sets its channel. *)
Definition CreateWebRTCSession_code (key : list Z) (id : session_id) : Code :=
  Store (Transport id) VAny (
  with_sessions (λ m,
    Store Sessions (VMap (match m !! key with Some _ => m | None => <[key := id]> m end)) (
    Unlock (
    Load (Transport id) (λ _,
    Store (Transport id) VAny Done))))).

(** WriteRtpCallback with GetAllReadyWebRTCSession. *)
Fixpoint broadcast (ready : list session_id) : Code :=
  match ready with
  | [] => Done
  | id :: ready => run_in_session_loop id (Media id) (broadcast ready)
  end.

Fixpoint collect (todo ready : list session_id) : Code :=
  match todo with
  | [] => Unlock (broadcast ready)
  | id :: todo => LoadReady id (λ b, collect todo (if b : bool then ready ++ [id] else ready))
  end.

Definition WriteRtpCallback_code : Code := with_sessions (λ m, collect (map_to_list m).*2 []).

(** WebRtcTransport::SendPacket tests the pointer to the network transport, then
    uses it; the bytes are read when they are written to the socket. *)
Definition SendPacket_code (id : session_id) (write k : Code) : Code :=
  Load (Target id) (λ v,
    match v with
    | Some _ => Load (Target id) (λ _, write)
    | None => k
    end).

(** Work on the transport and sends in turn; the answer to a STUN request is
    serialized into the static buffer and sent from there. *)
Fixpoint send_answers (id : session_id) (answers : Answers) : Code :=
  Store (Transport id) VAny (
    match answers with
    | [] => Done
    | true :: answers =>
        let k := send_answers id answers in
        Store StunBuffer VAny (SendPacket_code id (Load StunBuffer (λ _, k)) k)
    | false :: answers => let k := send_answers id answers in SendPacket_code id k k
    end).

Definition OnInputDataPacket_code (id : session_id) (answers : Answers) : Code := send_answers id answers.

Definition EncryptAndSendRtpPacket_code (id : session_id) : Code := Store (Transport id) VAny (SendPacket_code id Done Done).

(** UdpConnection::HandleRead. *)
Definition HandleRead_code (c : connection_id) (answers : Answers) : Code :=
  Load (Callback c) (λ v, match v with Some (VNat id) => OnInputDataPacket_code id answers | _ => Done end).

(** ** Threads *)
Inductive Thread := Server | Broadcaster | Loop (l : Z).

#[global] Instance Thread_eq_dec : EqDecision Thread.
Proof. solve_decision. Defined.

Record State := mkState {
  mem : gmap Loc Val;
  ready : gset session_id;
  owner : option Thread;
  queues : list (Z * Functor);
  reading : gset connection_id;
  code : Thread → Code;
}.

Definition set_code (t : Thread) (c : Code) (s : State) : State :=
  mkState (mem s) (ready s) (owner s) (queues s) (reading s) (λ u, if decide (u = t) then c else code s u).

(** The next access of a thread, if it can go on. *)
Definition exec (t : Thread) (s : State) : option State :=
  match code s t with
  | Done | Fault => None
  | Load x k => Some (set_code t (k (mem s !! x)) s)
  | Store x v k =>
      Some (set_code t k (mkState (<[x := v]> (mem s)) (ready s) (owner s) (queues s) (reading s) (code s)))
  | LoadReady id k => Some (set_code t (k (bool_decide (id ∈ ready s))) s)
  | StoreReady id k =>
      Some (set_code t k (mkState (mem s) ({[id]} ∪ ready s) (owner s) (queues s) (reading s) (code s)))
  | Lock k =>
      match owner s with
      | None => Some (set_code t k (mkState (mem s) (ready s) (Some t) (queues s) (reading s) (code s)))
      | Some _ => None
      end
  | Unlock k => Some (set_code t k (mkState (mem s) (ready s) None (queues s) (reading s) (code s)))
  | RunIn l f k =>
      Some (set_code t k (mkState (mem s) (ready s) (owner s) (queues s ++ [(l, f)]) (reading s) (code s)))
  end.

(** The next function of a loop, and the queues without it. *)
Fixpoint pop (l : Z) (q : list (Z * Functor)) : option (Functor * list (Z * Functor)) :=
  match q with
  | [] => None
  | (m, f) :: q =>
      if decide (m = l) then Some (f, q) else '(g, q) ← pop l q; Some (g, (m, f) :: q)
  end.

(** What a thread turns to when it has nothing to do. *)
Inductive Move :=
| Go (t : Thread)
| Create (key : list Z) (id : session_id)
| Packet (key : list Z) (c : connection_id) (answers : Answers)
| Frame
| RunFunctor (l : Z)
| Incoming (c : connection_id) (answers : Answers).

Definition idle (s : State) (t : Thread) : bool := match code s t with Done => true | _ => false end.

Definition move (m : Move) (s : State) : option State :=
  match m with
  | Go t => exec t s
  | Create key id =>
      if idle s Server && bool_decide (mem s !! Transport id = None) && bool_decide (mem s !! Target id = None)
      then Some (set_code Server (CreateWebRTCSession_code key id) s) else None
  | Packet key c answers => if idle s Server then Some (set_code Server (HandlePacket_code key c answers) s) else None
  | Frame => if idle s Broadcaster then Some (set_code Broadcaster WriteRtpCallback_code s) else None
  | RunFunctor l =>
      if idle s (Loop l) then
        match pop l (queues s) with
        | Some (f, q) =>
            let s := mkState (mem s) (ready s) (owner s) q (reading s) (code s) in
            match f with
            | EnableRead c => Some (mkState (mem s) (ready s) (owner s) q ({[c]} ∪ reading s) (code s))
            | Input id answers => Some (set_code (Loop l) (OnInputDataPacket_code id answers) s)
            | Media id => Some (set_code (Loop l) (EncryptAndSendRtpPacket_code id) s)
            end
        | None => None
        end
      else None
  | Incoming c answers =>
      if idle s (Loop (conn_loop c)) && bool_decide (c ∈ reading s)
      then Some (set_code (Loop (conn_loop c)) (HandleRead_code c answers) s) else None
  end.

Definition init : State := mkState {[Sessions := VMap ∅]} ∅ None [] ∅ (λ _, Done).

(** ** Races

    Two threads that are both about to access a place that is not atomic, one of
    them to write. *)
Definition access (c : Code) : option (Loc * bool) :=
  match c with
  | Load x _ => Some (x, false)
  | Store x _ _ => Some (x, true)
  | _ => None
  end.

Definition race_between (s : State) (x : Loc) (t u : Thread) : Prop :=
  t ≠ u ∧ ∃ w1 w2, access (code s t) = Some (x, w1) ∧ access (code s u) = Some (x, w2) ∧ w1 || w2 = true.

Definition race (s : State) (x : Loc) : Prop := ∃ t u, race_between s x t u.

(** States reached by moves that satisfy a condition. *)
Inductive reached (ok : Move → State → Prop) : State → Prop :=
| reached_init : reached ok init
| reached_move s m s' : reached ok s → ok m s → move m s = Some s' → reached ok s'.

(** A packet may bind a session that has no connection yet, to a connection that has
    no session yet. *)
Definition first (m : Move) (s : State) : Prop :=
  match m with
  | Packet key c _ => ∀ sm id, mem s !! Sessions = Some (VMap sm) → sm !! key = Some id →
      mem s !! Target id = None ∧ mem s !! Callback c = None
  | _ => True
  end.

(** The same as tests, and a run of moves. *)
Definition firstb (m : Move) (s : State) : bool :=
  match m with
  | Packet key c _ =>
      match mem s !! Sessions with
      | Some (VMap sm) =>
          match sm !! key with
          | Some id => bool_decide (mem s !! Target id = None) && bool_decide (mem s !! Callback c = None)
          | None => true
          end
      | _ => true
      end
  | _ => true
  end.

Fixpoint run (okb : Move → State → bool) (ms : list Move) (s : State) : option State :=
  match ms with
  | [] => Some s
  | m :: ms => if okb m s then s ← move m s; run okb ms s else None
  end.

Definition raceb (s : State) (x : Loc) (t u : Thread) : bool :=
  negb (bool_decide (t = u)) &&
  match access (code s t), access (code s u) with
  | Some (y, w1), Some (z, w2) => bool_decide (y = x) && bool_decide (z = x) && (w1 || w2)
  | _, _ => false
  end.
End programs.
End Concurrency.
