(* ===== verification/ConcurrencyProofs.v ===== *)
(** * Races and publication: proofs about Concurrency.v

    A session that is ready has a loop in every interleaving; there is no data race
    on the session's fields, its transport, the callback of its connection or the
    map as long as no session is bound twice; bound again, or with two sessions on
    two loops (the static STUN buffer), there are; and the programs, run alone, do
    what the operations of Session.v do. *)
From S2P Require Import Prelude ByteOps Crypto StunPacket StunParse StunAuth StunSerialize StunRoundtrip IceServer Srtp Dtls DtlsProofs Rtp WebRtc WebRtcProofs Session Locality SessionProofs Lifecycle Net Loops LoopsProofs Concurrency.

Module ConcurrencyProofs.
Import Crypto Srtp Session Concurrency.

Section programs.
Context (conn_loop : connection_id → Z).

(** ** What threads know

    [Unbound], [Free] and [NoLoop] say that a field was not written yet; only the
    server knows them, because only the server writes these fields. *)
Inductive Fact :=
| Unbound (id : session_id)
| Bound (id : session_id) (c : connection_id)
| Free (c : connection_id)
| Linked (c : connection_id) (id : session_id)
| NoLoop (id : session_id)
| Looped (id : session_id) (l : Z)
| HasLock
| First (key : list Z) (c : connection_id).

Abbreviation Facts := (Fact → Prop).

Definition holds (s : State) (t : Thread) (f : Fact) : Prop :=
  match f with
  | Unbound id => t = Server ∧ mem s !! Target id = None
  | Bound id c => mem s !! Target id = Some (VNat c)
  | Free c => t = Server ∧ mem s !! Callback c = None
  | Linked c id => mem s !! Callback c = Some (VNat id)
  | NoLoop id => t = Server ∧ mem s !! SessionLoop id = None
  | Looped id l => mem s !! SessionLoop id = Some (VLoop l)
  | HasLock => owner s = Some t
  | First key c => t = Server ∧ ∀ m id, mem s !! Sessions = Some (VMap m) → m !! key = Some id →
      mem s !! Target id = None ∧ mem s !! Callback c = None ∧ mem s !! SessionLoop id = None
  end.

(** Who may access what. *)
Definition can (t : Thread) (K : Facts) (x : Loc) (w : bool) : Prop :=
  match x with
  | Sessions => K HasLock ∧ (w = true → t = Server)
  | Network _ => t = Server
  | Target id => if w then K (Unbound id) else ∃ c, K (Bound id c)
  | Callback c => if w then K (Free c) else ∃ id, K (Linked c id)
  | SessionLoop id => if w then K (NoLoop id) else ∃ l, K (Looped id l)
  | Transport id => K (Unbound id) ∨ ∃ c, K (Bound id c) ∧ t = Loop (conn_loop c)
  | StunBuffer => True
  end.

(** What a load returns, and what it tells. *)
Definition sees (K : Facts) (x : Loc) (v : option Val) : Prop :=
  match x with
  | Sessions => ∃ m, v = Some (VMap m)
  | Callback c => ∀ id, K (Linked c id) → v = Some (VNat id)
  | SessionLoop id => ∀ l, K (Looped id l) → v = Some (VLoop l)
  | _ => True
  end.

Definition learn (K : Facts) (x : Loc) (v : option Val) : Facts := λ f,
  K f ∨ match x, v with
        | Sessions, Some (VMap m) => ∃ key c id, K (First key c) ∧ m !! key = Some id ∧
            (f = Unbound id ∨ f = NoLoop id ∨ f = Free c)
        | _, _ => False
        end.

(** What may be stored, and what is known afterwards. *)
Definition may_store (K : Facts) (x : Loc) (v : Val) : Prop :=
  match x with
  | Sessions => ∃ m, v = VMap m
  | Target _ => ∃ c, v = VNat c
  | Callback c => ∃ id, v = VNat id ∧ K (Bound id c)
  | SessionLoop id => ∃ c, v = VLoop (conn_loop c) ∧ K (Bound id c)
  | _ => True
  end.

Definition survives (x : Loc) (f : Fact) : Prop :=
  match x, f with
  | Target id, Unbound i => i ≠ id
  | Callback c, Free d => d ≠ c
  | SessionLoop id, NoLoop i => i ≠ id
  | (Sessions | Target _ | Callback _ | SessionLoop _), First _ _ => False
  | _, _ => True
  end.

Definition after (x : Loc) (v : Val) (K : Facts) : Facts := λ f,
  match x, v with
  | Target id, VNat c => f = Bound id c
  | Callback c, VNat id => f = Linked c id
  | SessionLoop id, VLoop l => f = Looped id l
  | _, _ => False
  end ∨ (K f ∧ survives x f).

Definition may_post (K : Facts) (l : Z) (f : Functor) : Prop :=
  match f with
  | EnableRead c => l = conn_loop c ∧ ∃ id, K (Linked c id)
  | Input id _ | Media id => K (Looped id l)
  end.

(** A program that keeps to this. *)
Fixpoint ok (t : Thread) (K : Facts) (c : Code) : Prop :=
  match c with
  | Done | Fault => True
  | Load x k => can t K x false ∧ ∀ v, sees K x v → ok t (learn K x v) (k v)
  | Store x v k => can t K x true ∧ may_store K x v ∧ ok t (after x v K) k
  | LoadReady id k => ok t K (k false) ∧ ∀ l, ok t (λ f, K f ∨ f = Looped id l) (k true)
  | StoreReady id k => (∃ l, K (Looped id l)) ∧ ok t K k
  | Lock k => ok t (λ f, K f ∨ f = HasLock) k
  | Unlock k => K HasLock ∧ ok t (λ f, K f ∧ f ≠ HasLock) k
  | RunIn l f k => may_post K l f ∧ ok t K k
  end.

(** ** The invariant of the memory *)
Record coherent (s : State) : Prop := {
  ch_sessions : ∃ m, mem s !! Sessions = Some (VMap m);
  ch_target id v : mem s !! Target id = Some v → ∃ c, v = VNat c;
  ch_loop id v : mem s !! SessionLoop id = Some v → ∃ c, v = VLoop (conn_loop c) ∧ mem s !! Target id = Some (VNat c);
  ch_callback c v : mem s !! Callback c = Some v → ∃ id, v = VNat id ∧ mem s !! Target id = Some (VNat c);
  ch_ready id : id ∈ ready s → ∃ l, mem s !! SessionLoop id = Some (VLoop l);
  ch_queues l f : (l, f) ∈ queues s → match f with
    | EnableRead c => l = conn_loop c ∧ ∃ id, mem s !! Callback c = Some (VNat id)
    | Input id _ | Media id => mem s !! SessionLoop id = Some (VLoop l) end;
  ch_reading c : c ∈ reading s → ∃ id, mem s !! Callback c = Some (VNat id);
}.

Definition thread_ok (s : State) (t : Thread) : Prop :=
  ∃ K : Facts, (∀ f, K f → holds s t f) ∧ ok t K (code s t).

Record race_inv (s : State) : Prop := {
  ri_coherent : coherent s;
  ri_threads t : thread_ok s t;
}.

(** *** No races in it *)
Lemma can_excludes s t u K J x w1 w2 :
  (∀ f, K f → holds s t f) → (∀ f, J f → holds s u f) → x ≠ StunBuffer →
  can t K x w1 → can u J x w2 → w1 || w2 = true → t = u.
Proof.
  intros HK HJ Hx H1 H2 Hw.
  (* a field that one side writes first and the other may read afterwards *)
  assert (∀ (R1 R2 : Prop) (W1 W2 : Prop), (W1 → t = Server) → (W2 → u = Server) → (W1 → R2 → False) → (W2 → R1 → False) →
    (if w1 then W1 else R1) → (if w2 then W2 else R2) → t = u) as Hfield.
  { intros R1 R2 W1 W2 HW1 HW2 Hc1 Hc2. destruct w1, w2; cbn in Hw; try done; intros; [|exfalso; eauto..].
    rewrite HW1, HW2 by done. done. }
  destruct x as [|id|id|id|c|id|]; cbn in H1, H2; try done.
  - destruct H1 as [H1%HK _], H2 as [H2%HJ _]. cbn in *. congruence.
  - congruence.
  - revert H1 H2. apply Hfield; [by intros []%HK|by intros []%HJ|intros [_ E]%HK [c E'%HJ]|intros [_ E]%HJ [c E'%HK]];
      cbn in E'; congruence.
  - revert H1 H2. apply Hfield; [by intros []%HK|by intros []%HJ|intros [_ E]%HK [c E'%HJ]|intros [_ E]%HJ [c E'%HK]];
      cbn in E'; congruence.
  - revert H1 H2. apply Hfield; [by intros []%HK|by intros []%HJ|intros [_ E]%HK [i E'%HJ]|intros [_ E]%HJ [i E'%HK]];
      cbn in E'; congruence.
  - destruct H1 as [H1%HK|(c & H1%HK & ->)], H2 as [H2%HJ|(d & H2%HJ & ->)]; cbn in H1, H2;
      [destruct H1, H2|destruct H1|destruct H2|]; congruence.
Qed.

Lemma access_can t K c x w : ok t K c → access c = Some (x, w) → can t K x w.
Proof. destruct c; try done; cbn; intros [Hc _] [= <- <-]; done. Qed.

Lemma race_inv_free s x : race_inv s → x ≠ StunBuffer → ¬ race s x.
Proof.
  intros [_ Ht] Hx (t & u & Hne & w1 & w2 & H1 & H2 & Hw).
  destruct (Ht t) as (K & HK & Hok1), (Ht u) as (J & HJ & Hok2).
  apply Hne. by eapply (can_excludes s t u K J x w1 w2); [..|eapply access_can|eapply access_can|].
Qed.

(** *** Steps keep it *)
Definition set_mem (m : gmap Loc Val) (s : State) : State :=
  mkState m (ready s) (owner s) (queues s) (reading s) (code s).

Lemma store_keeps s t x v K u f :
  (∀ f, K f → holds s t f) → can t K x true → (u = t → survives x f) →
  holds s u f → holds (set_mem (<[x := v]> (mem s)) s) u f.
Proof.
  intros HK Hc Hsv Hf.
  assert (match x with Target _ | Callback _ | SessionLoop _ | Sessions => t = Server | _ => True end) as Ht.
  { destruct x; cbn in Hc; try done; [by apply Hc|by apply HK in Hc as []..]. }
  destruct f as [id|id c|c|c id|id|id l| |key c]; cbn in Hf |- *; try done.
  - destruct Hf as [-> Hf]. split; [done|]. destruct (decide (x = Target id)) as [->|Hne]; [|by rewrite lookup_insert_ne].
    subst t. by destruct (Hsv eq_refl).
  - rewrite lookup_insert_ne; [done|]. intros ->. apply HK in Hc as [_ Hc]. congruence.
  - destruct Hf as [-> Hf]. split; [done|]. destruct (decide (x = Callback c)) as [->|Hne]; [|by rewrite lookup_insert_ne].
    subst t. by destruct (Hsv eq_refl).
  - rewrite lookup_insert_ne; [done|]. intros ->. apply HK in Hc as [_ Hc]. congruence.
  - destruct Hf as [-> Hf]. split; [done|]. destruct (decide (x = SessionLoop id)) as [->|Hne]; [|by rewrite lookup_insert_ne].
    subst t. by destruct (Hsv eq_refl).
  - rewrite lookup_insert_ne; [done|]. intros ->. apply HK in Hc as [_ Hc]. congruence.
  - destruct Hf as [-> Hf]. split; [done|]. intros m id. destruct x; subst; try (by destruct (Hsv eq_refl));
      rewrite !lookup_insert_ne by done; apply Hf.
Qed.

Lemma store_gains s t x v K f :
  (∀ f, K f → holds s t f) → can t K x true → after x v K f → holds (set_mem (<[x := v]> (mem s)) s) t f.
Proof.
  intros HK Hc [Hg|[Hf Hsv]]; [|by eapply store_keeps; eauto].
  destruct x, v; try done; subst f; apply lookup_insert_eq.
Qed.

Lemma store_coherent s t x v K :
  coherent s → (∀ f, K f → holds s t f) → can t K x true → may_store K x v → coherent (set_mem (<[x := v]> (mem s)) s).
Proof.
  intros [Hse Ht Hl Hcb Hr Hq Hrd] HK Hc Hv.
  assert (∀ f, match f with Bound _ _ | Linked _ _ | Looped _ _ => True | _ => False end → holds s t f →
    holds (set_mem (<[x := v]> (mem s)) s) t f) as Hkeep.
  { intros f Hp Hf. eapply store_keeps; [done|done| |done]. by destruct x, f. }
  split; cbn.
  - destruct Hse as [m Hm]. destruct (decide (x = Sessions)) as [->|Hne].
    + destruct Hv as [m' ->]. exists m'. apply lookup_insert_eq.
    + exists m. by rewrite lookup_insert_ne.
  - intros id v'. destruct (decide (x = Target id)) as [->|Hne]; [|rewrite lookup_insert_ne by done; apply Ht].
    rewrite lookup_insert_eq. intros [= <-]. done.
  - intros id v'. destruct (decide (x = SessionLoop id)) as [->|Hne].
    + rewrite lookup_insert_eq. intros [= <-]. destruct Hv as (c & -> & Hb). exists c. split; [done|].
      apply (Hkeep (Bound id c) I), (HK _ Hb).
    + rewrite lookup_insert_ne by done. intros (c & -> & E)%Hl. exists c. split; [done|]. by apply (Hkeep (Bound id c)).
  - intros c v'. destruct (decide (x = Callback c)) as [->|Hne].
    + rewrite lookup_insert_eq. intros [= <-]. destruct Hv as (id & -> & Hb). exists id. split; [done|].
      apply (Hkeep (Bound id c) I), (HK _ Hb).
    + rewrite lookup_insert_ne by done. intros (id & -> & E)%Hcb. exists id. split; [done|]. by apply (Hkeep (Bound id c)).
  - intros id (l & E)%Hr. exists l. by apply (Hkeep (Looped id l)).
  - intros l f Hin. specialize (Hq l f Hin). destruct f as [c|id st|id].
    + destruct Hq as [-> (id & E)]. split; [done|]. exists id. by apply (Hkeep (Linked c id)).
    + by apply (Hkeep (Looped id l)).
    + by apply (Hkeep (Looped id l)).
  - intros c (id & E)%Hrd. exists id. by apply (Hkeep (Linked c id)).
Qed.

Lemma code_set t c s u : code (set_code t c s) u = if decide (u = t) then c else code s u.
Proof. done. Qed.

(** One thread moves, the others know what they knew. *)
Lemma race_inv_step s t K' c s' :
  race_inv s → coherent s' → (∀ u f, u ≠ t → holds s u f → holds s' u f) → code s' = code s →
  (∀ f, K' f → holds s' t f) → ok t K' c → race_inv (set_code t c s').
Proof.
  intros [_ Ht] Hc Hother Hcode HK Hok. split; [by destruct Hc|]. intros u. unfold thread_ok. rewrite code_set.
  case_decide as Hu; [subst u; by exists K'|]. destruct (Ht u) as (J & HJ & Hoku). rewrite Hcode.
  exists J. split; [|done]. intros f Hf. by apply (Hother u f Hu), HJ.
Qed.

Lemma load_seen s t K x :
  coherent s → (∀ f, K f → holds s t f) →
  sees K x (mem s !! x) ∧ ∀ f, learn K x (mem s !! x) f → holds s t f.
Proof.
  intros [[m Hm] _ _ _ _ _ _] HK. split.
  - destruct x; cbn; try done; [by exists m|intros l Hl; apply (HK _ Hl)|intros id Hl; apply (HK _ Hl)].
  - intros f [Hf|Hf]; [by apply HK|]. destruct x; try done. rewrite Hm in Hf.
    destruct Hf as (key & c & id & Hk & Hid & Hf). apply HK in Hk as [-> Hk]. destruct (Hk m id Hm Hid) as (? & ? & ?).
    destruct Hf as [->|[->| ->]]; by split.
Qed.

Lemma post_coherent s t K l f :
  coherent s → (∀ f, K f → holds s t f) → may_post K l f →
  coherent (mkState (mem s) (ready s) (owner s) (queues s ++ [(l, f)]) (reading s) (code s)).
Proof.
  intros [Hse Ht Hl Hcb Hr Hq Hrd] HK Hp. split; cbn; try done.
  intros l' f' [Hin|Hin]%elem_of_app; [by apply Hq|]. apply list_elem_of_singleton in Hin as [= -> ->].
  destruct f as [c|id st|id]; cbn in Hp.
  - destruct Hp as [-> [id Hp]]. split; [done|]. exists id. apply (HK _ Hp).
  - apply (HK _ Hp).
  - apply (HK _ Hp).
Qed.

Lemma exec_inv t s s' : race_inv s → exec t s = Some s' → race_inv s'.
Proof.
  intros Hi HE. pose proof Hi as [Hch Hth]. destruct (Hth t) as (K & HK & Hok). unfold exec in HE.
  destruct (code s t) as [| |x k|x v k|id k|id k|k|k|l f k]; cbn in Hok; try done.
  - destruct Hok as [_ Hk]. destruct (load_seen s t K x Hch HK) as [Hs Hl]. injection HE as <-.
    by eapply (race_inv_step s t (learn K x (mem s !! x))); eauto.
  - destruct Hok as (Hc & Hv & Hk). injection HE as <-.
    apply (race_inv_step s t (after x v K) k (set_mem (<[x := v]> (mem s)) s)); try done.
    + by eapply store_coherent.
    + intros u f Hu. by eapply store_keeps.
    + intros f. by apply store_gains.
  - destruct Hok as [Hf Ht]. injection HE as <-. case_bool_decide as Hr; [|by apply (race_inv_step s t K _ s)].
    destruct (ch_ready s Hch id Hr) as [l Hl]. apply (race_inv_step s t (λ f, K f ∨ f = Looped id l) _ s); try done.
    intros f [Hf'| ->]; [by apply HK|done].
  - destruct Hok as [[l Hl] Hk]. injection HE as <-. apply (race_inv_step s t K k
      (mkState (mem s) ({[id]} ∪ ready s) (owner s) (queues s) (reading s) (code s))); try done.
    destruct Hch as [? ? ? ? Hr ? ?]. split; try done. intros i [->%elem_of_singleton|Hi']%elem_of_union; [|by apply Hr].
    exists l. apply (HK _ Hl).
  - destruct (owner s) as [o|] eqn:Ho; [done|]. injection HE as <-. apply (race_inv_step s t (λ f, K f ∨ f = HasLock) k
      (mkState (mem s) (ready s) (Some t) (queues s) (reading s) (code s))); try done.
    + by destruct Hch.
    + intros u f Hu Hf. destruct f; try done. cbn in Hf. congruence.
    + intros f [Hf| ->]; [|done]. apply HK in Hf. by destruct f.
  - destruct Hok as [Hl Hk]. apply HK in Hl. injection HE as <-. apply (race_inv_step s t (λ f, K f ∧ f ≠ HasLock) k
      (mkState (mem s) (ready s) None (queues s) (reading s) (code s))); try done.
    + by destruct Hch.
    + intros u f Hu Hf. destruct f; try done. cbn in Hf, Hl. congruence.
    + intros f [Hf Hne]. apply HK in Hf. by destruct f.
  - destruct Hok as [Hp Hk]. injection HE as <-. apply (race_inv_step s t K k
      (mkState (mem s) (ready s) (owner s) (queues s ++ [(l, f)]) (reading s) (code s))); try done.
    by eapply post_coherent.
Qed.

(** *** The programs keep to it *)
Lemma broadcast_ok ready K :
  (∀ id, id ∈ ready → ∃ l, K (Looped id l)) → ok Broadcaster K (broadcast ready).
Proof.
  revert K. induction ready as [|id r IH]; intros K HK; cbn; [done|].
  destruct (HK id (list_elem_of_here _ _)) as [l Hl]. split; [by exists l|]. intros v Hv. rewrite (Hv l Hl). cbn.
  split; [by left|]. apply IH. intros i Hi. destruct (HK i (list_elem_of_further _ _ _ Hi)) as [l' Hl']. exists l'. by left.
Qed.

Lemma collect_ok todo ready K :
  K HasLock → (∀ id, id ∈ ready → ∃ l, K (Looped id l)) → ok Broadcaster K (collect todo ready).
Proof.
  revert ready K. induction todo as [|id todo IH]; intros ready K Hlock HK; cbn.
  - split; [done|]. apply broadcast_ok. intros id (l & Hl)%HK. by exists l.
  - split; [by apply IH|]. intros l. apply IH; [by left|]. intros i [Hi|Hi]%elem_of_app.
    + apply HK in Hi as [l' Hl']. exists l'. by left.
    + apply list_elem_of_singleton in Hi as ->. exists l. by right.
Qed.

Lemma WriteRtpCallback_ok K : ok Broadcaster K WriteRtpCallback_code.
Proof.
  cbn. split; [split; [by right|done]|]. intros v [m ->]. apply collect_ok; [by left; right|]. by intros ? ?%not_elem_of_nil.
Qed.

Lemma SendPacket_ok t K id c write k :
  K (Bound id c) → (∀ K' : Facts, K' (Bound id c) → ok t K' write) → (∀ K' : Facts, K' (Bound id c) → ok t K' k) →
  ok t K (SendPacket_code id write k).
Proof.
  intros HK Hw Hk. cbn. split; [by exists c|]. intros [v|] _; [|apply Hk; by left].
  split; [exists c; by left|]. intros v' _. apply Hw. left. by left.
Qed.

Lemma OnInputDataPacket_ok K id c l answers :
  K (Bound id c) → l = conn_loop c → ok (Loop l) K (OnInputDataPacket_code id answers).
Proof.
  intros HK ->. unfold OnInputDataPacket_code. revert K HK. induction answers as [|[] l IH]; intros K HK; cbn [send_answers ok].
  - split; [right; by exists c|]. done.
  - split; [right; by exists c|]. split; [done|]. split; [done|]. split; [done|].
    apply SendPacket_ok with c; [unfold after; cbn; tauto| |]; intros K' HK'; [cbn; split; [done|]; intros v _|];
      apply IH; unfold learn; tauto.
  - split; [right; by exists c|]. split; [done|].
    apply SendPacket_ok with c; [unfold after; cbn; tauto| |]; intros K' HK'; by apply IH.
Qed.

Lemma EncryptAndSendRtpPacket_ok K id c l :
  K (Bound id c) → l = conn_loop c → ok (Loop l) K (EncryptAndSendRtpPacket_code id).
Proof.
  intros HK ->. split; [right; by exists c|]. split; [done|]. apply SendPacket_ok with c; [unfold after; cbn; tauto|done|done].
Qed.

Lemma HandleRead_ok K c id answers :
  K (Linked c id) → K (Bound id c) → ok (Loop (conn_loop c)) K (HandleRead_code c answers).
Proof.
  intros Hl Hb. cbn. split; [by exists id|]. intros v Hv. rewrite (Hv id Hl). eapply OnInputDataPacket_ok; [by left|done].
Qed.

Lemma SetNetworkTransport_ok K id c k :
  K (Unbound id) → K (NoLoop id) → K (Free c) →
  (∀ K' : Facts, K' (Looped id (conn_loop c)) → ok Server K' k) → ok Server K (SetNetworkTransport_code conn_loop id c k).
Proof.
  intros Hu Hn Hf Hk. unfold SetNetworkTransport_code. cbn. unfold after. cbn.
  split; [done|]. split; [done|]. split; [tauto|]. split; [by exists c|].
  split; [tauto|]. split; [exists id; tauto|]. split; [split; [done|exists id; tauto]|].
  split; [naive_solver|]. split; [exists c; naive_solver|]. split; [exists (conn_loop c); tauto|].
  apply Hk. tauto.
Qed.

Lemma HandlePacket_ok K key c answers : K (First key c) → ok Server K (HandlePacket_code conn_loop key c answers).
Proof.
  intros HK. cbn. split; [split; [by right|done]|]. intros v [m ->]. cbn. split; [left; by right|].
  destruct (m !! key) as [id|] eqn:Hid; [|done].
  assert (∀ f, f = Unbound id ∨ f = NoLoop id ∨ f = Free c →
    learn (λ f, K f ∨ f = HasLock) Sessions (Some (VMap m)) f ∧ f ≠ HasLock) as Hlearn.
  { intros f Hf. split; [|by destruct Hf as [->|[->| ->]]]. right. exists key, c, id. split; [by left|by split]. }
  apply SetNetworkTransport_ok; [apply Hlearn; by left|apply Hlearn; right; by left|apply Hlearn; right; by right|].
  intros K' Hl. cbn. split; [by exists (conn_loop c)|]. intros v Hv. rewrite (Hv _ Hl). cbn. split; [by left|done].
Qed.

Lemma CreateWebRTCSession_ok K key id : K (Unbound id) → ok Server K (CreateWebRTCSession_code key id).
Proof.
  intros HK. cbn. unfold after. cbn. split; [by left|]. split; [done|]. split; [split; [by right|done]|].
  intros v [m ->]. cbn. unfold after, learn. cbn. split; [split; [naive_solver|done]|]. split; [by eexists|]. split; [naive_solver|].
  split; [left; naive_solver|]. intros _ _. split; [left; naive_solver|done].
Qed.

(** *** Moves keep it *)
Lemma race_inv_start s t K c s' :
  race_inv s → coherent s' → mem s' = mem s → owner s' = owner s → code s' = code s →
  (∀ f, K f → holds s t f) → ok t K c → race_inv (set_code t c s').
Proof.
  intros Hi Hc Hm Ho Hcode HK Hok.
  assert (∀ u f, holds s u f → holds s' u f) as Hh by (intros u f; destruct f; cbn; by rewrite ?Hm, ?Ho).
  eapply (race_inv_step s t K c s'); eauto.
Qed.

Lemma pop_elem l q f q' : pop l q = Some (f, q') → (l, f) ∈ q ∧ ∀ x, x ∈ q' → x ∈ q.
Proof.
  revert q'. induction q as [|[m g] q IH]; intros q'; [done|]. cbn. case_decide as Hm.
  - intros [= <- <-]. subst m. split; [apply list_elem_of_here|]. intros x. apply list_elem_of_further.
  - destruct (pop l q) as [[g' q'']|]; [|done]. intros [= -> <-]. destruct (IH q'' eq_refl) as [Hin Hsub].
    split; [by apply list_elem_of_further|]. intros x [->|Hx]%elem_of_cons; [apply list_elem_of_here|].
    by apply list_elem_of_further, Hsub.
Qed.

Lemma pop_coherent s l f q :
  coherent s → pop l (queues s) = Some (f, q) →
  coherent (mkState (mem s) (ready s) (owner s) q (reading s) (code s)).
Proof.
  intros [? ? ? ? ? Hq ?] (_ & Hsub)%pop_elem. split; try done. intros l' f' Hin. by apply Hq, Hsub.
Qed.

Lemma bound_of_loop s id l :
  coherent s → mem s !! SessionLoop id = Some (VLoop l) → ∃ c, mem s !! Target id = Some (VNat c) ∧ l = conn_loop c.
Proof. intros Hc (c & [= ->] & Ht)%(ch_loop s Hc). by exists c. Qed.

Lemma RunFunctor_inv l s s' : race_inv s → move conn_loop (RunFunctor l) s = Some s' → race_inv s'.
Proof.
  intros Hi HE. pose proof Hi as [Hc Hth]. cbn [move] in HE. destruct (idle s (Loop l)); [|done].
  destruct (pop l (queues s)) as [[f q]|] eqn:Hp; [|done]. pose proof (pop_coherent s l f q Hc Hp) as Hc'.
  destruct (pop_elem _ _ _ _ Hp) as [Hin _]. pose proof (ch_queues s Hc l f Hin) as Hq. destruct f as [c|id st|id].
  - injection HE as <-. split; [|exact Hth]. destruct Hc' as [? ? ? ? ? ? Hr]. destruct Hq as [_ Hq].
    split; try done. intros d [->%elem_of_singleton|Hd]%elem_of_union; [done|by apply Hr].
  - injection HE as <-. destruct (bound_of_loop s id l Hc Hq) as (c & Ht & Hl).
    apply (race_inv_start s (Loop l) (λ f, f = Bound id c)); try done; [by intros f ->|by eapply OnInputDataPacket_ok].
  - injection HE as <-. destruct (bound_of_loop s id l Hc Hq) as (c & Ht & Hl).
    apply (race_inv_start s (Loop l) (λ f, f = Bound id c)); try done; [by intros f ->|by eapply EncryptAndSendRtpPacket_ok].
Qed.

Lemma move_inv m s s' : race_inv s → first m s → move conn_loop m s = Some s' → race_inv s'.
Proof.
  intros Hi Hf HE. pose proof Hi as [Hc Hth]. destruct m as [t|key id|key c st| |l|c st].
  - by eapply exec_inv.
  - cbn [move] in HE. destruct (idle s Server); [|done]. cbn in HE. do 2 (case_bool_decide; [|done]). injection HE as <-.
    apply (race_inv_start s Server (λ f, f = Unbound id)); try done; [by intros f ->|by apply CreateWebRTCSession_ok].
  - cbn [move] in HE. destruct (idle s Server); [|done]. injection HE as <-.
    apply (race_inv_start s Server (λ f, f = First key c)); try done; [|by apply HandlePacket_ok].
    intros f ->. split; [done|]. intros m id Hm Hid. destruct (Hf m id Hm Hid) as [Ht Hcb]. split; [done|]. split; [done|].
    destruct (mem s !! SessionLoop id) as [v|] eqn:Hl; [|done]. apply (ch_loop s Hc) in Hl as (? & _ & ?). congruence.
  - cbn [move] in HE. destruct (idle s Broadcaster); [|done]. injection HE as <-.
    apply (race_inv_start s Broadcaster (λ _, False)); try done. apply WriteRtpCallback_ok.
  - by eapply RunFunctor_inv.
  - cbn [move] in HE. destruct (idle s _); [|done]. cbn in HE. case_bool_decide as Hr; [|done]. injection HE as <-.
    destruct (ch_reading s Hc c Hr) as [id Hid]. pose proof Hid as Hid'. apply (ch_callback s Hc) in Hid' as (i & [= <-] & Ht).
    apply (race_inv_start s _ (λ f, f = Linked c id ∨ f = Bound id c)); try done; [by intros f [->| ->]|].
    apply (HandleRead_ok _ c id); [by left|by right].
Qed.

Lemma init_coherent : coherent init.
Proof.
  split; cbn.
  - exists ∅. apply lookup_singleton_eq.
  - intros id v. by rewrite lookup_singleton_ne.
  - intros id v. by rewrite lookup_singleton_ne.
  - intros c v. by rewrite lookup_singleton_ne.
  - set_solver.
  - by intros l f ?%not_elem_of_nil.
  - set_solver.
Qed.

Lemma reached_race_inv s : reached conn_loop first s → race_inv s.
Proof.
  induction 1 as [|s m s' _ IH Hok HE]; [|by eapply move_inv].
  split; [apply init_coherent|]. intros t. by exists (λ _, False).
Qed.

(** ** A session that is ready has a loop

    This holds for sessions that are bound again, too: the pointer may change, but
    it stays set. *)
Abbreviation Known := (session_id → Prop).

Fixpoint safe (L : Known) (c : Code) : Prop :=
  match c with
  | Done => True
  | Fault => False
  | Load x k => ∀ v, match x with
      | Sessions => ∃ m, v = Some (VMap m)
      | SessionLoop id => L id → ∃ l, v = Some (VLoop l)
      | _ => True end → safe L (k v)
  | Store x v k =>
      match x with
      | Sessions => ∃ m, v = VMap m
      | SessionLoop _ => ∃ l, v = VLoop l
      | _ => True end ∧ safe (λ i, L i ∨ x = SessionLoop i) k
  | LoadReady id k => safe L (k false) ∧ safe (λ i, L i ∨ i = id) (k true)
  | StoreReady id k => L id ∧ safe L k
  | Lock k | Unlock k | RunIn _ _ k => safe L k
  end.

Definition looped (s : State) (id : session_id) : Prop := ∃ l, mem s !! SessionLoop id = Some (VLoop l).

Record loop_inv (s : State) : Prop := {
  pi_sessions : ∃ m, mem s !! Sessions = Some (VMap m);
  pi_ready id : id ∈ ready s → looped s id;
  pi_threads t : ∃ L : Known, (∀ id, L id → looped s id) ∧ safe L (code s t);
}.

Lemma loop_inv_step s t L c s' :
  loop_inv s → (∃ m, mem s' !! Sessions = Some (VMap m)) → (∀ id, id ∈ ready s' → looped s' id) →
  (∀ id, looped s id → looped s' id) → code s' = code s → (∀ id, L id → looped s' id) → safe L c →
  loop_inv (set_code t c s').
Proof.
  intros [_ _ Ht] Hs Hr Hmono Hcode HL Hc. split; [done|done|]. intros u. rewrite code_set.
  case_decide as Hu; [by exists L|]. destruct (Ht u) as (J & HJ & Hj). rewrite Hcode. exists J. eauto.
Qed.

Lemma exec_loop_inv t s s' : loop_inv s → exec t s = Some s' → loop_inv s'.
Proof.
  intros Hi HE. pose proof Hi as [Hse Hr Hth]. destruct (Hth t) as (L & HL & Hs). unfold exec in HE.
  destruct (code s t) as [| |x k|x v k|id k|id k|k|k|l f k]; cbn in Hs; try done; [..|destruct (owner s); [done|]| |];
    injection HE as <-.
  - apply (loop_inv_step s t L _ s); try done. apply Hs. destruct x; try done. apply HL.
  - destruct Hs as [Hv Hk].
    assert (∀ id, looped s id ∨ x = SessionLoop id → looped (set_mem (<[x := v]> (mem s)) s) id) as Hm.
    { intros id Hid. unfold looped. cbn. destruct (decide (x = SessionLoop id)) as [->|Hne].
      - destruct Hv as [l ->]. exists l. apply lookup_insert_eq.
      - destruct Hid as [[l Hl]|?]; [|done]. exists l. by rewrite lookup_insert_ne. }
    apply (loop_inv_step s t (λ i, L i ∨ x = SessionLoop i) k (set_mem (<[x := v]> (mem s)) s)); try done.
    + cbn. destruct Hse as [m Hm']. destruct (decide (x = Sessions)) as [->|Hne].
      * destruct Hv as [m' ->]. exists m'. apply lookup_insert_eq.
      * exists m. by rewrite lookup_insert_ne.
    + intros id Hid. apply Hm. left. by apply Hr.
    + intros id Hid. apply Hm. by left.
    + intros id [Hid|Hid]; apply Hm; [left; by apply HL|by right].
  - destruct Hs as [Hf Ht]. case_bool_decide as Hid; [|by apply (loop_inv_step s t L _ s)].
    apply (loop_inv_step s t (λ i, L i ∨ i = id) _ s); try done. intros i [Hi'| ->]; [by apply HL|by apply Hr].
  - destruct Hs as [Hid Hk]. apply (loop_inv_step s t L k
      (mkState (mem s) ({[id]} ∪ ready s) (owner s) (queues s) (reading s) (code s))); try done.
    intros i [->%elem_of_singleton|Hi']%elem_of_union; [by apply HL|by apply Hr].
  - apply (loop_inv_step s t L k (mkState (mem s) (ready s) (Some t) (queues s) (reading s) (code s))); done.
  - apply (loop_inv_step s t L k (mkState (mem s) (ready s) None (queues s) (reading s) (code s))); done.
  - apply (loop_inv_step s t L k
      (mkState (mem s) (ready s) (owner s) (queues s ++ [(l, f)]) (reading s) (code s))); done.
Qed.

(** *** The programs *)
Lemma broadcast_safe ready L : (∀ id, id ∈ ready → L id) → safe L (broadcast ready).
Proof.
  induction ready as [|id r IH]; intros HL; [done|]. cbn. intros v Hv.
  destruct (Hv (HL id (list_elem_of_here _ _))) as [l ->]. cbn. apply IH. intros i Hi. apply HL. by apply list_elem_of_further.
Qed.

Lemma collect_safe todo ready L : (∀ id, id ∈ ready → L id) → safe L (collect todo ready).
Proof.
  revert ready L. induction todo as [|id todo IH]; intros ready L HL; cbn; [by apply broadcast_safe|].
  split; [by apply IH|]. apply IH. intros i [Hi|Hi]%elem_of_app; [left; by apply HL|].
  apply list_elem_of_singleton in Hi as ->. by right.
Qed.

Lemma frame_safe L : safe L WriteRtpCallback_code.
Proof. cbn. intros v [m ->]. apply collect_safe. by intros ? ?%not_elem_of_nil. Qed.

Lemma handle_safe L key c answers : safe L (HandlePacket_code conn_loop key c answers).
Proof.
  cbn. intros v [m ->]. cbn. destruct (m !! key) as [id|]; [|done]. cbn. do 3 (split; [done|]). split; [by eexists|].
  split; [by right|]. intros v Hv. destruct (Hv (or_intror eq_refl)) as [l ->]. done.
Qed.

Lemma create_safe L key id : safe L (CreateWebRTCSession_code key id).
Proof. cbn. split; [done|]. intros v [m ->]. cbn. split; [by eexists|]. intros _ _. by split. Qed.

Lemma input_safe L id answers : safe L (OnInputDataPacket_code id answers).
Proof.
  unfold OnInputDataPacket_code. revert L. induction answers as [|[] l IH]; intros L; cbn; (split; [done|]); [done|split; [done|]|];
    intros [v|] _; cbn; intros; apply IH.
Qed.

Lemma media_safe L id : safe L (EncryptAndSendRtpPacket_code id).
Proof. cbn. split; [done|]. by intros [v|] _. Qed.

Lemma read_safe L c answers : safe L (HandleRead_code c answers).
Proof. cbn. intros v _. destruct v as [[]|]; try done. apply input_safe. Qed.

Lemma loop_inv_start s t c s' :
  loop_inv s → mem s' = mem s → ready s' = ready s → code s' = code s → (∀ L, safe L c) → loop_inv (set_code t c s').
Proof.
  intros Hi Hm Hr Hc Hs. pose proof Hi as [Hse Hrd _].
  apply (loop_inv_step s t (λ _, False) c s'); unfold looped in *; rewrite ?Hm, ?Hr; try done.
Qed.

Lemma move_loop_inv m s s' : loop_inv s → move conn_loop m s = Some s' → loop_inv s'.
Proof.
  intros Hi HE. destruct m as [t|key id|key c st| |l|c st]; [by eapply exec_loop_inv|..]; cbn [move] in HE.
  - destruct (_ && _); [|done]. injection HE as <-. apply (loop_inv_start s); try done. intros. apply create_safe.
  - destruct (idle s Server); [|done]. injection HE as <-. apply (loop_inv_start s); try done. intros. apply handle_safe.
  - destruct (idle s Broadcaster); [|done]. injection HE as <-. apply (loop_inv_start s); try done. intros. apply frame_safe.
  - destruct (idle s (Loop l)); [|done]. destruct (pop l (queues s)) as [[[c|id st|id] q]|]; [| | |done].
    + injection HE as <-. by destruct Hi.
    + injection HE as <-. apply (loop_inv_start s); try done. intros. apply input_safe.
    + injection HE as <-. apply (loop_inv_start s); try done. intros. apply media_safe.
  - destruct (_ && _); [|done]. injection HE as <-. apply (loop_inv_start s); try done. intros. apply read_safe.
Qed.

Lemma reached_loop_inv s ok : reached conn_loop ok s → loop_inv s.
Proof.
  induction 1 as [|s m s' _ IH _ HE]; [|by eapply move_loop_inv]. split; cbn.
  - exists ∅. apply lookup_singleton_eq.
  - set_solver.
  - intros t. by exists (λ _, False).
Qed.
End programs.

(** ** Alone, a program does what the operation of Session.v does *)
Section alone.
Context `{HmacSha1} `{Dtls.OpenSSL} `{LibSrtp} `{Muduo}.
Context (conn_loop : connection_id → Z).
Import SessionProofs LoopsProofs.

Definition steps (t : Thread) : State → State → Prop := rtc (λ s s', exec t s = Some s').

(** The shared memory of a world. *)
Record represents (s : State) (w : World) : Prop := {
  rp_sessions : mem s !! Sessions = Some (VMap (rtc_sessions w));
  rp_session id x : sessions w !! id = Some x →
    mem s !! Network id = VNat <$> network_transport_ x ∧ mem s !! Target id = VNat <$> network_transport_ x ∧
    mem s !! SessionLoop id = VLoop <$> loop_ x ∧ (id ∈ ready s ↔ session_ready_ x = true);
  rp_conn c conn : conns w !! c = Some conn →
    mem s !! Callback c = VNat <$> callback_ conn ∧ conn_loop c = conn_loop_ conn;
}.

(** The fields of a state but for the programs. *)
Definition shared (s : State) : gmap Loc Val * gset session_id * option Thread * list (Z * Functor) :=
  (mem s, ready s, owner s, queues s).

Lemma steps_exec t s s1 c d :
  exec t s = Some (set_code t c s1) → shared s1 = d → ∃ s', steps t s s' ∧ code s' t = c ∧ shared s' = d.
Proof.
  intros HE Hs. exists (set_code t c s1). split; [by apply rtc_once|]. split; [|done]. by rewrite code_set, decide_True.
Qed.

Lemma load_alone t s x k :
  code s t = Load x k → ∃ s', steps t s s' ∧ code s' t = k (mem s !! x) ∧ shared s' = shared s.
Proof. intros Hc. eapply steps_exec; [unfold exec; by rewrite Hc|done]. Qed.

Lemma store_alone t s x v k :
  code s t = Store x v k →
  ∃ s', steps t s s' ∧ code s' t = k ∧ shared s' = (<[x := v]> (mem s), ready s, owner s, queues s).
Proof. intros Hc. eapply steps_exec; [unfold exec; by rewrite Hc|done]. Qed.

Lemma lock_alone t s k :
  code s t = Lock k → owner s = None →
  ∃ s', steps t s s' ∧ code s' t = k ∧ shared s' = (mem s, ready s, Some t, queues s).
Proof. intros Hc Ho. eapply steps_exec; [unfold exec; by rewrite Hc, Ho|done]. Qed.

Lemma unlock_alone t s k :
  code s t = Unlock k → ∃ s', steps t s s' ∧ code s' t = k ∧ shared s' = (mem s, ready s, None, queues s).
Proof. intros Hc. eapply steps_exec; [unfold exec; by rewrite Hc|done]. Qed.

Lemma post_alone t s l f k :
  code s t = RunIn l f k →
  ∃ s', steps t s s' ∧ code s' t = k ∧ shared s' = (mem s, ready s, owner s, queues s ++ [(l, f)]).
Proof. intros Hc. eapply steps_exec; [unfold exec; by rewrite Hc|done]. Qed.

Lemma ready_alone t s id k :
  code s t = StoreReady id k →
  ∃ s', steps t s s' ∧ code s' t = k ∧ shared s' = (mem s, {[id]} ∪ ready s, owner s, queues s).
Proof. intros Hc. eapply steps_exec; [unfold exec; by rewrite Hc|done]. Qed.

Lemma load_ready_alone t s id k :
  code s t = LoadReady id k → ∃ s', steps t s s' ∧ code s' t = k (bool_decide (id ∈ ready s)) ∧ shared s' = shared s.
Proof. intros Hc. eapply steps_exec; [unfold exec; by rewrite Hc|done]. Qed.

Lemma with_sessions_alone t s k m :
  code s t = with_sessions k → owner s = None → mem s !! Sessions = Some (VMap m) →
  ∃ s', steps t s s' ∧ code s' t = k m ∧ shared s' = (mem s, ready s, Some t, queues s).
Proof.
  intros Hc Ho Hm. destruct (lock_alone t s _ Hc Ho) as (s1 & Hs1 & Hc1 & E1). injection E1 as E1 E2 E3 E4.
  destruct (load_alone t s1 _ _ Hc1) as (s2 & Hs2 & Hc2 & F). injection F as F1 F2 F3 F4.
  exists s2. split; [by etrans|]. rewrite Hc2, E1, Hm. split; [done|]. unfold shared. congruence.
Qed.

(** The memory after SetNetworkTransport. *)
Definition bound_mem (id : session_id) (c : connection_id) (m : gmap Loc Val) : gmap Loc Val :=
  <[SessionLoop id := VLoop (conn_loop c)]> (<[Callback c := VNat id]> (<[Target id := VNat c]>
    (<[Network id := VNat c]> m))).

Lemma SetNetworkTransport_alone s id c k :
  code s Server = SetNetworkTransport_code conn_loop id c k →
  ∃ s', steps Server s s' ∧ code s' Server = k ∧
    shared s' = (bound_mem id c (mem s), {[id]} ∪ ready s, owner s, queues s ++ [(conn_loop c, EnableRead c)]).
Proof.
  intros Hc. destruct (store_alone _ _ _ _ _ Hc) as (s1 & H1' & C1 & E1). injection E1 as M1 R1 O1 Q1.
  destruct (store_alone _ _ _ _ _ C1) as (s2 & H2' & C2 & E2). injection E2 as M2 R2 O2 Q2.
  destruct (store_alone _ _ _ _ _ C2) as (s3 & H3' & C3 & E3). injection E3 as M3 R3 O3 Q3.
  destruct (post_alone _ _ _ _ _ C3) as (s4 & H4' & C4 & E4). injection E4 as M4 R4 O4 Q4.
  destruct (store_alone _ _ _ _ _ C4) as (s5 & H5' & C5 & E5). injection E5 as M5 R5 O5 Q5.
  destruct (ready_alone _ _ _ _ C5) as (s6 & H6' & C6 & E6). injection E6 as M6 R6 O6 Q6.
  exists s6. split; [by do 5 (etrans; [eassumption|])|]. split; [done|]. unfold shared, bound_mem. congruence.
Qed.

Lemma run_in_session_loop_alone t s id f k l :
  code s t = run_in_session_loop id f k → mem s !! SessionLoop id = Some (VLoop l) →
  ∃ s', steps t s s' ∧ code s' t = k ∧ shared s' = (mem s, ready s, owner s, queues s ++ [(l, f)]).
Proof.
  intros Hc Hl. destruct (load_alone _ _ _ _ Hc) as (s1 & H1' & C1 & E1). injection E1 as M1 R1 O1 Q1. rewrite Hl in C1.
  destruct (post_alone _ _ _ _ _ C1) as (s2 & H2' & C2 & E2). injection E2 as M2 R2 O2 Q2.
  exists s2. split; [by etrans|]. split; [done|]. unfold shared. congruence.
Qed.

Lemma bound_represents s s' w id x c conn :
  represents s w → sessions w !! id = Some x → conns w !! c = Some conn →
  mem s' = bound_mem id c (mem s) → ready s' = {[id]} ∪ ready s → represents s' (bound_to id x c conn w).
Proof.
  intros [Hse Hs Hc] Hx Hconn Em Er. destruct (Hc c conn Hconn) as [_ Hl]. split; rewrite ?Em, ?Er; cbn.
  - unfold bound_mem. by rewrite !lookup_insert_ne.
  - intros i y. unfold bound_mem. destruct (decide (i = id)) as [->|Hne].
    + rewrite list_lookup_insert_eq by (by eapply lookup_lt_Some). intros [= <-]. cbn. rewrite Hl.
      split; [by do 3 rewrite lookup_insert_ne by done; rewrite lookup_insert_eq|].
      split; [by do 2 rewrite lookup_insert_ne by done; rewrite lookup_insert_eq|].
      split; [by rewrite lookup_insert_eq|]. split; [done|]. intros _. set_solver.
    + rewrite list_lookup_insert_ne by done. intros Hy. destruct (Hs i y Hy) as (H1' & H2' & H3' & H4').
      rewrite !lookup_insert_ne by congruence. split; [done|]. split; [done|]. split; [done|]. rewrite <- H4'. set_solver.
  - intros d y. unfold bound_mem. destruct (decide (d = c)) as [->|Hne].
    + rewrite list_lookup_insert_eq by (by eapply lookup_lt_Some). intros [= <-]. cbn. split; [|done].
      by rewrite lookup_insert_ne, lookup_insert_eq.
    + rewrite list_lookup_insert_ne by done. intros Hy. rewrite !lookup_insert_ne by congruence. by apply Hc.
Qed.

Lemma HandlePacket_alone s w key c answers id x conn buf a :
  represents s w → owner s = None → code s Server = HandlePacket_code conn_loop key c answers →
  rtc_sessions w !! key = Some id → sessions w !! id = Some x → conns w !! c = Some conn →
  ∃ s' w', steps Server s s' ∧ code s' Server = Done ∧ owner s' = None ∧
    bind_session id c buf (zlen buf) a w
    = Ok (w', [EnableReading c; RunInLoop (conn_loop c) id (OnInput buf a)]) ∧
    represents s' w' ∧ queues s' = queues s ++ [(conn_loop c, EnableRead c); (conn_loop c, Input id answers)].
Proof.
  intros Hr Ho Hcode Hk Hx Hc. destruct (rp_conn s w Hr c conn Hc) as [_ Hl].
  destruct (with_sessions_alone _ _ _ _ Hcode Ho (rp_sessions s w Hr)) as (s1 & H1' & C1 & E1). injection E1 as M1 R1 O1 Q1.
  destruct (unlock_alone _ _ _ C1) as (s2 & H2' & C2 & E2). injection E2 as M2 R2 O2 Q2. rewrite Hk in C2.
  destruct (SetNetworkTransport_alone _ _ _ _ C2) as (s3 & H3' & C3 & E3). injection E3 as M3 R3 O3 Q3.
  destruct (run_in_session_loop_alone _ _ _ _ _ (conn_loop c) C3) as (s4 & H4' & C4 & E4).
  { rewrite M3. apply lookup_insert_eq. }
  injection E4 as M4 R4 O4 Q4. exists s4, (bound_to id x c conn w).
  split; [by do 3 (etrans; [eassumption|])|]. split; [done|]. split; [congruence|].
  split; [rewrite Hl; by apply bind_session_eq|]. split; [|by rewrite Q4, Q3, Q2, Q1, <- app_assoc].
  apply (bound_represents s); congruence.
Qed.

(** *** The broadcast *)
Lemma broadcast_alone t s ids :
  code s t = broadcast ids → (∀ id, id ∈ ids → ∃ l, mem s !! SessionLoop id = Some (VLoop l)) →
  ∃ s', steps t s s' ∧ code s' t = Done ∧ mem s' = mem s ∧ ready s' = ready s ∧ owner s' = owner s ∧
    queues s' = queues s ++ omap (λ id, match mem s !! SessionLoop id with
                                        | Some (VLoop l) => Some (l, Media id) | _ => None end) ids.
Proof.
  revert s. induction ids as [|id ids IH]; intros s Hc Hl.
  { exists s. split; [apply rtc_refl|]. by rewrite app_nil_r. }
  destruct (Hl id (list_elem_of_here _ _)) as [l Hid].
  destruct (run_in_session_loop_alone _ _ _ _ _ l Hc Hid) as (s1 & H1' & C1 & E1). injection E1 as M1 R1 O1 Q1.
  destruct (IH s1 C1) as (s2 & H2' & C2 & M2 & R2 & O2 & Q2).
  { intros i Hi. rewrite M1. apply Hl. by apply list_elem_of_further. }
  exists s2. split; [by etrans|]. split; [done|]. split; [congruence|]. split; [congruence|]. split; [congruence|].
  rewrite Q2, Q1, M1. cbn. rewrite Hid. by rewrite <- app_assoc.
Qed.

Lemma collect_alone t s todo found :
  code s t = collect todo found →
  ∃ s', steps t s s' ∧ code s' t = broadcast (found ++ filter (λ id, id ∈ ready s) todo) ∧
    shared s' = (mem s, ready s, None, queues s).
Proof.
  revert s found. induction todo as [|id todo IH]; intros s found Hc.
  - destruct (unlock_alone _ _ _ Hc) as (s1 & H1' & C1 & E1). exists s1. rewrite filter_nil, app_nil_r. by split.
  - destruct (load_ready_alone _ _ _ _ Hc) as (s1 & H1' & C1 & E1). injection E1 as M1 R1 O1 Q1.
    destruct (IH s1 _ C1) as (s2 & H2' & C2 & E2). exists s2. split; [by etrans|]. rewrite C2, E2, R1, M1, Q1. split; [|done].
    f_equal. rewrite filter_cons. case_bool_decide as Hr; [rewrite decide_True by done|by rewrite decide_False].
    by rewrite <- app_assoc.
Qed.

Definition media_of (e : Effect) : option (Z * Functor) :=
  match e with RunInLoop l id (SendRtp _) => Some (l, Media id) | _ => None end.

Lemma filter_elem_iff {A} (P Q : A → Prop) `{∀ x, Decision (P x), ∀ x, Decision (Q x)} (l : list A) :
  (∀ x, x ∈ l → P x ↔ Q x) → filter P l = filter Q l.
Proof.
  induction l as [|x l IH]; intros HPQ; [done|]. rewrite !filter_cons.
  rewrite IH by (intros y Hy; apply HPQ; by apply list_elem_of_further).
  pose proof (HPQ x (list_elem_of_here _ _)). repeat case_decide; tauto.
Qed.

Lemma WriteRtpCallback_alone s w buf :
  represents s w → world_inv w → owner s = None → code s Broadcaster = WriteRtpCallback_code →
  ∃ s' es, steps Broadcaster s s' ∧ code s' Broadcaster = Done ∧ owner s' = None ∧
    Session.WriteRtpCallback buf w = Ok es ∧ represents s' w ∧ queues s' = queues s ++ omap media_of es.
Proof.
  intros Hr Hi Ho Hc. destruct (WriteRtpCallback_spec buf w Hi) as (es & HE & Hmap).
  destruct (with_sessions_alone _ _ _ _ Hc Ho (rp_sessions s w Hr)) as (s1 & H1' & C1 & E1). injection E1 as M1 R1 O1 Q1.
  destruct (collect_alone _ _ _ _ C1) as (s2 & H2' & C2 & E2). injection E2 as M2 R2 O2 Q2.
  assert (filter (λ id, id ∈ ready s1) (map_to_list (rtc_sessions w)).*2 = GetAllReadyWebRTCSession w) as Hf.
  { unfold GetAllReadyWebRTCSession. rewrite R1. apply filter_elem_iff.
    intros id ([k i] & -> & Hin%elem_of_map_to_list)%list_elem_of_fmap. cbn.
    apply (wv_keys w Hi) in Hin as (x & Hx & _). rewrite Hx. apply (rp_session s w Hr i x Hx). }
  rewrite Hf in C2. cbn [app] in C2.
  destruct (broadcast_alone _ _ _ C2) as (s3 & H3' & C3 & M3 & R3 & O3 & Q3).
  { intros id (k & x & _ & Hx & Hrd)%ready_elem. destruct (rp_session s w Hr id x Hx) as (_ & _ & Hl & _).
    pose proof (Forall_lookup_1 _ _ _ _ (wv_sessions w Hi) Hx) as [_ _ Hso _]. destruct (Hso Hrd) as [[l El] _].
    exists l. by rewrite M2, M1, Hl, El. }
  exists s3, es. split; [by do 2 (etrans; [eassumption|])|]. split; [done|]. split; [congruence|]. split; [done|].
  split; [|].
  - destruct Hr as [? Hs ?]. split; rewrite M3, M2, M1; try done. by rewrite R3, R2, R1.
  - rewrite Q3, Q2, Q1, M2, M1. f_equal. clear -Hmap Hr. revert Hmap. generalize (GetAllReadyWebRTCSession w). intros ids.
    revert es. induction ids as [|id ids IH]; intros [|e es] Hm; try done. cbn in Hm. injection Hm as He Hm. cbn.
    unfold broadcast_task in He. destruct (sessions w !! id) as [x|] eqn:Hx; [|done]. cbn in He.
    destruct (rp_session s w Hr id x Hx) as (_ & _ & Hl & _). destruct (loop_ x) as [l|]; [|done]. injection He as ->. cbn in Hl |- *.
    rewrite Hl. f_equal. by apply IH.
Qed.
End alone.

(** ** Runs of moves *)
Section found.
Context (conn_loop : connection_id → Z).

Lemma run_reached (ok : Move → State → Prop) okb ms s s' :
  (∀ m s, okb m s = true → ok m s) → reached conn_loop ok s → run conn_loop okb ms s = Some s' → reached conn_loop ok s'.
Proof.
  intros Hok. revert s. induction ms as [|m ms IH]; intros s Hr; cbn; [by intros [= <-]|].
  destruct (okb m s) eqn:Hm; [|done]. destruct (move conn_loop m s) as [s1|] eqn:HE; [|done]. apply IH.
  eapply reached_move; [done| |done]. by apply Hok.
Qed.

Lemma firstb_first m s : firstb m s = true → first m s.
Proof.
  destruct m; try done. cbn. intros Hb sm id Hm Hid. rewrite Hm, Hid in Hb.
  apply andb_true_iff in Hb as [H1%bool_decide_eq_true H2%bool_decide_eq_true]. done.
Qed.

Lemma raceb_race s x t u : raceb s x t u = true → race s x.
Proof.
  unfold raceb. intros [Hne Ha]%andb_true_iff. apply negb_true_iff, bool_decide_eq_false in Hne.
  exists t, u. split; [done|]. destruct (access (code s t)) as [[y w1]|]; [|done].
  destruct (access (code s u)) as [[z w2]|]; [|done]. apply andb_true_iff in Ha as [[->%bool_decide_eq_true ->%bool_decide_eq_true]%andb_true_iff Hw].
  by exists w1, w2.
Qed.

(** A race that a run of moves leads to. *)
Lemma race_found (ok : Move → State → Prop) okb ms x t u :
  (∀ m s, okb m s = true → ok m s) →
  match run conn_loop okb ms init with Some s => raceb s x t u | None => false end = true →
  ∃ s, reached conn_loop ok s ∧ race s x.
Proof.
  intros Hok HE. destruct (run conn_loop okb ms init) as [s|] eqn:Hr; [|done]. exists s.
  split; [|by eapply raceb_race]. eapply run_reached; [exact Hok|apply reached_init|exact Hr].
Qed.
End found.

(** ** Properties *)

(** C12: publication.  In every interleaving of the single accesses of all threads,
    also when sessions are bound again while they are used, the flag is_ready_ is
    seen set only after the session's loop pointer was: whatever is_ready_ says is
    ready has a loop, and no thread ever uses a pointer that was never set. *)
Theorem ready_session_has_loop conn_loop ok s :
  reached conn_loop ok s →
  (∀ id, id ∈ ready s → ∃ l, mem s !! SessionLoop id = Some (VLoop l)) ∧ ∀ t, code s t ≠ Fault.
Proof.
  intros [_ Hr Ht]%reached_loop_inv. split; [exact Hr|]. intros t Hf. destruct (Ht t) as (L & _ & Hs). by rewrite Hf in Hs.
Qed.


(** *** Interleavings *)

(** Connection [c] on loop [c]. *)
Abbreviation loop_per_connection := Z.of_nat.
Definition go (t : Thread) (n : nat) : list Move := replicate n (Go t).
Definition make (key : list Z) (id : session_id) : list Move := Create key id :: go Server 7.
Definition bind (key : list Z) (c : connection_id) : list Move := Packet key c [true] :: go Server 11.
Definition begin_task (l : Z) : list Move := [RunFunctor l; RunFunctor l].

(** Two sessions on two loops, both about to serialize their answer. *)
Definition two_answers : list Move :=
  make [97] 0 ++ make [98] 1 ++ bind [97] 0 ++ bind [98] 1 ++ begin_task 0 ++ begin_task 1 ++
  go (Loop 0) 1 ++ go (Loop 1) 1.

(** Without the condition there are races on everything SetNetworkTransport writes,
    and on the transport; with it, on the buffer. *)
Lemma unsynchronised_accesses :
  let any (_ : Move) (_ : State) := True in
  (∃ s, reached loop_per_connection any s ∧ race s (Target 0)) ∧
  (∃ s, reached loop_per_connection any s ∧ race s (Callback 0)) ∧
  (∃ s, reached loop_per_connection any s ∧ race s (SessionLoop 0)) ∧
  (∃ s, reached loop_per_connection any s ∧ race s (Transport 0)) ∧
  ∃ s, reached loop_per_connection first s ∧ race s StunBuffer.
Proof.
  split; [|split; [|split; [|split]]].
  - apply (race_found _ _ (λ _ _, true) (make [97] 0 ++ bind [97] 0 ++ begin_task 0 ++ go (Loop 0) 2 ++
      Packet [97] 1 [true] :: go Server 4) _ Server (Loop 0)); [done|by vm_compute].
  - apply (race_found _ _ (λ _ _, true) (make [97] 0 ++ bind [97] 0 ++ [RunFunctor 0; Incoming 0 [true]] ++
      Packet [97] 0 [true] :: go Server 5) _ Server (Loop 0)); [done|by vm_compute].
  - apply (race_found _ _ (λ _ _, true) (make [97] 0 ++ bind [97] 0 ++ Frame :: go Broadcaster 4 ++
      Packet [97] 1 [true] :: go Server 7) _ Server Broadcaster); [done|by vm_compute].
  - apply (race_found _ _ (λ _ _, true) (make [97] 0 ++ bind [97] 0 ++ bind [97] 1 ++ begin_task 0 ++ begin_task 1)
      _ (Loop 0) (Loop 1)); [done|by vm_compute].
  - apply (race_found _ _ firstb two_answers _ (Loop 0) (Loop 1)); [apply firstb_first|by vm_compute].
Qed.

(** What the race on the buffer does: two loops that serialize answers of the same
    size before the first one is sent, and the peer of the first gets the answer
    meant for the other. *)
Lemma answers_cross `{HmacSha1} p1 p2 buffer :
  StunSerialize.wf_outgoing p1 → StunSerialize.wf_outgoing p2 → bytes_ok buffer →
  Stun.serialized_size p1 = Stun.serialized_size p2 → Stun.serialized_size p1 ≤ zlen buffer →
  ∃ r1 b1 r2 b2 pad, Stun.Serialize p1 buffer = Ok r1 ∧ Stun.data_ r1 = Some b1 ∧
    Stun.Serialize p2 b1 = Ok r2 ∧ Stun.data_ r2 = Some b2 ∧
    rd_range b2 0 (Stun.size_ r1) = Ok (StunSerialize.wire p2 pad).
Proof.
  intros Hp1 Hp2 Hb Hsz Hle. destruct (StunSerialize.Serialize_spec p1 buffer Hp1 Hb Hle) as (pad1 & Hl1 & Hb1 & E1).
  pose proof (StunSerialize.zlen_wire p1 pad1 Hp1 Hl1) as Hz1.
  set (b1 := StunSerialize.wire p1 pad1 ++ drop (Z.to_nat (Stun.serialized_size p1)) buffer).
  assert (bytes_ok b1) as Hbb by (apply Forall_app_2; [by apply StunRoundtrip.wire_bytes|by apply Forall_drop]).
  assert (Stun.serialized_size p2 ≤ zlen b1) as Hle2
    by (unfold b1; rewrite zlen_app, Hz1; pose proof (zlen_nonneg (drop (Z.to_nat (Stun.serialized_size p1)) buffer)); lia).
  destruct (StunSerialize.Serialize_spec p2 b1 Hp2 Hbb Hle2) as (pad2 & Hl2 & Hb2 & E2).
  eexists _, b1, _, _, pad2. split; [exact E1|]. split; [reflexivity|]. split; [exact E2|]. split; [reflexivity|].
  change (Stun.size_ _) with (Stun.serialized_size p1). pose proof (StunSerialize.zlen_wire p2 pad2 Hp2 Hl2) as Hz2.
  apply (rd_range_app [] (StunSerialize.wire p2 pad2)); [done|lia].
Qed.

Lemma two_answers_reached :
  ∃ s, run loop_per_connection firstb two_answers init = Some s ∧ reached loop_per_connection first s ∧ 1%nat ∈ ready s.
Proof.
  assert (match run loop_per_connection firstb two_answers init with Some s => bool_decide (1%nat ∈ ready s) | None => false end = true)
    as Hb by (by vm_compute).
  destruct (run loop_per_connection firstb two_answers init) as [s|] eqn:Hr; [|done]. exists s. split; [done|].
  apply bool_decide_eq_true in Hb. split; [|done].
  eapply run_reached; [apply firstb_first|apply reached_init|exact Hr].
Qed.

Lemma ready_session_has_loop_witness :
  ∃ s, run loop_per_connection firstb two_answers init = Some s ∧ ∃ l, mem s !! SessionLoop 1 = Some (VLoop l).
Proof.
  destruct two_answers_reached as (s & HE & Hr & Hin). exists s. split; [exact HE|].
  exact (proj1 (ready_session_has_loop loop_per_connection first s Hr) 1%nat Hin).
Defined.

End ConcurrencyProofs.
