(* ===== verification/Startup.v ===== *)
(** * Start-up of the programs (example/rtp_src_example.cc, example/publish.cc)

    The class initialisers of Utils::Crypto (common/crypto.cc), of
    RTC::DtlsTransport (DtlsInit.v), of DepLibSRTP and of SrtpSession
    (rtc/srtp_session.cc), in the order of main.  An exception leaves main, which
    catches nothing. *)
From S2P Require Import Prelude Crypto Srtp Dtls DtlsInit DtlsInitProofs.

Module Startup.
Import Srtp DtlsInit.

(** ** Utils::Crypto *)

(** The seed is the address of the variable, cut to 32 bits; the context is what
    HMAC_CTX_new returns. *)
Record CryptoClass := mkCryptoClass { crypto_seed : Z; hmacSha1Ctx : option ptr }.

Definition Crypto_ClassInit (address : Z) (ctx : option ptr) : CryptoClass := mkCryptoClass (u32 address) ctx.

(** The pointer keeps its value; [owned] are the contexts not freed yet. *)
Definition Crypto_ClassDestroy (c : CryptoClass) (owned : list ptr) : res (list ptr) :=
  match hmacSha1Ctx c with
  | None => Ok owned
  | Some p => if bool_decide (p ∈ owned) then Ok (filter (λ q, q ≠ p) owned) else UB DoubleFree
  end.

(** ** libsrtp: [err] is what srtp_init and srtp_install_event_handler return *)
Definition DepLibSRTP_ClassInit (err : Z) : res unit :=
  if IsError err then GetErrorString err;; Throw "srtp_init() failed" else Ok ().
Definition SrtpSession_ClassInit (err : Z) : res unit :=
  if IsError err then GetErrorString err;; Throw "srtp_install_event_handler() failed" else Ok ().

(** srtp_shutdown takes the library down again; its status is dropped. *)
Definition DepLibSRTP_ClassDestroy (status : Z) : res unit := Ok ().

(** ** main *)
Record StartCalls := mkStartCalls {
  sc_address : Z;
  sc_hmac_ctx : option ptr;
  sc_keys : KeyCalls;
  sc_context : CtxCalls;
  sc_stack : list Z;
  sc_srtp_init : Z;
  sc_install_event_handler : Z
}.

Definition main_init `{DigestApi} (o : StartCalls) : res (CryptoClass * DtlsClass) :=
  let crypto := Crypto_ClassInit (sc_address o) (sc_hmac_ctx o) in
  '(dtls, ex) ← ClassInit (sc_keys o) (sc_context o) (sc_stack o) (initial (crypto_seed crypto));
  match ex with
  | Some msg => Throw msg
  | None =>
      _ ← DepLibSRTP_ClassInit (sc_srtp_init o);
      _ ← SrtpSession_ClassInit (sc_install_event_handler o);
      Ok (crypto, dtls)
  end.

(** ** Proofs *)
Import DtlsInitProofs.

Definition stack_ok (o : StartCalls) : Prop := zlen (sc_stack o) = 3 * EVP_MAX_MD_SIZE + 1.

(** A program that gets past its initialisers has its certificate, its context and
    its fingerprints. *)
Lemma main_init_ready `{DigestSpec} o crypto dtls :
  stack_ok o → main_init o = Ok (crypto, dtls) → ready dtls ∧ fits 32 (crypto_seed crypto).
Proof.
  intros Hst. unfold main_init.
  destruct (class_lifecycle_spec (sc_keys o) (sc_context o) (sc_stack o) (u32 (sc_address o)) Hst)
    as (s & ex & E & Hr & _). cbn [crypto_seed Crypto_ClassInit]. rewrite E. cbn [mbind res_bind].
  destruct ex as [msg|]; [done|].
  destruct (DepLibSRTP_ClassInit _) as [[]| | | |]; cbn [mbind res_bind]; try done.
  destruct (SrtpSession_ClassInit _) as [[]| | | |]; cbn [mbind res_bind]; try done.
  intros [= <- <-]. split; [by apply Hr|]. by apply wrap_bound.
Qed.

(** It gets there when the libraries do what they are asked, and stops with an
    exception, never with a fault, when they refuse with a status they document. *)
Lemma main_init_outcome `{DigestSpec} o :
  stack_ok o → 0 ≤ sc_srtp_init o < errors_size → 0 ≤ sc_install_event_handler o < errors_size →
  (∃ r, main_init o = Ok r) ∨ (∃ msg, main_init o = Throw msg).
Proof.
  intros Hst H1 H2. unfold main_init.
  destruct (class_lifecycle_spec (sc_keys o) (sc_context o) (sc_stack o) (u32 (sc_address o)) Hst)
    as (s & ex & E & _). cbn [crypto_seed Crypto_ClassInit]. rewrite E. cbn [mbind res_bind].
  destruct ex as [msg|]; [by right; eexists|].
  unfold DepLibSRTP_ClassInit, SrtpSession_ClassInit, GetErrorString.
  destruct (Z.leb_spec 0 (sc_srtp_init o)), (Z.ltb_spec (sc_srtp_init o) errors_size),
    (Z.leb_spec 0 (sc_install_event_handler o)), (Z.ltb_spec (sc_install_event_handler o) errors_size); try lia.
  destruct (IsError (sc_srtp_init o)); [by right; eexists|].
  destruct (IsError (sc_install_event_handler o)); [by right; eexists|by left; eexists].
Qed.
End Startup.
