(* ===== verification/Packetizer.v ===== *)
(** * H2642Rtp of example/rtp_src_example.cc

    The thread that reads a file for ever and gives every video frame to
    FFmpeg's RTP muxer, which calls WriteRtpCallback (Session.v) with the packets.
    FFmpeg is a parameter: the results of its set-up calls, the frames it reads,
    the bit stream filter and the conversion of time bases. *)
From S2P Require Import Prelude.

Module Packetizer.

(** An AVPacket, as far as the code touches it. *)
Record Packet (frame_t : Type) := mkPacket {
  pts : Z;
  dts : Z;
  pos : Z;
  stream_index : Z;
  payload : frame_t
}.
Arguments mkPacket {frame_t} _ _ _ _ _.
Arguments pts {frame_t} _.
Arguments dts {frame_t} _.
Arguments pos {frame_t} _.
Arguments stream_index {frame_t} _.
Arguments payload {frame_t} _.

(** [bsf_filter] is av_bsf_send_packet and av_bsf_receive_packet, [av_rescale_q]
    the conversion from the input's time base to the output's. *)
Class Ffmpeg := {
  frame_t : Type;
  bsf_t : Type;
  bsf_filter : bsf_t → Packet frame_t → bsf_t * Packet frame_t;
  av_rescale_q : Z → Z
}.

Section H2642Rtp.
Context `{Ffmpeg}.

Definition set_times (t : Z) (p : Packet frame_t) : Packet frame_t :=
  mkPacket t t (pos p) (stream_index p) (payload p).
Definition set_pos (x : Z) (p : Packet frame_t) : Packet frame_t :=
  mkPacket (pts p) (dts p) x (stream_index p) (payload p).
Definition av_packet_rescale_ts (p : Packet frame_t) : Packet frame_t :=
  mkPacket (av_rescale_q (pts p)) (av_rescale_q (dts p)) (pos p) (stream_index p) (payload p).

(** ** The loop *)

(** What av_read_frame gives, with the result of the write that follows. *)
Inductive Read :=
| ReadError
| ReadFrame (pkt : Packet frame_t) (write_ret : Z).

(** The calls that matter to the listeners of the stream. *)
Inductive Call :=
| Seek (stream : nat)
| Sleep (ms : Z)
| WriteFrame (pkt : Packet frame_t).

Record Loop := mkLoop { l_pts : Z; l_bsf : option bsf_t; l_trace : list Call }.

(** [pts += 40] on an int64_t. *)
Definition add_pts (t : Z) : res Z := if t + 40 <? 2 ^ 63 then Ok (t + 40) else UB Overflow.

(** One round: [Some ret] leaves the loop. *)
Definition round (nb_streams : nat) (in_stream_index : Z) (out_streams : nat) (r : Read) (l : Loop) :
    res (Loop * option Z) :=
  match r with
  | ReadError => Ok (mkLoop (l_pts l) (l_bsf l) (l_trace l ++ (Seek <$> seq 0 nb_streams)), None)
  | ReadFrame pkt ret =>
      if negb (stream_index pkt =? in_stream_index) then Ok (l, None)
      else if (Z.of_nat nb_streams <=? in_stream_index) || (out_streams =? 0)%nat then UB OutOfBounds
      else
        t ← add_pts (l_pts l);
        match l_bsf l with
        | None => UB NullDeref
        | Some abs_ctx =>
            let '(abs_ctx, pkt) := bsf_filter abs_ctx (set_times t pkt) in
            let pkt := set_pos (-1) (av_packet_rescale_ts pkt) in
            Ok (mkLoop t (Some abs_ctx) (l_trace l ++ [Sleep 40; WriteFrame pkt]),
                if ret <? 0 then Some ret else None)
        end
  end.

(** As many rounds as there are reads; without a failed write it goes on. *)
Fixpoint frame_loop (nb_streams : nat) (in_stream_index : Z) (out_streams : nat) (reads : list Read) (l : Loop) :
    res (Loop * option Z) :=
  match reads with
  | [] => Ok (l, None)
  | r :: reads =>
      '(l, stop) ← round nb_streams in_stream_index out_streams r l;
      match stop with
      | Some ret => Ok (l, Some ret)
      | None => frame_loop nb_streams in_stream_index out_streams reads l
      end
  end.

(** ** Set-up and clean-up *)

Inductive Object := BsfContext | IoBuffer | IoContext | AvPacket | InputContext | OutputContext.

#[export] Instance Object_eq_dec : EqDecision Object.
Proof. solve_decision. Defined.

Definition release (x : Object) (owned : list Object) : list Object := filter (λ y, y ≠ x) owned.

(** The results of the calls.  [streams] says which input streams are video,
    [nofile] is AVFMT_NOFILE of the output format. *)
Record Calls := mkCalls {
  c_get_by_name : bool;
  c_bsf_alloc : option bsf_t;
  c_malloc : bool;
  c_avio_alloc : bool;
  c_packet_alloc : bool;
  c_open_input : Z;
  c_find_stream_info : Z;
  c_output_context : bool;
  c_streams : list bool;
  c_new_stream : bool;
  c_parameters_copy : Z;
  c_write_header : Z;
  c_nofile : bool;
  c_reads : list Read
}.

Inductive Outcome :=
| Returned (code : Z) (owned : list Object) (trace : list Call)
| Running (owned : list Object) (trace : list Call).

Definition ENOMEM : Z := -12.
Definition AVERROR_UNKNOWN : Z := -1313558101.
Definition AVERROR_EOF : Z := -541478725.

(** The label [end].  [pb] tells whether the output uses the custom I/O context;
    avio_closep is only for contexts that avio_open made. *)
Definition finish (o : Calls) (owned : list Object) (pb : bool) (ret : Z) (trace : list Call) : res Outcome :=
  let owned := release InputContext (release AvPacket owned) in
  if bool_decide (OutputContext ∈ owned) && negb (c_nofile o) && pb then UB InvalidFree
  else
    let owned := release BsfContext (release OutputContext owned) in
    Ok (Returned (if (ret <? 0) && negb (ret =? AVERROR_EOF) then 1 else 0) owned trace).

(** The first video stream gets an output stream: [inl ret] is an error, [inr]
    the input's index and the number of output streams. *)
Fixpoint setup_streams (o : Calls) (i : Z) (streams : list bool) : res (Z + Z * nat) :=
  match streams with
  | [] => Ok (inr (0, 0%nat))
  | false :: streams => setup_streams o (i + 1) streams
  | true :: _ =>
      if negb (c_new_stream o) then Ok (inl AVERROR_UNKNOWN)
      else if c_parameters_copy o <? 0 then Ok (inl (c_parameters_copy o))
      else match c_bsf_alloc o with
           | None => UB NullDeref
           | Some _ => Ok (inr (i, 1%nat))
           end
  end.

Definition stream_file (o : Calls) (owned : list Object) (in_stream_index : Z) (out_streams : nat) : res Outcome :=
  '(l, stop) ← frame_loop (length (c_streams o)) in_stream_index out_streams (c_reads o)
                 (mkLoop 0 (c_bsf_alloc o) []);
  match stop with
  | None => Ok (Running owned (l_trace l))
  | Some ret => finish o owned true ret (l_trace l)
  end.

Definition H2642Rtp (o : Calls) : res Outcome :=
  if negb (c_get_by_name o) then UB NullDeref
  else
    let owned := match c_bsf_alloc o with Some _ => [BsfContext] | None => [] end in
    if negb (c_malloc o) then finish o owned false ENOMEM []
    else
    let owned := IoBuffer :: owned in
    if negb (c_avio_alloc o) then finish o owned false ENOMEM []
    else
    let owned := IoContext :: owned in
    if negb (c_packet_alloc o) then Ok (Returned 1 owned [])
    else
    let owned := AvPacket :: owned in
    if c_open_input o <? 0 then finish o owned false (c_open_input o) []
    else
    let owned := InputContext :: owned in
    if c_find_stream_info o <? 0 then finish o owned false (c_find_stream_info o) []
    else if negb (c_output_context o) then finish o owned false AVERROR_UNKNOWN []
    else
    let owned := OutputContext :: owned in
    r ← setup_streams o 0 (c_streams o);
    match r with
    | inl ret => finish o owned false ret []
    | inr (in_stream_index, out_streams) =>
        if c_write_header o <? 0 then finish o owned true (c_write_header o) []
        else stream_file o owned in_stream_index out_streams
    end.
End H2642Rtp.

(** ** Proofs *)

(** The filter h264_mp4toannexb copies the properties of a packet. *)
Class FfmpegSpec `{Ffmpeg} := {
  bsf_keeps_pts st p : pts (bsf_filter st p).2 = pts p;
  bsf_keeps_dts st p : dts (bsf_filter st p).2 = dts p
}.

Section proofs.
Context `{FfmpegSpec}.

Definition writes (trace : list Call) : list (Packet frame_t) :=
  omap (λ c, match c with WriteFrame p => Some p | _ => None end) trace.

(** Every write comes right after a pause of 40 ms, and there are no others. *)
Inductive paced : list Call → Prop :=
| paced_nil : paced []
| paced_seek i t : paced t → paced (Seek i :: t)
| paced_frame p t : paced t → paced (Sleep 40 :: WriteFrame p :: t).

Lemma paced_app t1 t2 : paced t1 → paced t2 → paced (t1 ++ t2).
Proof. induction 1; simpl; [done|by constructor; auto..]. Qed.

Lemma paced_seeks l : paced (Seek <$> l) ∧ writes (Seek <$> l) = [].
Proof. induction l as [|i l [IH1 IH2]]; [by repeat constructor|]. simpl. by split; [constructor|]. Qed.

(** The frames of the stream that is sent. *)
Definition is_video (in_stream_index : Z) (r : Read) : bool :=
  match r with ReadFrame p _ => stream_index p =? in_stream_index | ReadError => false end.
Definition video_frames (in_stream_index : Z) (reads : list Read) : list Read :=
  List.filter (is_video in_stream_index) reads.

(** No write fails. *)
Definition write_succeeds (r : Read) : Prop :=
  match r with ReadFrame _ ret => 0 ≤ ret | ReadError => True end.

(** [n] writes from the [k]-th on: the time of the i-th is 40 i milliseconds. *)
Definition timed (k n : Z) (ps : list (Packet frame_t)) : Prop :=
  pts <$> ps = (λ i, av_rescale_q (40 * i)) <$> seqZ k n ∧
  dts <$> ps = (λ i, av_rescale_q (40 * i)) <$> seqZ k n ∧
  Forall (λ p, pos p = -1) ps.

Lemma timed_cons k n p ps :
  0 ≤ n → pts p = av_rescale_q (40 * k) → dts p = av_rescale_q (40 * k) → pos p = -1 →
  timed (k + 1) n ps → timed k (1 + n) (p :: ps).
Proof.
  intros Hn Hp Hd Ho (Hps & Hds & Hpos). unfold timed.
  rewrite (seqZ_cons k (1 + n)) by lia.
  replace (Z.succ k) with (k + 1) by lia. replace (Z.pred (1 + n)) with n by lia.
  rewrite !fmap_cons, Hp, Hd, Hps, Hds. split; [done|]. split; [done|]. by constructor.
Qed.

(** A frame of the stream, with any result of the write. *)
Lemma round_frame nb idx pkt ret k st t :
  0 ≤ k → 40 * (k + 1) < 2 ^ 63 → 0 ≤ idx < Z.of_nat nb → stream_index pkt = idx →
  ∃ st' p, round nb idx 1 (ReadFrame pkt ret) (mkLoop (40 * k) (Some st) t) =
      Ok (mkLoop (40 * (k + 1)) (Some st') (t ++ [Sleep 40; WriteFrame p]), if ret <? 0 then Some ret else None) ∧
    timed (k + 1) 1 [p].
Proof using All.
  intros Hk Hmax Hidx Hs. cbn [round l_pts l_bsf l_trace].
  destruct (Z.eqb_spec (stream_index pkt) idx); [cbn [negb]|done].
  destruct (Z.leb_spec (Z.of_nat nb) idx); [lia|]. cbn [orb Nat.eqb].
  unfold add_pts. destruct (Z.ltb_spec (40 * k + 40) (2 ^ 63)); [|lia]. cbn [mbind res_bind].
  pose proof (bsf_keeps_pts st (set_times (40 * k + 40) pkt)) as Hp.
  pose proof (bsf_keeps_dts st (set_times (40 * k + 40) pkt)) as Hd.
  destruct (bsf_filter st (set_times (40 * k + 40) pkt)) as [st' p]. simpl in Hp, Hd.
  exists st', (set_pos (-1) (av_packet_rescale_ts p)).
  replace (40 * (k + 1)) with (40 * k + 40) by lia. split; [done|].
  apply (timed_cons (k + 1) 0); simpl; try done; try lia; [rewrite Hp|rewrite Hd]; f_equal; lia.
Qed.

Lemma round_spec nb idx r k st t :
  0 ≤ k → 40 * (k + 1) < 2 ^ 63 → 0 ≤ idx < Z.of_nat nb → write_succeeds r →
  ∃ st' new, round nb idx 1 r (mkLoop (40 * k) (Some st) t) = 
      Ok (mkLoop (40 * (if is_video idx r then k + 1 else k)) (Some st') (t ++ new), None) ∧
    paced new ∧ timed (k + 1) (if is_video idx r then 1 else 0) (writes new).
Proof using All.
  intros Hk Hmax Hidx Hw. destruct r as [|pkt ret].
  { destruct (paced_seeks (seq 0 nb)) as [Hp Hs]. exists st, (Seek <$> seq 0 nb).
    split; [done|]. split; [done|]. by rewrite Hs. }
  destruct (decide (stream_index pkt = idx)) as [E|E].
  - destruct (round_frame nb idx pkt ret k st t) as (st' & p & -> & Ht); try done.
    exists st', [Sleep 40; WriteFrame p]. simpl in Hw.
    destruct (Z.ltb_spec ret 0); [lia|]. cbn [is_video].
    destruct (Z.eqb_spec (stream_index pkt) idx); [|done]. split; [done|].
    split; [apply paced_frame, paced_nil|exact Ht].
  - exists st, []. cbn [round is_video]. destruct (Z.eqb_spec (stream_index pkt) idx); [done|].
    rewrite app_nil_r. by repeat constructor.
Qed.

Lemma timed_app k n m ps qs :
  0 ≤ n → 0 ≤ m → timed k n ps → timed (k + n) m qs → timed k (n + m) (ps ++ qs).
Proof.
  intros Hn Hm (Hp & Hd & Ho) (Hp' & Hd' & Ho'). unfold timed.
  rewrite (seqZ_app k n m) by lia. rewrite !fmap_app, Hp, Hd, Hp', Hd'.
  split; [done|]. split; [done|]. by apply Forall_app_2.
Qed.

Lemma frame_loop_spec nb idx reads k st t :
  0 ≤ k → 40 * (k + zlen reads) < 2 ^ 63 → 0 ≤ idx < Z.of_nat nb → Forall write_succeeds reads →
  ∃ k' st' new, frame_loop nb idx 1 reads (mkLoop (40 * k) (Some st) t)
      = Ok (mkLoop (40 * k') (Some st') (t ++ new), None) ∧
    k ≤ k' ≤ k + zlen reads ∧ paced new ∧ timed (k + 1) (zlen (video_frames idx reads)) (writes new).
Proof using All.
  intros Hk Hmax Hidx Hw. revert k st t Hk Hmax.
  induction Hw as [|r reads Hr _ IH]; intros k st t Hk Hmax.
  { eexists k, st, []. rewrite app_nil_r. autorewrite with zlen. split; [done|]. split; [lia|]. by repeat constructor. }
  autorewrite with zlen in *. pose proof (zlen_nonneg reads).
  destruct (round_spec nb idx r k st t) as (st' & n1 & E & Hp & Ht); [done|lia|done..|].
  cbn [frame_loop]. rewrite E. cbn [mbind res_bind].
  destruct (IH (if is_video idx r then k + 1 else k) st' (t ++ n1)) as (k' & st2 & n2 & E2 & Hk' & Hp2 & Ht2);
    [by destruct (is_video idx r); lia..|].
  exists k', st2, (n1 ++ n2). rewrite app_assoc. split; [done|].
  split; [destruct (is_video idx r); lia|].
  split; [by apply paced_app|]. unfold writes in *. rewrite omap_app. unfold video_frames in *. simpl.
  pose proof (zlen_nonneg (List.filter (is_video idx) reads)).
  destruct (is_video idx r); autorewrite with zlen.
  - by apply timed_app; try lia.
  - apply (timed_app (k + 1) 0); try done. by replace (k + 1 + 0) with (k + 1) by lia.
Qed.

(** Everything FFmpeg was asked for is there, and the first video stream is
    [in_stream_index]. *)
Record setup_ok (o : Calls) (in_stream_index : Z) : Prop := {
  so_filter : c_get_by_name o = true ∧ is_Some (c_bsf_alloc o);
  so_memory : c_malloc o = true ∧ c_avio_alloc o = true ∧ c_packet_alloc o = true;
  so_input : 0 ≤ c_open_input o ∧ 0 ≤ c_find_stream_info o;
  so_output : c_output_context o = true ∧ c_new_stream o = true ∧ 0 ≤ c_parameters_copy o ∧ 0 ≤ c_write_header o;
  so_video : ∃ before after, c_streams o = replicate before false ++ true :: after ∧
    in_stream_index = Z.of_nat before
}.

Lemma setup_streams_spec o before after i :
  is_Some (c_bsf_alloc o) → c_new_stream o = true → 0 ≤ c_parameters_copy o →
  setup_streams o i (replicate before false ++ true :: after) = Ok (inr (i + Z.of_nat before, 1%nat)).
Proof.
  intros [st Hst] Hn Hc. revert i. induction before as [|b IH]; intros i; cbn [replicate app setup_streams].
  - rewrite Hn, Hst. destruct (Z.ltb_spec (c_parameters_copy o) 0); [lia|]. simpl. by rewrite Z.add_0_r.
  - rewrite IH. do 3 f_equal. lia.
Qed.

(** After a set-up without errors the thread is in its loop. *)
Lemma H2642Rtp_streams o idx :
  setup_ok o idx →
  ∃ owned, H2642Rtp o = stream_file o owned idx 1 ∧
    owned = [OutputContext; InputContext; AvPacket; IoContext; IoBuffer; BsfContext].
Proof.
  intros [[Hg [st Hst]] (Hm & Ha & Hp) [Hoi Hfi] (Hoc & Hns & Hpc & Hwh) (before & after & Hs & ->)].
  eexists. split; [|reflexivity]. unfold H2642Rtp. rewrite Hg, Hst, Hm, Ha, Hp, Hoc. cbn [negb].
  destruct (Z.ltb_spec (c_open_input o) 0); [lia|]. destruct (Z.ltb_spec (c_find_stream_info o) 0); [lia|].
  rewrite Hs, (setup_streams_spec o before after 0) by (done || by rewrite Hst). cbn [mbind res_bind].
  by destruct (Z.ltb_spec (c_write_header o) 0); [lia|].
Qed.


Lemma frame_loop_app nb idx r1 r2 l l' :
  frame_loop nb idx 1 r1 l = Ok (l', None) →
  frame_loop nb idx 1 (r1 ++ r2) l = frame_loop nb idx 1 r2 l'.
Proof.
  revert l. induction r1 as [|r r1 IH]; intros l; cbn [frame_loop app]; [by intros [= ->]|].
  destruct (round nb idx 1 r l) as [[l1 [ret|]]| | | |]; cbn [mbind res_bind]; try done. apply IH.
Qed.

(** The loop only ends with a write that fails.  Then the clean-up calls
    avio_closep on the context that avio_alloc_context made, which is undefined
    for an output format without AVFMT_NOFILE such as rtp. *)
Lemma failed_write_closes_custom_io o idx r1 pkt ret r2 :
  setup_ok o idx → c_nofile o = false → c_reads o = r1 ++ ReadFrame pkt ret :: r2 →
  Forall write_succeeds r1 → stream_index pkt = idx → ret < 0 → 40 * (zlen r1 + 1) < 2 ^ 63 →
  H2642Rtp o = UB InvalidFree.
Proof using All.
  intros Hok Hno Hr Hw Hi Hret Hmax. destruct (H2642Rtp_streams o idx Hok) as (owned & -> & ->).
  destruct Hok as [[_ [st Hst]] _ _ _ (before & after & Hs & ->)].
  assert (0 ≤ Z.of_nat before < Z.of_nat (length (c_streams o))) as Hidx
    by (rewrite Hs, length_app, length_replicate; simpl; lia).
  destruct (frame_loop_spec (length (c_streams o)) (Z.of_nat before) r1 0 st [])
    as (k & st' & t & E & Hk & _); [lia|lia|done..|].
  unfold stream_file. rewrite Hst, Hr. change 0 with (40 * 0) at 1. rewrite (frame_loop_app _ _ _ _ _ _ E).
  cbn [frame_loop].
  destruct (round_frame (length (c_streams o)) (Z.of_nat before) pkt ret k st' ([] ++ t)) as (st2 & p & -> & _);
    [lia..|done|].
  destruct (Z.ltb_spec ret 0); [|lia]. cbn [mbind res_bind]. unfold finish. by rewrite Hno.
Qed.
End proofs.

(** ** Witness: two streams, the second one video, converted to a 90 kHz clock *)
#[local] Instance toy_ffmpeg : Ffmpeg := {|
  frame_t := list Z; bsf_t := nat; bsf_filter n p := (S n, p); av_rescale_q t := t * 90
|}.
#[local] Instance toy_ffmpeg_spec : FfmpegSpec.
Proof. by split. Qed.

Definition toy_frame (stream t : Z) : Read := ReadFrame (mkPacket t t 0 stream [0; 0; 0; 1]) 0.
Definition toy_calls : Calls :=
  mkCalls true (Some 0%nat) true true true 0 0 true [false; true] true 0 0 false
    [toy_frame 1 7; toy_frame 0 9; ReadError; toy_frame 1 7].

Lemma toy_setup_ok : setup_ok toy_calls 1.
Proof.
  split; simpl; try (split_and!; done). by exists 1%nat, [].
Qed.


Lemma toy_run :
  H2642Rtp toy_calls = Ok (Running [OutputContext; InputContext; AvPacket; IoContext; IoBuffer; BsfContext]
    [Sleep 40; WriteFrame (mkPacket 3600 3600 (-1) 1 [0; 0; 0; 1]); Seek 0; Seek 1;
     Sleep 40; WriteFrame (mkPacket 7200 7200 (-1) 1 [0; 0; 0; 1])]).
Proof. reflexivity. Qed.
End Packetizer.
