(* ===== verification/Http.v ===== *)
(** * The programs: example/rtp_src_example.cc and example/publish.cc

    The address from the command line and the HTTP callback of each program,
    which creates a session and answers with its description; main itself is in
    Program.v.  A response that the callback does not touch is [None]. *)
From S2P Require Import Prelude Text ByteOps Crypto StunPacket StunParse StunAuth StunSerialize IceServer Srtp Dtls DtlsProofs DtlsInit DtlsInitProofs WebRtc WebRtcProofs Session Locality SessionProofs Sdp Startup.

Module Http.
Import Crypto Stun Srtp WebRtc Session.

(** ** The command line *)

(** atoi: no digits are 0; a number that is no [int] is undefined. *)
Definition atoi (s : list Z) : res Z :=
  let '(negative, s) := sign (skip_space s) in
  let v := if negative then - read_u (leading_digits s) else read_u (leading_digits s) in
  if (- 2 ^ 31 <=? v) && (v <? 2 ^ 31) then Ok v else UB OutOfBounds.

(** [ip] and [port]: the defaults unless there are exactly two arguments. *)
Definition main_address (argv : list (list Z)) : res (list Z * Z) :=
  match argv with
  | [_; ip; port] => port ← atoi port; Ok (ip, u16 port)
  | _ => Ok (str "127.0.0.1", 10000)
  end.

(** ** The HTTP callbacks *)

Record HttpResponse := mkResponse {
  statusCode : Z;
  statusMessage : string;
  contentType : string;
  header : list (string * string);
  body : list Z
}.

Definition ok_response (body : list Z) : HttpResponse :=
  mkResponse 200 "OK" "text/plain" [("Access-Control-Allow-Origin", "*")] body.

Section callbacks.
Context `{HmacSha1} `{Dtls.OpenSSL} `{LibSrtp} `{Muduo}.

(** rtp_src_example.cc: a session that plays.  [ssl] is what SSL_new gave the
    session's DTLS transport, [fingerprints] are the class's. *)
Definition play_callback (ssl : Dtls.ssl_t) (fingerprints : list Dtls.Fingerprint) (ip : list Z) (port : Z)
    (path : list Z) (w : World) : res (World * option HttpResponse) :=
  if bool_decide (path = str "/webrtc") then
    '(w, rtc_session) ← CreateWebRTCSession ssl ip port w;
    match w.(sessions) !! rtc_session with
    | None => UB NullDeref
    | Some s =>
        sdp ← Sdp.GetLocalSdp s.(webrtc_transport_) fingerprints;
        _ ← Sdp.GetLocalSdp s.(webrtc_transport_) fingerprints;
        Ok (w, Some (ok_response sdp))
    end
  else Ok (w, None).

(** publish.cc: a session that receives, with an RTP channel of its own; the
    channel made for session [id] is named [id] in the map [rtp_channels]. *)
Definition publish_callback (ssl : Dtls.ssl_t) (fingerprints : list Dtls.Fingerprint) (ip : list Z) (port : Z)
    (path : list Z) (w : World) (rtp_channels : gmap (list Z) session_id) :
    res (World * gmap (list Z) session_id * option HttpResponse) :=
  if bool_decide (path = str "/webrtc") then
    '(w, rtc_session) ← CreateWebRTCSession ssl ip port w;
    match w.(sessions) !! rtc_session with
    | None => UB NullDeref
    | Some s =>
        sdp ← Sdp.GetPublishSdp s.(webrtc_transport_) fingerprints;
        let rtp_channels :=
          <[Ice.usernameFragment s.(webrtc_transport_).(ice_server_) := rtc_session]> rtp_channels in
        let t := SetRTPChannel true s.(webrtc_transport_) in
        let w := set_sessions (<[rtc_session := put_transport t s]> w.(sessions)) w in
        _ ← Sdp.GetPublishSdp t fingerprints;
        Ok (w, rtp_channels, Some (ok_response sdp))
    end
  else Ok (w, rtp_channels, None).
End callbacks.

(** ** Proofs *)

(** What [%u] printed, atoi reads: the port of a command line. *)
Lemma main_address_port name ip port :
  fits 16 port → main_address [name; ip; fmt_u port] = Ok (ip, port).
Proof.
  intros Hp. pose proof (stoi_fmt_u port ltac:(unfold fits in Hp; lia)) as E.
  unfold main_address, atoi, stoi in *.
  destruct (sign (skip_space (fmt_u port))) as [neg s]. destruct (leading_digits s) as [|c l]; [done|].
  destruct (_ && _); [|done]. simplify_eq. cbn [mbind res_bind]. by rewrite wrap_small.
Qed.

Import StunAuth StunSerialize WebRtcProofs SessionProofs DtlsInitProofs.

Section offers.
Context `{HmacSha1} `{Dtls.OpenSSL} `{!DtlsProofs.OpenSSLSpec} `{LibSrtp} `{!LibSrtpSpec} `{!Locality.LibSrtpLocal} `{Muduo} `{!MuduoSpec} `{DigestSpec}.

(** A session just created, with its transport as the constructor left it. *)
Lemma CreateWebRTCSession_fresh ssl ip port w :
  world_inv w →
  wp (CreateWebRTCSession ssl ip port w) (λ '(w', id),
    world_inv w' ∧ conns w' = conns w ∧
    ∃ t, sessions w' !! id = Some (mkWebRTCSession t None None false) ∧
      Ice.state (ice_server_ t) = Ice.NEW ∧ Dtls.localRole (dtls_transport_ t) = Dtls.ROLE_NONE ∧
      ip_ t = ip ∧ port_ t = port ∧
      zlen (Ice.usernameFragment (ice_server_ t)) = 4 ∧ Sdp.plain (Ice.usernameFragment (ice_server_ t)) ∧
      zlen (Ice.ice_password (ice_server_ t)) = 24 ∧ Sdp.plain (Ice.ice_password (ice_server_ t)) ∧
      (rtc_sessions w !! Ice.usernameFragment (ice_server_ t) = None →
       rtc_sessions w' !! Ice.usernameFragment (ice_server_ t) = Some id)).
Proof.
  intros Hi. pose proof (CreateWebRTCSession_spec ssl ip port w Hi) as Hc.
  apply wp_Ok in Hc as ([w' id] & E & Hi' & _ & _ & Hcs). rewrite E. split; [done|]. split; [done|]. clear Hcs.
  unfold CreateWebRTCSession, newWebRtcTransport in E.
  pose proof (GetRandomString_spec (seed w) (random_chars w) 4 (wv_chars w Hi) ltac:(lia)) as Hg.
  apply wp_Ok in Hg as ([[s1 c1] f] & E1 & Hc1 & Hf & Haf). rewrite E1 in E. cbn [mbind res_bind] in E.
  pose proof (GetRandomString_spec s1 c1 24 Hc1 ltac:(lia)) as Hg.
  apply wp_Ok in Hg as ([[s2 c2] p] & E2 & Hc2 & Hp & Hap). rewrite E2 in E. cbn [mbind res_bind] in E.
  injection E as <- <-. eexists. cbn. split.
  { by rewrite lookup_app_r, Nat.sub_diag by lia. }
  cbn. split_and!; try done; try (by apply Sdp.alnum_plain).
  intros ->. apply lookup_insert_eq.
Qed.

(** What a browser needs to know of a session to be let in. *)
Definition lets_in (w : World) (id : session_id) (ufrag pwd : list Z) : Prop :=
  ∀ fresh buf from p,
    datagram_ok (buf, from) → Stun.Parse buf (zlen buf) = Ok (Some p) → klass p = REQUEST →
    Ice.complete p → authorized buf p ufrag pwd →
    ∃ w1 w2 c loop conn,
      HandlePacket buf (zlen buf) from w = Ok (w1, [EnableReading c; RunInLoop loop id (OnInput buf from)]) ∧
      run_task fresh id (OnInput buf from) w1 = Ok (w2, [Write c (wire (Ice.success_response p from pwd) [])]) ∧
      conns w1 !! c = Some conn ∧ peer_addr_ conn = from.

Lemma fresh_session_lets_in w id t :
  world_inv w → sessions w !! id = Some (mkWebRTCSession t None None false) →
  Ice.state (ice_server_ t) = Ice.NEW → Dtls.localRole (dtls_transport_ t) = Dtls.ROLE_NONE →
  rtc_sessions w !! Ice.usernameFragment (ice_server_ t) = Some id →
  lets_in w id (Ice.usernameFragment (ice_server_ t)) (Ice.ice_password (ice_server_ t)).
Proof using All.
  intros Hi Hs Hst Hro Hreg fresh buf from p Hd HP Hk Hc Ha.
  destruct (first_request_answered fresh buf from w id (mkWebRTCSession t None None false) p)
    as (w1 & w2 & c & loop & conn & H1' & H2' & H3' & H4' & _); try done; [by cbn; rewrite Hst|].
  by exists w1, w2, c, loop, conn.
Qed.

(** rtp_src_example.cc: the answer names the session and its certificate, and the
    server is in a state it can reach. *)
Lemma play_offer ssl fps x ip port w q :
  reachable (w, q) → Sdp.plain ip → zlen ip ≤ 3205 → fits 16 port →
  fingerprints_for x Dtls.string2FingerprintAlgorithm fps →
  ∃ w' id resp ufrag pwd d,
    play_callback ssl fps ip port (str "/webrtc") w = Ok (w', Some resp) ∧
    reachable (w', q) ∧ conns w' = conns w ∧ statusCode resp = 200 ∧
    DtlsInit.X509_digest x Dtls.SHA256 = Some d ∧
    Sdp.attribute "fingerprint" (body resp) = Some (str "sha-256 " ++ colon_hex d) ∧
    Sdp.attribute "ice-ufrag" (body resp) = Some ufrag ∧ Sdp.attribute "ice-pwd" (body resp) = Some pwd ∧
    (rtc_sessions w !! ufrag = None → lets_in w' id ufrag pwd).
Proof using All.
  intros Hr Hip Hl Hport Hf. destruct (reachable_inv _ Hr) as [Hi _].
  pose proof (CreateWebRTCSession_fresh ssl ip port w Hi) as Hn.
  apply wp_Ok in Hn as ([w' id] & E & Hi' & Hcs & t & Hs & Hst' & Hro & Hti & Htp & Hu & Hup & Hw & Hwp & Hreg).
  destruct (Sdp.sdp_spec t x fps) as (d & Hd & Hlocal & _);
    [by unfold Sdp.describable; rewrite Hti, Htp|done|].
  apply wp_Ok in Hlocal as (sdp & Es & (Ha & Hb & Hfp & _) & _).
  eexists w', id, (ok_response sdp), _, _, d. split.
  { unfold play_callback. rewrite bool_decide_eq_true_2, E by done. cbn [mbind res_bind].
    rewrite Hs. cbn [webrtc_transport_]. rewrite Es. done. }
  split. { eapply reach_step; [exact Hr|]. pose proof (step_create ssl ip port w q) as Hstep. by rewrite E in Hstep. }
  split_and!; [done|done|done|exact Hfp|exact Ha|exact Hb|]. intros Hfree.
  apply fresh_session_lets_in; try done. by apply Hreg.
Qed.


(** publish.cc: the answer offers to receive, the new session has a channel
    under its own name, and the server is in a state it can reach. *)
Lemma publish_offer ssl fps x ip port w q channels :
  reachable (w, q) → Sdp.plain ip → zlen ip ≤ 3205 → fits 16 port →
  fingerprints_for x Dtls.string2FingerprintAlgorithm fps →
  ∃ w' channels' id resp ufrag s,
    publish_callback ssl fps ip port (str "/webrtc") w channels = Ok (w', channels', Some resp) ∧
    Sdp.attribute "ice-ufrag" (body resp) = Some ufrag ∧
    str "a=recvonly" ∈ Sdp.lines_of [] (body resp) ∧
    channels' = <[ufrag := id]> channels ∧ reachable (w', q) ∧ conns w' = conns w ∧ statusCode resp = 200 ∧ sessions w' !! id = Some s ∧ fragment_of s = ufrag ∧
    rtp_channel_ (webrtc_transport_ s) = true.
Proof using All.
  intros Hr Hip Hl Hport Hf. destruct (reachable_inv _ Hr) as [Hi _]. pose proof (CreateWebRTCSession_fresh ssl ip port w Hi) as Hn.
  apply wp_Ok in Hn as ([w' id] & E & Hi' & Hcs & t & Hs & _ & _ & Hti & Htp & Hu & Hup & Hw & Hwp & _).
  destruct (Sdp.sdp_spec t x fps) as (d & _ & _ & Hpub);
    [by unfold Sdp.describable; rewrite Hti, Htp|done|].
  apply wp_Ok in Hpub as (sdp & Es & (Ha & _) & Hrecv).
  eexists _, _, id, (ok_response sdp), _, _. split.
  { unfold publish_callback. rewrite bool_decide_eq_true_2, E by done. cbn [mbind res_bind].
    rewrite Hs. cbn [webrtc_transport_]. rewrite Es. cbn [mbind res_bind].
    assert (Sdp.GetPublishSdp (SetRTPChannel true t) fps = Ok sdp) as -> by exact Es. done. }
  split; [exact Ha|]. split; [exact Hrecv|]. split; [reflexivity|]. split.
  { eapply reach_step; [|exact (step_channel id _ w' q Hs)]. eapply reach_step; [exact Hr|].
    pose proof (step_create ssl ip port w q) as Hstep. by rewrite E in Hstep. }
  split; [exact Hcs|]. split; [reflexivity|]. split.
  { cbn. apply list_lookup_insert_eq. by eapply lookup_lt_Some. }
  split; reflexivity.
Qed.
End offers.

(** ** Witness *)

Definition good_calls : Startup.StartCalls :=
  Startup.mkStartCalls 0x7ffe12345678 (Some 7) all_keys all_contexts stack_array 0 0.

Definition empty_world : @World DtlsProofs.toy_ssl toy_srtp toy_muduo :=
  (@start DtlsProofs.toy_ssl toy_srtp toy_muduo 1 0x12345678 sample_chars Ice.zero_buffer).1.

(** The class state the initialisers leave. *)
Definition good_class : Startup.CryptoClass * DtlsInit.DtlsClass :=
  match @Startup.main_init toy_digest good_calls with
  | Ok r => r
  | _ => (Startup.mkCryptoClass 0 None, DtlsInit.initial 0)
  end.

Lemma good_start : @Startup.main_init toy_digest good_calls = Ok (good_class.1, good_class.2).
Proof. vm_compute. reflexivity. Qed.

End Http.
