(* ===== verification/Program.v ===== *)
(** * The main functions (example/rtp_src_example.cc, example/publish.cc)

    Both programs do the same up to the streaming thread and the HTTP callback:
    the command line (Http.v), the class initialisers (Startup.v), an event loop,
    the session factory, the UDP server (Net.v) and muduo's HTTP server on port
    8000, the two callbacks, and the start of the servers; then the loop runs.
    [boot] is main up to [loop.loop()], and [on_request] what the running program
    does for a request. *)
From S2P Require Import Prelude Text ByteOps Crypto StunPacket StunParse StunAuth StunSerialize IceServer Srtp Dtls DtlsProofs DtlsInit DtlsInitProofs WebRtc WebRtcProofs Session Locality SessionProofs Net Loops LoopsProofs Sdp Startup Http.

Module Program.
Import Crypto Stun Srtp WebRtc Session SessionProofs Net Startup Http.

(** rtp_src_example plays a file to its sessions, publish receives from them. *)
Inductive Kind := Play | Publish.

#[export] Instance Kind_eq_dec : EqDecision Kind.
Proof. solve_decision. Defined.

(** What the machine answers: the libraries at the start, the address of the event
    loop, the UDP socket and its bind. *)
Section main.
Context `{HmacSha1} `{Dtls.OpenSSL} `{LibSrtp} `{Muduo} `{DtlsInit.DigestApi}.

Record Machine := mkMachine {
  mc_start : StartCalls;
  mc_pool : pool_t;
  mc_loop : Z;
  mc_fd : Z;
  mc_bind : bool;
}.

(** The objects of main: the variables, the class state, the factory and the server
    with its sockets, and the map of the channels of publish.cc. *)
Record Running := mkRunning {
  run_kind : Kind;
  run_ip : list Z;
  run_port : Z;
  run_dtls : DtlsInit.DtlsClass;
  run_net : NetState;
  run_streaming : bool;
  rtp_channels : gmap (list Z) session_id;
}.

(** [InetAddress("0.0.0.0", port)]. *)
Definition listen_addr (port : Z) : sockaddr_in := mkSockaddrIn (to_be 2 port) [0; 0; 0; 0].

(** The static arrays are zero. *)
Definition initial_world (pool : pool_t) (seed : Z) : World :=
  mkWorld [] ∅ [] ∅ pool seed (replicate 64 0) (replicate 65536 0).

(** The thread of rtp_src_example starts before the server exists.  The lambda of
    runInLoop is called at once: main is the loop's thread. *)
Definition boot (k : Kind) (argv : list (list Z)) (m : Machine) : res Running :=
  '(ip, port) ← main_address argv;
  '(crypto, dtls) ← main_init m.(mc_start);
  let streaming := bool_decide (k = Play) in
  '(rtc_server, sockets) ← newUdpServer m.(mc_fd) m.(mc_bind) (Some m.(mc_loop)) (listen_addr port) 2 ∅;
  let rtc_server := SetPacketCallback rtc_server in
  let rtc_server := Start rtc_server in
  Ok (mkRunning k ip port dtls (mkNet (initial_world m.(mc_pool) (DtlsInit.seed dtls)) rtc_server [] sockets)
        streaming ∅).

(** The two programs. *)
Definition rtp_src_main : list (list Z) → Machine → res Running := boot Play.
Definition publish_main : list (list Z) → Machine → res Running := boot Publish.

Definition with_net (n : NetState) (r : Running) : Running :=
  mkRunning r.(run_kind) r.(run_ip) r.(run_port) r.(run_dtls) n r.(run_streaming) r.(rtp_channels).

(** A receive on the server's socket, with the packet callback. *)
Definition on_receive (o : ConnCalls) (buf_ : list Z) (rcv : Receive) (r : Running) : res (Running * list Effect) :=
  '(n, effects) ← HandleRead o buf_ rcv r.(run_net);
  Ok (with_net n r, effects).

(** The HTTP callback with what it captures. *)
Definition on_request (ssl : Dtls.ssl_t) (path : list Z) (r : Running) : res (Running * option HttpResponse) :=
  let fingerprints := DtlsInit.localFingerprints r.(run_dtls) in
  match r.(run_kind) with
  | Play =>
      '(w, resp) ← play_callback ssl fingerprints r.(run_ip) r.(run_port) path (world r.(run_net));
      Ok (with_net (set_world w r.(run_net)) r, resp)
  | Publish =>
      '(w, channels, resp) ←
        publish_callback ssl fingerprints r.(run_ip) r.(run_port) path (world r.(run_net)) r.(rtp_channels);
      Ok (mkRunning r.(run_kind) r.(run_ip) r.(run_port) r.(run_dtls) (set_world w r.(run_net))
            r.(run_streaming) channels, resp)
  end.
End main.

(** ** Proofs *)
Import WebRtcProofs DtlsInitProofs.

(** main_address gives a 16 bit port, or faults in atoi. *)
Lemma main_address_outcome argv :
  match main_address argv with Ok (_, port) => fits 16 port | UB f => f = OutOfBounds | _ => False end.
Proof.
  assert (fits 16 10000) as Hd by (unfold fits; lia).
  destruct argv as [|a [|b [|c [|d l]]]]; cbn [main_address]; try done.
  unfold atoi. destruct (sign (skip_space c)) as [neg s]. destruct (_ && _); cbn; [by apply wrap_bound|done].
Qed.

Section main.
Context `{HmacSha1} `{Dtls.OpenSSL} `{!DtlsProofs.OpenSSLSpec} `{LibSrtp} `{!LibSrtpSpec} `{!Locality.LibSrtpLocal} `{Muduo} `{!MuduoSpec} `{DigestSpec}.

(** A program at work: its server can be reached, its sockets are in order, both
    callbacks are in place and it has its certificate. *)
Record serving (q : list (session_id * Task)) (r : Running) : Prop := {
  sv_reachable : reachable (world (run_net r), q);
  sv_net : net_inv (listen_addr (run_port r)) (run_net r);
  sv_callback : server_callback_ (server (run_net r)) = true;
  sv_reading : server_reading (server (run_net r)) = true;
  sv_ready : ready (run_dtls r);
  sv_port : fits 16 (run_port r);
}.

Lemma zero_bytes_ok : Ice.buffer_ok (replicate 65536 0).
Proof.
  split.
  - apply Forall_replicate. done.
  - unfold zlen. by rewrite length_replicate.
Qed.

Lemma initial_reachable pool seed : reachable (initial_world pool seed, []).
Proof. apply (reach_start pool seed (replicate 64 0) (replicate 65536 0)); [done|apply zero_bytes_ok]. Qed.

Lemma boot_outcome k argv m :
  stack_ok (mc_start m) → 0 ≤ sc_srtp_init (mc_start m) < errors_size →
  0 ≤ sc_install_event_handler (mc_start m) < errors_size →
  match boot k argv m with
  | Ok r => serving [] r ∧ run_kind r = k ∧ main_address argv = Ok (run_ip r, run_port r) ∧
      0 ≤ mc_fd m ∧ mc_bind m = true
  | Throw _ => ∃ msg, main_init (mc_start m) = Throw msg
  | Aborted msg => msg = "sockets::bindOrDie" ∧ (mc_fd m < 0 ∨ mc_bind m = false)
  | UB f => main_address argv = UB f
  | OutOfFuel => False
  end.
Proof using All.
  intros Hst H1' H2'. unfold boot. pose proof (main_address_outcome argv) as Ha.
  destruct (main_address argv) as [[ip port]|f| | |]; cbn [mbind res_bind]; try done.
  destruct (main_init_outcome (mc_start m) Hst H1' H2') as [[[crypto dtls] HE]|[msg HE]]; rewrite HE; cbn [mbind res_bind];
    [|by exists msg].
  pose proof (main_init_ready _ _ _ Hst HE) as [Hready _].
  pose proof (initial_reachable (mc_pool m) (DtlsInit.seed dtls)) as Hr.
  destruct (reachable_inv _ Hr) as [Hw _].
  destruct (decide (0 ≤ mc_fd m)) as [Hfd|Hfd].
  - destruct (newUdpServer_inv (mc_fd m) (mc_loop m) (listen_addr port) 2 (initial_world (mc_pool m) (DtlsInit.seed dtls)))
      as (srv & sockets & Hsrv & -> & Hn); [done|done|done|].
    destruct (mc_bind m).
    + rewrite Hsrv. cbn [mbind res_bind]. split; [|done]. split; cbn; try done. by destruct Hn.
    + rewrite newUdpServer_fails by auto. cbn. auto.
  - rewrite newUdpServer_fails by (left; lia). cbn. split; [done|]. left. lia.
Qed.

(** What main leaves behind is where the runs of Loops.v start. *)
Lemma boot_booted k argv m r :
  stack_ok (mc_start m) → 0 ≤ sc_srtp_init (mc_start m) < errors_size →
  0 ≤ sc_install_event_handler (mc_start m) < errors_size → boot k argv m = Ok r →
  LoopsProofs.booted (listen_addr (run_port r)) (Loops.mkSys (run_net r) [] []).
Proof using All.
  intros Hst H1' H2' HE. pose proof (boot_outcome k argv m Hst H1' H2') as Hb. rewrite HE in Hb.
  destruct Hb as ([Hr Hn Hcb _ _ _] & _).
  assert (∃ seed, world (run_net r) = initial_world (mc_pool m) seed) as [seed Ew].
  { revert HE. unfold boot. destruct (main_address argv) as [[ip port]| | | |]; try done. cbn [mbind res_bind].
    destruct (main_init (mc_start m)) as [[crypto dtls]| | | |]; try done. cbn [mbind res_bind].
    destruct (newUdpServer _ _ _ _ _ _) as [[srv sockets]| | | |]; try done. cbn [mbind res_bind].
    intros [= <-]. by eexists. }
  split; [|done|].
  - split; [done|exact (reachable_inv _ Hr)|done|constructor|]. intros l c []%not_elem_of_nil.
  - exists (mc_pool m), seed, (replicate 64 0), (replicate 65536 0). split; [apply length_replicate|]. split.
    + exact zero_bytes_ok.
    + unfold LoopsProofs.abs. cbn [Loops.net Loops.pending]. rewrite Ew. reflexivity.
Qed.

Lemma on_receive_serves o buf_ rcv q r :
  serving q r → calls_ok o (run_net r) → held buf_ → receive_ok rcv →
  ∃ r' e, on_receive o buf_ rcv r = Ok (r', e) ∧ serving (q ++ omap queued e) r'.
Proof using All.
  intros [Hr Hn Hc Hrd Hready Hp] Ho Hh Hrcv.
  destruct (HandleRead_inv _ o buf_ rcv _ Hn Ho Hh Hrcv Hc) as (n' & e & HE & Hn' & Hs & HW).
  unfold on_receive. rewrite HE. cbn [mbind res_bind]. eexists _, e. split; [done|]. split; cbn; rewrite ?Hs; try done.
  eapply reach_step; [exact Hr|]. pose proof (step_server buf_ rcv (world (run_net r)) q Hh Hrcv) as Hstep.
  by rewrite HW in Hstep.
Qed.

Lemma on_request_serves ssl q r :
  serving q r → Sdp.plain (run_ip r) → zlen (run_ip r) ≤ 3205 →
  ∃ r' resp, on_request ssl (str "/webrtc") r = Ok (r', Some resp) ∧ statusCode resp = 200 ∧
    serving q r' ∧ run_kind r' = run_kind r ∧ run_ip r' = run_ip r.
Proof using All.
  intros [Hr Hn Hc Hrd Hready Hp] Hip Hl. pose proof Hready as (_ & x & Hf & _). unfold on_request.
  destruct (run_kind r) eqn:Hk.
  - destruct (play_offer ssl (DtlsInit.localFingerprints (run_dtls r)) x (run_ip r) (run_port r) (world (run_net r)) q Hr Hip Hl Hp Hf)
      as (w' & id & resp & ufrag & pwd & d & HE & Hr' & Hcs & Hst & _).
    rewrite HE. cbn [mbind res_bind]. eexists _, resp. split; [done|]. split; [done|]. split; [|done].
    split; cbn; try done. apply set_world_inv; [done| |by unfold peers; rewrite Hcs]. by destruct (reachable_inv _ Hr').
  - destruct (publish_offer ssl (DtlsInit.localFingerprints (run_dtls r)) x (run_ip r) (run_port r) (world (run_net r)) q
      (rtp_channels r) Hr Hip Hl Hp Hf)
      as (w' & channels' & id & resp & ufrag & s & HE & _ & _ & _ & Hr' & Hcs & Hst & _).
    rewrite HE. cbn [mbind res_bind]. eexists _, resp. split; [done|]. split; [done|]. split; [|done].
    split; cbn; try done. apply set_world_inv; [done| |by unfold peers; rewrite Hcs]. by destruct (reachable_inv _ Hr').
Qed.
End main.


Definition sample_machine : @Machine toy_muduo := @mkMachine toy_muduo good_calls 1 77 3 true.
Definition sample_argv : list (list Z) := [str "publish"; str "192.168.1.7"; str "8000"].

End Program.
